(* ===== verification/_CoqProject ===== *)
-Q . S2P
Prelude.v
Step.v
Utf8.v
External.v
Text.v
Errors.v
Limits.v
Validation.v
Bounds.v
Values.v
BTree.v
Extension.v
Serialization.v
Event.v
Projection.v
State.v
Tables.v
Queries.v
Paging.v
Claims.v
Contract.v
Overlay.v
Others.v
RowHydration.v
SqliteError.v
Sqlite.v
Migration.v
Schema.v
Baseline.v
Hydrate.v
Canonical.v
Enqueue.v
Finalize.v
Import.v
Lifecycle.v
Mutation.v
Outbox.v
Page.v
Scope.v
Progress.v
Instants.v
Leases.v
Calls.v
PgError.v
PgMigration.v
Pg.v
PgHydrate.v
PgSchema.v
PgEnqueue.v
PgCanonical.v
PgFinalize.v
PgImport.v
PgLifecycle.v
PgMutation.v
PgPage.v
PgOutbox.v
PgScope.v
MyError.v
My.v
MyInsert.v
MyBackend.v
MyNormalize.v
MyContracts.v
MyRows.v
MySchema.v
MyHydrate.v
MyMutation.v
MyLifecycle.v
MyClaim.v
MyEnqueue.v
MyPage.v
MyCanonical.v
MyImport.v
MyFinalize.v
MyOutbox.v
MyScope.v
Concrete.v
Witnesses.v
PgWitnesses.v
MyWitnesses.v
