(* ===== verification/Prelude.v ===== *)
(** * Dovecote: a transactional outbox, verified

    Dovecote stores CloudEvents in the application's own database and hands
    them to publishers at least once.  The crate [dovecote] (src/crates/dovecote)
    holds the portable contract: validated values, the event builder and its
    projections, bounds, delivery states and outcomes.  Three adapter crates run
    it over a database.  This library models the contract and all three adapters:
    SQLite, PostgreSQL and MySQL/MariaDB (src/crates/dovecote-sqlx-sqlite,
    -postgres and -mysql).

    ** Parts

    An event passes through the parts in this order.  The builder ([Event])
    collects values checked one by one ([Values], [Bounds], [Extension], over
    [Validation] and [Errors]) and accepts an event when its cross-field rules
    and its size in both encodings hold ([Serialization], [Projection]).
    Enqueue writes it and a pending delivery in the caller's transaction.  A
    claim leases the first eligible deliveries to a worker under fresh tokens;
    renew, ack, retry, release and quarantine act on a claimed delivery under
    its token and lease.  Pages and snapshots read events without claiming.
    Migration from another outbox imports events and finalizes their deliveries.
    Every read goes back through the core's constructors.  The handles bind a
    tenant to all of these.  Each adapter has a file for each of these parts:

<<
                     SQLite        PostgreSQL    MySQL
    errors           SqliteError   PgError       MyError
    connection       Sqlite        Pg            My, MyBackend, MyRows
    migration        Migration     PgMigration   Migration
    schema check     Schema        PgSchema      MySchema, MyContracts, MyNormalize
    hydration        Hydrate       PgHydrate     MyHydrate
    enqueue          Enqueue       PgEnqueue     MyEnqueue, MyInsert
    claim            Lifecycle     PgLifecycle   MyLifecycle, MyClaim
    mutations        Mutation      PgMutation    MyMutation
    pages            Page          PgPage        MyPage
    import           Import        PgImport      MyImport
    finalization     Finalize      PgFinalize    MyFinalize
    (shapes)         Canonical     PgCanonical   MyCanonical
    handles          Scope         PgScope       MyScope
    contract         Outbox        PgOutbox      MyOutbox
>>

    The sources have the same names under src of each crate (claim and mutations
    are lifecycle.rs and lifecycle_mutation.rs, in MySQL lifecycle/claim and
    lifecycle/mutation.rs; the shapes are delivery_state.rs; the handles scope.rs
    and lib.rs; the servers of MySQL backend.rs).

    The core, file by file (under src/crates/dovecote/src):
    - [Limits], [Bounds]: bounds.rs; [Errors]: error.rs; [Validation]:
      validation.rs; [Values]: value.rs; [Extension]: extension.rs;
    - [Event]: event.rs; [Serialization]: serialization.rs; [Projection]:
      projection.rs; [State]: state.rs.

    What the adapters share:
    - [Step]: steps over a world and their composition; [Text]: what the code
      uses of Rust's [str] to compare catalog texts;
    - [Tables]: the two tables of the migrations with their CHECKs and keys, over
      any type of instants; [Queries]: the conditions of the statements and the
      rows of other tenants; [Paging]: windows, pages and
      draining a pager; [Claims]: what a claim returns and leaves;
      [RowHydration]: events from rows; [Contract]: the contract of an outbox,
      that is its guarded actions and their histories;
    - for the two servers, whose columns hold microseconds: [Instants]; [Overlay]:
      the rows a transaction wrote, over the committed tables; [Others]: what
      other connections commit meanwhile, in particular when they keep the
      contract; [Leases]: the row-locking reads, the claimable deliveries and the
      condition of a mutation; [Calls]: what a server promises to the transactions
      of its callers, as a class that [PgOutbox] and [MyOutbox] instantiate;
    - for SQLite: [Baseline], the text of the shipped migration.

    What is not code of the repository:
    - [Utf8], [BTree]: what the code uses of [str], [char] and [BTreeMap] of
      Rust's standard library, written out;
    - [External]: the crates time, serde_json, base64, mime and fluent-uri, as
      classes of operations with classes of the laws a theorem needs, and the
      errors of sqlx and getrandom; [Env] of
      [Sqlite], [PgEnv] of [Pg] and [MyEnv] of [My] are the database engines, with
      the catalogs in [Schema], [PgSchema] and [MySchema] and the session in
      [MyBackend];
    - [Concrete]: computing instances of the libraries and of SQLite that satisfy
      every law, and [Witnesses], [PgWitnesses], [MyWitnesses]: a scenario
      evaluated on them and on instances of the servers, where each theorem with
      hypotheses is applied.

    ** State and effects

    A Rust function that can fail is a function into [Result] (below); one that
    talks to the database is a step, a function of the world.  The environment
    decides, per statement number, whether the statement fails and how, what
    the clock says, what other connections commit and which rows they hold
    locked, so a theorem about a step holds for every failure and interleaving.
    A step gives [None] only when the fuel of a loop runs out or an [expect] of
    the pager would panic (which the theorems on snapshots exclude), so where a
    theorem says that an operation always returns, its statement gives [Some].
    A table is the list of its rows in primary-key order; an UPDATE or INSERT
    applies the CHECKs, keys and foreign key of the migration and fails as the
    engine does.  Row ids, counters and durations are integers with the range
    checks of the code written out.

    SQLite ([Sqlite]): the world is the committed tables, the open transaction
    with its private tables, a statement counter and a counter of entropy
    draws.  Other connections commit between transactions, as a write
    transaction excludes them.

    PostgreSQL ([Pg]): a transaction keeps the versions of rows it wrote and the
    keys it locked.  A READ COMMITTED statement sees what is committed when it
    runs, under those versions; a REPEATABLE READ transaction, which the code
    opens for reading only, sees its snapshot.  Other connections commit before
    any statement, but leave locked deliveries alone ([isolated]).  A failed
    statement aborts the transaction; the answer of a COMMIT can be lost.

    MySQL ([My]): the same under REPEATABLE READ.  A plain SELECT reads the read
    view, which the first one opens; locking reads, INSERT and UPDATE read what
    is committed when they run, and a transaction sees its own rows in both.
    UTC_TIMESTAMP(6) is the time the statement started.  A failed statement
    leaves the transaction as it was, or rolls it back as a deadlock does; error
    1020 does not.  An UPDATE reports the rows it found.  Reads of the
    information schema may or may not open the read view.  That other
    connections never remove an event ([append_only]) is a hypothesis of the
    theorems that need it; like [isolated] it holds when they run an adapter.

    ** What is shown

    - Portable contract: each validator accepts exactly its grammar
      ([validate_traceparent_grammar], [validate_tracestate_grammar],
      [validate_string_spec], [lease_delay_accept]); an event is accepted exactly
      under its rules ([validate_content_iff]), fits its limit in both encodings
      ([projections_within_limit]) and is what its builder was given
      ([built_content_wf], [build_into_stored]); texts round trip
      ([from_canonical_json_iff], [format_timestamp_roundtrip],
      [canonicalize_json_canonical], [structured_json_members]).
    - Operations on SQLite: the outcomes of enqueue, claim, mutation, import and
      finalization, each with its exact effect ([enqueue_outcomes],
      [enqueue_replay], [claim_success], [claim_error_leaves_no_trace],
      [claim_retries_bounded], [mutation_fenced], [import_outcomes],
      [finalize_outcomes], [import_then_finalize]); pages ([live_page],
      [snapshot_pages]); the schema check ([check_schema_accepts],
      [expected_table_source_whole]); hydration ([hydrate_event_columns],
      [accepted_event_passes_checks]).
    - Operations on the servers, with other connections committing between any
      two statements: the same outcomes ([pg_enqueue_outcomes],
      [pg_claim_outcomes], [pg_mutation_fenced], [pg_import_outcomes],
      [pg_finalize_outcomes], [pg_snapshot_pages], [pg_check_schema_accepts], and
      the theorems of MySQL with my_ for pg_).  They say what was committed when
      the operation decided, and that nothing but its own change happened to
      what others committed.  For MySQL also: the servers and sessions that are
      accepted ([backend_acceptance], [server_version_roundtrip]), what is taken
      for a duplicate identity ([identity_duplicate_exact],
      [identity_key_injective]), and the parentheses the schema check takes off
      ([outer_parentheses_nested]).
    - The outbox as a whole ([Contract]): an abstract machine for one delivery;
      four kinds of guarded actions on the tables (insertion of an event with its
      delivery, claims, a mutation under a token, finalization of an import),
      executable, and their histories.  Every history keeps the migration's
      constraints and the events, moves each delivery along the machine, counts
      its claims and freezes it in a terminal state ([outbox_history]); a token
      that was replaced is dead ([replaced_token_dead]); until a lease expires only
      its holder changes the delivery ([lease_exclusive]).
    - The three adapters refine it: each commit of a SQLite operation
      ([operations_are_commits]) is one action ([commits_are_actions]); on the
      servers, claims, mutations and whole transactions of callers are ([Calls],
      [pg_keeps_contract], [my_keeps_contract]), while other connections act by
      the contract too, which discharges what the theorems on the servers assume
      of them ([contract_discharges_isolation]).
    - Fencing on SQLite in terms of runs and times: a claim fences out every
      other token ([claim_fences_out], [fences_agree]) until exactly its lease ends
      ([claim_expiry_exact]); commits keep the constraints
      ([commit_keeps_constraints], [commit_refines_spec], [history_is_monotone]).
    - Tenants do not touch each other ([tenant_isolation],
      [pg_tenant_isolation], [my_tenant_isolation]), and a backlog is emptied by
      rounds of claim and ack ([Progress], [backlog_drains]).

    ** Bounds and fuel

    The token loop of a claim runs with [entropy_fuel] draws;
    [fresh_token_terminates] shows that one draw more than there are tokens to
    avoid is enough for a source of distinct tokens, so the theorems that a claim
    returns ask the fuel to exceed the claim limit.  The scan of a MySQL claim
    takes its number of windows as an argument; [my_claim_outcomes] shows that
    some number is enough whatever other connections hold locked, since each
    window advances in a fixed read view.  The loops that strip parentheses and
    rewrite LENGTH run as often as the text has bytes, and more fuel changes
    nothing.  The busy loops and the retried read of an import recurse on their
    retry counts.  All other recursion is structural.

    ** Not modelled

    The crate root of the core (module declarations and re-exports), accessors
    that return a field (here the projections of the records), display
    texts of the adapter errors, the version 1 upgrade scripts and the optional
    row-level security profile of PostgreSQL, which run outside the adapters, and
    secondary indexes, which change no result.  Of the engines: the re-evaluation
    of a PostgreSQL UPDATE after a lock wait is the statement run later; that a
    lock on an event row makes other connections wait changes no result and is
    left out, except that a new event's row keeps others from using its key
    or giving it a delivery.  The asynchronous runtime and the pool are outside the model: an
    operation runs its statements in order on one connection, and a cancelled
    future is not an operation of the code. *)

From stdpp Require Export base list strings sets.
From stdpp Require Export pretty.
From Stdlib Require Export Sorted.
From Stdlib Require Export ZArith Lia Bool Ascii.

#[export] Set Default Goal Selector "!".
#[global] Open Scope Z_scope.

(** ** Rust's [Result] *)

Inductive Result (A E : Type) : Type :=
  | Ok (value : A)
  | Err (error : E).
Arguments Ok {_ _} _.
Arguments Err {_ _} _.

Declare Scope rust_scope.
Delimit Scope rust_scope with rust.
#[global] Open Scope rust_scope.

(** The [?] operator: continue with the value or return the error. *)
Notation "'let?' x ':=' m 'in' k" :=
  (match m with Ok x => k | Err e => Err e end)
  (at level 10, x pattern, m at level 100, k at level 200) : rust_scope.

Definition map_err {A E F} (f : E -> F) (r : Result A E) : Result A F :=
  match r with Ok a => Ok a | Err e => Err (f e) end.

Definition map_ok {A B E} (f : A -> B) (r : Result A E) : Result B E :=
  match r with Ok a => Ok (f a) | Err e => Err e end.

Definition ok_or {A E} (o : option A) (e : E) : Result A E :=
  match o with Some a => Ok a | None => Err e end.

Definition is_ok {A E} (r : Result A E) : bool :=
  match r with Ok _ => true | Err _ => false end.

Definition is_some_and {A} (o : option A) (p : A -> bool) : bool :=
  match o with Some a => p a | None => false end.

Definition is_none_or {A} (o : option A) (p : A -> bool) : bool :=
  match o with Some a => p a | None => true end.

Definition is_none {A} (o : option A) : bool := match o with None => true | Some _ => false end.

Lemma is_none_true {A} (o : option A) : is_none o = true <-> o = None.
Proof. by destruct o. Qed.

#[global] Instance Result_eq_dec {A E} `{EqDecision A, EqDecision E} :
  EqDecision (Result A E).
Proof. solve_decision. Defined.

#[global] Instance Ok_inj {A E} : Inj (=) (=) (@Ok A E).
Proof. by intros a b [=]. Qed.

(** [iter.map(f).collect::<Result<Vec<_>, _>>()] *)
Fixpoint collect {A B E} (f : A -> Result B E) (l : list A) : Result (list B) E :=
  match l with
  | [] => Ok []
  | a :: l => let? b := f a in let? bs := collect f l in Ok (b :: bs)
  end.

(** Runs checks in order up to the first error. *)
Fixpoint all_ok {A E} (check : A -> Result unit E) (l : list A) : Result unit E :=
  match l with
  | [] => Ok tt
  | a :: l => let? _ := check a in all_ok check l
  end.

Lemma bind_Ok {E} (r s : Result unit E) :
  (let? _ := r in s) = Ok tt <-> r = Ok tt /\ s = Ok tt.
Proof. destruct r as [[]|]; naive_solver. Qed.

Lemma all_ok_Ok {A E} (check : A -> Result unit E) l :
  all_ok check l = Ok tt <-> Forall (fun a => check a = Ok tt) l.
Proof.
  induction l as [|a l IH]; simpl; [split; [constructor|done]|].
  by rewrite bind_Ok, Forall_cons, IH.
Qed.

(** ** Machine integers: [usize] on a 64-bit target, [i64], [i32] *)

Definition usize_max : Z := 2 ^ 64 - 1.
Definition i64_max : Z := 2 ^ 63 - 1.
Definition i64_min : Z := - 2 ^ 63.
Definition i32_max : Z := 2 ^ 31 - 1.
Definition i32_min : Z := - 2 ^ 31.

Definition checked_add (bound a b : Z) : option Z :=
  if a + b <=? bound then Some (a + b) else None.
Definition saturating_add (bound a b : Z) : Z := Z.min bound (a + b).
Definition saturating_mul (bound a b : Z) : Z := Z.min bound (a * b).

Lemma checked_add_Some bound a b c :
  checked_add bound a b = Some c <-> c = a + b /\ a + b <= bound.
Proof.
  unfold checked_add. destruct (Z.leb_spec (a + b) bound); naive_solver lia.
Qed.

(** ** Bytes and strings

    A Rust [Vec<u8>] and a Rust [String] are both sequences of bytes; a
    [String] is additionally valid UTF-8 (file [Utf8]). *)

Abbreviation bytes := string (only parsing).

(** Byte length, as the code's [len()]. *)
Definition len (s : string) : Z := Z.of_nat (String.length s).

Definition byte_val (a : ascii) : Z := Z.of_N (N_of_ascii a).
Definition byte_of (z : Z) : ascii := ascii_of_N (Z.to_N z).

Definition is_empty (s : string) : bool :=
  match s with EmptyString => true | _ => false end.

(** [s.bytes().all(p)] *)
Fixpoint all_bytes (p : ascii -> bool) (s : string) : bool :=
  match s with
  | EmptyString => true
  | String a s => p a && all_bytes p s
  end.

Definition in_range (lo hi : Z) (z : Z) : bool := (lo <=? z) && (z <=? hi).

Definition is_ascii_digit (a : ascii) : bool := in_range 48 57 (byte_val a).
Definition is_ascii_lowercase (a : ascii) : bool := in_range 97 122 (byte_val a).
Definition is_ascii_uppercase (a : ascii) : bool := in_range 65 90 (byte_val a).
Definition is_ascii_alphanumeric (a : ascii) : bool :=
  is_ascii_digit a || is_ascii_lowercase a || is_ascii_uppercase a.

(** on the code of a character *)
Definition is_ascii_whitespace (c : Z) : bool :=
  (c =? 32) || (c =? 9) || (c =? 10) || (c =? 12) || (c =? 13).

Definition ascii_lowercase (c : Z) : Z := if in_range 65 90 c then c + 32 else c.

(** [s.split_once(c)] for an ASCII [c] *)
Fixpoint split_once (c : ascii) (s : string) : option (string * string) :=
  match s with
  | EmptyString => None
  | String a s =>
      if Ascii.eqb a c then Some (EmptyString, s)
      else match split_once c s with
           | Some (x, y) => Some (String a x, y)
           | None => None
           end
  end.

(** [s.splitn(n, c)] *)
Fixpoint splitn (n : nat) (c : ascii) (s : string) : list string :=
  match n with
  | O => []
  | S O => [s]
  | S n => match split_once c s with
           | Some (x, y) => x :: splitn n c y
           | None => [s]
           end
  end.

(** [s.split(c)] *)
Fixpoint split (c : ascii) (s : string) : list string :=
  match s with
  | EmptyString => [EmptyString]
  | String a s =>
      if Ascii.eqb a c then EmptyString :: split c s
      else match split c s with
           | x :: xs => String a x :: xs
           | [] => [String a EmptyString]
           end
  end.

(** [trim_start_matches], [trim_end_matches] and [trim_matches] for a
    predicate on ASCII characters *)
Fixpoint trim_start_matches (p : ascii -> bool) (s : string) : string :=
  match s with
  | String a s' => if p a then trim_start_matches p s' else s
  | EmptyString => EmptyString
  end.

Fixpoint trim_end_matches (p : ascii -> bool) (s : string) : string :=
  match s with
  | EmptyString => EmptyString
  | String a s' =>
      match trim_end_matches p s' with
      | EmptyString => if p a then EmptyString else String a EmptyString
      | t => String a t
      end
  end.

Definition trim_matches (p : ascii -> bool) (s : string) : string :=
  trim_end_matches p (trim_start_matches p s).

(** [s.strip_suffix(c)] *)
Fixpoint strip_suffix (c : ascii) (s : string) : option string :=
  match s with
  | EmptyString => None
  | String a EmptyString => if Ascii.eqb a c then Some EmptyString else None
  | String a s' => match strip_suffix c s' with
                   | Some t => Some (String a t)
                   | None => None
                   end
  end.

(** [i32::to_string()]: decimal digits after a minus sign if negative *)
Definition pretty_i32 (z : Z) : string := pretty z.

(** ** Tactics *)

(** Case analysis on every [match] and [if] of the context or the goal. *)
Ltac crush_match := repeat (case_match; simplify_eq/=).

(** Boolean hypotheses to propositions. *)
Ltac bools :=
  repeat match goal with
  | H : _ && _ = true |- _ => apply andb_true_iff in H as [? ?]
  | H : _ || _ = false |- _ => apply orb_false_iff in H as [? ?]
  | H : negb _ = true |- _ => apply negb_true_iff in H
  | H : negb _ = false |- _ => apply negb_false_iff in H
  | H : (_ <=? _) = true |- _ => apply Z.leb_le in H
  | H : (_ <=? _) = false |- _ => apply Z.leb_gt in H
  | H : (_ <? _) = true |- _ => apply Z.ltb_lt in H
  | H : (_ <? _) = false |- _ => apply Z.ltb_ge in H
  | H : (_ =? _) = true |- _ => apply Z.eqb_eq in H
  | H : (_ =? _) = false |- _ => apply Z.eqb_neq in H
  end.

(** ** Lemmas shared by the components *)

Create HintDb dovecote discriminated.

Lemma str_app_nil_l s : EmptyString +:+ s = s.
Proof. done. Qed.

Lemma str_app_cons a s t : String a s +:+ t = String a (s +:+ t).
Proof. done. Qed.

Lemma str_app_nil_r s : s +:+ EmptyString = s.
Proof. induction s as [|a s IH]; [done|]. by rewrite str_app_cons, IH. Qed.

Lemma str_app_assoc s t u : (s +:+ t) +:+ u = s +:+ t +:+ u.
Proof. induction s as [|a s IH]; [done|]. by rewrite !str_app_cons, IH. Qed.

#[export] Hint Rewrite str_app_nil_l str_app_cons str_app_nil_r str_app_assoc : str.

Lemma str_app_inj_l s t u : s +:+ t = s +:+ u -> t = u.
Proof. induction s as [|a s IH]; autorewrite with str; [done|]. intros [=]. auto. Qed.

Lemma String_length_app s t :
  String.length (s +:+ t) = (String.length s + String.length t)%nat.
Proof. induction s as [|a s IH]; autorewrite with str; simpl; congruence. Qed.

Lemma len_nonneg s : 0 <= len s.
Proof. unfold len. lia. Qed.
#[export] Hint Resolve len_nonneg : dovecote.

Lemma len_app s t : len (s +:+ t) = len s + len t.
Proof. unfold len. rewrite String_length_app. lia. Qed.

Lemma is_empty_len s : is_empty s = true <-> len s = 0.
Proof. unfold len. destruct s; simpl; split; intros; try done; lia. Qed.

Lemma all_bytes_app p s t : all_bytes p (s +:+ t) = all_bytes p s && all_bytes p t.
Proof.
  induction s as [|a s IH]; autorewrite with str; simpl; [done|].
  rewrite IH. by rewrite andb_assoc.
Qed.

Lemma collect_length {A B E} (f : A -> Result B E) l bs :
  collect f l = Ok bs -> length bs = length l.
Proof.
  revert bs. induction l as [|a l IH]; simpl; intros bs H; [by simplify_eq|].
  crush_match. simpl. by rewrite (IH _ eq_refl).
Qed.

Lemma collect_Ok_Forall2 {A B E} (f : A -> Result B E) l bs :
  collect f l = Ok bs <-> Forall2 (fun a b => f a = Ok b) l bs.
Proof.
  revert bs. induction l as [|a l IH]; simpl; intros bs.
  - split; [intros; simplify_eq; constructor | by inversion 1].
  - split.
    + intros H. crush_match. constructor; [done|]. by apply IH.
    + inversion 1 as [|? b ? bs' Hb Hl]; subst. rewrite Hb.
      by rewrite (proj2 (IH bs') Hl).
Qed.

(** ** Splitting *)

(** The byte [c] does not occur in [s]. *)
Definition no_byte (c : ascii) (s : string) : bool :=
  all_bytes (fun a => negb (Ascii.eqb a c)) s.

Lemma no_byte_app c s t : no_byte c (s +:+ t) = no_byte c s && no_byte c t.
Proof. apply all_bytes_app. Qed.

Lemma all_bytes_impl (p q : ascii -> bool) s :
  (forall a, p a = true -> q a = true) -> all_bytes p s = true -> all_bytes q s = true.
Proof.
  intros Hpq. induction s as [|a s IH]; simpl; [done|].
  intros H. bools. by rewrite Hpq, IH.
Qed.

Lemma split_once_Some c s x y :
  split_once c s = Some (x, y) <-> s = x +:+ String c y /\ no_byte c x = true.
Proof.
  revert x. induction s as [|a s IH]; intros x; simpl.
  - split; [done|]. intros [H _]. by destruct x.
  - destruct (Ascii.eqb_spec a c) as [->|Hne].
    + split.
      * intros [= <- <-]. done.
      * intros [H Hx]. destruct x as [|b x].
        { rewrite str_app_nil_l in H. by simplify_eq. }
        rewrite str_app_cons in H. simplify_eq. unfold no_byte in Hx. simpl in Hx.
        by rewrite Ascii.eqb_refl in Hx.
    + split.
      * intros H. destruct (split_once c s) as [[u v]|]; simplify_eq.
        destruct (proj1 (IH u) eq_refl) as [-> Hu].
        split; [by rewrite str_app_cons|]. unfold no_byte in *. simpl.
        by rewrite (proj2 (Ascii.eqb_neq a c) Hne), Hu.
      * intros [H Hx]. destruct x as [|b x].
        { rewrite str_app_nil_l in H. by simplify_eq. }
        rewrite str_app_cons in H. simplify_eq. unfold no_byte in Hx. simpl in Hx.
        bools. by rewrite (proj2 (IH x)).
Qed.

Lemma split_once_None c s : split_once c s = None <-> no_byte c s = true.
Proof.
  unfold no_byte. induction s as [|a s IH]; simpl; [done|].
  destruct (Ascii.eqb_spec a c); simpl; [done|].
  destruct (split_once c s) as [[u v]|] eqn:E; naive_solver.
Qed.

Lemma split_once_app c x y : no_byte c x = true -> split_once c (x +:+ String c y) = Some (x, y).
Proof. intros. by apply split_once_Some. Qed.

(** A piece of [splitn] before the last one. *)
Lemma splitn_SS n c s x y :
  split_once c s = Some (x, y) -> splitn (S (S n)) c s = x :: splitn (S n) c y.
Proof. intros H. simpl. by rewrite H. Qed.

Lemma splitn_cons_inv n c s x xs :
  splitn (S (S n)) c s = x :: xs -> xs <> [] ->
  exists y, s = x +:+ String c y /\ no_byte c x = true /\ splitn (S n) c y = xs.
Proof.
  simpl. destruct (split_once c s) as [[u v]|] eqn:E; intros [= <- <-]; [|done].
  intros _. apply split_once_Some in E as [-> ?]. eauto.
Qed.

Lemma splitn_nonempty n c s : splitn (S n) c s <> [].
Proof. destruct n; simpl; [done|]. by destruct (split_once c s) as [[]|]. Qed.

(** ** Trimming *)

Lemma trim_end_matches_split p s :
  exists z, s = trim_end_matches p s +:+ z /\ all_bytes p z = true.
Proof.
  induction s as [|a s (z & Hs & Hz)]; simpl; [by exists ""|].
  destruct (trim_end_matches p s) as [|b t] eqn:E.
  - rewrite str_app_nil_l in Hs. subst z. destruct (p a) eqn:Ha.
    + exists (String a s). simpl. by rewrite Ha.
    + exists s. done.
  - exists z. rewrite str_app_cons. by rewrite Hs at 1.
Qed.

(** The last byte of a trimmed string is not one of the trimmed ones. *)
Lemma trim_end_matches_last p s t a :
  trim_end_matches p s = t +:+ String a EmptyString -> p a = false.
Proof.
  revert t. induction s as [|b s IH]; intros t; simpl; [by destruct t|].
  destruct (trim_end_matches p s) as [|c u] eqn:E.
  - destruct (p b) eqn:Hb; [by destruct t|].
    destruct t as [|x t]; [rewrite str_app_nil_l; by intros [= <-]|].
    rewrite str_app_cons. intros [= _ H]. by destruct t.
  - destruct t as [|x t].
    + rewrite str_app_nil_l. done.
    + rewrite str_app_cons. intros [= _ H]. by eapply IH.
Qed.

Lemma strip_suffix_app c s : strip_suffix c (s +:+ String c EmptyString) = Some s.
Proof.
  induction s as [|a s IH]; [simpl; by rewrite Ascii.eqb_refl|].
  rewrite str_app_cons. simpl.
  destruct (s +:+ String c EmptyString) eqn:E; [by destruct s|]. by rewrite IH.
Qed.
