(* ===== verification/Step.v ===== *)
(** * Steps over an explicit world

    Code that talks to a database is a function of the world it runs in, which
    returns a value and the world after it; [None] means that the fuel of a loop
    ran out. The adapters instantiate the type of worlds. *)

From S2P Require Import Prelude.

Definition Step (W A : Type) : Type := W -> option (A * W).

Section Steps.
Context {W : Type}.

Definition ret {A} (a : A) : Step W A := fun w => Some (a, w).
Definition bind {A B} (m : Step W A) (k : A -> Step W B) : Step W B :=
  fun w => match m w with Some (a, w) => k a w | None => None end.

(** A step that always returns. *)
Definition returns {A} (m : Step W A) : Prop := forall w, is_Some (m w).
End Steps.

#[global] Arguments bind : simpl never.

Declare Scope m_scope.
Delimit Scope m_scope with m.
#[global] Open Scope m_scope.

Notation "'let*' x ':=' m 'in' k" := (bind m (fun x => k))
  (at level 10, x pattern, m at level 100, k at level 200) : m_scope.
(** [m.await.map_err(f)?] *)
Notation "'try*' x ':=' m 'else' f 'in' k" :=
  (bind m (fun r => match r with Ok x => k | Err e => ret (Err (f e)) end))
  (at level 10, x pattern, m at level 100, f at level 100, k at level 200) : m_scope.

Section Runs.
Context {W : Type}.

Lemma bind_inv {A B} (m : Step W A) (k : A -> Step W B) w b w' :
  bind m k w = Some (b, w') -> exists a w1, m w = Some (a, w1) /\ k a w1 = Some (b, w').
Proof. unfold bind. destruct (m w) as [[a w1]|]; [eauto|done]. Qed.

Lemma bind_run {A B} (m : Step W A) (k : A -> Step W B) w a w1 :
  m w = Some (a, w1) -> bind m k w = k a w1.
Proof. unfold bind. by intros ->. Qed.

Lemma ret_inv {A} (a : A) (w : W) b w' : ret a w = Some (b, w') -> b = a /\ w' = w.
Proof. unfold ret. by intros [= <- <-]. Qed.

Lemma returns_ret {A} (a : A) : returns (W := W) (ret a).
Proof. by eexists. Qed.
Lemma returns_bind {A B} (m : Step W A) (k : A -> Step W B) :
  returns m -> (forall a, returns (k a)) -> returns (bind m k).
Proof. intros Hm Hk w. destruct (Hm w) as [[a w1] Hw]. rewrite (bind_run _ _ _ _ _ Hw). apply Hk. Qed.
End Runs.

#[export] Hint Resolve returns_ret : dovecote.

(** Proves that a composed step returns, from the hints about its parts. *)
Ltac returns_step :=
  repeat first
    [ progress eauto with dovecote
    | apply returns_bind; [|intros ?]
    | match goal with |- returns (match ?x with _ => _ end) => destruct x end ].

(** Decomposes a run of a composed step, one call at a time. *)
Ltac run_inv Hr :=
  cbn [negb] in Hr;
  match type of Hr with
  | bind _ _ _ = Some (_, _) =>
      let r := fresh "r" in let w := fresh "w" in let Hm := fresh "Hm" in
      apply bind_inv in Hr as (r & w & Hm & Hr)
  | ret _ _ = Some (_, _) => apply ret_inv in Hr as [? ?]; subst
  end.
