(* ===== verification/Utf8.v ===== *)
(** * UTF-8 strings of the Rust standard library

    A Rust [String] is a byte sequence that is valid UTF-8.  This file gives
    the standard-library functions the code applies to it: [str::from_utf8],
    [str::chars], [char::is_control], [str::trim].  [utf8_decode] is total and
    executable; [utf8_encode] is its inverse on Unicode scalar values, which
    lets the theorems speak of characters instead of bytes. *)

From S2P Require Import Prelude.

(** ** Scalar values *)

Definition is_scalar (c : Z) : bool :=
  in_range 0 0xD7FF c || in_range 0xE000 0x10FFFF c.

Definition is_continuation (a : ascii) : bool := in_range 0x80 0xBF (byte_val a).
Definition low6 (a : ascii) : Z := byte_val a - 0x80.

Definition char_cons (c : Z) (o : option (list Z)) : option (list Z) :=
  match o with Some cs => Some (c :: cs) | None => None end.

(** [str::from_utf8] with the characters it accepts: shortest form only, no
    surrogates, nothing above U+10FFFF. *)
Fixpoint utf8_decode (s : string) : option (list Z) :=
  match s with
  | EmptyString => Some []
  | String a s1 =>
      let x := byte_val a in
      if x <? 0x80 then char_cons x (utf8_decode s1)
      else match s1 with
      | EmptyString => None
      | String b s2 =>
        if negb (is_continuation b) then None
        else if in_range 0xC2 0xDF x
        then char_cons ((x - 0xC0) * 64 + low6 b) (utf8_decode s2)
        else match s2 with
        | EmptyString => None
        | String d s3 =>
          if negb (is_continuation d) then None
          else if in_range 0xE0 0xEF x
          then let c := (x - 0xE0) * 4096 + low6 b * 64 + low6 d in
               if (0x800 <=? c) && is_scalar c
               then char_cons c (utf8_decode s3) else None
          else match s3 with
          | EmptyString => None
          | String e s4 =>
            if negb (is_continuation e) then None
            else if in_range 0xF0 0xF4 x
            then let c := (x - 0xF0) * 262144 + low6 b * 4096 + low6 d * 64 + low6 e in
                 if (0x10000 <=? c) && is_scalar c
                 then char_cons c (utf8_decode s4) else None
            else None
          end
        end
      end
  end.

Definition valid_utf8 (s : string) : bool :=
  match utf8_decode s with Some _ => true | None => false end.

(** [s.chars()] *)
Definition chars (s : string) : list Z :=
  match utf8_decode s with Some cs => cs | None => [] end.

(** ** Encoding *)

Definition utf8_char (c : Z) : string :=
  if c <? 0x80 then String (byte_of c) EmptyString
  else if c <? 0x800 then
    String (byte_of (0xC0 + c / 64)) (String (byte_of (0x80 + c mod 64)) EmptyString)
  else if c <? 0x10000 then
    String (byte_of (0xE0 + c / 4096))
      (String (byte_of (0x80 + (c / 64) mod 64))
        (String (byte_of (0x80 + c mod 64)) EmptyString))
  else
    String (byte_of (0xF0 + c / 262144))
      (String (byte_of (0x80 + (c / 4096) mod 64))
        (String (byte_of (0x80 + (c / 64) mod 64))
          (String (byte_of (0x80 + c mod 64)) EmptyString))).

Fixpoint utf8_encode (cs : list Z) : string :=
  match cs with
  | [] => EmptyString
  | c :: cs => utf8_char c +:+ utf8_encode cs
  end.

(** ** Character classes *)

(** [char::is_control]: general category Cc *)
Definition is_control (c : Z) : bool := in_range 0 0x1F c || in_range 0x7F 0x9F c.

(** [char::is_whitespace]: the White_Space property *)
Definition is_whitespace (c : Z) : bool :=
  in_range 0x9 0xD c || (c =? 0x20) || (c =? 0x85) || (c =? 0xA0) || (c =? 0x1680)
  || in_range 0x2000 0x200A c || (c =? 0x2028) || (c =? 0x2029) || (c =? 0x202F)
  || (c =? 0x205F) || (c =? 0x3000).

(** [s.trim().is_empty()]: every character is white space *)
Definition trim_is_empty (s : string) : bool := forallb is_whitespace (chars s).

(** ** Lemmas *)

Lemma byte_val_of z : 0 <= z < 256 -> byte_val (byte_of z) = z.
Proof.
  intros Hz. unfold byte_val, byte_of.
  rewrite N_ascii_embedding by lia. lia.
Qed.

Lemma byte_of_val a : byte_of (byte_val a) = a.
Proof. unfold byte_val, byte_of. rewrite N2Z.id. apply ascii_N_embedding. Qed.

Lemma byte_val_range a : 0 <= byte_val a < 256.
Proof. unfold byte_val. pose proof (N_ascii_bounded a). lia. Qed.

Lemma in_range_true lo hi z : in_range lo hi z = true <-> lo <= z <= hi.
Proof. unfold in_range. rewrite andb_true_iff, !Z.leb_le. lia. Qed.

Lemma in_range_false lo hi z : in_range lo hi z = false <-> ~ (lo <= z <= hi).
Proof. rewrite <- in_range_true. by destruct (in_range lo hi z). Qed.

Lemma is_scalar_true c :
  is_scalar c = true <-> 0 <= c <= 0xD7FF \/ 0xE000 <= c <= 0x10FFFF.
Proof. unfold is_scalar. by rewrite orb_true_iff, !in_range_true. Qed.

Ltac euclid := Z.to_euclidean_division_equations; lia.

Lemma byte_of_eq a z : byte_val a = z -> byte_of z = a.
Proof. intros <-. apply byte_of_val. Qed.

(** Equality of byte strings, byte by byte, by arithmetic. *)
Ltac by_bytes :=
  repeat (apply (f_equal2 String); [symmetry; apply byte_of_eq; euclid|]); reflexivity.

(** Decides the range tests of a decoder step by arithmetic. *)
Ltac decide_range :=
  repeat first
    [ rewrite byte_val_of by lia
    | match goal with
      | |- context [?x <? ?y] =>
          first [ rewrite (proj2 (Z.ltb_lt x y)) by lia
                | rewrite (proj2 (Z.ltb_ge x y)) by lia ]
      | |- context [?x <=? ?y] => rewrite (proj2 (Z.leb_le x y)) by lia
      | |- context [in_range ?l ?h ?x] =>
          first [ rewrite (proj2 (in_range_true l h x)) by lia
                | rewrite (proj2 (in_range_false l h x)) by lia ]
      end ].

Lemma utf8_decode_char c s :
  is_scalar c = true ->
  utf8_decode (utf8_char c +:+ s) = char_cons c (utf8_decode s).
Proof.
  intros Hc. pose proof Hc as Hr. apply is_scalar_true in Hr.
  unfold utf8_char.
  destruct (Z.ltb_spec c 0x80); [|destruct (Z.ltb_spec c 0x800); [|destruct (Z.ltb_spec c 0x10000)]];
    autorewrite with str; cbn [utf8_decode]; cbv zeta;
    unfold is_continuation, low6.
  - by decide_range.
  - rewrite !byte_val_of by euclid.
    rewrite (proj2 (Z.ltb_ge _ _)) by euclid.
    rewrite !(proj2 (in_range_true _ _ _)) by euclid.
    simpl. f_equal. euclid.
  - rewrite !byte_val_of by euclid.
    rewrite (proj2 (Z.ltb_ge _ _)) by euclid.
    rewrite (proj2 (in_range_true 128 191 _)) by euclid.
    rewrite (proj2 (in_range_false 194 223 _)) by euclid.
    rewrite (proj2 (in_range_true 128 191 _)) by euclid.
    rewrite (proj2 (in_range_true 224 239 _)) by euclid.
    simpl.
    match goal with |- context [2048 <=? ?x] =>
      replace x with c by euclid end.
    rewrite (proj2 (Z.leb_le _ _)) by lia. by rewrite Hc.
  - rewrite !byte_val_of by euclid.
    rewrite (proj2 (Z.ltb_ge _ _)) by euclid.
    rewrite (proj2 (in_range_true 128 191 _)) by euclid.
    rewrite (proj2 (in_range_false 194 223 _)) by euclid.
    rewrite (proj2 (in_range_true 128 191 _)) by euclid.
    rewrite (proj2 (in_range_false 224 239 _)) by euclid.
    rewrite (proj2 (in_range_true 128 191 _)) by euclid.
    rewrite (proj2 (in_range_true 240 244 _)) by euclid.
    simpl.
    match goal with |- context [65536 <=? ?x] =>
      replace x with c by euclid end.
    rewrite (proj2 (Z.leb_le _ _)) by lia. by rewrite Hc.
Qed.

(** Decoding inverts encoding on scalar values. *)
Lemma utf8_decode_encode cs :
  forallb is_scalar cs = true -> utf8_decode (utf8_encode cs) = Some cs.
Proof.
  induction cs as [|c cs IH]; simpl; intros H; [done|].
  bools. rewrite utf8_decode_char, IH by done. done.
Qed.

Lemma chars_encode cs : forallb is_scalar cs = true -> chars (utf8_encode cs) = cs.
Proof. intros H. unfold chars. by rewrite utf8_decode_encode. Qed.

Lemma valid_utf8_encode cs : forallb is_scalar cs = true -> valid_utf8 (utf8_encode cs) = true.
Proof. intros H. unfold valid_utf8. by rewrite utf8_decode_encode. Qed.

(** A decoded string is the encoding of its characters, all scalar values. *)
Lemma utf8_decode_Some s cs :
  utf8_decode s = Some cs -> s = utf8_encode cs /\ forallb is_scalar cs = true.
Proof.
  remember (String.length s) as n eqn:Hn.
  revert s cs Hn. induction (lt_wf n) as [n _ IH]. intros s cs -> H.
  destruct s as [|a s1]; [by simplify_eq/=|].
  cbn [utf8_decode] in H. pose proof (byte_val_range a).
  assert (Hrec : forall t c ds, utf8_decode t = ds ->
    (String.length t < String.length (String a s1))%nat ->
    char_cons c ds = Some cs -> is_scalar c = true ->
    utf8_char c +:+ t = utf8_encode cs /\ forallb is_scalar cs = true).
  { intros t c ds Ht Hlt Hds Hc. destruct ds as [ds|]; simplify_eq/=.
    destruct (IH _ Hlt t ds eq_refl Ht) as [-> ->]. by rewrite Hc. }
  destruct (Z.ltb_spec (byte_val a) 0x80).
  { eapply (Hrec s1) in H as [<- ?]; [|done|simpl; lia|by apply is_scalar_true; lia].
    split; [|done]. unfold utf8_char. rewrite (proj2 (Z.ltb_lt _ _)) by lia.
    by rewrite byte_of_val. }
  destruct s1 as [|b s2]; [done|]. case_match eqn:Hb; [done|]. bools.
  unfold is_continuation in Hb. apply in_range_true in Hb.
  destruct (in_range 0xC2 0xDF (byte_val a)) eqn:Ha.
  { apply in_range_true in Ha.
    eapply (Hrec s2) in H as [<- ?]; [|done|simpl; lia|apply is_scalar_true; unfold low6; lia].
    split; [|done]. unfold utf8_char, low6.
    rewrite (proj2 (Z.ltb_ge _ 0x80)), (proj2 (Z.ltb_lt _ 0x800)) by lia.
    autorewrite with str. by_bytes. }
  apply in_range_false in Ha.
  destruct s2 as [|d s3]; [done|]. case_match eqn:Hd; [done|]. bools.
  unfold is_continuation in Hd. apply in_range_true in Hd.
  destruct (in_range 0xE0 0xEF (byte_val a)) eqn:Ha2.
  { apply in_range_true in Ha2. cbv zeta in H. case_match eqn:Hc; [|done]. bools.
    eapply (Hrec s3) in H as [<- ?]; [|done|simpl; lia|done].
    split; [|done]. unfold utf8_char, low6 in *.
    rewrite (proj2 (Z.ltb_ge _ 0x80)), (proj2 (Z.ltb_ge _ 0x800)),
      (proj2 (Z.ltb_lt _ 0x10000)) by lia.
    autorewrite with str. by_bytes. }
  apply in_range_false in Ha2.
  destruct s3 as [|e s4]; [done|]. case_match eqn:He; [done|]. bools.
  unfold is_continuation in He. apply in_range_true in He.
  destruct (in_range 0xF0 0xF4 (byte_val a)) eqn:Ha3; [|done].
  apply in_range_true in Ha3. cbv zeta in H. case_match eqn:Hc; [|done]. bools.
  eapply (Hrec s4) in H as [<- ?]; [|done|simpl; lia|done].
  split; [|done]. unfold utf8_char, low6 in *.
  rewrite (proj2 (Z.ltb_ge _ 0x80)), (proj2 (Z.ltb_ge _ 0x800)),
    (proj2 (Z.ltb_ge _ 0x10000)) by lia.
  autorewrite with str. by_bytes.
Qed.

Lemma valid_utf8_chars s :
  valid_utf8 s = true -> s = utf8_encode (chars s) /\ forallb is_scalar (chars s) = true.
Proof.
  unfold valid_utf8, chars. destruct (utf8_decode s) eqn:E; [|done].
  intros _. by apply utf8_decode_Some.
Qed.
