(* ===== verification/External.v ===== *)
(** * Libraries the code calls

    The crates [time], [serde_json], [base64], [mime] and [fluent-uri] are not
    part of the repository.  Each is a class of the operations the code calls
    (a parameter of every definition that uses it), and the documented
    behaviour a theorem relies on is a class of laws.  File [Concrete] gives an
    instance that satisfies the laws and computes. Of [sqlx] and [getrandom] the
    code sees the errors. *)

From S2P Require Import Prelude.

(** ** time: [OffsetDateTime] and its RFC 3339 text *)

Class TimeLib := {
  OffsetDateTime : Type;
  (** [unix_timestamp_nanos()] *)
  unix_nanos : OffsetDateTime -> Z;
  (** [offset().whole_seconds()] *)
  utc_offset : OffsetDateTime -> Z;
  (** [nanosecond()] *)
  nanosecond : OffsetDateTime -> Z;
  (** [to_offset(UtcOffset::UTC)] *)
  to_utc : OffsetDateTime -> OffsetDateTime;
  (** [format(&Rfc3339)] *)
  rfc3339_format : OffsetDateTime -> option string;
  (** [OffsetDateTime::parse(_, &Rfc3339)]; the error is its displayed text *)
  rfc3339_parse : string -> Result OffsetDateTime string;
  (** the text [YYYY-MM-DDTHH:MM:SS] of a Unix second in UTC, which the two
      functions above agree on *)
  rfc3339_whole : Z -> string;
}.

(** [PartialEq] and [PartialOrd] of [OffsetDateTime] compare instants. *)
Definition instant_eqb `{TimeLib} (a b : OffsetDateTime) : bool :=
  unix_nanos a =? unix_nanos b.
Definition instant_leb `{TimeLib} (a b : OffsetDateTime) : bool :=
  unix_nanos a <=? unix_nanos b.

(** [OffsetDateTime::UNIX_EPOCH] and
    [datetime!(9999-12-31 23:59:59.999999 UTC)], as Unix nanoseconds *)
Definition unix_epoch_nanos : Z := 0.
Definition year_9999_end_nanos : Z := 253402300799999999000.

Class TimeLaws `{TimeLib} : Prop := {
  to_utc_nanos t : unix_nanos (to_utc t) = unix_nanos t;
  to_utc_offset t : utc_offset (to_utc t) = 0;
  utc_unique a b :
    utc_offset a = utc_offset b -> unix_nanos a = unix_nanos b -> a = b;
  nanosecond_spec t : nanosecond t = unix_nanos t mod 1000000000;
}.

(** *** Decimal fractions of a second *)

Definition digit_val (a : ascii) : Z := byte_val a - 48.

Fixpoint digits_value (acc : Z) (d : string) : Z :=
  match d with
  | EmptyString => acc
  | String a d => digits_value (10 * acc + digit_val a) d
  end.

(** nanoseconds denoted by the fraction digits [d] *)
Definition frac_nanos (d : string) : Z :=
  digits_value 0 d * 10 ^ (9 - len d).

Definition is_fraction (d : string) : bool :=
  all_bytes is_ascii_digit d && (1 <=? len d) && (len d <=? 9).

Definition max_second : Z := 253402300799.

(** RFC 3339 text of UTC instants: the formatter writes the whole second, an
    optional fraction denoting the nanoseconds and [Z]; the parser reads any
    fraction of one to nine digits. *)
Class TimeTextLaws `{TimeLib} : Prop := {
  format_utc t :
    utc_offset t = 0 -> 0 <= unix_nanos t <= year_9999_end_nanos ->
    let sec := unix_nanos t / 1000000000 in
    let ns := unix_nanos t mod 1000000000 in
    (rfc3339_format t = Some (rfc3339_whole sec +:+ "Z") /\ ns = 0) \/
    (exists d, rfc3339_format t = Some (rfc3339_whole sec +:+ "." +:+ d +:+ "Z") /\
               is_fraction d = true /\ frac_nanos d = ns);
  whole_no_dot sec :
    0 <= sec <= max_second ->
    all_bytes (fun a => negb (Ascii.eqb a ".")) (rfc3339_whole sec) = true;
  parse_whole sec :
    0 <= sec <= max_second ->
    exists t, rfc3339_parse (rfc3339_whole sec +:+ "Z") = Ok t /\
              utc_offset t = 0 /\ unix_nanos t = sec * 1000000000;
  parse_fraction sec d :
    0 <= sec <= max_second -> is_fraction d = true ->
    exists t, rfc3339_parse (rfc3339_whole sec +:+ "." +:+ d +:+ "Z") = Ok t /\
              utc_offset t = 0 /\ unix_nanos t = sec * 1000000000 + frac_nanos d;
}.

(** ** serde_json: JSON values *)

Class JsonNumber := {
  Number : Type;
  (** [Number::from(i32)] *)
  number_of_i32 : Z -> Number;
  (** [Number::as_i64()] *)
  number_as_i64 : Number -> option Z;
}.

Class JsonNumberLaws `{JsonNumber} : Prop := {
  number_of_i32_as_i64 z :
    i32_min <= z <= i32_max -> number_as_i64 (number_of_i32 z) = Some z;
}.

(** [serde_json::Value].  The workspace enables [preserve_order], so a [Map]
    keeps its members in insertion order. *)
Inductive Value `{JsonNumber} : Type :=
  | VNull
  | VBool (b : bool)
  | VNumber (n : Number)
  | VString (s : string)
  | VArray (values : list Value)
  | VObject (entries : list (string * Value)).

Abbreviation Map := (list (string * Value)).

Section Map.
Context `{JsonNumber}.

(** [Map::insert]: an existing key keeps its position *)
Fixpoint map_insert (m : Map) (key : string) (v : Value) : Map :=
  match m with
  | [] => [(key, v)]
  | (k, w) :: m => if decide (k = key) then (k, v) :: m else (k, w) :: map_insert m key v
  end.

(** [Map::get] *)
Fixpoint map_get (m : Map) (key : string) : option Value :=
  match m with
  | [] => None
  | (k, w) :: m => if decide (k = key) then Some w else map_get m key
  end.

(** [Map::remove]: the removed value and the remaining members (the order
    of the remaining members is unspecified; the code only looks them up) *)
Fixpoint map_remove (m : Map) (key : string) : option Value * Map :=
  match m with
  | [] => (None, [])
  | (k, w) :: m =>
      if decide (k = key) then (Some w, m)
      else let '(r, m') := map_remove m key in (r, (k, w) :: m')
  end.

(** [Value::as_bool], [Value::as_i64], [Value::as_str] *)
Definition as_bool (v : Value) : option bool :=
  match v with VBool b => Some b | _ => None end.
Definition as_i64 (v : Value) : option Z :=
  match v with VNumber n => number_as_i64 n | _ => None end.
Definition as_str (v : Value) : option string :=
  match v with VString s => Some s | _ => None end.
End Map.

Class SerdeJson `{JsonNumber} := {
  (** [serde_json::from_str]; the error is its displayed text *)
  json_from_str : string -> Result Value string;
  (** [Value::to_string()] *)
  json_to_string : Value -> string;
  (** [serde_json::to_vec(&Map)] *)
  json_to_vec : Map -> option bytes;
  (** [serde_json::from_slice::<Value>] *)
  json_from_slice : bytes -> option Value;
}.

(** Members of every object have distinct keys. *)
Fixpoint json_wf `{JsonNumber} (v : Value) : Prop :=
  match v with
  | VArray vs => (fix all (l : list Value) : Prop :=
                    match l with [] => True | v :: l => json_wf v /\ all l end) vs
  | VObject m => NoDup (map fst m) /\
                 (fix all (l : Map) : Prop :=
                    match l with [] => True | (_, v) :: l => json_wf v /\ all l end) m
  | _ => True
  end.

(** Serializing and reading back gives the value. *)
Class SerdeJsonLaws `{SerdeJson} : Prop := {
  json_roundtrip v : json_wf v -> json_from_str (json_to_string v) = Ok v;
  json_to_vec_total m : is_Some (json_to_vec m);
}.

(** ** base64: [general_purpose::STANDARD] *)

Class Base64 := {
  base64_encode : bytes -> string;
  base64_decode : string -> Result bytes string;
}.

Class Base64Laws `{Base64} : Prop := {
  base64_roundtrip b : base64_decode (base64_encode b) = Ok b;
}.

(** ** mime and fluent-uri *)

Class MimeLib := {
  Mime : Type;
  (** [Mime::from_str] *)
  mime_from_str : string -> option Mime;
  (** [mime.subtype() == mime::JSON] *)
  mime_subtype_is_json : Mime -> bool;
  (** [mime.suffix() == Some(mime::JSON)] *)
  mime_suffix_is_json : Mime -> bool;
}.

Class FluentUri := {
  (** [UriRef::parse(_).is_ok()] *)
  uri_ref_parses : string -> bool;
  (** [Uri::parse(_).is_ok()] *)
  uri_parses : string -> bool;
}.

(** ** JSON objects built by insertion *)

Section MapLemmas.
Context `{JsonNumber}.

Lemma map_insert_fresh m key v :
  key ∉ map fst m -> map_insert m key v = m ++ [(key, v)].
Proof.
  induction m as [|[k w] m IH]; simpl; intros Hn; [done|].
  rewrite decide_False by set_solver. by rewrite IH by set_solver.
Qed.

(** Inserting a list of members with distinct keys keeps their order. *)
Lemma map_insert_all {A} (key : A -> string) (val : A -> Value) (l : list A) m :
  NoDup (map fst m ++ map key l) ->
  fold_left (fun o a => map_insert o (key a) (val a)) l m
  = m ++ map (fun a => (key a, val a)) l.
Proof.
  revert m. induction l as [|a l IH]; intros m Hnd; simpl; [by rewrite app_nil_r|].
  simpl in Hnd. rewrite map_insert_fresh.
  - rewrite IH; [by rewrite <- app_assoc|].
    rewrite map_app, <- app_assoc. done.
  - apply NoDup_app in Hnd as (_ & Hd & _). intros Hin. apply (Hd _ Hin). left.
Qed.

Lemma map_get_NoDup m k v : NoDup (map fst m) -> (k, v) ∈ m -> map_get m k = Some v.
Proof.
  induction m as [|[k' w] m IH]; simpl; intros Hnd Hin; [set_solver|].
  inversion Hnd; subst. apply elem_of_cons in Hin as [[= -> ->]|Hin].
  - by rewrite decide_True.
  - rewrite decide_False; [by apply IH|]. intros ->.
    match goal with H : _ ∉ _ |- _ => apply H end. apply list_elem_of_fmap. by exists (k, v).
Qed.
End MapLemmas.

(** ** sqlx and getrandom: their errors *)

(** [sqlx::Error]: a database error has an optional code text, and one that MySQL
    or MariaDB sent (to the MySQL adapter alone) downcasts to its number, SQLSTATE and
    message; [Protocol] is
    the variant the adapters themselves build; every other variant has no code. *)
Module SqlxError.
Inductive t : Type :=
  | Database (code : option string)
  | MySql (number : Z) (code : option string) (message : string)
  | Protocol (message : string)
  | Other (message : string).

#[global] Instance eq_dec : EqDecision t.
Proof. solve_decision. Defined.
End SqlxError.

(** [getrandom::Error], by its code *)
Definition EntropyError : Type := Z.

(** [sqlx::Error::RowNotFound], and a NULL where a value was asked for *)
Definition row_not_found : SqlxError.t := SqlxError.Other "RowNotFound".
Definition unexpected_null : SqlxError.t := SqlxError.Other "ColumnDecode".

Definition fetch_one {A} (rows : option (option A)) : Result A SqlxError.t :=
  match rows with
  | None => Err row_not_found
  | Some None => Err unexpected_null
  | Some (Some a) => Ok a
  end.
