(* ===== verification/Text.v ===== *)
(** * Operations on texts

    Operations of Rust's [str] beyond those of the prelude, on the UTF-8 bytes of
    a text, and facts about them. *)

From S2P Require Import Prelude Utf8 External.

(** ** Letter case *)

Fixpoint map_bytes (f : Z -> Z) (s : string) : string :=
  match s with
  | EmptyString => EmptyString
  | String a s => String (byte_of (f (byte_val a))) (map_bytes f s)
  end.

(** [to_ascii_lowercase] and [to_ascii_uppercase] *)
Definition to_ascii_lowercase (s : string) : string := map_bytes ascii_lowercase s.
Definition ascii_uppercase (c : Z) : Z := if in_range 97 122 c then c - 32 else c.
Definition to_ascii_uppercase (s : string) : string := map_bytes ascii_uppercase s.

Definition eq_ignore_ascii_case (a b : string) : bool :=
  bool_decide (to_ascii_lowercase a = to_ascii_lowercase b).

(** ** Parts *)

(** [s.contains(pattern)] *)
Fixpoint contains (pattern s : string) : bool :=
  String.prefix pattern s
  || match s with EmptyString => false | String _ s => contains pattern s end.

(** [s.replace(pattern, by)]: [skip] bytes of a match are still to be left out. *)
Fixpoint replace_from (pattern by_ : string) (skip : nat) (s : string) : string :=
  match s with
  | EmptyString => EmptyString
  | String a rest =>
      match skip with
      | S skip => replace_from pattern by_ skip rest
      | O => if String.prefix pattern s
             then by_ +:+ replace_from pattern by_ (String.length pattern - 1) rest
             else String a (replace_from pattern by_ O rest)
      end
  end.
Definition replace (pattern by_ s : string) : string := replace_from pattern by_ O s.

(** [s.trim()] *)
Fixpoint drop_while (p : Z -> bool) (cs : list Z) : list Z :=
  match cs with
  | c :: cs' => if p c then drop_while p cs' else cs
  | [] => []
  end.
Definition trim (s : string) : string :=
  utf8_encode (rev (drop_while is_whitespace (rev (drop_while is_whitespace (chars s))))).

(** The longest prefix of bytes that satisfy [p]. *)
Fixpoint take_while (p : ascii -> bool) (s : string) : string :=
  match s with
  | String a s => if p a then String a (take_while p s) else EmptyString
  | EmptyString => EmptyString
  end.

(** [str::strip_prefix] *)
Fixpoint strip_prefix (p s : string) : option string :=
  match p, s with
  | EmptyString, _ => Some s
  | String a p, String b s => if bool_decide (a = b) then strip_prefix p s else None
  | _, _ => None
  end.

(** [s.split_once_str(d)] *)
Fixpoint split_once_str (d s : string) : option (string * string) :=
  match strip_prefix d s with
  | Some t => Some (EmptyString, t)
  | None =>
      match s with
      | EmptyString => None
      | String a s => option_map (fun p => (String a p.1, p.2)) (split_once_str d s)
      end
  end.

(** [s.ends_with(suffix)] *)
Fixpoint ends_with (suffix s : string) : bool :=
  bool_decide (s = suffix) || match s with EmptyString => false | String _ s => ends_with suffix s end.

(** [str::rsplit_once]: around the last occurrence of [d] *)
Fixpoint rsplit_once (d s : string) : option (string * string) :=
  match s with
  | EmptyString => option_map (pair EmptyString) (strip_prefix d EmptyString)
  | String a s' =>
      match rsplit_once d s' with
      | Some (x, y) => Some (String a x, y)
      | None => option_map (pair EmptyString) (strip_prefix d s)
      end
  end.

(** ** Numbers *)

(** the value of decimal digits after those of [acc] *)
Fixpoint parse_digits (acc : Z) (s : string) : option Z :=
  match s with
  | EmptyString => Some acc
  | String a s =>
      if is_ascii_digit a then parse_digits (10 * acc + (byte_val a - 48)) s else None
  end.

Definition u32_max : Z := 2 ^ 32 - 1.

(** [s.parse::<u32>().ok()] *)
Definition parse_u32 (s : string) : option Z :=
  let digits := match s with
                | String a rest => if Ascii.eqb a "+" then rest else s
                | EmptyString => s
                end in
  if is_empty digits then None
  else match parse_digits 0 digits with
       | Some n => if n <=? u32_max then Some n else None
       | None => None
       end.

(** ** Facts *)

Lemma str_length_app s t : String.length (s +:+ t) = (String.length s + String.length t)%nat.
Proof. induction s as [|a s IH]; [by rewrite str_app_nil_l|]. rewrite str_app_cons. simpl. by rewrite IH. Qed.

Lemma strip_prefix_Some p s t : strip_prefix p s = Some t <-> s = p +:+ t.
Proof.
  revert s. induction p as [|a p IH]; intros s; simpl.
  - rewrite str_app_nil_l. split; congruence.
  - destruct s as [|b s]; [by split; [|rewrite str_app_cons]|].
    rewrite str_app_cons. case_bool_decide as Hab; [|by split; [|intros [= -> _]]].
    subst b. rewrite IH. split; [by intros ->|by intros [= ->]].
Qed.

(** The last occurrence: the delimiter does not occur again, whole or in part, in
    what follows. *)
Lemma rsplit_once_Some d s x y : rsplit_once d s = Some (x, y) -> s = x +:+ d +:+ y.
Proof.
  revert x. induction s as [|a s IH]; intros x; simpl.
  - destruct (strip_prefix _ _) as [t|] eqn:E; [|done]. simpl. intros [= <- <-].
    by apply strip_prefix_Some in E.
  - destruct (rsplit_once d s) as [[u v]|] eqn:E.
    + intros [= <- <-]. by rewrite str_app_cons, <- (IH _ eq_refl).
    + change (String a s) with (String a s). destruct (strip_prefix d (String a s)) as [t|] eqn:Es; [|done].
      simpl. intros [= <- <-]. by apply strip_prefix_Some in Es.
Qed.

Lemma split_once_str_Some d s x y : split_once_str d s = Some (x, y) -> s = x +:+ d +:+ y.
Proof.
  revert x. induction s as [|a s IH]; intros x; cbn [split_once_str].
  - destruct (strip_prefix _ _) as [t|] eqn:E; [|done]. intros [= <- <-]. by apply strip_prefix_Some in E.
  - destruct (strip_prefix _ _) as [t|] eqn:E.
    + intros [= <- <-]. apply strip_prefix_Some in E. by rewrite str_app_nil_l.
    + destruct (split_once_str d s) as [[u v]|]; [|done]. intros [= <- <-].
      rewrite (IH u eq_refl). by rewrite str_app_cons.
Qed.

Lemma rsplit_once_app d x y :
  rsplit_once d (x +:+ d +:+ y)
  = match rsplit_once d (d +:+ y) with
    | Some (u, v) => Some (x +:+ u, v)
    | None => None
    end.
Proof.
  induction x as [|a x IH].
  - rewrite !str_app_nil_l. by destruct (rsplit_once _ _) as [[]|].
  - rewrite str_app_cons. simpl. rewrite IH.
    destruct (rsplit_once d (d +:+ y)) as [[u v]|] eqn:E; [done|].
    exfalso. destruct d as [|b d].
    + rewrite str_app_nil_l in E. clear IH. induction y; simpl in E; [done|].
      by destruct (rsplit_once _ _) as [[]|].
    + rewrite str_app_cons in E. simpl in E. destruct (rsplit_once _ _) as [[]|]; [done|].
      rewrite bool_decide_true in E by done.
      by rewrite (proj2 (strip_prefix_Some d (d +:+ y) y)) in E.
Qed.

Lemma rsplit_once_absent c d s :
  no_byte c d = false -> no_byte c s = true -> rsplit_once d s = None.
Proof.
  intros Hd Hs. destruct (rsplit_once d s) as [[x y]|] eqn:E; [|done].
  apply rsplit_once_Some in E as ->. rewrite !no_byte_app, Hd, andb_comm in Hs. simpl in Hs. done.
Qed.

Lemma rsplit_once_cons d a s :
  rsplit_once d (String a s)
  = match rsplit_once d s with
    | Some (x, y) => Some (String a x, y)
    | None => option_map (pair EmptyString) (strip_prefix d (String a s))
    end.
Proof. done. Qed.

Lemma strip_prefix_cons a b p s :
  strip_prefix (String a p) (String b s) = if bool_decide (a = b) then strip_prefix p s else None.
Proof. done. Qed.

Lemma strip_suffix_Some c s t : strip_suffix c s = Some t -> s = t +:+ String c EmptyString.
Proof.
  revert t. induction s as [|a s IH]; intros t; simpl; [done|].
  destruct s as [|b s].
  - destruct (Ascii.eqb_spec a c) as [->|]; [by intros [= <-]|done].
  - destruct (strip_suffix c (String b s)) as [u|]; [|done]. intros [= <-].
    by rewrite str_app_cons, <- (IH u).
Qed.

Lemma split_not_nil c s : split c s <> [].
Proof.
  induction s as [|a s IH]; simpl; [done|]. destruct (Ascii.eqb a c); [done|]. by destruct (split c s).
Qed.

Lemma split_whole c s : no_byte c s = true -> split c s = [s].
Proof.
  unfold no_byte. induction s as [|a s IH]; simpl; [done|].
  destruct (Ascii.eqb a c); [done|]. intros H. by rewrite IH.
Qed.

Lemma split_app c s t : split c (s +:+ String c t) = split c s ++ split c t.
Proof.
  induction s as [|a s IH].
  - rewrite str_app_nil_l. simpl. by rewrite Ascii.eqb_refl.
  - rewrite str_app_cons. simpl. destruct (Ascii.eqb a c); [by rewrite IH|].
    rewrite IH. destruct (split c s) as [|x xs] eqn:E; [by destruct (split_not_nil c s)|done].
Qed.

Lemma parse_digits_app acc s t :
  parse_digits acc (s +:+ t)
  = match parse_digits acc s with Some n => parse_digits n t | None => None end.
Proof.
  revert acc. induction s as [|a s IH]; intros acc; autorewrite with str; simpl; [done|].
  destruct (is_ascii_digit a); [apply IH|done].
Qed.

(** The digits of [pretty]. *)
Lemma pretty_char_digit x :
  (x < 10)%N -> is_ascii_digit (pretty_N_char x) = true /\ digit_val (pretty_N_char x) = Z.of_N x.
Proof.
  intros Hx. destruct x as [|p]; [done|].
  do 4 (destruct p as [p|p|]; try done; try lia).
Qed.

Lemma pretty_N_go_digits x s :
  all_bytes is_ascii_digit s = true ->
  all_bytes is_ascii_digit (pretty_N_go x s) = true /\
  digits_value 0 (pretty_N_go x s) = digits_value (Z.of_N x) s.
Proof.
  revert s. induction (N.lt_wf_0 x) as [x _ IH]; intros s Hs.
  destruct (decide (x = 0%N)) as [->|Hx]; [by rewrite pretty_N_go_0|].
  rewrite pretty_N_go_step by lia.
  destruct (pretty_char_digit (x `mod` 10)) as [Hc Hv]; [by apply N.mod_lt|].
  destruct (IH (x `div` 10)%N) with (s := String (pretty_N_char (x `mod` 10)) s) as [Hd Hval].
  - apply N.div_lt; lia.
  - simpl. by rewrite Hc.
  - split; [done|]. rewrite Hval. cbn [digits_value]. rewrite Hv. f_equal.
    rewrite N2Z.inj_div, N2Z.inj_mod. euclid.
Qed.

Lemma pretty_digits z :
  0 <= z -> all_bytes is_ascii_digit (pretty z) = true /\ digits_value 0 (pretty z) = z.
Proof.
  intros Hz. destruct z as [|p|p]; [done| |lia].
  change (pretty (Z.pos p)) with (pretty (N.pos p)). unfold pretty, pretty_N.
  rewrite decide_False by done. by apply pretty_N_go_digits.
Qed.

Lemma parse_digits_value acc s :
  all_bytes is_ascii_digit s = true -> parse_digits acc s = Some (digits_value acc s).
Proof.
  revert acc. induction s as [|a s IH]; intros acc; simpl; [done|]. intros H. bools.
  match goal with H : is_ascii_digit a = true |- _ => rewrite H end. by apply IH.
Qed.

Lemma pretty_not_empty z : 0 <= z -> pretty z <> EmptyString.
Proof.
  intros Hz He. destruct (decide (z = 0)) as [->|Hn]; [done|].
  destruct (pretty_digits z Hz) as [_ Hv]. rewrite He in Hv. simpl in Hv. lia.
Qed.

(** A number is read back from its text. *)
Lemma parse_u32_pretty z : 0 <= z <= u32_max -> parse_u32 (pretty z) = Some z.
Proof.
  intros Hz. destruct (pretty_digits z) as [Hd Hv]; [lia|].
  pose proof (pretty_not_empty z ltac:(lia)) as Hne. unfold parse_u32.
  destruct (pretty z) as [|a s] eqn:E; [done|].
  assert (Ascii.eqb a "+" = false) as ->.
  { apply Ascii.eqb_neq. intros ->. by simpl in Hd. }
  cbn [is_empty]. rewrite parse_digits_value, Hv by done. by rewrite (proj2 (Z.leb_le _ _)) by lia.
Qed.

Lemma all_bytes_no_byte (p : ascii -> bool) c s :
  p c = false -> all_bytes p s = true -> no_byte c s = true.
Proof.
  intros Hc. apply all_bytes_impl. intros a Ha. destruct (Ascii.eqb_spec a c); [congruence|done].
Qed.

Lemma take_while_app p s t :
  all_bytes p s = true -> take_while p (s +:+ t) = s +:+ take_while p t.
Proof.
  induction s as [|a s IH]; simpl; intros H; [done|]. rewrite !str_app_cons. simpl. bools.
  match goal with H : p a = true |- _ => rewrite H end. by rewrite IH.
Qed.
