(* ===== verification/Errors.v ===== *)
(** * Validation errors (crates/dovecote/src/error.rs) *)

From S2P Require Import Prelude.

Module ValidationKind.
(** Stable low-level reasons for rejecting caller-controlled values. *)
Inductive t : Type :=
  | Empty | Length | Characters | Syntax | MediaType | Json | Combination
  | Range | Precision | ReservedName | Duplicate | TraceContext | Size.

#[global] Instance eq_dec : EqDecision t.
Proof. solve_decision. Defined.

Definition code (self : t) : string :=
  match self with
  | Empty => "empty"
  | Length => "length"
  | Characters => "characters"
  | Syntax => "syntax"
  | MediaType => "media_type"
  | Json => "json"
  | Combination => "combination"
  | Range => "range"
  | Precision => "precision"
  | ReservedName => "reserved_name"
  | Duplicate => "duplicate"
  | TraceContext => "trace_context"
  | Size => "size"
  end.

(** [impl fmt::Display] *)
Definition fmt (self : t) : string :=
  match self with
  | Empty => "must not be empty"
  | Length => "has an invalid byte length"
  | Characters => "contains forbidden characters"
  | Syntax => "has invalid syntax"
  | MediaType => "must be a valid media type"
  | Json => "must contain one valid JSON value encoded as UTF-8"
  | Combination => "is invalid in combination with another value"
  | Range => "is outside the supported range"
  | Precision => "has unsupported precision"
  | ReservedName => "uses a reserved name"
  | Duplicate => "is already present"
  | TraceContext => "does not satisfy the trace-context rules"
  | Size => "exceeds the configured event-size limit"
  end.
End ValidationKind.

Module ValidationOperation.
(** The operation boundary that produced a validation failure. *)
Inductive t : Type := Event | Limit | Duration | OperationalField | State.

#[global] Instance eq_dec : EqDecision t.
Proof. solve_decision. Defined.

Definition code (self : t) : string :=
  match self with
  | Event => "invalid_event"
  | Limit => "invalid_limit"
  | Duration => "invalid_duration"
  | OperationalField => "invalid_operational_field"
  | State => "invalid_state"
  end.
End ValidationOperation.

Module ValidationError.
Record t : Type := Make {
  field : string;
  operation : ValidationOperation.t;
  kind : ValidationKind.t;
}.

#[global] Instance eq_dec : EqDecision t.
Proof. solve_decision. Defined.

Definition new (field : string) (kind : ValidationKind.t) : t :=
  {| field := field; operation := ValidationOperation.Event; kind := kind |}.

Definition with_operation (field : string) (operation : ValidationOperation.t)
    (kind : ValidationKind.t) : t :=
  {| field := field; operation := operation; kind := kind |}.

Definition code (self : t) : string := ValidationKind.code (kind self).
Definition category_code (self : t) : string := ValidationOperation.code (operation self).

(** [#[error("{field}: {kind}")]]: the [Display] text, also [to_english] *)
Definition to_string (self : t) : string :=
  field self +:+ ": " +:+ ValidationKind.fmt (kind self).
End ValidationError.

(** The stable codes identify the reason and the category. *)
Lemma kind_code_inj a b : ValidationKind.code a = ValidationKind.code b -> a = b.
Proof. destruct a, b; simpl; congruence. Qed.

Lemma operation_code_inj a b :
  ValidationOperation.code a = ValidationOperation.code b -> a = b.
Proof. destruct a, b; simpl; congruence. Qed.
