(* ===== verification/Limits.v ===== *)
(** * Public bounds (the constants of crates/dovecote/src/bounds.rs)

    and [std::time::Duration], in which two of them are expressed. *)

From S2P Require Import Prelude.

Module Duration.
(** Whole seconds ([u64]) and nanoseconds below one second ([u32]). *)
Record t : Type := Make { as_secs : Z; subsec_nanos : Z }.

#[global] Instance eq_dec : EqDecision t.
Proof. solve_decision. Defined.

Definition wf (d : t) : Prop :=
  0 <= as_secs d < 2 ^ 64 /\ 0 <= subsec_nanos d < 1000000000.

Definition from_secs (s : Z) : t := Make s 0.
Definition is_zero (d : t) : bool := (as_secs d =? 0) && (subsec_nanos d =? 0).
(** [a > b] *)
Definition gtb (a b : t) : bool :=
  (as_secs b <? as_secs a)
  || ((as_secs a =? as_secs b) && (subsec_nanos b <? subsec_nanos a)).
Definition as_millis (d : t) : Z := as_secs d * 1000 + subsec_nanos d / 1000000.
Definition as_nanos (d : t) : Z := as_secs d * 1000000000 + subsec_nanos d.
End Duration.

Definition MAX_PORTABLE_EVENT_BYTES : Z := 65536.
Definition MAX_CLAIM_OR_PAGE_LIMIT : Z := 1000.
Definition MAX_LEASE : Duration.t := Duration.from_secs (24 * 60 * 60).
Definition MAX_BACKOFF_OR_DELAY : Duration.t := Duration.from_secs (30 * 24 * 60 * 60).

Definition MAX_STREAM_BYTES : Z := 255.
Definition MAX_TENANT_ID_BYTES : Z := 255.
Definition MAX_EVENT_ID_BYTES : Z := 1024.
Definition MAX_EVENT_TYPE_BYTES : Z := 1024.
Definition MAX_SUBJECT_BYTES : Z := 2048.
Definition MAX_SOURCE_BYTES : Z := 2048.
Definition MAX_SCHEMA_URI_BYTES : Z := 2048.
Definition MAX_CONTENT_TYPE_BYTES : Z := 255.
Definition MAX_PARTITION_KEY_BYTES : Z := 255.
Definition MAX_IDENTITY_BYTES : Z := 2048.
Definition MAX_EXTENSION_NAME_BYTES : Z := 20.
Definition MAX_WORKER_ID_BYTES : Z := 255.
Definition MAX_FAILURE_CODE_BYTES : Z := 128.
Definition MAX_FAILURE_DETAIL_BYTES : Z := 2048.
Definition MAX_QUARANTINE_REASON_BYTES : Z := 2048.

Definition TRACEPARENT_VERSION_CHARS : Z := 2.
Definition TRACEPARENT_TRACE_ID_CHARS : Z := 32.
Definition TRACEPARENT_PARENT_ID_CHARS : Z := 16.
Definition TRACEPARENT_FLAGS_CHARS : Z := 2.
Definition MAX_TRACESTATE_BYTES : Z := 512.
Definition MAX_TRACESTATE_MEMBERS : Z := 32.
Definition MAX_TRACESTATE_KEY_BYTES : Z := 256.
Definition MAX_TRACESTATE_VALUE_BYTES : Z := 256.
Definition MAX_TRACESTATE_TENANT_ID_BYTES : Z := 241.
Definition MAX_TRACESTATE_SYSTEM_ID_BYTES : Z := 14.

Definition CLAIM_TOKEN_BYTES : Z := 16.
Definition TAGGED_EXTENSION_FIELDS : Z := 2.
