(* ===== verification/Validation.v ===== *)
(** * Validators (crates/dovecote/src/validation.rs)

    [validate_string] is the common gate of every validated string;
    [validate_traceparent] and [validate_tracestate] are the W3C trace-context
    grammars; [format_timestamp] writes the canonical timestamp text.  The
    theorems characterise each validator by the grammar it accepts. *)

From stdpp Require Import gmap.
From S2P Require Import Prelude Utf8 External Errors Limits.

(** ** Definitions *)

Definition forbidden_char (c : Z) : bool :=
  is_control c
  || in_range 0xFDD0 0xFDEF c
  || (Z.land c 0xFFFF =? 0xFFFF)
  || (Z.land c 0xFFFF =? 0xFFFE).

Definition validate_string (field value : string) (maximum_bytes : option Z)
    (allow_empty : bool) : Result unit ValidationError.t :=
  if negb allow_empty && is_empty value
  then Err (ValidationError.new field ValidationKind.Empty)
  else if is_some_and maximum_bytes (fun max => max <? len value)
  then Err (ValidationError.new field ValidationKind.Length)
  else if existsb forbidden_char (chars value)
  then Err (ValidationError.new field ValidationKind.Characters)
  else Ok tt.

Definition validate_uri_reference `{FluentUri} (field value : string)
    (maximum_bytes : option Z) (allow_empty : bool) : Result unit ValidationError.t :=
  let? _ := validate_string field value maximum_bytes allow_empty in
  if uri_ref_parses value then Ok tt
  else Err (ValidationError.new field ValidationKind.Syntax).

Definition is_lower_hex (a : ascii) : bool :=
  is_ascii_digit a || in_range 97 102 (byte_val a).

Definition valid_lower_hex (part : string) (width : Z) : bool :=
  (len part =? width) && all_bytes is_lower_hex part.

Definition validate_traceparent (value : string) : Result unit ValidationError.t :=
  let invalid := Err (ValidationError.new "traceparent" ValidationKind.TraceContext) in
  match splitn 5 "-"%char value with
  | version :: trace_id :: parent_id :: flags :: future_fields =>
      if negb (valid_lower_hex version TRACEPARENT_VERSION_CHARS)
         || negb (valid_lower_hex trace_id TRACEPARENT_TRACE_ID_CHARS)
         || negb (valid_lower_hex parent_id TRACEPARENT_PARENT_ID_CHARS)
         || negb (valid_lower_hex flags TRACEPARENT_FLAGS_CHARS)
         || bool_decide (version = "ff")
         || all_bytes (Ascii.eqb "0") trace_id
         || all_bytes (Ascii.eqb "0") parent_id
         || (bool_decide (version = "00")
             && (bool_decide (future_fields <> [])
                 || negb (bool_decide (flags = "00") || bool_decide (flags = "01"))))
      then invalid
      else Ok tt
  | _ => invalid
  end.

Definition is_key_byte (a : ascii) : bool :=
  is_ascii_lowercase a || is_ascii_digit a
  || Ascii.eqb a "_" || Ascii.eqb a "*" || Ascii.eqb a "-" || Ascii.eqb a "/".

Definition valid_tracestate_key_part (part : string) (maximum : Z) (tenant : bool) : bool :=
  match part with
  | EmptyString => false
  | String first _ =>
      (len part <=? maximum)
      && (is_ascii_lowercase first || (tenant && is_ascii_digit first))
      && all_bytes is_key_byte part
  end.

Definition valid_tracestate_key (key : string) : bool :=
  match split_once "@" key with
  | Some (tenant, system) =>
      valid_tracestate_key_part tenant MAX_TRACESTATE_TENANT_ID_BYTES true
      && valid_tracestate_key_part system MAX_TRACESTATE_SYSTEM_ID_BYTES false
  | None => valid_tracestate_key_part key MAX_TRACESTATE_KEY_BYTES false
  end.

Definition is_value_byte (a : ascii) : bool :=
  in_range 0x20 0x7e (byte_val a) && negb (Ascii.eqb a "=").

Definition is_blank (a : ascii) : bool := Ascii.eqb a " " || (byte_val a =? 9).

Definition invalid_tracestate : Result unit ValidationError.t :=
  Err (ValidationError.new "tracestate" ValidationKind.TraceContext).

(** The member loop; [keys] is the set of keys already seen. *)
Fixpoint validate_tracestate_members (raw_members : list string) (keys : gset string) :
    Result unit ValidationError.t :=
  match raw_members with
  | [] => Ok tt
  | raw_member :: rest =>
      let member := trim_matches is_blank raw_member in
      if is_empty member then validate_tracestate_members rest keys
      else match split_once "=" member with
      | None => invalid_tracestate
      | Some (key, member_value) =>
          if is_empty key
             || (MAX_TRACESTATE_KEY_BYTES <? len key)
             || is_empty member_value
             || (MAX_TRACESTATE_VALUE_BYTES <? len member_value)
             || negb (valid_tracestate_key key)
             || negb (all_bytes is_value_byte member_value)
             || bool_decide (key ∈ keys)
          then invalid_tracestate
          else validate_tracestate_members rest ({[key]} ∪ keys)
      end
  end.

Definition validate_tracestate (value : string) : Result unit ValidationError.t :=
  if MAX_TRACESTATE_BYTES <? len value then invalid_tracestate
  else
    let raw_members := split "," value in
    if MAX_TRACESTATE_MEMBERS <? Z.of_nat (length raw_members) then invalid_tracestate
    else validate_tracestate_members raw_members ∅.

(** The [expect] of the formatter is the [None] branch. *)
Definition format_timestamp `{TimeLib} (value : OffsetDateTime) : string :=
  match rfc3339_format (to_utc value) with
  | None => ""
  | Some formatted =>
      match split_once "." formatted with
      | None => formatted
      | Some (whole, fraction) =>
          let fraction := match strip_suffix "Z" fraction with
                          | Some f => f
                          | None => fraction
                          end in
          let fraction := trim_end_matches (Ascii.eqb "0") fraction in
          if is_empty fraction then whole +:+ "Z"
          else whole +:+ "." +:+ fraction +:+ "Z"
      end
  end.

(** ** Strings *)

Lemma validate_string_Ok f v max ae :
  validate_string f v max ae = Ok tt <->
  (ae = true \/ v <> "") /\
  is_none_or max (fun m => len v <=? m) = true /\
  forallb (fun c => negb (forbidden_char c)) (chars v) = true.
Proof.
  unfold validate_string.
  assert (Hex : existsb forbidden_char (chars v)
                = negb (forallb (fun c => negb (forbidden_char c)) (chars v))).
  { induction (chars v) as [|c cs IH]; simpl; [done|].
    by rewrite negb_andb, negb_involutive, IH. }
  rewrite Hex.
  destruct ae, v as [|a v]; simpl; destruct max as [m|]; simpl;
    rewrite ?Z.leb_antisym;
    repeat case_match; simplify_eq/=; bools; intuition congruence.
Qed.

(** The value must be nonempty unless empty is allowed, within the byte bound
    and free of control characters and noncharacters; the first of these that
    fails names the error.  Stated on the characters of the string. *)
Definition string_verdict (max : option Z) (ae : bool) (cs : list Z) :
    option ValidationKind.t :=
  if negb ae && match cs with [] => true | _ => false end then Some ValidationKind.Empty
  else if is_some_and max (fun m => m <? len (utf8_encode cs))
  then Some ValidationKind.Length
  else if existsb (fun c => is_control c || in_range 0xFDD0 0xFDEF c
                            || (0xFFFE <=? c mod 0x10000)) cs
  then Some ValidationKind.Characters
  else None.

Lemma utf8_char_cons c : exists a s, utf8_char c = String a s.
Proof. unfold utf8_char. repeat case_match; eauto. Qed.

Lemma is_empty_encode cs :
  is_empty (utf8_encode cs) = match cs with [] => true | _ => false end.
Proof.
  destruct cs as [|c cs]; simpl; [done|].
  destruct (utf8_char_cons c) as (a & s & ->). done.
Qed.

Lemma forbidden_char_noncharacter c :
  forbidden_char c
  = is_control c || in_range 0xFDD0 0xFDEF c || (0xFFFE <=? c mod 0x10000).
Proof.
  unfold forbidden_char. rewrite <- !orb_assoc. do 2 f_equal.
  replace (Z.land c 0xFFFF) with (c mod 0x10000)
    by (symmetry; apply (Z.land_ones c 16); lia).
  pose proof (Z.mod_pos_bound c 0x10000).
  destruct (Z.eqb_spec (c mod 65536) 65535), (Z.eqb_spec (c mod 65536) 65534),
    (Z.leb_spec 65534 (c mod 65536)); simpl; lia.
Qed.

(** On a string of Unicode scalar values, [validate_string] reports
    exactly the first broken rule: empty where that is forbidden, longer than
    the byte bound, or holding a control character or a noncharacter. *)
Theorem validate_string_spec f cs max ae :
  forallb is_scalar cs = true ->
  validate_string f (utf8_encode cs) max ae
  = match string_verdict max ae cs with
    | None => Ok tt
    | Some kind => Err (ValidationError.new f kind)
    end.
Proof.
  intros Hs. unfold validate_string, string_verdict.
  rewrite is_empty_encode, chars_encode by done.
  replace (existsb forbidden_char cs) with
    (existsb (fun c => is_control c || in_range 0xFDD0 0xFDEF c
                       || (0xFFFE <=? c mod 0x10000)) cs).
  { by repeat case_match. }
  induction cs as [|c cs IH]; simpl; [done|]. simpl in Hs. bools.
  by rewrite forbidden_char_noncharacter, IH.
Qed.

(** ** The traceparent grammar *)

Definition traceparent_grammar (value : string) : Prop :=
  exists version trace_id parent_id flags future,
    value = version +:+ "-" +:+ trace_id +:+ "-" +:+ parent_id +:+ "-" +:+ flags +:+ future /\
    (future = "" \/ exists more, future = "-" +:+ more) /\
    len version = 2 /\ len trace_id = 32 /\ len parent_id = 16 /\ len flags = 2 /\
    all_bytes is_lower_hex (version +:+ trace_id +:+ parent_id +:+ flags) = true /\
    version <> "ff" /\
    all_bytes (Ascii.eqb "0") trace_id = false /\
    all_bytes (Ascii.eqb "0") parent_id = false /\
    (version = "00" -> future = "" /\ (flags = "00" \/ flags = "01")).

Lemma lower_hex_no_dash s : all_bytes is_lower_hex s = true -> no_byte "-" s = true.
Proof.
  apply all_bytes_impl. intros a Ha. destruct (Ascii.eqb_spec a "-") as [->|]; [|done].
  vm_compute in Ha. done.
Qed.

Lemma valid_lower_hex_true p w :
  valid_lower_hex p w = true <-> len p = w /\ all_bytes is_lower_hex p = true.
Proof. unfold valid_lower_hex. rewrite andb_true_iff. by rewrite Z.eqb_eq. Qed.

Lemma splitn5_fields value version trace_id parent_id flags future :
  no_byte "-" version = true -> no_byte "-" trace_id = true ->
  no_byte "-" parent_id = true -> no_byte "-" flags = true ->
  value = version +:+ "-" +:+ trace_id +:+ "-" +:+ parent_id +:+ "-" +:+ flags +:+ future ->
  (future = "" -> splitn 5 "-" value = [version; trace_id; parent_id; flags]) /\
  (forall more, future = "-" +:+ more ->
     splitn 5 "-" value = [version; trace_id; parent_id; flags; more]).
Proof.
  intros H1 H2 H3 H4 ->.
  erewrite (splitn_SS _ _ _ version) by (by apply split_once_app).
  erewrite (splitn_SS _ _ _ trace_id) by (by apply split_once_app).
  erewrite (splitn_SS _ _ _ parent_id) by (by apply split_once_app).
  split.
  - intros ->. rewrite str_app_nil_r. simpl.
    by rewrite (proj2 (split_once_None _ _) H4).
  - intros more ->. by erewrite (splitn_SS _ _ _ flags) by (by apply split_once_app).
Qed.

(** The fields [splitn] finds spell the value. *)
Lemma splitn5_inv value version trace_id parent_id flags future_fields :
  splitn 5 "-" value = version :: trace_id :: parent_id :: flags :: future_fields ->
  exists future,
    value = version +:+ "-" +:+ trace_id +:+ "-" +:+ parent_id +:+ "-" +:+ flags +:+ future /\
    (future_fields = [] /\ future = "" \/
     exists more, future_fields = [more] /\ future = "-" +:+ more).
Proof.
  intros H.
  apply splitn_cons_inv in H as (y1 & -> & _ & H); [|done].
  apply splitn_cons_inv in H as (y2 & -> & _ & H); [|done].
  apply splitn_cons_inv in H as (y3 & -> & _ & H); [|done].
  simpl in H. destruct (split_once "-" y3) as [[u v]|] eqn:E; simplify_eq.
  - apply split_once_Some in E as [-> _]. eexists. split; [done|]. right. eauto.
  - exists "". rewrite str_app_nil_r. split; [done|]. by left.
Qed.

(** [validate_traceparent] accepts exactly the W3C grammar: four lower-hex
    fields of the fixed widths, no all-zero identifier, version [ff] refused,
    and for version [00] no further field and only the flags 00 and 01; a later
    version may carry further fields after a dash. *)
Theorem validate_traceparent_grammar value :
  validate_traceparent value = Ok tt <-> traceparent_grammar value.
Proof.
  unfold validate_traceparent, traceparent_grammar,
    TRACEPARENT_VERSION_CHARS, TRACEPARENT_TRACE_ID_CHARS,
    TRACEPARENT_PARENT_ID_CHARS, TRACEPARENT_FLAGS_CHARS.
  split.
  - intros H. destruct (splitn 5 "-" value) as [|v [|t [|p [|fl ff]]]] eqn:E; try done.
    case_match eqn:G; [done|]. bools.
    repeat match goal with
    | H : valid_lower_hex _ _ = true |- _ => apply valid_lower_hex_true in H as [? ?]
    | H : bool_decide _ = false |- _ => apply bool_decide_eq_false in H
    end.
    destruct (splitn5_inv _ _ _ _ _ _ E) as (future & -> & Hf).
    exists v, t, p, fl, future. rewrite !all_bytes_app. split_and!; try done.
    + destruct Hf as [[_ ->]|(more & _ & ->)]; eauto.
    + apply andb_true_iff; split; [done|]. apply andb_true_iff; split; [done|].
      by apply andb_true_iff.
    + intros ->. match goal with H : bool_decide (_ = "00") && _ = false |- _ =>
        rewrite bool_decide_true in H by done; simpl in H end. bools.
      destruct Hf as [[-> ->]|(more & -> & ->)]; [|done]. split; [done|].
      match goal with H : bool_decide (fl = "00") || _ = true |- _ =>
        apply orb_true_iff in H as [H|H]; apply bool_decide_eq_true in H end; auto.
  - intros (v & t & p & fl & future & Hv & Hfut & Lv & Lt & Lp & Lf & Hhex & Hff & Ht & Hp & H00).
    rewrite !all_bytes_app in Hhex. bools.
    destruct (splitn5_fields value v t p fl future) as [S1 S2];
      auto using lower_hex_no_dash.
    assert (Hsplit : exists ff, splitn 5 "-" value = v :: t :: p :: fl :: ff /\
                                (v = "00" -> ff = [])).
    { destruct Hfut as [->|(more & ->)].
      - exists []. auto.
      - exists [more]. split; [by apply S2|]. intros ->. by destruct (H00 eq_refl). }
    destruct Hsplit as (ff & -> & Hff00).
    rewrite !(proj2 (valid_lower_hex_true _ _)) by done.
    rewrite (bool_decide_false (v = "ff")) by done. rewrite Ht, Hp. simpl.
    destruct (decide (v = "00")) as [->|Hne].
    + rewrite (Hff00 eq_refl). rewrite bool_decide_true by done.
      destruct (H00 eq_refl) as [_ [-> | ->]]; done.
    + by rewrite (bool_decide_false (v = "00")).
Qed.

(** ** The tracestate grammar *)

(** One list member: [key = value]; the value holds no further equals sign. *)
Definition tracestate_member (member key : string) : Prop :=
  exists value,
    member = key +:+ "=" +:+ value /\
    0 < len key <= MAX_TRACESTATE_KEY_BYTES /\
    0 < len value <= MAX_TRACESTATE_VALUE_BYTES /\
    valid_tracestate_key key = true /\
    all_bytes is_value_byte value = true.

(** The trimmed members that are not blank. *)
Definition tracestate_list (raw_members : list string) : list string :=
  List.filter (fun m => negb (is_empty m)) (map (trim_matches is_blank) raw_members).

Lemma is_empty_false s : is_empty s = false <-> 0 < len s.
Proof. unfold len. destruct s; simpl; split; intros; try done; lia. Qed.

Lemma key_part_bytes p n t : valid_tracestate_key_part p n t = true -> all_bytes is_key_byte p = true.
Proof. unfold valid_tracestate_key_part. destruct p; [done|]. intros. by bools. Qed.

(** A valid key holds no equals sign, so the first one ends the key. *)
Lemma valid_tracestate_key_no_eq key :
  valid_tracestate_key key = true -> no_byte "=" key = true.
Proof.
  assert (Hb : forall p, all_bytes is_key_byte p = true -> no_byte "=" p = true).
  { intros p. apply all_bytes_impl. intros a Ha.
    destruct (Ascii.eqb_spec a "=") as [->|]; [|done]. by vm_compute in Ha. }
  unfold valid_tracestate_key. destruct (split_once "@" key) as [[u v]|] eqn:E.
  - apply split_once_Some in E as [-> _]. intros H. bools.
    rewrite no_byte_app. rewrite Hb by (by eapply key_part_bytes). simpl.
    unfold no_byte in *. simpl. apply Hb. by eapply key_part_bytes.
  - intros H. apply Hb. by eapply key_part_bytes.
Qed.

Lemma tracestate_member_key member k key value :
  tracestate_member member k -> split_once "=" member = Some (key, value) -> k = key.
Proof.
  intros (v & -> & _ & _ & Hkey & _) E. apply valid_tracestate_key_no_eq in Hkey.
  pose proof (split_once_app "=" k v Hkey) as E'. change ("=" +:+ v) with (String "=" v) in E.
  congruence.
Qed.

(** The guard of the member loop, as the member grammar and a fresh key. *)
Lemma member_guard member key value (keys : gset string) :
  split_once "=" member = Some (key, value) ->
  is_empty key || (MAX_TRACESTATE_KEY_BYTES <? len key) || is_empty value
  || (MAX_TRACESTATE_VALUE_BYTES <? len value) || negb (valid_tracestate_key key)
  || negb (all_bytes is_value_byte value) || bool_decide (key ∈ keys) = false <->
  tracestate_member member key /\ key ∉ keys.
Proof.
  intros E. apply split_once_Some in E as [-> Hk]. split.
  - intros H. bools. rewrite is_empty_false in *. rewrite bool_decide_eq_false in *.
    split; [|done]. exists value. split_and!; auto with lia.
  - intros [(v & Hm & Hlk & Hlv & Hkey & Hv) Hnot].
    apply str_app_inj_l in Hm. rewrite str_app_cons, str_app_nil_l in Hm.
    injection Hm as <-.
    rewrite (proj2 (is_empty_false key)), (proj2 (is_empty_false value)) by lia.
    rewrite (proj2 (Z.ltb_ge _ (len key))), (proj2 (Z.ltb_ge _ (len value))) by lia.
    rewrite Hkey, Hv, bool_decide_false by done. done.
Qed.

Lemma validate_tracestate_members_Ok raw_members keys :
  validate_tracestate_members raw_members keys = Ok tt <->
  exists ks, Forall2 tracestate_member (tracestate_list raw_members) ks /\
             NoDup ks /\ (forall k, k ∈ ks -> k ∉ keys).
Proof.
  revert keys. induction raw_members as [|raw rest IH]; intros keys.
  { simpl. split; [|done]. intros _. exists []. split_and!; [constructor..|].
    by intros k ?%not_elem_of_nil. }
  cbn [validate_tracestate_members]. unfold tracestate_list. cbn [map List.filter].
  fold (tracestate_list rest). cbv zeta.
  destruct (is_empty (trim_matches is_blank raw)) eqn:Em; cbn [negb]; [by rewrite IH|].
  set (member := trim_matches is_blank raw) in *.
  destruct (split_once "=" member) as [[key value]|] eqn:E.
  - case_match eqn:G.
    + split; [done|]. intros (ks & HF & Hnd & Hfresh).
      inversion HF as [|? k ? ks' Hk HF']; subst.
      assert (k = key) as ->.
      { by eapply tracestate_member_key. }
      assert (key ∉ keys) by (apply Hfresh; left).
      pose proof (proj2 (member_guard member key value keys E) (conj Hk H)). congruence.
    + apply (member_guard member key value keys E) in G as [Hm Hnot].
      rewrite IH. split.
      * intros (ks & HF & Hnd & Hfresh). exists (key :: ks). split_and!.
        -- by constructor.
        -- constructor; [|done]. intros Hin. apply Hfresh in Hin. set_solver.
        -- intros k [->|Hin]%elem_of_cons; [done|]. apply Hfresh in Hin. set_solver.
      * intros (ks & HF & Hnd & Hfresh).
        inversion HF as [|? k ? ks' Hk HF']; subst.
        assert (k = key) as ->.
        { by eapply tracestate_member_key. }
        inversion Hnd; subst. exists ks'. split_and!; [done..|].
        intros k Hin. assert (k ∉ keys) by (apply Hfresh; by right).
        assert (k <> key) by (by intros ->). set_solver.
  - split; [done|]. intros (ks & HF & _). inversion HF as [|? k ? ks' Hk HF']; subst.
    destruct Hk as (v & Hm & _). rewrite Hm in E.
    apply split_once_None in E. rewrite no_byte_app in E. bools. done.
Qed.

(** [validate_tracestate] accepts a value of at most 512 bytes and 32 list
    members whose non-blank members are [key=value] pairs of the grammar with
    pairwise distinct keys, and nothing else. *)
Theorem validate_tracestate_grammar value :
  validate_tracestate value = Ok tt <->
  len value <= 512 /\ (length (split "," value) <= 32)%nat /\
  exists keys, Forall2 tracestate_member (tracestate_list (split "," value)) keys /\
               NoDup keys.
Proof.
  unfold validate_tracestate, MAX_TRACESTATE_BYTES, MAX_TRACESTATE_MEMBERS.
  destruct (Z.ltb_spec 512 (len value)); [split; [done|]; lia|].
  destruct (Z.ltb_spec 32 (Z.of_nat (length (split "," value)))); [split; [done|]; lia|].
  rewrite validate_tracestate_members_Ok. split.
  - intros (ks & ? & ? & _). eauto with lia.
  - intros (_ & _ & ks & ? & ?). exists ks. set_solver.
Qed.

(** ** Canonical timestamps *)

Lemma digits_value_app acc d e :
  digits_value acc (d +:+ e) = digits_value (digits_value acc d) e.
Proof.
  revert acc. induction d as [|a d IH]; intros acc; [done|].
  rewrite str_app_cons. simpl. apply IH.
Qed.

Lemma digits_value_zeros acc z :
  all_bytes (Ascii.eqb "0") z = true -> digits_value acc z = acc * 10 ^ len z.
Proof.
  revert acc. induction z as [|a z IH]; intros acc; cbn [all_bytes digits_value].
  - intros _. change (len "") with 0. lia.
  - intros H. apply andb_true_iff in H as [<-%Ascii.eqb_eq Hz].
    rewrite IH by done. unfold len. simpl String.length.
    rewrite Nat2Z.inj_succ, Z.pow_succ_r by lia.
    change (digit_val "0") with 0. lia.
Qed.

(** Trailing zeros do not change the denoted nanoseconds. *)
Lemma frac_nanos_trim d z :
  all_bytes (Ascii.eqb "0") z = true -> len (d +:+ z) <= 9 ->
  frac_nanos (d +:+ z) = frac_nanos d.
Proof.
  intros Hz Hl. rewrite len_app in Hl. unfold frac_nanos.
  rewrite digits_value_app, digits_value_zeros, len_app by done.
  pose proof (len_nonneg d). pose proof (len_nonneg z).
  rewrite <- Z.mul_assoc, <- Z.pow_add_r by lia. do 2 f_equal. lia.
Qed.

Section Timestamps.
Context `{TimeLib} {TL : TimeLaws} {TT : TimeTextLaws}.

(** The fraction is absent or free of trailing zeros. *)
Definition canonical_fraction (d : string) : Prop :=
  d = "" \/ (is_fraction d = true /\ forall e, d <> e +:+ "0").

Definition timestamp_text (sec : Z) (d : string) : string :=
  rfc3339_whole sec +:+ (if is_empty d then "" else "." +:+ d) +:+ "Z".

Lemma second_range n :
  0 <= n <= year_9999_end_nanos -> 0 <= n / 1000000000 <= max_second.
Proof. unfold year_9999_end_nanos, max_second. intros. euclid. Qed.

Lemma whole_dotless sec : 0 <= sec <= max_second -> no_byte "." (rfc3339_whole sec) = true.
Proof. apply whole_no_dot. Qed.

Lemma format_timestamp_shape t :
  0 <= unix_nanos t <= year_9999_end_nanos ->
  exists d, format_timestamp t = timestamp_text (unix_nanos t / 1000000000) d /\
            canonical_fraction d /\ frac_nanos d = unix_nanos t mod 1000000000.
Proof.
  intros Ht. pose proof (second_range _ Ht) as Hsec.
  unfold format_timestamp, timestamp_text.
  pose proof (format_utc (to_utc t)) as Hf. rewrite to_utc_nanos, to_utc_offset in Hf.
  cbv zeta in Hf. destruct Hf as [[-> Hns]|(d & -> & Hd & Hns)]; [done..| |].
  - exists "". split_and!; [|by left|by rewrite Hns].
    rewrite (proj2 (split_once_None _ _)); [done|].
    rewrite no_byte_app, whole_dotless by done. done.
  - pose proof (split_once_app "." _ (d +:+ "Z") (whole_dotless _ Hsec)) as E.
    change ("." +:+ d +:+ "Z") with (String "." (d +:+ "Z")). rewrite E.
    rewrite (strip_suffix_app "Z" d). cbv zeta.
    destruct (trim_end_matches_split (Ascii.eqb "0") d) as (z & Hsplit & Hz).
    set (u := trim_end_matches (Ascii.eqb "0") d) in *.
    exists u. unfold is_fraction in Hd. bools. split_and!.
    + destruct u; [by rewrite str_app_nil_l|done].
    + destruct u as [|b u'] eqn:Eu; [by left|]. right. rewrite <- Eu in *. split.
      * unfold is_fraction.
        assert (len u <= len d) by (rewrite Hsplit, len_app; pose proof (len_nonneg z); lia).
        assert (0 < len u) by (apply is_empty_false; by rewrite Eu).
        rewrite Hsplit, all_bytes_app in *. bools.
        rewrite !(proj2 (Z.leb_le _ _)) by lia. rewrite andb_true_r. by rewrite andb_true_iff.
      * intros e He. rewrite Eu in He. rewrite <- Eu in He. subst u.
        apply trim_end_matches_last in He. done.
    + rewrite <- Hns. rewrite Hsplit. symmetry. apply frac_nanos_trim; [done|].
      by rewrite <- Hsplit.
Qed.

(** Formatting and parsing an instant. *)
Lemma parse_format_timestamp t :
  0 <= unix_nanos t <= year_9999_end_nanos ->
  rfc3339_parse (format_timestamp t) = Ok (to_utc t).
Proof.
  intros Ht. pose proof (second_range _ Ht) as Hsec.
  destruct (format_timestamp_shape t Ht) as (d & -> & Hd & Hns).
  assert (exists u, rfc3339_parse (timestamp_text (unix_nanos t / 1000000000) d) = Ok u /\
            utc_offset u = 0 /\ unix_nanos u = unix_nanos t) as (u & -> & Ho & Hu).
  { unfold timestamp_text. destruct Hd as [->|[Hd _]]; simpl.
    - destruct (parse_whole _ Hsec) as (u & Hp & Ho & Hu).
      exists u. rewrite str_app_nil_l. split_and!; [done..|].
      change (frac_nanos "") with 0 in Hns. euclid.
    - destruct (parse_fraction _ _ Hsec Hd) as (u & Hp & Ho & Hu).
      exists u. destruct (is_empty d) eqn:E.
      { by destruct d. }
      rewrite str_app_assoc. split_and!; [done..|]. rewrite Hu, Hns. euclid. }
  f_equal. apply utc_unique; [by rewrite to_utc_offset|by rewrite to_utc_nanos].
Qed.

(** The canonical timestamp text reads back as the same instant in UTC. *)
Theorem format_timestamp_roundtrip t :
  0 <= unix_nanos t <= year_9999_end_nanos ->
  rfc3339_parse (format_timestamp t) = Ok (to_utc t).
Proof. by apply parse_format_timestamp. Qed.
End Timestamps.
