(* ===== verification/Bounds.v ===== *)
(** * Bounded values (crates/dovecote/src/bounds.rs)

    The checked constructors of row ids, counters, limits, durations, worker
    and failure texts, and the instant checks shared by every timestamp. *)

From S2P Require Import Prelude Utf8 External Errors Limits Validation.

Module RowId.
Record t : Type := Make { get : Z }.

#[global] Instance eq_dec : EqDecision t.
Proof. solve_decision. Defined.

Definition new (value : Z) : Result t ValidationError.t :=
  if 0 <? value then Ok (Make value)
  else Err (ValidationError.with_operation "row_id" ValidationOperation.State
              ValidationKind.Range).
End RowId.

Module AttemptCount.
Record t : Type := Make { get : Z }.

#[global] Instance eq_dec : EqDecision t.
Proof. solve_decision. Defined.

Definition new (value : Z) : Result t ValidationError.t :=
  if 0 <=? value then Ok (Make value)
  else Err (ValidationError.with_operation "attempts" ValidationOperation.State
              ValidationKind.Range).
End AttemptCount.

Module Limit.
Record t : Type := Make { get : Z }.

Definition new (value : Z) : Result t ValidationError.t :=
  if (1 <=? value) && (value <=? MAX_CLAIM_OR_PAGE_LIMIT) then Ok (Make value)
  else Err (ValidationError.with_operation "limit" ValidationOperation.Limit
              ValidationKind.Range).
End Limit.

Definition validate_duration (field : string) (value : Duration.t) (allow_zero : bool)
    (maximum : Duration.t) : Result unit ValidationError.t :=
  if (negb allow_zero && Duration.is_zero value) || Duration.gtb value maximum
  then Err (ValidationError.with_operation field ValidationOperation.Duration
              ValidationKind.Range)
  else if negb (Duration.is_zero value)
          && negb (Duration.subsec_nanos value mod 1000000 =? 0)
  then Err (ValidationError.with_operation field ValidationOperation.Duration
              ValidationKind.Precision)
  else Ok tt.

Module Lease.
Record t : Type := Make { get : Duration.t }.

Definition new (value : Duration.t) : Result t ValidationError.t :=
  let? _ := validate_duration "lease" value false MAX_LEASE in
  Ok (Make value).
End Lease.

Module Delay.
Record t : Type := Make { get : Duration.t }.

Definition new (value : Duration.t) : Result t ValidationError.t :=
  let? _ := validate_duration "delay or backoff" value true MAX_BACKOFF_OR_DELAY in
  Ok (Make value).
End Delay.

Module EventSizeLimit.
Record t : Type := Make { get : Z }.

#[global] Instance eq_dec : EqDecision t.
Proof. solve_decision. Defined.

Definition new (value : Z) : Result t ValidationError.t :=
  if 0 <? value then Ok (Make value)
  else Err (ValidationError.with_operation "event size limit" ValidationOperation.Event
              ValidationKind.Range).

Definition default : t := Make MAX_PORTABLE_EVENT_BYTES.
End EventSizeLimit.

(** The closure [|error| with_operation(error.field(), OperationalField, error.kind())] *)
Definition operational_field (error : ValidationError.t) : ValidationError.t :=
  ValidationError.with_operation (ValidationError.field error)
    ValidationOperation.OperationalField (ValidationError.kind error).

Module WorkerId.
Record t : Type := Make { as_str : string }.

#[global] Instance eq_dec : EqDecision t.
Proof. solve_decision. Defined.

Definition new (value : string) : Result t ValidationError.t :=
  let? _ := map_err operational_field
              (validate_string "worker_id" value (Some MAX_WORKER_ID_BYTES) false) in
  Ok (Make value).
End WorkerId.

Module Failure.
Record t : Type := Make { code : string; detail : string }.

#[global] Instance eq_dec : EqDecision t.
Proof. solve_decision. Defined.

Definition new (code detail : string) : Result t ValidationError.t :=
  let? _ := map_err operational_field
              (validate_string "failure code" code (Some MAX_FAILURE_CODE_BYTES) false) in
  let? _ := map_err operational_field
              (validate_string "failure detail" detail
                 (Some MAX_FAILURE_DETAIL_BYTES) false) in
  Ok (Make code detail).
End Failure.

Module QuarantineReason.
Record t : Type := Make { as_str : string }.

#[global] Instance eq_dec : EqDecision t.
Proof. solve_decision. Defined.

Definition new (value : string) : Result t ValidationError.t :=
  let? _ := map_err operational_field
              (validate_string "quarantine reason" value
                 (Some MAX_QUARANTINE_REASON_BYTES) false) in
  Ok (Make value).
End QuarantineReason.

Definition validate_instant `{TimeLib} (field : string) (value : OffsetDateTime) :
    Result unit ValidationError.t :=
  if negb (in_range unix_epoch_nanos year_9999_end_nanos (unix_nanos value))
  then Err (ValidationError.with_operation field ValidationOperation.State
              ValidationKind.Range)
  else if negb (nanosecond value mod 1000 =? 0)
  then Err (ValidationError.with_operation field ValidationOperation.State
              ValidationKind.Precision)
  else Ok tt.

Definition canonicalize_instant `{TimeLib} (field : string) (value : OffsetDateTime) :
    Result OffsetDateTime ValidationError.t :=
  let? _ := validate_instant field value in
  Ok (to_utc value).

Definition validate_optional_instant `{TimeLib} (field : string)
    (value : option OffsetDateTime) : Result unit ValidationError.t :=
  match value with
  | Some value => validate_instant field value
  | None => Ok tt
  end.

(** ** Durations *)

(** A duration of at most [max] seconds that is a whole number of
    milliseconds. *)
Definition whole_millis (lo max : Z) (d : Duration.t) : Prop :=
  exists ms, Duration.as_nanos d = ms * 1000000 /\ lo <= ms <= max * 1000.

Lemma validate_duration_Ok field d allow_zero max :
  Duration.wf d ->
  validate_duration field d allow_zero (Duration.from_secs max) = Ok tt <->
  whole_millis (if allow_zero then 0 else 1) max d.
Proof.
  intros [Hs Hn]. unfold validate_duration, whole_millis, Duration.gtb, Duration.is_zero,
    Duration.as_nanos. destruct d as [s n]. cbn -[Z.mul Z.pow] in *. split.
  - destruct (Z.ltb_spec max s), (Z.eqb_spec s max), (Z.ltb_spec 0 n), allow_zero,
      (Z.eqb_spec s 0), (Z.eqb_spec n 0), (Z.eqb_spec (n mod 1000000) 0);
      simpl; intros; try done; exists (s * 1000 + n / 1000000); euclid.
  - intros (ms & Hms & Hr).
    assert (Hm : n mod 1000000 = 0) by euclid.
    rewrite Hm. rewrite andb_false_r.
    replace (_ || _) with false; [done|]. symmetry.
    destruct (Z.ltb_spec max s); [destruct allow_zero; euclid|].
    destruct (Z.eqb_spec s max), (Z.ltb_spec 0 n), allow_zero,
      (Z.eqb_spec s 0), (Z.eqb_spec n 0); simpl; try done; euclid.
Qed.

(** [Lease::new] accepts exactly the durations of a positive whole number
    of milliseconds up to one day, and [Delay::new] exactly the whole
    milliseconds, zero included, up to thirty days; both keep the duration. *)
Theorem lease_delay_accept d :
  Duration.wf d ->
  (Lease.new d = Ok (Lease.Make d) <-> whole_millis 1 86400 d) /\
  (Delay.new d = Ok (Delay.Make d) <-> whole_millis 0 2592000 d).
Proof.
  intros Hd. unfold Lease.new, Delay.new.
  rewrite <- (validate_duration_Ok "lease" d false 86400 Hd),
    <- (validate_duration_Ok "delay or backoff" d true 2592000 Hd).
  change (Duration.from_secs 86400) with MAX_LEASE.
  change (Duration.from_secs 2592000) with MAX_BACKOFF_OR_DELAY.
  split.
  - by destruct (validate_duration "lease" d false MAX_LEASE) as [[]|].
  - by destruct (validate_duration "delay or backoff" d true MAX_BACKOFF_OR_DELAY) as [[]|].
Qed.

Lemma Lease_new_get d l : Lease.new d = Ok l -> l = Lease.Make d /\ validate_duration "lease" d false MAX_LEASE = Ok tt.
Proof. unfold Lease.new. intros. case_match; simplify_eq. by destruct value. Qed.

Lemma RowId_new_Ok z id : RowId.new z = Ok id <-> RowId.get id = z /\ 0 < z.
Proof.
  unfold RowId.new. destruct (Z.ltb_spec 0 z); split.
  - by intros [= <-].
  - destruct id. by intros [<- _].
  - done.
  - lia.
Qed.

Lemma AttemptCount_new_Ok z n : AttemptCount.new z = Ok n <-> AttemptCount.get n = z /\ 0 <= z.
Proof.
  unfold AttemptCount.new. destruct (Z.leb_spec 0 z); split.
  - by intros [= <-].
  - destruct n. by intros [<- _].
  - done.
  - lia.
Qed.

(** ** Instants *)

(** An instant of the supported range at microsecond precision. *)
Definition portable_instant `{TimeLib} (t : OffsetDateTime) : Prop :=
  0 <= unix_nanos t <= year_9999_end_nanos /\ unix_nanos t mod 1000 = 0.

Section Instants.
Context `{TimeLib} {TL : TimeLaws}.

Lemma validate_instant_Ok field t :
  validate_instant field t = Ok tt <-> portable_instant t.
Proof.
  unfold validate_instant, portable_instant, unix_epoch_nanos. rewrite nanosecond_spec.
  replace ((unix_nanos t mod 1000000000) mod 1000) with (unix_nanos t mod 1000) by euclid.
  destruct (in_range _ _ _) eqn:E; simpl.
  - apply in_range_true in E. case_match eqn:G; bools; naive_solver.
  - apply in_range_false in E. naive_solver.
Qed.

Lemma canonicalize_instant_Ok field t u :
  canonicalize_instant field t = Ok u <-> portable_instant t /\ u = to_utc t.
Proof.
  unfold canonicalize_instant. rewrite <- (validate_instant_Ok field t).
  case_match; [destruct value|]; naive_solver.
Qed.

Lemma portable_to_utc t : portable_instant (to_utc t) <-> portable_instant t.
Proof. unfold portable_instant. by rewrite to_utc_nanos. Qed.

Lemma to_utc_idemp t : to_utc (to_utc t) = to_utc t.
Proof. apply utc_unique; by rewrite ?to_utc_offset, ?to_utc_nanos. Qed.

Lemma to_utc_id t : utc_offset t = 0 -> to_utc t = t.
Proof. intros Hz. apply utc_unique; [by rewrite to_utc_offset|by rewrite to_utc_nanos]. Qed.
End Instants.
#[export] Hint Rewrite @to_utc_nanos @to_utc_offset @to_utc_idemp using (by eauto) : time.
