(* ===== verification/Values.v ===== *)
(** * Validated values (crates/dovecote/src/value.rs)

    One module per value type: the text it holds and its checked constructor. *)

From S2P Require Import Prelude Utf8 External Errors Limits Validation Bounds.

Module StreamName.
Record t : Type := Make { as_str : string }.

#[global] Instance eq_dec : EqDecision t.
Proof. solve_decision. Defined.

Definition is_stream_byte (a : ascii) : bool :=
  is_ascii_alphanumeric a || Ascii.eqb a "." || Ascii.eqb a "_" || Ascii.eqb a "-".

Definition new (value : string) : Result t ValidationError.t :=
  let? _ := validate_string "stream" value (Some MAX_STREAM_BYTES) false in
  if negb (all_bytes is_stream_byte value)
  then Err (ValidationError.new "stream" ValidationKind.Characters)
  else if negb match value with
               | String first _ => is_ascii_alphanumeric first
               | EmptyString => false
               end
  then Err (ValidationError.new "stream" ValidationKind.Characters)
  else Ok (Make value).
End StreamName.

(** [macro_rules! bounded_string]: the constructor shared by [EventId],
    [EventType], [EventSubject] and [PartitionKey] *)
Definition bounded_string {T : Type} (make : string -> T) (field : string) (maximum : Z)
    (value : string) : Result T ValidationError.t :=
  let? _ := validate_string field value (Some maximum) false in
  Ok (make value).

Module EventId.
Record t : Type := Make { as_str : string }.
#[global] Instance eq_dec : EqDecision t.
Proof. solve_decision. Defined.
Definition new : string -> Result t ValidationError.t :=
  bounded_string Make "event id" MAX_EVENT_ID_BYTES.
End EventId.

Module EventType.
Record t : Type := Make { as_str : string }.
#[global] Instance eq_dec : EqDecision t.
Proof. solve_decision. Defined.
Definition new : string -> Result t ValidationError.t :=
  bounded_string Make "event type" MAX_EVENT_TYPE_BYTES.
End EventType.

Module EventSubject.
Record t : Type := Make { as_str : string }.
#[global] Instance eq_dec : EqDecision t.
Proof. solve_decision. Defined.
Definition new : string -> Result t ValidationError.t :=
  bounded_string Make "subject" MAX_SUBJECT_BYTES.
End EventSubject.

Module PartitionKey.
Record t : Type := Make { as_str : string }.
#[global] Instance eq_dec : EqDecision t.
Proof. solve_decision. Defined.
Definition new : string -> Result t ValidationError.t :=
  bounded_string Make "partition key" MAX_PARTITION_KEY_BYTES.
End PartitionKey.

Module TenantId.
Record t : Type := Make { as_str : string }.
#[global] Instance eq_dec : EqDecision t.
Proof. solve_decision. Defined.

Definition new (value : string) : Result t ValidationError.t :=
  let? _ := validate_string "tenant id" value (Some MAX_TENANT_ID_BYTES) false in
  if trim_is_empty value then Err (ValidationError.new "tenant id" ValidationKind.Empty)
  else Ok (Make value).
End TenantId.

Module EventSource.
Record t : Type := Make { as_str : string }.
#[global] Instance eq_dec : EqDecision t.
Proof. solve_decision. Defined.

Definition new `{FluentUri} (value : string) : Result t ValidationError.t :=
  let? _ := validate_uri_reference "source" value (Some MAX_SOURCE_BYTES) false in
  Ok (Make value).
End EventSource.

Module AbsoluteUri.
Record t : Type := Make { as_str : string }.
#[global] Instance eq_dec : EqDecision t.
Proof. solve_decision. Defined.

Definition new `{FluentUri} (value : string) : Result t ValidationError.t :=
  let? _ := validate_string "URI" value None false in
  if uri_parses value then Ok (Make value)
  else Err (ValidationError.new "URI" ValidationKind.Syntax).
End AbsoluteUri.

Module UriReference.
Record t : Type := Make { as_str : string }.
#[global] Instance eq_dec : EqDecision t.
Proof. solve_decision. Defined.

Definition new `{FluentUri} (value : string) : Result t ValidationError.t :=
  let? _ := validate_uri_reference "URI-reference" value None false in
  Ok (Make value).
End UriReference.

Module SchemaUri.
Record t : Type := Make { uri : AbsoluteUri.t }.
#[global] Instance eq_dec : EqDecision t.
Proof. solve_decision. Defined.

Definition new `{FluentUri} (value : string) : Result t ValidationError.t :=
  let? _ := validate_string "schema URI" value (Some MAX_SCHEMA_URI_BYTES) false in
  let? u := AbsoluteUri.new value in
  Ok (Make u).

Definition as_str (self : t) : string := AbsoluteUri.as_str (uri self).
End SchemaUri.

Module ContentType.
Record t : Type := Make { as_str : string }.
#[global] Instance eq_dec : EqDecision t.
Proof. solve_decision. Defined.

Definition new `{MimeLib} (value : string) : Result t ValidationError.t :=
  let? _ := validate_string "datacontenttype" value (Some MAX_CONTENT_TYPE_BYTES) false in
  match mime_from_str value with
  | Some _ => Ok (Make value)
  | None => Err (ValidationError.new "datacontenttype" ValidationKind.MediaType)
  end.

(** The [expect] on a value that [new] accepted is the [None] branch. *)
Definition is_json `{MimeLib} (self : t) : bool :=
  match mime_from_str (as_str self) with
  | Some media_type => mime_subtype_is_json media_type || mime_suffix_is_json media_type
  | None => false
  end.
End ContentType.

Module JsonData.
Record t : Type := Make { as_bytes : bytes }.
#[global] Instance eq_dec : EqDecision t.
Proof. solve_decision. Defined.

Definition new `{SerdeJson} (value : bytes) : Result t ValidationError.t :=
  if negb (valid_utf8 value) then Err (ValidationError.new "JSON data" ValidationKind.Json)
  else match json_from_slice value with
       | Some _ => Ok (Make value)
       | None => Err (ValidationError.new "JSON data" ValidationKind.Json)
       end.

(** The [expect] on bytes that [new] accepted is the [None] branch. *)
Definition as_value `{SerdeJson} (self : t) : Value :=
  match json_from_slice (as_bytes self) with Some v => v | None => VNull end.
End JsonData.

Module EventData.
Inductive t : Type :=
  | Json (data : JsonData.t)
  | Binary (data : bytes).

#[global] Instance eq_dec : EqDecision t.
Proof. solve_decision. Defined.

Definition json `{SerdeJson} (value : bytes) : Result t ValidationError.t :=
  let? d := JsonData.new value in Ok (Json d).

Definition binary (value : bytes) : t := Binary value.

Definition as_bytes (self : t) : bytes :=
  match self with
  | Json value => JsonData.as_bytes value
  | Binary value => value
  end.

Definition is_json (self : t) : bool :=
  match self with Json _ => true | Binary _ => false end.
End EventData.

(** ** Constructed values

    Every constructor keeps the text it was given; a value is well formed when
    its constructor returns it for its own text, which is the only way Rust
    code outside the module obtains one. *)

Create HintDb values discriminated.

Ltac solve_new :=
  intros; repeat (case_match; simplify_eq/=); simplify_eq/=; try done.

Lemma StreamName_new_as_str s v : StreamName.new s = Ok v -> StreamName.as_str v = s.
Proof. unfold StreamName.new. solve_new. Qed.
Lemma EventId_new_as_str s v : EventId.new s = Ok v -> EventId.as_str v = s.
Proof. unfold EventId.new, bounded_string. solve_new. Qed.
Lemma EventType_new_as_str s v : EventType.new s = Ok v -> EventType.as_str v = s.
Proof. unfold EventType.new, bounded_string. solve_new. Qed.
Lemma EventSubject_new_as_str s v : EventSubject.new s = Ok v -> EventSubject.as_str v = s.
Proof. unfold EventSubject.new, bounded_string. solve_new. Qed.
Lemma PartitionKey_new_as_str s v : PartitionKey.new s = Ok v -> PartitionKey.as_str v = s.
Proof. unfold PartitionKey.new, bounded_string. solve_new. Qed.
Lemma TenantId_new_as_str s v : TenantId.new s = Ok v -> TenantId.as_str v = s.
Proof. unfold TenantId.new. solve_new. Qed.
Lemma EventSource_new_as_str `{FluentUri} s v : EventSource.new s = Ok v -> EventSource.as_str v = s.
Proof. unfold EventSource.new. solve_new. Qed.
Lemma AbsoluteUri_new_as_str `{FluentUri} s v : AbsoluteUri.new s = Ok v -> AbsoluteUri.as_str v = s.
Proof. unfold AbsoluteUri.new. solve_new. Qed.
Lemma UriReference_new_as_str `{FluentUri} s v : UriReference.new s = Ok v -> UriReference.as_str v = s.
Proof. unfold UriReference.new. solve_new. Qed.
Lemma SchemaUri_new_as_str `{FluentUri} s v : SchemaUri.new s = Ok v -> SchemaUri.as_str v = s.
Proof. unfold SchemaUri.new, SchemaUri.as_str, AbsoluteUri.new. solve_new. Qed.
Lemma ContentType_new_as_str `{MimeLib} s v : ContentType.new s = Ok v -> ContentType.as_str v = s.
Proof. unfold ContentType.new. solve_new. Qed.
Lemma EventData_json_bytes `{SerdeJson} s v : EventData.json s = Ok v -> EventData.as_bytes v = s.
Proof. unfold EventData.json, JsonData.new. solve_new. Qed.

(** The [expect]s of [ContentType::is_json] and [JsonData::as_value] cannot
    fail on a constructed value. *)
Lemma ContentType_new_parses `{MimeLib} s v :
  ContentType.new s = Ok v -> is_Some (mime_from_str (ContentType.as_str v)).
Proof. unfold ContentType.new. solve_new. Qed.
Lemma JsonData_new_parses `{SerdeJson} s v :
  JsonData.new s = Ok v -> is_Some (json_from_slice (JsonData.as_bytes v)).
Proof. unfold JsonData.new. solve_new. Qed.

(** ** Byte bounds of constructed values *)

Lemma validate_string_len f v m ae : validate_string f v (Some m) ae = Ok tt -> len v <= m.
Proof. intros Hv. apply validate_string_Ok in Hv as (_ & Hv & _). simpl in Hv. by bools. Qed.

Lemma validate_string_unit f v m ae (r : unit) : validate_string f v m ae = Ok r -> validate_string f v m ae = Ok tt.
Proof. by destruct r. Qed.

(** Reduces a constructor's success to the success of its [validate_string]. *)
Ltac solve_len :=
  let Hn := fresh in
  intros Hn; repeat (case_match; simplify_eq/=);
  eapply validate_string_len, validate_string_unit; eassumption.

Lemma StreamName_new_len s v : StreamName.new s = Ok v -> len s <= 255.
Proof. unfold StreamName.new. solve_len. Qed.
Lemma EventId_new_len s v : EventId.new s = Ok v -> len s <= 1024.
Proof. unfold EventId.new, bounded_string. solve_len. Qed.
Lemma EventType_new_len s v : EventType.new s = Ok v -> len s <= 1024.
Proof. unfold EventType.new, bounded_string. solve_len. Qed.
Lemma EventSubject_new_len s v : EventSubject.new s = Ok v -> len s <= 2048.
Proof. unfold EventSubject.new, bounded_string. solve_len. Qed.
Lemma PartitionKey_new_len s v : PartitionKey.new s = Ok v -> len s <= 255.
Proof. unfold PartitionKey.new, bounded_string. solve_len. Qed.
Lemma EventSource_new_len `{FluentUri} s v : EventSource.new s = Ok v -> len s <= 2048.
Proof. unfold EventSource.new, validate_uri_reference. solve_len. Qed.
Lemma SchemaUri_new_len `{FluentUri} s v : SchemaUri.new s = Ok v -> len s <= 2048.
Proof. unfold SchemaUri.new. solve_len. Qed.
Lemma ContentType_new_len `{MimeLib} s v : ContentType.new s = Ok v -> len s <= 255.
Proof. unfold ContentType.new. solve_len. Qed.
Lemma TenantId_new_len s v : TenantId.new s = Ok v -> 0 < len s <= 255.
Proof.
  unfold TenantId.new. intros Hn. destruct (validate_string _ _ _ _) as [[]|] eqn:E; [|done].
  split; [|by eapply validate_string_len].
  apply validate_string_Ok in E as ([?|Hne] & _); [done|].
  destruct s; [done|]. unfold len. simpl. lia.
Qed.
