(* ===== verification/BTree.v ===== *)
(** * [std::collections::BTreeMap] with string keys

    The entries in ascending byte-wise key order, which is the iteration order
    of the Rust map; every operation keeps the list strictly sorted. *)

From S2P Require Import Prelude.

(** Strict byte-wise order on strings, [Ord] of [str]. *)
Definition slt (a b : string) : Prop := String.compare a b = Lt.

#[global] Instance slt_dec a b : Decision (slt a b).
Proof. unfold slt. solve_decision. Defined.

Lemma compare_refl a : String.compare a a = Eq.
Proof.
  induction a as [|c a IH]; simpl; [done|].
  unfold Ascii.compare. by rewrite N.compare_refl.
Qed.

Lemma slt_spec a b : slt a b <-> String.le a b /\ a <> b.
Proof.
  unfold slt, String.le, String.leb. split.
  - intros H. rewrite H. split; [done|]. intros ->.
    rewrite compare_refl in H. done.
  - intros [H Hne]. destruct (String.compare a b) eqn:E; [|done|done].
    apply String.compare_eq_iff in E. done.
Qed.

Lemma slt_irrefl a : ~ slt a a.
Proof. rewrite slt_spec. naive_solver. Qed.

Lemma slt_trans a b c : slt a b -> slt b c -> slt a c.
Proof.
  rewrite !slt_spec. intros [H1 N1] [H2 N2]. split; [by transitivity b|].
  intros ->. apply N2. by apply (anti_symm String.le).
Qed.

Lemma slt_asym a b : slt a b -> ~ slt b a.
Proof. intros H1 H2. eapply slt_irrefl. by eapply slt_trans. Qed.

Lemma compare_Gt a b : String.compare a b = Gt -> slt b a.
Proof. unfold slt. rewrite (String.compare_antisym a b). by destruct (String.compare b a). Qed.

Section BTree.
Context {V : Type}.
Implicit Types m : list (string * V).

Fixpoint btree_insert (m : list (string * V)) (key : string) (v : V) : list (string * V) :=
  match m with
  | [] => [(key, v)]
  | (k, w) :: m' =>
      match String.compare key k with
      | Lt => (key, v) :: m
      | Eq => (k, v) :: m'
      | Gt => (k, w) :: btree_insert m' key v
      end
  end.

Fixpoint btree_get (m : list (string * V)) (key : string) : option V :=
  match m with
  | [] => None
  | (k, w) :: m => if decide (k = key) then Some w else btree_get m key
  end.

Definition btree_contains_key (m : list (string * V)) (key : string) : bool :=
  match btree_get m key with Some _ => true | None => false end.

Definition keys_of (m : list (string * V)) : list string := map fst m.

Definition btree_wf (m : list (string * V)) : Prop := StronglySorted slt (keys_of m).

Lemma keys_insert m key v k :
  k ∈ keys_of (btree_insert m key v) <-> k = key \/ k ∈ keys_of m.
Proof.
  induction m as [|[k' w] m IH]; simpl; [set_solver|].
  destruct (String.compare key k') eqn:E; simpl.
  - apply String.compare_eq_iff in E. set_solver.
  - set_solver.
  - rewrite !elem_of_cons. fold (keys_of (btree_insert m key v)). rewrite IH.
    unfold keys_of. naive_solver.
Qed.

Lemma btree_insert_wf m key v : btree_wf m -> btree_wf (btree_insert m key v).
Proof.
  unfold btree_wf. induction m as [|[k' w] m IH]; simpl; intros Hs; [repeat constructor|].
  inversion Hs as [|? ? Hs' Hall]; subst.
  destruct (String.compare key k') eqn:E; simpl.
  - done.
  - constructor; [done|]. constructor; [done|].
    eapply Forall_impl; [done|]. intros x Hx. by eapply slt_trans.
  - constructor; [by apply IH|]. apply Forall_forall. intros x Hx.
    apply (keys_insert m key v x) in Hx as [->|Hx]; [by apply compare_Gt|].
    by eapply Forall_forall in Hall.
Qed.

Lemma btree_get_insert m key v k :
  btree_get (btree_insert m key v) k = if decide (key = k) then Some v else btree_get m k.
Proof.
  induction m as [|[k' w] m IH]; simpl.
  - repeat case_decide; congruence.
  - destruct (String.compare key k') eqn:E; simpl.
    + apply String.compare_eq_iff in E as ->. by repeat case_decide.
    + by repeat case_decide.
    + rewrite IH. apply compare_Gt in E. repeat case_decide; subst; try done.
      by apply slt_irrefl in E.
Qed.

Lemma btree_get_None m k : btree_get m k = None <-> k ∉ keys_of m.
Proof.
  induction m as [|[k' w] m IH]; simpl; [set_solver|].
  case_decide; set_solver.
Qed.

Lemma btree_get_elem m k v : btree_get m k = Some v -> (k, v) ∈ m.
Proof.
  induction m as [|[k' w] m IH]; simpl; [done|].
  case_decide; intros; simplify_eq; set_solver.
Qed.

Lemma btree_elem_get m k v : btree_wf m -> (k, v) ∈ m -> btree_get m k = Some v.
Proof.
  unfold btree_wf. induction m as [|[k' w] m IH]; simpl; intros Hs Hin; [set_solver|].
  inversion Hs as [|? ? Hs' Hall]; subst.
  apply elem_of_cons in Hin as [[= -> ->]|Hin]; [by rewrite decide_True|].
  rewrite decide_False; [by apply IH|]. intros ->.
  rewrite Forall_forall in Hall. eapply slt_irrefl, Hall.
  apply list_elem_of_fmap. by exists (k, v).
Qed.

Lemma sorted_NoDup (l : list string) : StronglySorted slt l -> NoDup l.
Proof.
  induction 1 as [|x l Hs IH Hall]; constructor; [|done].
  intros Hin. rewrite Forall_forall in Hall. by eapply slt_irrefl, Hall.
Qed.

(** Inserting a key above all others appends it. *)
Lemma btree_insert_last m key v :
  Forall (fun k => slt k key) (keys_of m) -> btree_insert m key v = m ++ [(key, v)].
Proof.
  induction m as [|[k w] m IH]; simpl; intros H; [done|].
  inversion H; subst.
  replace (String.compare key k) with Gt; [by rewrite IH|].
  rewrite (String.compare_antisym key k). unfold slt in *. by rewrite H2.
Qed.

(** A sorted list is rebuilt by inserting its entries in order. *)
Lemma btree_rebuild m :
  btree_wf m -> fold_left (fun acc e => btree_insert acc e.1 e.2) m [] = m.
Proof.
  intros Hs.
  assert (Hg : forall acc, btree_wf (acc ++ m) ->
    fold_left (fun acc e => btree_insert acc e.1 e.2) m acc = acc ++ m).
  { clear Hs. induction m as [|[k v] m IH]; intros acc Hs; simpl; [by rewrite app_nil_r|].
    assert (Hlast : btree_insert acc k v = acc ++ [(k, v)]).
    { apply btree_insert_last. unfold btree_wf, keys_of in Hs. rewrite map_app in Hs.
      simpl in Hs. clear IH. unfold keys_of. induction acc as [|[k' w] acc IHa]; [constructor|].
      simpl in *. inversion Hs as [|? ? Hs' Hall]; subst. constructor; [|by apply IHa].
      apply Forall_app in Hall as [_ Hall]. by inversion Hall. }
    rewrite Hlast, IH; [by rewrite <- app_assoc|]. by rewrite <- app_assoc. }
  by apply (Hg []).
Qed.

(** Two sorted maps with the same lookups are equal. *)
Lemma btree_ext m1 m2 :
  btree_wf m1 -> btree_wf m2 -> (forall k, btree_get m1 k = btree_get m2 k) -> m1 = m2.
Proof.
  unfold btree_wf. revert m2.
  assert (Hhd : forall (m : list (string * V)) k, Forall (slt k) (keys_of m) -> btree_get m k = None).
  { intros m k Hall. apply btree_get_None. intros Hin.
    rewrite Forall_forall in Hall. by eapply slt_irrefl, Hall. }
  induction m1 as [|[k1 v1] m1 IH]; intros [|[k2 v2] m2] H1 H2 Heq; [done|..].
  - specialize (Heq k2). simpl in Heq. case_decide; congruence.
  - specialize (Heq k1). simpl in Heq. case_decide; congruence.
  - inversion H1 as [|? ? Hs1 Ha1]; inversion H2 as [|? ? Hs2 Ha2]; subst.
    assert (k1 = k2) as ->.
    { destruct (String.compare k1 k2) eqn:E; [by apply String.compare_eq_iff in E|..].
      - specialize (Heq k1). simpl in Heq. rewrite decide_True in Heq by done.
        rewrite decide_False in Heq by (intros ->; by eapply slt_irrefl).
        rewrite Hhd in Heq; [done|]. eapply Forall_impl; [exact Ha2|].
        intros x Hx. by eapply slt_trans.
      - apply compare_Gt in E. specialize (Heq k2). simpl in Heq.
        rewrite decide_False in Heq by (intros ->; by eapply slt_irrefl).
        rewrite decide_True in Heq by done.
        rewrite Hhd in Heq; [done|]. eapply Forall_impl; [exact Ha1|].
        intros x Hx. by eapply slt_trans. }
    pose proof (Heq k2) as Hv. simpl in Hv. rewrite !decide_True in Hv by done.
    simplify_eq. f_equal. apply IH; [done..|]. intros k. specialize (Heq k). simpl in Heq.
    case_decide; [|done]. subst. by rewrite !Hhd.
Qed.
End BTree.
