(* ===== verification/Extension.v ===== *)
(** * Extension attributes (crates/dovecote/src/extension.rs)

    Typed extension values, the ordered extension set, its canonical durable
    JSON and the decoder that accepts exactly that form. *)

From S2P Require Import Prelude Utf8 External BTree Errors Limits Validation Bounds Values.

Module ExtensionName.
Record t : Type := Make { as_str : string }.
#[global] Instance eq_dec : EqDecision t.
Proof. solve_decision. Defined.

Definition is_name_byte (a : ascii) : bool := is_ascii_lowercase a || is_ascii_digit a.

Definition reserved : list string :=
  ["id"; "source"; "type"; "specversion"; "subject"; "time"; "datacontenttype";
   "dataschema"; "data"; "data_base64"; "partitionkey"].

Definition new (value : string) : Result t ValidationError.t :=
  if is_empty value
  then Err (ValidationError.new "extension name" ValidationKind.Empty)
  else if MAX_EXTENSION_NAME_BYTES <? len value
  then Err (ValidationError.new "extension name" ValidationKind.Length)
  else if negb (all_bytes is_name_byte value)
  then Err (ValidationError.new "extension name" ValidationKind.Characters)
  else if bool_decide (value ∈ reserved)
  then Err (ValidationError.new "extension name" ValidationKind.ReservedName)
  else Ok (Make value).
End ExtensionName.

Module ExtensionString.
Record t : Type := Make { as_str : string }.
#[global] Instance eq_dec : EqDecision t.
Proof. solve_decision. Defined.

Definition new (value : string) : Result t ValidationError.t :=
  let? _ := validate_string "extension string" value None true in
  Ok (Make value).
End ExtensionString.

Module Timestamp.
Record t `{TimeLib} : Type := Make { get : OffsetDateTime }.
Arguments Make {_} _.
Arguments get {_} _.

Definition new `{TimeLib} (value : OffsetDateTime) : Result t ValidationError.t :=
  let? value := canonicalize_instant "extension timestamp" value in
  Ok (Make value).
End Timestamp.

Module ExtensionValue.
Inductive t `{TimeLib} : Type :=
  | Boolean (value : bool)
  | Integer (value : Z)
  | String (value : ExtensionString.t)
  | Binary (value : bytes)
  | Uri (value : AbsoluteUri.t)
  | UriReference (value : UriReference.t)
  | Timestamp (value : Timestamp.t).

Section Ops.
Context `{TimeLib, JsonNumber, Base64, FluentUri}.

Definition string (value : string) : Result t ValidationError.t :=
  let? v := ExtensionString.new value in Ok (String v).
Definition uri (value : Strings.String.string) : Result t ValidationError.t :=
  let? v := AbsoluteUri.new value in Ok (Uri v).
Definition uri_reference (value : Strings.String.string) : Result t ValidationError.t :=
  let? v := UriReference.new value in Ok (UriReference v).
Definition timestamp (value : OffsetDateTime) : Result t ValidationError.t :=
  let? v := Timestamp.new value in Ok (Timestamp v).

Definition structured_json_value (self : t) : Value :=
  match self with
  | Boolean value => VBool value
  | Integer value => VNumber (number_of_i32 value)
  | String value => VString (ExtensionString.as_str value)
  | Binary value => VString (base64_encode value)
  | Uri value => VString (AbsoluteUri.as_str value)
  | UriReference value => VString (UriReference.as_str value)
  | Timestamp value => VString (format_timestamp (Timestamp.get value))
  end.

Definition tagged_json (self : t) : Value :=
  let '(type_name, value) :=
    match self with
    | Boolean value => ("boolean", VBool value)
    | Integer value => ("integer", VNumber (number_of_i32 value))
    | String value => ("string", VString (ExtensionString.as_str value))
    | Binary value => ("binary", VString (base64_encode value))
    | Uri value => ("uri", VString (AbsoluteUri.as_str value))
    | UriReference value => ("uri-reference", VString (UriReference.as_str value))
    | Timestamp value => ("timestamp", VString (format_timestamp (Timestamp.get value)))
    end in
  let tagged := map_insert [] "type" (VString type_name) in
  let tagged := map_insert tagged "value" value in
  VObject tagged.

Definition as_string (self : t) : option Strings.String.string :=
  match self with
  | String value => Some (ExtensionString.as_str value)
  | _ => None
  end.
End Ops.
End ExtensionValue.

Module ExtensionDecodeError.
Inductive t : Type :=
  | Json (message : string)
  | InvalidName (source : ValidationError.t)
  | InvalidShape (name : string)
  | InvalidValue (name type_name : string) (source : option ValidationError.t)
  | InvalidBinary (name message : string)
  | InvalidTimestamp (name message : string)
  | InvalidExtensions (source : ValidationError.t)
  | NonCanonical
  | UnsupportedType (name type_name : string).

(** the [#[error(..)]] display texts *)
Definition to_string (self : t) : string :=
  match self with
  | Json message => "extensions JSON is invalid: " +:+ message
  | InvalidName source => "extension name is invalid: " +:+ ValidationError.to_string source
  | InvalidShape name => "extension " +:+ name +:+ " has invalid shape"
  | InvalidValue name type_name _ =>
      "extension " +:+ name +:+ " has invalid " +:+ type_name +:+ " value"
  | InvalidBinary name message =>
      "extension " +:+ name +:+ " has invalid binary data: " +:+ message
  | InvalidTimestamp name message =>
      "extension " +:+ name +:+ " has invalid timestamp: " +:+ message
  | InvalidExtensions source =>
      "extension set is invalid: " +:+ ValidationError.to_string source
  | NonCanonical => "extensions JSON is not the canonical durable representation"
  | UnsupportedType name type_name =>
      "extension " +:+ name +:+ " uses unsupported type " +:+ type_name
  end.
End ExtensionDecodeError.

Section Decode.
Context `{TimeLib, JsonNumber, Base64, FluentUri}.
Import ExtensionDecodeError.

Definition invalid_extension_value (name type_name : string) : ExtensionDecodeError.t :=
  InvalidValue name type_name None.

Definition invalid_extension_value_with_source (name type_name : string)
    (source : ValidationError.t) : ExtensionDecodeError.t :=
  InvalidValue name type_name (Some source).

Definition decode_validated_string (name type_name : string) (value : Value)
    (constructor : string -> Result ExtensionValue.t ValidationError.t) :
    Result ExtensionValue.t ExtensionDecodeError.t :=
  let? value := ok_or (as_str value) (InvalidValue name type_name None) in
  map_err (fun source => InvalidValue name type_name (Some source)) (constructor value).

Definition decode_binary (name : string) (value : Value) :
    Result ExtensionValue.t ExtensionDecodeError.t :=
  let? value := ok_or (as_str value) (invalid_extension_value name "binary") in
  match base64_decode value with
  | Ok b => Ok (ExtensionValue.Binary b)
  | Err message => Err (InvalidBinary name message)
  end.

Definition decode_timestamp (name type_name : string) (value : Value) :
    Result ExtensionValue.t ExtensionDecodeError.t :=
  let? value := ok_or (as_str value) (invalid_extension_value name type_name) in
  let? timestamp := map_err (InvalidTimestamp name) (rfc3339_parse value) in
  if negb (bool_decide (format_timestamp timestamp = value))
  then Err (invalid_extension_value name type_name)
  else map_err (invalid_extension_value_with_source name type_name)
         (ExtensionValue.timestamp timestamp).
End Decode.

Module Extensions.
(** [BTreeMap<ExtensionName, ExtensionValue>]: the names are the keys *)
Abbreviation t := (list (string * ExtensionValue.t)).

Section Ops.
Context `{TimeLib, SerdeJson, Base64, FluentUri}.

Definition new : t := [].

Definition insert (self : t) (name : ExtensionName.t) (value : ExtensionValue.t) :
    Result t ValidationError.t :=
  if btree_contains_key self (ExtensionName.as_str name)
  then Err (ValidationError.new "extension name" ValidationKind.Duplicate)
  else Ok (btree_insert self (ExtensionName.as_str name) value).

Definition get (self : t) (name : ExtensionName.t) : option ExtensionValue.t :=
  btree_get self (ExtensionName.as_str name).

(** the JSON object of [canonical_json] *)
Definition canonical_object (self : t) : Value :=
  VObject (fold_left (fun object entry =>
             map_insert object entry.1 (ExtensionValue.tagged_json entry.2)) self []).

Definition canonical_json (self : t) : string :=
  json_to_string (canonical_object self).

Definition validate_trace_extension (self : t) (name : string)
    (validator : string -> Result unit ValidationError.t) :
    Result unit ValidationError.t :=
  let extension := btree_get self name in
  match extension with
  | None => Ok tt
  | Some value =>
      match ExtensionValue.as_string value with
      | Some value => validator value
      | None => Err (ValidationError.new name ValidationKind.TraceContext)
      end
  end.

Definition validate_trace_context (self : t) : Result unit ValidationError.t :=
  let traceparent := btree_get self "traceparent" in
  let tracestate := btree_get self "tracestate" in
  if match tracestate, traceparent with Some _, None => true | _, _ => false end
  then Err (ValidationError.new "tracestate" ValidationKind.TraceContext)
  else
    let? _ := validate_trace_extension self "traceparent" validate_traceparent in
    let? _ := validate_trace_extension self "tracestate" validate_tracestate in
    Ok tt.

(** The [match type_name.as_str()] of the decoder. *)
Definition decode_value (name type_name : string) (value : Value) :
    Result ExtensionValue.t ExtensionDecodeError.t :=
  if bool_decide (type_name = "boolean") then
    ok_or (option_map ExtensionValue.Boolean (as_bool value))
      (ExtensionDecodeError.InvalidValue name type_name None)
  else if bool_decide (type_name = "integer") then
    match as_i64 value with
    | Some z =>
        if in_range i32_min i32_max z then Ok (ExtensionValue.Integer z)
        else Err (ExtensionDecodeError.InvalidValue name type_name None)
    | None => Err (ExtensionDecodeError.InvalidValue name type_name None)
    end
  else if bool_decide (type_name = "string") then
    decode_validated_string name type_name value ExtensionValue.string
  else if bool_decide (type_name = "binary") then decode_binary name value
  else if bool_decide (type_name = "uri") then
    decode_validated_string name type_name value ExtensionValue.uri
  else if bool_decide (type_name = "uri-reference") then
    decode_validated_string name type_name value ExtensionValue.uri_reference
  else if bool_decide (type_name = "timestamp") then
    decode_timestamp name type_name value
  else Err (ExtensionDecodeError.UnsupportedType name type_name).

(** One member of the decoded object. *)
Definition decode_entry (name : string) (tagged : Value) :
    Result (ExtensionName.t * ExtensionValue.t) ExtensionDecodeError.t :=
  let? extension_name :=
    map_err ExtensionDecodeError.InvalidName (ExtensionName.new name) in
  match tagged with
  | VObject tagged =>
    if negb (Z.of_nat (length tagged) =? TAGGED_EXTENSION_FIELDS)
    then Err (ExtensionDecodeError.InvalidShape name)
    else
    match map_remove tagged "type" with
    | (Some (VString type_name), tagged) =>
      match map_remove tagged "value" with
      | (Some value, _) =>
        let? extension_value := decode_value name type_name value in
        Ok (extension_name, extension_value)
      | (None, _) => Err (ExtensionDecodeError.InvalidShape name)
      end
    | _ => Err (ExtensionDecodeError.InvalidShape name)
    end
  | _ => Err (ExtensionDecodeError.InvalidShape name)
  end.

(** The loop over the members of the decoded object. *)
Fixpoint decode_entries (entries : Map) (extensions : t) :
    Result t ExtensionDecodeError.t :=
  match entries with
  | [] => Ok extensions
  | (name, tagged) :: entries =>
      let? entry := decode_entry name tagged in
      decode_entries entries
        (btree_insert extensions (ExtensionName.as_str entry.1) entry.2)
  end.

Definition from_canonical_json (value : string) : Result t ExtensionDecodeError.t :=
  let encoded := value in
  let? value := map_err ExtensionDecodeError.Json (json_from_str value) in
  match value with
  | VObject entries =>
      let? extensions := decode_entries entries new in
      let? _ := map_err ExtensionDecodeError.InvalidExtensions
                  (validate_trace_context extensions) in
      if negb (bool_decide (canonical_json extensions = encoded))
      then Err ExtensionDecodeError.NonCanonical
      else Ok extensions
  | _ => Err (ExtensionDecodeError.InvalidShape "<root>")
  end.
End Ops.
End Extensions.

(** ** Constructed extension values and sets *)

Section WellFormed.
Context `{TimeLib, SerdeJson, Base64, FluentUri}.

(** The value is what its checked constructor returns; an integer is an [i32]. *)
Definition value_wf (v : ExtensionValue.t) : Prop :=
  match v with
  | ExtensionValue.Boolean _ | ExtensionValue.Binary _ => True
  | ExtensionValue.Integer z => i32_min <= z <= i32_max
  | ExtensionValue.String s => ExtensionString.new (ExtensionString.as_str s) = Ok s
  | ExtensionValue.Uri u => AbsoluteUri.new (AbsoluteUri.as_str u) = Ok u
  | ExtensionValue.UriReference u => UriReference.new (UriReference.as_str u) = Ok u
  | ExtensionValue.Timestamp t => Timestamp.new (Timestamp.get t) = Ok t
  end.

Definition name_wf (name : string) : Prop :=
  ExtensionName.new name = Ok (ExtensionName.Make name).

Definition extensions_wf (e : Extensions.t) : Prop :=
  btree_wf e /\ Forall (fun '(name, value) => name_wf name /\ value_wf value) e.

Lemma ExtensionName_new_Ok s n : ExtensionName.new s = Ok n -> n = ExtensionName.Make s.
Proof. unfold ExtensionName.new. intros. by repeat (case_match; simplify_eq). Qed.

Lemma name_not_reserved name : name_wf name -> name ∉ ExtensionName.reserved.
Proof.
  unfold name_wf, ExtensionName.new. intros Hn.
  repeat (case_match; simplify_eq). by eapply bool_decide_eq_false_1.
Qed.

Lemma insert_wf e name value e' :
  extensions_wf e -> ExtensionName.new (ExtensionName.as_str name) = Ok name ->
  value_wf value -> Extensions.insert e name value = Ok e' -> extensions_wf e'.
Proof.
  intros [Hs Hall] Hn Hv. unfold Extensions.insert. case_match; intros; simplify_eq.
  split; [by apply btree_insert_wf|].
  apply Forall_forall. intros [k w] Hin.
  pose proof (btree_insert_wf _ (ExtensionName.as_str name) value Hs) as Hwf.
  apply (btree_elem_get _ _ _ Hwf) in Hin. rewrite btree_get_insert in Hin.
  case_decide as Hk; simplify_eq.
  - split; [|done]. unfold name_wf. rewrite Hn. by destruct name.
  - apply btree_get_elem in Hin. rewrite Forall_forall in Hall. by apply (Hall _ Hin).
Qed.

Lemma canonical_object_map e :
  btree_wf e ->
  Extensions.canonical_object e
  = VObject (map (fun entry => (entry.1, ExtensionValue.tagged_json entry.2)) e).
Proof.
  intros Hs. unfold Extensions.canonical_object.
  rewrite (map_insert_all fst (fun a => ExtensionValue.tagged_json a.2) e []); [done|].
  by apply sorted_NoDup.
Qed.

Lemma tagged_json_wf v : json_wf (ExtensionValue.tagged_json v).
Proof.
  destruct v; cbn; (split; [|done]); repeat constructor; set_solver.
Qed.

Lemma canonical_object_wf e : btree_wf e -> json_wf (Extensions.canonical_object e).
Proof.
  intros Hs. rewrite canonical_object_map by done. cbn. split.
  - rewrite map_map. by apply sorted_NoDup.
  - clear Hs. induction e as [|[k v] e IH]; simpl; [done|].
    split; [apply tagged_json_wf|done].
Qed.
End WellFormed.

(** ** Round trip and soundness of the durable form *)

Section RoundTrip.
Context `{TimeLib, SerdeJson, Base64, FluentUri}.
Context {TL : TimeLaws} {TT : TimeTextLaws} {NL : JsonNumberLaws}
  {SL : SerdeJsonLaws} {BL : Base64Laws}.

Lemma Timestamp_wf_parse t :
  Timestamp.new (Timestamp.get t) = Ok t ->
  rfc3339_parse (format_timestamp (Timestamp.get t)) = Ok (Timestamp.get t).
Proof.
  unfold Timestamp.new. destruct (canonicalize_instant _ _) as [u|] eqn:E; [|done].
  intros [= Ht]. apply canonicalize_instant_Ok in E as [[Hr _] Hu].
  rewrite parse_format_timestamp by done. rewrite <- Hu, <- Ht. done.
Qed.

Lemma decode_entry_pair name ty val :
  name_wf name ->
  Extensions.decode_entry name (VObject [("type", VString ty); ("value", val)])
  = map_ok (pair (ExtensionName.Make name)) (Extensions.decode_value name ty val).
Proof.
  intros Hn. unfold Extensions.decode_entry. rewrite Hn. cbn [map_err].
  change (negb (Z.of_nat (length [("type", VString ty); ("value", val)])
                =? TAGGED_EXTENSION_FIELDS)) with false.
  change (map_remove [("type", VString ty); ("value", val)] "type")
    with (Some (VString ty), [("value", val)]). cbv iota beta.
  change (map_remove [("value", val)] "value") with (Some val, @nil (string * Value)).
  cbv iota beta. destruct (Extensions.decode_value name ty val); reflexivity.
Qed.

(** Decoding a tagged member gives back the value. *)
Lemma decode_entry_tagged name v :
  name_wf name -> value_wf v ->
  Extensions.decode_entry name (ExtensionValue.tagged_json v)
  = Ok (ExtensionName.Make name, v).
Proof.
  intros Hn Hv.
  assert (exists ty val, ExtensionValue.tagged_json v = VObject [("type", VString ty); ("value", val)]
            /\ Extensions.decode_value name ty val = Ok v) as (ty & val & -> & Hd).
  { destruct v; (eexists; eexists; split; [reflexivity|]); cbn in *;
      unfold Extensions.decode_value, decode_validated_string, decode_binary, decode_timestamp; cbn.
    - done.
    - rewrite number_of_i32_as_i64 by done. rewrite (proj2 (in_range_true _ _ _)) by exact Hv. done.
    - unfold ExtensionValue.string. by rewrite Hv.
    - by rewrite base64_roundtrip.
    - unfold ExtensionValue.uri. by rewrite Hv.
    - unfold ExtensionValue.uri_reference. by rewrite Hv.
    - do 6 rewrite bool_decide_false by done. rewrite bool_decide_true by done.
      rewrite Timestamp_wf_parse by done. simpl. rewrite bool_decide_true by done. simpl.
      unfold ExtensionValue.timestamp. by rewrite Hv. }
  by rewrite decode_entry_pair, Hd.
Qed.

Lemma decode_entries_tagged e acc :
  Forall (fun '(name, value) => name_wf name /\ value_wf value) e ->
  Extensions.decode_entries
    (map (fun entry => (entry.1, ExtensionValue.tagged_json entry.2)) e) acc
  = Ok (fold_left (fun m entry => btree_insert m entry.1 entry.2) e acc).
Proof.
  revert acc. induction e as [|[k v] e IH]; intros acc Hall; [done|].
  apply Forall_cons in Hall as [[Hk Hv] Hall']. cbn.
  rewrite decode_entry_tagged by done. by apply IH.
Qed.

(** *** What a decoded entry is *)

Lemma constructed_wf s v :
  (ExtensionValue.string s = Ok v \/ ExtensionValue.uri s = Ok v \/
   ExtensionValue.uri_reference s = Ok v) -> value_wf v.
Proof.
  unfold ExtensionValue.string, ExtensionValue.uri, ExtensionValue.uri_reference.
  intros [E|[E|E]].
  - unfold ExtensionString.new in E. repeat (case_match; simplify_eq/=).
    unfold ExtensionString.new. by case_match; simplify_eq.
  - destruct (AbsoluteUri.new s) eqn:En; simplify_eq/=.
    by rewrite (AbsoluteUri_new_as_str _ _ En).
  - destruct (UriReference.new s) eqn:En; simplify_eq/=.
    by rewrite (UriReference_new_as_str _ _ En).
Qed.

Lemma Timestamp_new_wf t v : Timestamp.new t = Ok v -> Timestamp.new (Timestamp.get v) = Ok v.
Proof.
  unfold Timestamp.new. destruct (canonicalize_instant _ t) as [u|] eqn:E; [|done].
  intros [= <-]. simpl. apply canonicalize_instant_Ok in E as [Hp ->].
  rewrite (proj2 (canonicalize_instant_Ok _ _ (to_utc t))); [done|].
  rewrite portable_to_utc, to_utc_idemp. done.
Qed.

Lemma decode_value_wf name ty val v :
  Extensions.decode_value name ty val = Ok v -> value_wf v.
Proof.
  unfold Extensions.decode_value, decode_validated_string, decode_binary, decode_timestamp.
  intros Hd. repeat case_bool_decide.
  - destruct (as_bool val); by simplify_eq/=.
  - destruct (as_i64 val) as [z|]; [|done]. destruct (in_range _ _ _) eqn:E; simplify_eq.
    by apply in_range_true in E.
  - destruct (as_str val); [|done]. simpl in Hd. eapply constructed_wf. left.
    destruct (ExtensionValue.string _) eqn:E; by simplify_eq/=.
  - destruct (as_str val); [|done]. simpl in Hd. by repeat (case_match; simplify_eq/=).
  - destruct (as_str val); [|done]. simpl in Hd. eapply constructed_wf. right; left.
    destruct (ExtensionValue.uri _) eqn:E; by simplify_eq/=.
  - destruct (as_str val); [|done]. simpl in Hd. eapply constructed_wf. right; right.
    destruct (ExtensionValue.uri_reference _) eqn:E; by simplify_eq/=.
  - destruct (as_str val); [|done]. simpl in Hd.
    destruct (rfc3339_parse _) as [t|]; simpl in Hd; [|done].
    case_bool_decide; simpl in Hd; [|done].
    unfold ExtensionValue.timestamp in Hd.
    destruct (Timestamp.new t) eqn:E; simplify_eq/=. by eapply Timestamp_new_wf.
  - done.
Qed.

Lemma decode_entry_wf name tagged n v :
  Extensions.decode_entry name tagged = Ok (n, v) ->
  n = ExtensionName.Make name /\ name_wf name /\ value_wf v.
Proof.
  unfold Extensions.decode_entry.
  destruct (ExtensionName.new name) as [n'|] eqn:En; [|done].
  pose proof (ExtensionName_new_Ok _ _ En) as ->. simpl.
  intros Hd. repeat (case_match; simplify_eq/=). split_and!; [done..|].
  by eapply decode_value_wf.
Qed.

Lemma decode_entries_wf entries acc e :
  Extensions.decode_entries entries acc = Ok e -> extensions_wf acc -> extensions_wf e.
Proof.
  revert acc. induction entries as [|[name tagged] entries IH]; simpl; intros acc Hd Hacc.
  { by simplify_eq. }
  destruct (Extensions.decode_entry name tagged) as [[n v]|] eqn:E; [|done].
  apply decode_entry_wf in E as (-> & Hn & Hv). eapply IH; [exact Hd|].
  destruct Hacc as [Hs Hall]. split; [by apply btree_insert_wf|].
  apply Forall_forall. intros [k w] Hin.
  apply (btree_elem_get _ _ _ (btree_insert_wf _ name v Hs)) in Hin.
  rewrite btree_get_insert in Hin. case_decide; simplify_eq/=; [done|].
  apply btree_get_elem in Hin. rewrite Forall_forall in Hall. by apply (Hall _ Hin).
Qed.

(** The texts the decoder accepts. *)
Lemma from_canonical_json_Ok encoded e :
  Extensions.from_canonical_json encoded = Ok e <->
  encoded = Extensions.canonical_json e /\ extensions_wf e /\
  Extensions.validate_trace_context e = Ok tt.
Proof.
  unfold Extensions.from_canonical_json. split.
  - destruct (json_from_str encoded) as [v|]; simpl; [|done].
    destruct v as [| | | | |entries]; try done.
    destruct (Extensions.decode_entries entries Extensions.new) as [e'|] eqn:Ed; [|done].
    destruct (Extensions.validate_trace_context e') as [[]|] eqn:Et; simpl; [|done].
    case_bool_decide; simpl; [|done]. intros [= <-]. split_and!; [done| |done].
    eapply decode_entries_wf; [exact Ed|]. split; [constructor|constructor].
  - intros (-> & [Hs Hall] & Ht).
    unfold Extensions.canonical_json at 1.
    rewrite json_roundtrip by (by apply canonical_object_wf).
    rewrite canonical_object_map by done. simpl.
    rewrite decode_entries_tagged by done.
    unfold Extensions.new. rewrite btree_rebuild by done.
    rewrite Ht. simpl. by rewrite bool_decide_true.
Qed.

End RoundTrip.
