(* ===== verification/Serialization.v ===== *)
(** * Event serialization (crates/dovecote/src/serialization.rs)

    The structured JSON object with its fixed member order, the canonical form
    of JSON data, and the byte accounting of the binary binding. *)

From S2P Require Import Prelude Utf8 External BTree Errors Limits Validation Bounds Values Extension.

(** [crate::SPEC_VERSION] *)
Definition SPEC_VERSION : string := "1.0".

(** [EventContent] of event.rs: the fields shared by [NewEvent] and [StoredEvent] *)
Module EventContent.
Record t `{TimeLib} : Type := Make {
  stream : StreamName.t;
  id : EventId.t;
  source : EventSource.t;
  event_type : EventType.t;
  subject : option EventSubject.t;
  time : option OffsetDateTime;
  datacontenttype : option ContentType.t;
  dataschema : option SchemaUri.t;
  partitionkey : option PartitionKey.t;
  extensions : Extensions.t;
  data : option EventData.t;
}.
End EventContent.

Section Serialization.
Context `{TimeLib, SerdeJson, Base64, FluentUri}.

Definition insert_optional_json_member (object : Map) (name : string)
    (value : option Value) : Map :=
  match value with
  | Some value => map_insert object name value
  | None => object
  end.

(** Members sorted by key at every depth; arrays keep their order. *)
Fixpoint canonicalize_json (value : Value) : Value :=
  match value with
  | VObject object =>
      let sorted :=
        (fix go (entries : Map) (sorted : Map) : Map :=
           match entries with
           | [] => sorted
           | (key, value) :: entries =>
               go entries (btree_insert sorted key (canonicalize_json value))
           end) object [] in
      VObject (fold_left (fun object entry => map_insert object entry.1 entry.2) sorted [])
  | VArray values => VArray (map canonicalize_json values)
  | value => value
  end.

(** The object that [structured_json_bytes] serializes. *)
Definition structured_object (content : EventContent.t) : Map :=
  let object := map_insert [] "specversion" (VString SPEC_VERSION) in
  let object := map_insert object "id" (VString (EventId.as_str (EventContent.id content))) in
  let object := map_insert object "source"
                  (VString (EventSource.as_str (EventContent.source content))) in
  let object := map_insert object "type"
                  (VString (EventType.as_str (EventContent.event_type content))) in
  let object := insert_optional_json_member object "subject"
                  (option_map (fun value => VString (EventSubject.as_str value))
                     (EventContent.subject content)) in
  let object := insert_optional_json_member object "time"
                  (option_map (fun value => VString (format_timestamp value))
                     (EventContent.time content)) in
  let object := insert_optional_json_member object "datacontenttype"
                  (option_map (fun value => VString (ContentType.as_str value))
                     (EventContent.datacontenttype content)) in
  let object := insert_optional_json_member object "dataschema"
                  (option_map (fun value => VString (SchemaUri.as_str value))
                     (EventContent.dataschema content)) in
  let object := insert_optional_json_member object "partitionkey"
                  (option_map (fun value => VString (PartitionKey.as_str value))
                     (EventContent.partitionkey content)) in
  let object :=
    fold_left (fun object entry =>
                 map_insert object entry.1 (ExtensionValue.structured_json_value entry.2))
      (EventContent.extensions content) object in
  match EventContent.data content with
  | Some (EventData.Json value) =>
      map_insert object "data" (canonicalize_json (JsonData.as_value value))
  | Some (EventData.Binary value) =>
      map_insert object "data_base64" (VString (base64_encode value))
  | None => object
  end.

Definition structured_json_bytes (content : EventContent.t) :
    Result bytes ValidationError.t :=
  ok_or (json_to_vec (structured_object content))
    (ValidationError.new "event" ValidationKind.Json).

Definition extension_binary_string (value : ExtensionValue.t) : string :=
  match value with
  | ExtensionValue.Boolean value => if value then "true" else "false"
  | ExtensionValue.Integer value => pretty_i32 value
  | ExtensionValue.String value => ExtensionString.as_str value
  | ExtensionValue.Binary value => base64_encode value
  | ExtensionValue.Uri value => AbsoluteUri.as_str value
  | ExtensionValue.UriReference value => UriReference.as_str value
  | ExtensionValue.Timestamp value => format_timestamp (Timestamp.get value)
  end.

Definition add_binary_context (size : Z) (name value : string) : Z :=
  saturating_add usize_max
    (saturating_add usize_max (saturating_add usize_max size (len name)) 4)
    (saturating_mul usize_max (len value) 3).

Definition add_optional_binary_context (size : Z) (name : string)
    (value : option string) : Z :=
  match value with
  | Some value => add_binary_context size name value
  | None => size
  end.

Definition binary_material_bytes (content : EventContent.t) : Result Z ValidationError.t :=
  let size := match EventContent.data content with
              | Some value => len (EventData.as_bytes value)
              | None => 0
              end in
  let size := add_binary_context size "ce-specversion" SPEC_VERSION in
  let size := add_binary_context size "ce-id" (EventId.as_str (EventContent.id content)) in
  let size := add_binary_context size "ce-source"
                (EventSource.as_str (EventContent.source content)) in
  let size := add_binary_context size "ce-type"
                (EventType.as_str (EventContent.event_type content)) in
  let size := add_optional_binary_context size "ce-subject"
                (option_map EventSubject.as_str (EventContent.subject content)) in
  let size := add_optional_binary_context size "ce-time"
                (option_map format_timestamp (EventContent.time content)) in
  let size := add_optional_binary_context size "ce-dataschema"
                (option_map SchemaUri.as_str (EventContent.dataschema content)) in
  let size := add_optional_binary_context size "ce-partitionkey"
                (option_map PartitionKey.as_str (EventContent.partitionkey content)) in
  let size :=
    fold_left (fun size entry =>
                 add_binary_context size ("ce-" +:+ entry.1)
                   (extension_binary_string entry.2))
      (EventContent.extensions content) size in
  let size :=
    match EventContent.datacontenttype content with
    | Some value =>
        let header_name :=
          if len "Content-Type" <? len "ce-datacontenttype" then "ce-datacontenttype"
          else "Content-Type" in
        add_binary_context size header_name (ContentType.as_str value)
    | None => size
    end in
  Ok size.
End Serialization.

(** ** Canonical JSON data *)

Section ValueInd.
Context `{JsonNumber} (P : Value -> Prop).
Hypothesis Pnull : P VNull.
Hypothesis Pbool : forall b, P (VBool b).
Hypothesis Pnumber : forall n, P (VNumber n).
Hypothesis Pstring : forall s, P (VString s).
Hypothesis Parray : forall vs, Forall P vs -> P (VArray vs).
Hypothesis Pobject : forall m, Forall (fun e => P e.2) m -> P (VObject m).

(** Induction over JSON values, with the hypothesis for every element and
    member. *)
Definition Value_ind_nested : forall v, P v :=
  fix go v := match v with
  | VNull => Pnull
  | VBool b => Pbool b
  | VNumber n => Pnumber n
  | VString s => Pstring s
  | VArray vs => Parray vs ((fix all vs : Forall P vs := match vs with
                              | [] => Forall_nil_2 P
                              | v :: vs => Forall_cons_2 P v vs (go v) (all vs)
                              end) vs)
  | VObject m => Pobject m ((fix all m : Forall (fun e => P e.2) m := match m with
                              | [] => Forall_nil_2 _
                              | e :: m => Forall_cons_2 _ e m
                                            (let (k, v) as e return P e.2 := e in go v) (all m)
                              end) m)
  end.
End ValueInd.

(** Two values that differ only in the order of object members. *)
Inductive json_equiv `{JsonNumber} : Value -> Value -> Prop :=
  | equiv_null : json_equiv VNull VNull
  | equiv_bool b : json_equiv (VBool b) (VBool b)
  | equiv_number n : json_equiv (VNumber n) (VNumber n)
  | equiv_string s : json_equiv (VString s) (VString s)
  | equiv_array vs ws : Forall2 json_equiv vs ws -> json_equiv (VArray vs) (VArray ws)
  | equiv_object m m' w :
      m ≡ₚ m' -> Forall2 (fun e f => e.1 = f.1 /\ json_equiv e.2 f.2) m' w ->
      json_equiv (VObject m) (VObject w).

(** Every object lists its members in strictly ascending key order. *)
Fixpoint json_sorted `{JsonNumber} (v : Value) : Prop :=
  match v with
  | VArray vs => (fix all (l : list Value) : Prop :=
                    match l with [] => True | v :: l => json_sorted v /\ all l end) vs
  | VObject m => btree_wf m /\
                 (fix all (l : Map) : Prop :=
                    match l with [] => True | (_, v) :: l => json_sorted v /\ all l end) m
  | _ => True
  end.

Section Canonical.
Context `{JsonNumber}.
Implicit Types m : Map.

Lemma json_sorted_array vs : json_sorted (VArray vs) <-> Forall json_sorted vs.
Proof. induction vs; simpl in *; [by split|]. by rewrite Forall_cons, IHvs. Qed.
Lemma json_sorted_object m :
  json_sorted (VObject m) <-> btree_wf m /\ Forall (fun e => json_sorted e.2) m.
Proof.
  simpl. f_equiv. induction m as [|[k v] m IH]; simpl; [by split|].
  by rewrite Forall_cons, IH.
Qed.
Lemma json_wf_array vs : json_wf (VArray vs) <-> Forall json_wf vs.
Proof. induction vs; simpl in *; [by split|]. by rewrite Forall_cons, IHvs. Qed.
Lemma json_wf_object m :
  json_wf (VObject m) <-> NoDup (map fst m) /\ Forall (fun e => json_wf e.2) m.
Proof.
  simpl. f_equiv. induction m as [|[k v] m IH]; simpl; [by split|].
  by rewrite Forall_cons, IH.
Qed.

(** The members of the canonical object. *)
Definition sort_members (m : Map) : Map :=
  fold_left (fun acc e => btree_insert acc e.1 e.2) m [].
Definition canon_entry (e : string * Value) : string * Value :=
  (e.1, canonicalize_json e.2).

Lemma fold_insert_wf m acc :
  btree_wf acc -> btree_wf (fold_left (fun acc e => btree_insert acc e.1 e.2) m acc).
Proof. revert acc. induction m as [|e m IH]; simpl; auto using btree_insert_wf. Qed.

Lemma sort_members_wf m : btree_wf (sort_members m).
Proof. apply fold_insert_wf. constructor. Qed.

Lemma btree_wf_NoDup m : btree_wf m -> NoDup (map fst m).
Proof. apply sorted_NoDup. Qed.

Lemma map_insert_rebuild m :
  NoDup (map fst m) -> fold_left (fun o e => map_insert o e.1 e.2) m [] = m.
Proof.
  intros Hnd. rewrite (map_insert_all fst snd); [|done]. simpl.
  rewrite <- (map_id m) at 2. apply map_ext. by intros [].
Qed.

Lemma canonicalize_object m :
  canonicalize_json (VObject m) = VObject (sort_members (map canon_entry m)).
Proof.
  simpl. f_equal. set (go := fix go (entries : Map) (sorted : Map) : Map := _).
  assert (Hgo : forall m acc, go m acc =
    fold_left (fun acc e => btree_insert acc e.1 e.2) (map canon_entry m) acc).
  { clear m. induction m as [|[k v] m IH]; simpl; [done|]. intros. apply IH. }
  rewrite Hgo. apply map_insert_rebuild, btree_wf_NoDup, sort_members_wf.
Qed.
End Canonical.

Section CanonicalSort.
Context `{JsonNumber}.
Implicit Types m : Map.

Lemma btree_insert_perm m k v :
  k ∉ keys_of m -> btree_insert m k v ≡ₚ (k, v) :: m.
Proof.
  induction m as [|[k' w] m IH]; simpl; intros Hk; [done|].
  destruct (String.compare k k') eqn:E; [|done|].
  - apply String.compare_eq_iff in E. set_solver.
  - rewrite IH by set_solver. apply perm_swap.
Qed.

Lemma sort_members_perm m : NoDup (map fst m) -> sort_members m ≡ₚ m.
Proof.
  intros Hnd. unfold sort_members.
  enough (Hg : forall acc, NoDup (keys_of acc ++ map fst m) ->
    fold_left (fun acc e => btree_insert acc e.1 e.2) m acc ≡ₚ acc ++ m) by by apply Hg.
  clear Hnd. induction m as [|[k v] m IH]; intros acc Hnd; simpl; [by rewrite app_nil_r|].
  simpl in Hnd. assert (Hk : k ∉ keys_of acc).
  { apply NoDup_app in Hnd as (_ & Hd & _). intros Hin. apply (Hd _ Hin). left. }
  pose proof (btree_insert_perm acc k v Hk) as Hp. rewrite IH, Hp.
  - simpl. apply Permutation_middle.
  - unfold keys_of. rewrite Hp. simpl. rewrite Permutation_middle. done.
Qed.

(** The canonical order is determined by the members. *)
Lemma sorted_members_unique m1 m2 : btree_wf m1 -> btree_wf m2 -> m1 ≡ₚ m2 -> m1 = m2.
Proof.
  intros H1 H2 Hp. apply btree_ext; [done..|]. intros k.
  destruct (btree_get m1 k) as [v|] eqn:E.
  - symmetry. apply btree_elem_get; [done|]. rewrite <- Hp. by apply btree_get_elem.
  - symmetry. apply btree_get_None. apply btree_get_None in E. unfold keys_of in *.
    by rewrite <- Hp.
Qed.

Lemma sort_members_Permutation m1 m2 :
  NoDup (map fst m1) -> m1 ≡ₚ m2 -> sort_members m1 = sort_members m2.
Proof.
  intros Hnd Hp. apply sorted_members_unique; [apply sort_members_wf..|].
  rewrite !sort_members_perm; [done| |done]. by rewrite <- Hp.
Qed.

Lemma fst_canon_entry m : map fst (map canon_entry m) = map fst m.
Proof. rewrite map_map. by apply map_ext. Qed.

Lemma sort_members_id m : btree_wf m -> sort_members m = m.
Proof. apply btree_rebuild. Qed.

Lemma canonicalize_sorted v : json_wf v -> json_sorted (canonicalize_json v).
Proof.
  induction v as [ | | | |vs IH|m IH] using Value_ind_nested; try done.
  - rewrite json_wf_array. intros Hwf. simpl canonicalize_json. rewrite json_sorted_array.
    apply Forall_map. rewrite Forall_forall in *. eauto.
  - rewrite json_wf_object. intros [Hnd Hwf]. rewrite canonicalize_object, json_sorted_object.
    split; [apply sort_members_wf|]. rewrite sort_members_perm by by rewrite fst_canon_entry.
    apply Forall_map. rewrite Forall_forall in *. unfold canon_entry. simpl. eauto.
Qed.

Lemma canonicalize_fixed v : json_sorted v -> canonicalize_json v = v.
Proof.
  induction v as [ | | | |vs IH|m IH] using Value_ind_nested; try done.
  - rewrite json_sorted_array. intros Hs. simpl. f_equal.
    rewrite <- (map_id vs) at 2. apply map_ext_Forall. rewrite Forall_forall in *. eauto.
  - rewrite json_sorted_object. intros [Hwf Hs]. rewrite canonicalize_object. f_equal.
    replace (map canon_entry m) with m; [by apply sort_members_id|].
    rewrite <- (map_id m) at 1. apply map_ext_Forall. rewrite Forall_forall in *.
    intros [k v] Hin. unfold canon_entry. simpl. f_equal. symmetry. by apply (IH (k, v)), (Hs (k, v)).
Qed.
End CanonicalSort.

Section CanonicalForm.
Context `{JsonNumber}.
Implicit Types m : Map.

Lemma json_equiv_canonicalize v w :
  json_wf v -> json_equiv v w -> canonicalize_json v = canonicalize_json w.
Proof.
  revert w. induction v as [ | | | |vs IH|m IH] using Value_ind_nested;
    intros w Hwf He; inversion He as [| | | |? ws Hf|? m' ws Hp Hf]; subst; try done.
  - apply json_wf_array in Hwf. simpl. f_equal.
    clear He. revert Hwf. induction Hf as [|x y vs ws Hxy Hf IHf]; simpl; [done|].
    rewrite Forall_cons in *. intros [Hx Hvs]. destruct IH as [IHx IH].
    f_equal; [by apply IHx|]. by apply IHf.
  - apply json_wf_object in Hwf as [Hnd Hwf]. rewrite !canonicalize_object. f_equal.
    assert (Hmap : map canon_entry m' = map canon_entry ws).
    { rewrite Hp in IH, Hwf. clear He Hp Hnd.
      induction Hf as [|[k x] [k' y] m' ws [Hk Hxy] Hf IHf]; simpl in *; [done|].
      subst k'. rewrite !Forall_cons in *. destruct IH as [IHx IH], Hwf as [Hx Hwf].
      unfold canon_entry at 1 3. simpl. f_equal; [f_equal; by apply IHx|]. by apply IHf. }
    rewrite <- Hmap. apply sort_members_Permutation; [by rewrite fst_canon_entry|].
    by rewrite Hp.
Qed.

Lemma canonicalize_equiv v w :
  json_wf v -> json_wf w -> canonicalize_json v = canonicalize_json w -> json_equiv v w.
Proof.
  revert w. induction v as [b|b|b|b|vs IH|m IH] using Value_ind_nested;
    intros w Hwf Hww Heq; destruct w as [|b'|b'|b'|ws|m2];
    try (simpl in Heq; simplify_eq; by constructor); try by rewrite canonicalize_object in Heq.
  - simpl in Heq. simplify_eq. apply json_wf_array in Hwf, Hww. constructor.
    revert ws Hww Heq. induction vs as [|x vs IHvs]; intros [|y ws] Hww Heq; simplify_eq/=;
      constructor; rewrite ?Forall_cons in *; naive_solver.
  - apply json_wf_object in Hwf as [Hnd Hwf], Hww as [Hnd2 Hww].
    rewrite !canonicalize_object in Heq. injection Heq as Heq.
    assert (Hp : map canon_entry m2 ≡ₚ map canon_entry m).
    { rewrite <- (sort_members_perm (map canon_entry m)) by by rewrite fst_canon_entry.
      rewrite Heq. by rewrite sort_members_perm by by rewrite fst_canon_entry. }
    apply Permutation_map_inv in Hp as (m' & Heq' & Hp).
    apply (equiv_object m m'); [done|]. rewrite Hp in IH, Hwf. clear Hp Hnd Hnd2 Heq.
    revert m2 Hww Heq'. induction m' as [|[k x] m' IHm]; intros [|[k' y] m2] Hww Heq;
      simpl in Heq; simplify_eq; constructor; rewrite ?Forall_cons in *; naive_solver.
Qed.

(** [canonicalize_json] computes a canonical form of a JSON value whose
    objects have distinct keys: the members of every object end up in
    ascending byte order of their keys at every depth, a value already in
    that form is unchanged (so the function is idempotent), and two values
    have the same form exactly when they differ only in member order. *)
Theorem canonicalize_json_canonical v w :
  json_wf v -> json_wf w ->
  json_sorted (canonicalize_json v) /\
  canonicalize_json (canonicalize_json v) = canonicalize_json v /\
  (canonicalize_json v = canonicalize_json w <-> json_equiv v w).
Proof.
  intros Hv Hw. split; [by apply canonicalize_sorted|]. split.
  - by apply canonicalize_fixed, canonicalize_sorted.
  - split; [by apply canonicalize_equiv|by apply json_equiv_canonicalize].
Qed.
End CanonicalForm.

(** ** The structured object and the binary size *)

Section Sizes.
Context `{TimeLib, SerdeJson, Base64, FluentUri}.

Definition optional_member (name : string) (value : option string) : Map :=
  match value with Some value => [(name, VString value)] | None => [] end.

Definition data_member (data : option EventData.t) : Map :=
  match data with
  | Some (EventData.Json value) => [("data", canonicalize_json (JsonData.as_value value))]
  | Some (EventData.Binary value) => [("data_base64", VString (base64_encode value))]
  | None => []
  end.

(** The context attributes that are not extensions, in the fixed order. *)
Definition context_members (c : EventContent.t) : Map :=
  [("specversion", VString SPEC_VERSION);
   ("id", VString (EventId.as_str (EventContent.id c)));
   ("source", VString (EventSource.as_str (EventContent.source c)));
   ("type", VString (EventType.as_str (EventContent.event_type c)))]
  ++ optional_member "subject" (option_map EventSubject.as_str (EventContent.subject c))
  ++ optional_member "time" (option_map format_timestamp (EventContent.time c))
  ++ optional_member "datacontenttype"
       (option_map ContentType.as_str (EventContent.datacontenttype c))
  ++ optional_member "dataschema" (option_map SchemaUri.as_str (EventContent.dataschema c))
  ++ optional_member "partitionkey"
       (option_map PartitionKey.as_str (EventContent.partitionkey c)).

Definition extension_members (e : Extensions.t) : Map :=
  map (fun entry => (entry.1, ExtensionValue.structured_json_value entry.2)) e.

(** Keys of [context_members] are reserved names, each used once. *)
Lemma context_members_keys c :
  NoDup (map fst (context_members c)) /\
  Forall (fun k => k ∈ ExtensionName.reserved /\ k <> "data" /\ k <> "data_base64")
    (map fst (context_members c)).
Proof.
  unfold context_members.
  destruct (EventContent.subject c), (EventContent.time c), (EventContent.datacontenttype c),
    (EventContent.dataschema c), (EventContent.partitionkey c); cbn;
    (split; [by apply (bool_decide_eq_true_1 _); vm_compute
            |repeat apply Forall_cons_2; try apply Forall_nil_2; split_and!;
             by apply (bool_decide_eq_true_1 _); vm_compute]).
Qed.

(** The insertions before the extensions build the context members. *)
Lemma context_insertions c :
  fold_left (fun o e => map_insert o e.1 e.2) (context_members c) [] = context_members c.
Proof. apply map_insert_rebuild, context_members_keys. Qed.

Lemma insert_optional_fold o name value :
  insert_optional_json_member o name (option_map VString value)
  = fold_left (fun o e => map_insert o e.1 e.2) (optional_member name value) o.
Proof. by destruct value. Qed.

Lemma extension_keys_fresh c e :
  extensions_wf e -> NoDup (map fst (context_members c) ++ map fst (extension_members e)).
Proof.
  intros [Hs Hall]. destruct (context_members_keys c) as [Hnd Hres].
  assert (He : map fst (extension_members e) = map fst e).
  { unfold extension_members. rewrite map_map. by apply map_ext. }
  rewrite He. apply NoDup_app. split_and!; [done| |by apply sorted_NoDup].
  intros k Hk Hin. rewrite Forall_forall in Hres. rewrite Forall_forall in Hall.
  destruct (Hres k Hk) as (Hr & _). apply list_elem_of_fmap in Hin as ([k' v] & -> & Hin).
  destruct (Hall _ Hin) as [Hn _]. by apply name_not_reserved in Hn.
Qed.

Lemma structured_object_members c :
  extensions_wf (EventContent.extensions c) ->
  structured_object c
  = context_members c ++ extension_members (EventContent.extensions c)
    ++ data_member (EventContent.data c).
Proof.
  intros Hwf. pose proof (extension_keys_fresh c _ Hwf) as Hnd.
  unfold structured_object. cbv zeta.
  set (o := insert_optional_json_member _ "partitionkey" _).
  assert (Ho : o = context_members c).
  { rewrite <- (context_insertions c) at 1. unfold o, context_members.
    rewrite !fold_left_app, <- !insert_optional_fold. simpl fold_left.
    by destruct (EventContent.subject c), (EventContent.time c),
      (EventContent.datacontenttype c), (EventContent.dataschema c),
      (EventContent.partitionkey c). }
  rewrite Ho. rewrite (map_insert_all fst (fun e => ExtensionValue.structured_json_value e.2)).
  2: { unfold extension_members in Hnd. rewrite map_map in Hnd. exact Hnd. }
  fold (extension_members (EventContent.extensions c)).
  assert (Hdata : forall k v, k = "data" \/ k = "data_base64" ->
    map_insert (context_members c ++ extension_members (EventContent.extensions c)) k v
    = context_members c ++ extension_members (EventContent.extensions c) ++ [(k, v)]).
  { intros k v Hk. rewrite map_insert_fresh, <- app_assoc; [done|].
    rewrite map_app. unfold extension_members. rewrite map_map. intros Hin.
    destruct (context_members_keys c) as [_ Hres], Hwf as [_ Hall].
    rewrite Forall_forall in Hres. rewrite Forall_forall in Hall. apply elem_of_app in Hin as [Hin|Hin].
    - destruct (Hres _ Hin) as (_ & ? & ?). naive_solver.
    - apply list_elem_of_fmap in Hin as ([k' w] & -> & Hin). simpl in Hk.
      destruct (Hall _ Hin) as [Hn _]. apply name_not_reserved in Hn. apply Hn.
      destruct Hk as [-> | ->]; set_solver. }
  destruct (EventContent.data c) as [[d|d]|]; simpl data_member;
    rewrite ?app_nil_r, ?Hdata by auto; done.
Qed.
End Sizes.

Section SizeTheorems.
Context `{TimeLib, SerdeJson, Base64, FluentUri}.

Lemma structured_object_NoDup c :
  extensions_wf (EventContent.extensions c) -> NoDup (map fst (structured_object c)).
Proof.
  intros Hwf. rewrite structured_object_members by done. rewrite app_assoc, map_app.
  apply NoDup_app. rewrite map_app. split_and!; [by apply extension_keys_fresh| |].
  - intros k Hin Hd.
    assert (Hk : k = "data" \/ k = "data_base64").
    { destruct (EventContent.data c) as [[d|d]|]; simpl in Hd; set_solver. }
    apply elem_of_app in Hin as [Hin|Hin].
    + destruct (context_members_keys c) as [_ Hres]. rewrite Forall_forall in Hres.
      destruct (Hres _ Hin) as (_ & ? & ?). naive_solver.
    + unfold extension_members in Hin. rewrite map_map in Hin.
      apply list_elem_of_fmap in Hin as ([k' w] & -> & Hin). simpl in Hk.
      destruct Hwf as [_ Hall]. rewrite Forall_forall in Hall.
      destruct (Hall _ Hin) as [Hn _]. apply name_not_reserved in Hn. apply Hn.
      destruct Hk as [-> | ->]; set_solver.
  - destruct (EventContent.data c) as [[d|d]|]; simpl; repeat constructor; set_solver.
Qed.

(** The structured projection serializes one object: the four required
    attributes, the optional attributes in their fixed order, the extensions
    in ascending name order and last the data member. No insertion overwrites
    an earlier member, so every extension is found under its own name. *)
Theorem structured_json_members c :
  extensions_wf (EventContent.extensions c) ->
  structured_json_bytes c
  = ok_or (json_to_vec (context_members c ++ extension_members (EventContent.extensions c)
                        ++ data_member (EventContent.data c)))
      (ValidationError.new "event" ValidationKind.Json) /\
  NoDup (map fst (structured_object c)) /\
  StronglySorted slt (map fst (extension_members (EventContent.extensions c))) /\
  (forall name value, (name, value) ∈ EventContent.extensions c ->
     map_get (structured_object c) name
     = Some (ExtensionValue.structured_json_value value)).
Proof.
  intros Hwf. unfold structured_json_bytes. split_and!.
  - by rewrite structured_object_members.
  - by apply structured_object_NoDup.
  - unfold extension_members. rewrite map_map. apply Hwf.
  - intros name value Hin. apply map_get_NoDup; [by apply structured_object_NoDup|].
    rewrite structured_object_members, !elem_of_app by done. right; left.
    apply list_elem_of_fmap. by exists (name, value).
Qed.

(** The logical size of one binary context attribute: its name, four bytes of
    framing and its value with every byte percent-encoded. *)
Definition attribute_bytes (a : string * string) : Z := len a.1 + 4 + 3 * len a.2.

Definition attributes_bytes (l : list (string * string)) : Z :=
  fold_right (fun a n => attribute_bytes a + n) 0 l.

Lemma attributes_bytes_app l1 l2 :
  attributes_bytes (l1 ++ l2) = attributes_bytes l1 + attributes_bytes l2.
Proof. induction l1; simpl; lia. Qed.

Lemma attributes_bytes_nonneg l : 0 <= attributes_bytes l.
Proof.
  induction l as [|[n v] l IH]; simpl; [lia|]. unfold attribute_bytes. simpl.
  pose proof (len_nonneg n). pose proof (len_nonneg v). lia.
Qed.

Lemma attribute_bytes_nonneg a : 0 <= attribute_bytes a.
Proof. unfold attribute_bytes. pose proof (len_nonneg a.1). pose proof (len_nonneg a.2). lia. Qed.

(** [size] is the exact account [s], capped at [usize::MAX]. *)
Definition capped (size s : Z) : Prop := 0 <= s /\ size = Z.min usize_max s.

Lemma capped_add size s name value :
  capped size s ->
  capped (add_binary_context size name value) (s + attribute_bytes (name, value)).
Proof.
  intros [Hs ->]. split; [pose proof (attribute_bytes_nonneg (name, value)); lia|].
  unfold add_binary_context, saturating_add, saturating_mul, attribute_bytes. simpl.
  pose proof (len_nonneg name). pose proof (len_nonneg value).
  assert (0 < usize_max) by done. lia.
Qed.

Definition optional_attribute (name : string) (value : option string) :
    list (string * string) :=
  match value with Some value => [(name, value)] | None => [] end.

Lemma capped_add_optional size s name value :
  capped size s ->
  capped (add_optional_binary_context size name value)
    (s + attributes_bytes (optional_attribute name value)).
Proof.
  intros Hs. destruct value; simpl; rewrite ?Z.add_0_r; [by apply capped_add|done].
Qed.

(** The attributes the binary size accounts for, [datacontenttype] last. *)
Definition binary_context (c : EventContent.t) : list (string * string) :=
  [("ce-specversion", SPEC_VERSION);
   ("ce-id", EventId.as_str (EventContent.id c));
   ("ce-source", EventSource.as_str (EventContent.source c));
   ("ce-type", EventType.as_str (EventContent.event_type c))]
  ++ optional_attribute "ce-subject" (option_map EventSubject.as_str (EventContent.subject c))
  ++ optional_attribute "ce-time" (option_map format_timestamp (EventContent.time c))
  ++ optional_attribute "ce-dataschema" (option_map SchemaUri.as_str (EventContent.dataschema c))
  ++ optional_attribute "ce-partitionkey"
       (option_map PartitionKey.as_str (EventContent.partitionkey c))
  ++ map (fun e => ("ce-" +:+ e.1, extension_binary_string e.2)) (EventContent.extensions c)
  ++ optional_attribute "ce-datacontenttype"
       (option_map ContentType.as_str (EventContent.datacontenttype c)).

Definition body_bytes (c : EventContent.t) : Z :=
  match EventContent.data c with Some d => len (EventData.as_bytes d) | None => 0 end.

Lemma capped_fold_extensions (e : Extensions.t) size s :
  capped size s ->
  capped (fold_left (fun size entry => add_binary_context size ("ce-" +:+ entry.1)
                                         (extension_binary_string entry.2)) e size)
    (s + attributes_bytes
           (map (fun e => ("ce-" +:+ e.1, extension_binary_string e.2)) e)).
Proof.
  revert size s. induction e as [|a e IH]; intros size s Hs; simpl; [by rewrite Z.add_0_r|].
  rewrite Z.add_assoc. apply IH. by apply capped_add.
Qed.

Lemma body_bytes_nonneg c : 0 <= body_bytes c.
Proof. unfold body_bytes. destruct (EventContent.data c); [apply len_nonneg|done]. Qed.

(** The saturating account is the exact sum, capped at [usize::MAX]. *)
Lemma binary_material_bytes_sum c :
  body_bytes c <= usize_max ->
  binary_material_bytes c
  = Ok (Z.min usize_max (body_bytes c + attributes_bytes (binary_context c))).
Proof.
  intros Hb. unfold binary_material_bytes, binary_context. cbv zeta.
  change (if len "Content-Type" <? len "ce-datacontenttype" then "ce-datacontenttype"
          else "Content-Type") with "ce-datacontenttype".
  f_equal. rewrite !attributes_bytes_app, !Z.add_assoc.
  simpl (attributes_bytes [_; _; _; _]). rewrite Z.add_0_r, !Z.add_assoc.
  assert (Hbody : capped (body_bytes c) (body_bytes c)).
  { split; [apply body_bytes_nonneg|]. symmetry. by apply Z.min_r. }
  fold (body_bytes c).
  match goal with |- context [fold_left ?f ?l ?s] =>
    assert (He : capped (fold_left f l s) _) by
      (apply capped_fold_extensions; do 4 apply capped_add_optional;
       do 4 apply capped_add; exact Hbody) end.
  destruct (EventContent.datacontenttype c) as [ct|]; simpl.
  - destruct (capped_add _ _ "ce-datacontenttype" (ContentType.as_str ct) He) as [_ Hct].
    rewrite Hct. f_equal. lia.
  - destruct He as [_ ->]. f_equal. lia.
Qed.
End SizeTheorems.
