(* ===== verification/Event.v ===== *)
(** * New and stored events (crates/dovecote/src/event.rs)

    The staged builder, the cross-field validation every event passes, its
    portable size, and the conversion to the stored form. *)

From S2P Require Import Prelude Utf8 External BTree Errors Limits Validation Bounds Values Extension Serialization.

(** [StructuredJsonProjection] of projection.rs *)
Module StructuredJsonProjection.
Record t : Type := Make { as_bytes : bytes }.
Definition CONTENT_TYPE : string := "application/cloudevents+json".
End StructuredJsonProjection.

Section Validate.
Context `{TimeLib, SerdeJson, Base64, MimeLib}.

Definition CONTENT_TYPE_BYTES : Z :=
  len "Content-Type: " + len StructuredJsonProjection.CONTENT_TYPE
  + len (String "013" (String "010" EmptyString)).

Definition portable_size (content : EventContent.t) : Result Z ValidationError.t :=
  let? structured := structured_json_bytes content in
  let? structured := ok_or (checked_add usize_max (len structured) CONTENT_TYPE_BYTES)
                       (ValidationError.new "event" ValidationKind.Size) in
  let? binary := binary_material_bytes content in
  Ok (Z.max structured binary).

(** The checks of [content.data] against [content.datacontenttype]. *)
Definition validate_data (content : EventContent.t) : Result unit ValidationError.t :=
  match EventContent.data content with
  | Some data =>
      if negb (is_empty (EventData.as_bytes data))
         && match EventContent.datacontenttype content with None => true | Some _ => false end
      then Err (ValidationError.new "datacontenttype" ValidationKind.Combination)
      else if EventData.is_json data
              && negb (is_some_and (EventContent.datacontenttype content) ContentType.is_json)
      then Err (ValidationError.new "datacontenttype" ValidationKind.Combination)
      else Ok tt
  | None => Ok tt
  end.

Definition validate_content (content : EventContent.t) (limit : EventSizeLimit.t) :
    Result unit ValidationError.t :=
  if is_none_or
       (checked_add usize_max (len (EventSource.as_str (EventContent.source content)))
          (len (EventId.as_str (EventContent.id content))))
       (fun length => MAX_IDENTITY_BYTES <? length)
  then Err (ValidationError.new "source and event id" ValidationKind.Length)
  else
    let? _ := validate_optional_instant "time" (EventContent.time content) in
    let? _ := Extensions.validate_trace_context (EventContent.extensions content) in
    let? _ := validate_data content in
    let? size := portable_size content in
    if EventSizeLimit.get limit <? size
    then Err (ValidationError.new "event" ValidationKind.Size)
    else Ok tt.
End Validate.

Module NewEvent.
Record t `{TimeLib} : Type := Make {
  content : EventContent.t;
  size_limit : EventSizeLimit.t;
}.

Section Ops.
Context `{TimeLib, SerdeJson, Base64, MimeLib}.

Definition validate_with_limit (self : t) (limit : EventSizeLimit.t) :
    Result unit ValidationError.t :=
  validate_content (content self) limit.

Definition validate (self : t) : Result unit ValidationError.t :=
  validate_with_limit self (size_limit self).

Definition portable_size (self : t) : Result Z ValidationError.t :=
  portable_size (content self).
End Ops.
End NewEvent.

Module NewEventBuilder.
(** The builder holds the content assembled so far. *)
Record t `{TimeLib} : Type := Make { content : EventContent.t }.

Section Ops.
Context `{TimeLib, SerdeJson, Base64, MimeLib}.

Definition new (stream : StreamName.t) (id : EventId.t) (source : EventSource.t)
    (event_type : EventType.t) : t :=
  Make _ (EventContent.Make _ stream id source event_type None None None None None
            Extensions.new None).

Definition set_subject (self : t) (value : EventSubject.t) : t :=
  let c := content self in
  Make _ (EventContent.Make _ (EventContent.stream c) (EventContent.id c)
    (EventContent.source c) (EventContent.event_type c) (Some value) (EventContent.time c)
    (EventContent.datacontenttype c) (EventContent.dataschema c)
    (EventContent.partitionkey c) (EventContent.extensions c) (EventContent.data c)).

Definition set_time (self : t) (value : OffsetDateTime) : t :=
  let c := content self in
  Make _ (EventContent.Make _ (EventContent.stream c) (EventContent.id c)
    (EventContent.source c) (EventContent.event_type c) (EventContent.subject c)
    (Some (to_utc value)) (EventContent.datacontenttype c) (EventContent.dataschema c)
    (EventContent.partitionkey c) (EventContent.extensions c) (EventContent.data c)).

Definition set_datacontenttype (self : t) (value : ContentType.t) : t :=
  let c := content self in
  Make _ (EventContent.Make _ (EventContent.stream c) (EventContent.id c)
    (EventContent.source c) (EventContent.event_type c) (EventContent.subject c)
    (EventContent.time c) (Some value) (EventContent.dataschema c)
    (EventContent.partitionkey c) (EventContent.extensions c) (EventContent.data c)).

Definition set_dataschema (self : t) (value : SchemaUri.t) : t :=
  let c := content self in
  Make _ (EventContent.Make _ (EventContent.stream c) (EventContent.id c)
    (EventContent.source c) (EventContent.event_type c) (EventContent.subject c)
    (EventContent.time c) (EventContent.datacontenttype c) (Some value)
    (EventContent.partitionkey c) (EventContent.extensions c) (EventContent.data c)).

Definition set_partitionkey (self : t) (value : PartitionKey.t) : t :=
  let c := content self in
  Make _ (EventContent.Make _ (EventContent.stream c) (EventContent.id c)
    (EventContent.source c) (EventContent.event_type c) (EventContent.subject c)
    (EventContent.time c) (EventContent.datacontenttype c) (EventContent.dataschema c)
    (Some value) (EventContent.extensions c) (EventContent.data c)).

Definition set_extensions (self : t) (value : Extensions.t) : t :=
  let c := content self in
  Make _ (EventContent.Make _ (EventContent.stream c) (EventContent.id c)
    (EventContent.source c) (EventContent.event_type c) (EventContent.subject c)
    (EventContent.time c) (EventContent.datacontenttype c) (EventContent.dataschema c)
    (EventContent.partitionkey c) value (EventContent.data c)).

Definition set_data (self : t) (value : EventData.t) : t :=
  let c := content self in
  Make _ (EventContent.Make _ (EventContent.stream c) (EventContent.id c)
    (EventContent.source c) (EventContent.event_type c) (EventContent.subject c)
    (EventContent.time c) (EventContent.datacontenttype c) (EventContent.dataschema c)
    (EventContent.partitionkey c) (EventContent.extensions c) (Some value)).

Definition json_data (self : t) (value : bytes) : Result t ValidationError.t :=
  let? data := EventData.json value in
  let self := set_data self data in
  let? content_type := ContentType.new "application/json" in
  Ok (set_datacontenttype self content_type).

Definition build_with_limit (self : t) (limit : EventSizeLimit.t) :
    Result NewEvent.t ValidationError.t :=
  let? _ := validate_content (content self) limit in
  Ok (NewEvent.Make _ (content self) limit).

Definition build (self : t) : Result NewEvent.t ValidationError.t :=
  build_with_limit self EventSizeLimit.default.
End Ops.
End NewEventBuilder.

(** [NewEvent::new] *)
Definition NewEvent_new `{TimeLib, SerdeJson, Base64, MimeLib} (stream : StreamName.t)
    (id : EventId.t) (source : EventSource.t) (event_type : EventType.t) :
    Result NewEvent.t ValidationError.t :=
  NewEventBuilder.build (NewEventBuilder.new stream id source event_type).

Module StoredEvent.
Record t `{TimeLib} : Type := Make { content : EventContent.t }.

Definition from_new `{TimeLib, SerdeJson, Base64, MimeLib} (event : NewEvent.t) :
    Result t ValidationError.t :=
  let? _ := NewEvent.validate_with_limit event (NewEvent.size_limit event) in
  Ok (Make _ (NewEvent.content event)).
End StoredEvent.

(** [NewEvent::into_stored] *)
Definition into_stored `{TimeLib, SerdeJson, Base64, MimeLib} (event : NewEvent.t) :
    Result StoredEvent.t ValidationError.t :=
  StoredEvent.from_new event.

(** ** The contract of an accepted event *)

Section Contract.
Context `{TimeLib, SerdeJson, Base64, MimeLib, FluentUri}.

(** Data and media type agree: non-empty data has a media type, and JSON data
    has a JSON media type. *)
Definition data_compatible (c : EventContent.t) : Prop :=
  match EventContent.data c with
  | None => True
  | Some d =>
      (EventData.as_bytes d <> "" -> is_Some (EventContent.datacontenttype c)) /\
      (EventData.is_json d = true ->
       exists ct, EventContent.datacontenttype c = Some ct /\ ContentType.is_json ct = true)
  end.

Lemma validate_data_Ok c : validate_data c = Ok tt <-> data_compatible c.
Proof.
  unfold validate_data, data_compatible. destruct (EventContent.data c) as [d|]; [|done].
  destruct (EventContent.datacontenttype c) as [ct|]; simpl.
  - rewrite andb_false_r. destruct (EventData.is_json d); simpl.
    + destruct (ContentType.is_json ct) eqn:E; simpl; split; try done.
      * intros _. split; eauto.
      * intros [_ Hj]. destruct (Hj eq_refl) as (ct' & [= <-] & Hct). congruence.
    + split; [|done]. split; [eauto|done].
  - rewrite andb_true_r.
    assert (Hb : is_empty (EventData.as_bytes d) = true <-> EventData.as_bytes d = "")
      by by destruct (EventData.as_bytes d).
    destruct (is_empty (EventData.as_bytes d)); simpl.
    + destruct (EventData.is_json d); simpl; split; try done.
      * intros [_ Hj]. by destruct (Hj eq_refl) as (? & ? & _).
      * intros _. split; [|done]. intros Hne. by destruct Hne; apply Hb.
    + split; [done|]. intros [Hd _]. destruct Hd as [? ?]; [|done]. intros He.
      by apply Hb in He.
Qed.

Definition time_portable (c : EventContent.t) : Prop :=
  match EventContent.time c with Some t => portable_instant t | None => True end.

Lemma validate_time_Ok {TL : TimeLaws} c :
  validate_optional_instant "time" (EventContent.time c) = Ok tt <-> time_portable c.
Proof.
  unfold validate_optional_instant, time_portable.
  destruct (EventContent.time c); [by apply validate_instant_Ok|done].
Qed.

Definition identity_bytes (c : EventContent.t) : Z :=
  len (EventSource.as_str (EventContent.source c)) + len (EventId.as_str (EventContent.id c)).

Lemma identity_check c :
  is_none_or
    (checked_add usize_max (len (EventSource.as_str (EventContent.source c)))
       (len (EventId.as_str (EventContent.id c))))
    (fun length => MAX_IDENTITY_BYTES <? length)
  = (MAX_IDENTITY_BYTES <? identity_bytes c).
Proof.
  unfold checked_add. fold (identity_bytes c). destruct (Z.leb_spec (identity_bytes c) usize_max); [done|].
  simpl. symmetry. apply Z.ltb_lt. assert (MAX_IDENTITY_BYTES < usize_max) by done. lia.
Qed.

Lemma is_result_unit {E} (r : Result unit E) : r = Ok tt \/ exists e, r = Err e.
Proof. destruct r as [[]|e]; eauto. Qed.

(** The checks of an accepted event. *)
Lemma validate_content_Ok {TL : TimeLaws} c limit :
  validate_content c limit = Ok tt <->
  identity_bytes c <= 2048 /\ time_portable c /\
  Extensions.validate_trace_context (EventContent.extensions c) = Ok tt /\
  data_compatible c /\
  (exists size, portable_size c = Ok size /\ size <= EventSizeLimit.get limit).
Proof.
  unfold validate_content. rewrite identity_check, <- validate_time_Ok, <- validate_data_Ok.
  change MAX_IDENTITY_BYTES with 2048.
  destruct (Z.ltb_spec 2048 (identity_bytes c)) as [Hi|Hi]; [split; [done|lia]|].
  destruct (is_result_unit (validate_optional_instant "time" (EventContent.time c)))
    as [->|[? ->]]; [|naive_solver].
  destruct (is_result_unit (Extensions.validate_trace_context (EventContent.extensions c)))
    as [->|[? ->]]; [|naive_solver].
  destruct (is_result_unit (validate_data c)) as [->|[? ->]]; [|naive_solver].
  destruct (portable_size c) as [size|]; [|naive_solver].
  destruct (Z.ltb_spec (EventSizeLimit.get limit) size).
  - split; [done|]. intros (_ & _ & _ & _ & size' & [= <-] & ?). lia.
  - naive_solver.
Qed.

(** C31: an event is accepted exactly when its source and id together have at
    most 2048 bytes, its time is a microsecond instant of the years 1970 to
    9999, its trace context is valid, its data agrees with its media type and
    its portable size is at most the limit. *)
Theorem validate_content_iff {TL : TimeLaws} c limit :
  validate_content c limit = Ok tt <->
  identity_bytes c <= 2048 /\ time_portable c /\
  Extensions.validate_trace_context (EventContent.extensions c) = Ok tt /\
  data_compatible c /\
  (exists size, portable_size c = Ok size /\ size <= EventSizeLimit.get limit).
Proof. by apply validate_content_Ok. Qed.

Lemma validate_content_mono c l1 l2 :
  EventSizeLimit.get l1 <= EventSizeLimit.get l2 ->
  validate_content c l1 = Ok tt -> validate_content c l2 = Ok tt.
Proof.
  intros Hl. unfold validate_content. case_match; [done|].
  repeat (case_match; try done). bools. lia.
Qed.

(** A built event is the builder's content unchanged; it validates again
    under its own limit and under every larger one, converting it to the
    stored form cannot fail, and the stored content is the builder's. *)
Theorem build_into_stored b limit limit' e :
  NewEventBuilder.build_with_limit b limit = Ok e ->
  EventSizeLimit.get limit <= EventSizeLimit.get limit' ->
  e = NewEvent.Make _ (NewEventBuilder.content b) limit /\
  NewEvent.validate e = Ok tt /\
  NewEvent.validate_with_limit e limit' = Ok tt /\
  NewEventBuilder.build_with_limit b limit'
    = Ok (NewEvent.Make _ (NewEventBuilder.content b) limit') /\
  into_stored e = Ok (StoredEvent.Make _ (NewEventBuilder.content b)).
Proof.
  unfold NewEventBuilder.build_with_limit. intros Hb Hl.
  destruct (validate_content (NewEventBuilder.content b) limit) as [[]|] eqn:E; [|done].
  simplify_eq. pose proof (validate_content_mono _ _ _ Hl E) as E'.
  unfold into_stored, StoredEvent.from_new, NewEvent.validate, NewEvent.validate_with_limit.
  simpl. by rewrite E, E'.
Qed.

(** The exact size of the two encodings, without a cap. *)
Definition structured_size (bytes : string) : Z :=
  len "Content-Type: application/cloudevents+json" + 2 + len bytes.

Definition binary_size (c : EventContent.t) : Z :=
  body_bytes c + attributes_bytes (binary_context c).

Lemma portable_size_bounds c size :
  body_bytes c <= usize_max -> portable_size c = Ok size -> size < usize_max ->
  exists bytes, structured_json_bytes c = Ok bytes /\
    size = Z.max (structured_size bytes) (binary_size c).
Proof.
  intros Hb. unfold portable_size. rewrite binary_material_bytes_sum by done.
  destruct (structured_json_bytes c) as [bytes|]; [|done].
  destruct (checked_add _ _ _) as [structured|] eqn:E; [|done].
  apply checked_add_Some in E as [-> _]. cbn [ok_or].
  fold (binary_size c). intros [= <-] Hlt. exists bytes. split; [done|].
  unfold structured_size. change CONTENT_TYPE_BYTES with 44 in *.
  change (len "Content-Type: application/cloudevents+json") with 42. lia.
Qed.
End Contract.

(** ** Constructed content

    The fields of an event have private constructors: every one is what its
    checked constructor returned.  [content_wf] says so, and every builder step
    keeps it. *)

Section Constructed.
Context `{TimeLib, SerdeJson, Base64, MimeLib, FluentUri}.

Definition option_all {A} (P : A -> Prop) (o : option A) : Prop :=
  match o with Some a => P a | None => True end.

Definition data_wf (d : EventData.t) : Prop :=
  match d with
  | EventData.Json j => EventData.json (JsonData.as_bytes j) = Ok d
  | EventData.Binary _ => True
  end.

Record content_wf (c : EventContent.t) : Prop := {
  wf_stream : StreamName.new (StreamName.as_str (EventContent.stream c))
              = Ok (EventContent.stream c);
  wf_id : EventId.new (EventId.as_str (EventContent.id c)) = Ok (EventContent.id c);
  wf_source : EventSource.new (EventSource.as_str (EventContent.source c))
              = Ok (EventContent.source c);
  wf_type : EventType.new (EventType.as_str (EventContent.event_type c))
            = Ok (EventContent.event_type c);
  wf_subject : option_all (fun v => EventSubject.new (EventSubject.as_str v) = Ok v)
                 (EventContent.subject c);
  wf_time : option_all (fun v => utc_offset v = 0) (EventContent.time c);
  wf_datacontenttype : option_all (fun v => ContentType.new (ContentType.as_str v) = Ok v)
                         (EventContent.datacontenttype c);
  wf_dataschema : option_all (fun v => SchemaUri.new (SchemaUri.as_str v) = Ok v)
                    (EventContent.dataschema c);
  wf_partitionkey : option_all (fun v => PartitionKey.new (PartitionKey.as_str v) = Ok v)
                      (EventContent.partitionkey c);
  wf_extensions : extensions_wf (EventContent.extensions c);
  wf_data : option_all data_wf (EventContent.data c);
}.

(** The builders a caller can obtain: from checked field values, by any
    sequence of setters. *)
Inductive built : NewEventBuilder.t -> Prop :=
  | built_new s1 s2 s3 s4 stream id source event_type :
      StreamName.new s1 = Ok stream -> EventId.new s2 = Ok id ->
      EventSource.new s3 = Ok source -> EventType.new s4 = Ok event_type ->
      built (NewEventBuilder.new stream id source event_type)
  | built_subject b s v :
      built b -> EventSubject.new s = Ok v -> built (NewEventBuilder.set_subject b v)
  | built_time b t : built b -> built (NewEventBuilder.set_time b t)
  | built_datacontenttype b s v :
      built b -> ContentType.new s = Ok v -> built (NewEventBuilder.set_datacontenttype b v)
  | built_dataschema b s v :
      built b -> SchemaUri.new s = Ok v -> built (NewEventBuilder.set_dataschema b v)
  | built_partitionkey b s v :
      built b -> PartitionKey.new s = Ok v -> built (NewEventBuilder.set_partitionkey b v)
  | built_extensions b e :
      built b -> extensions_wf e -> built (NewEventBuilder.set_extensions b e)
  | built_binary b bytes : built b -> built (NewEventBuilder.set_data b (EventData.binary bytes))
  | built_json b bytes d :
      built b -> EventData.json bytes = Ok d -> built (NewEventBuilder.set_data b d)
  | built_json_data b bytes b' :
      built b -> NewEventBuilder.json_data b bytes = Ok b' -> built b'.

Lemma json_data_wf bytes d : EventData.json bytes = Ok d -> data_wf d.
Proof.
  intros Hd. pose proof (EventData_json_bytes _ _ Hd) as Hb.
  destruct d as [j|]; simpl in *; [|done]. by rewrite Hb.
Qed.

Lemma set_data_wf b d :
  content_wf (NewEventBuilder.content b) -> data_wf d ->
  content_wf (NewEventBuilder.content (NewEventBuilder.set_data b d)).
Proof. intros [] Hd. by constructor. Qed.

Lemma set_datacontenttype_wf b s v :
  content_wf (NewEventBuilder.content b) -> ContentType.new s = Ok v ->
  content_wf (NewEventBuilder.content (NewEventBuilder.set_datacontenttype b v)).
Proof.
  intros [] Hv. constructor; try done. simpl. by rewrite (ContentType_new_as_str _ _ Hv).
Qed.

End Constructed.
