(* ===== verification/Projection.v ===== *)
(** * Projections (crates/dovecote/src/projection.rs)

    The structured message and the transport-neutral binary fields of a stored
    event, and their relation to the size every event is admitted under. *)

From S2P Require Import Prelude Utf8 External BTree Errors Limits Validation Bounds Values Extension Serialization Event.

Module BinaryProjection.
Record t : Type := Make {
  body : option bytes;
  datacontenttype : option ContentType.t;
  attributes : list (string * string);
}.
End BinaryProjection.

Section Projection.
Context `{TimeLib, SerdeJson, Base64, MimeLib, FluentUri}.

Definition structured_json (self : StoredEvent.t) :
    Result StructuredJsonProjection.t ValidationError.t :=
  let? bytes := structured_json_bytes (StoredEvent.content self) in
  Ok (StructuredJsonProjection.Make bytes).

(** The loop pushes the optional attributes that are present, in order. *)
Fixpoint push_present (attributes : list (string * string))
    (l : list (string * option string)) : list (string * string) :=
  match l with
  | [] => attributes
  | (name, value) :: l =>
      push_present (match value with
                    | Some value => attributes ++ [(name, value)]
                    | None => attributes
                    end) l
  end.

Definition binary_attributes (event : StoredEvent.t) : list (string * string) :=
  let c := StoredEvent.content event in
  let attributes :=
    [("specversion", SPEC_VERSION);
     ("id", EventId.as_str (EventContent.id c));
     ("source", EventSource.as_str (EventContent.source c));
     ("type", EventType.as_str (EventContent.event_type c))] in
  let attributes :=
    push_present attributes
      [("subject", option_map EventSubject.as_str (EventContent.subject c));
       ("time", option_map format_timestamp (EventContent.time c));
       ("dataschema", option_map SchemaUri.as_str (EventContent.dataschema c));
       ("partitionkey", option_map PartitionKey.as_str (EventContent.partitionkey c))] in
  fold_left (fun attributes entry =>
               attributes ++ [(entry.1, extension_binary_string entry.2)])
    (EventContent.extensions c) attributes.

Definition binary (self : StoredEvent.t) : BinaryProjection.t :=
  BinaryProjection.Make
    (option_map EventData.as_bytes (EventContent.data (StoredEvent.content self)))
    (EventContent.datacontenttype (StoredEvent.content self))
    (binary_attributes self).

(** *** The attribute list *)

Lemma fold_push {A} (f : A -> string * string) l acc :
  fold_left (fun acc a => acc ++ [f a]) l acc = acc ++ map f l.
Proof.
  revert acc. induction l as [|a l IH]; intros acc; simpl; [by rewrite app_nil_r|].
  by rewrite IH, <- app_assoc.
Qed.

Lemma push_present_app acc l :
  push_present acc l
  = acc ++ concat (map (fun '(name, value) => optional_attribute name value) l).
Proof.
  revert acc. induction l as [|[n [v|]] l IH]; intros acc; simpl.
  - by rewrite app_nil_r.
  - by rewrite IH, <- app_assoc.
  - apply IH.
Qed.

(** The header name of an attribute in the size account. *)
Definition ce (a : string * string) : string * string := ("ce-" +:+ a.1, a.2).

Lemma ce_optional name value :
  map ce (optional_attribute name value) = optional_attribute ("ce-" +:+ name) value.
Proof. by destruct value. Qed.

(** The size account covers exactly the projected attributes and the media
    type. *)
Lemma binary_context_projection c :
  binary_context c
  = map ce (binary_attributes (StoredEvent.Make _ c))
    ++ optional_attribute "ce-datacontenttype"
         (option_map ContentType.as_str (EventContent.datacontenttype c)).
Proof.
  unfold binary_attributes. cbv zeta. cbn [StoredEvent.content].
  rewrite (fold_push (fun entry => (entry.1, extension_binary_string entry.2))).
  rewrite push_present_app. cbn [map concat]. rewrite !map_app, !ce_optional, map_map.
  unfold binary_context. rewrite <- !app_assoc. reflexivity.
Qed.

(** Bytes of a binary message: the body, and for every attribute and the media
    type a header line with the [ce-] prefix and the percent-encoded value. *)
Definition binary_message_bytes (p : BinaryProjection.t) : Z :=
  match BinaryProjection.body p with Some b => len b | None => 0 end
  + attributes_bytes (map ce (BinaryProjection.attributes p))
  + attributes_bytes
      (optional_attribute "ce-datacontenttype"
         (option_map ContentType.as_str (BinaryProjection.datacontenttype p))).

(** C39: an accepted event fits its limit in both encodings, counted exactly:
    the structured projection cannot fail and its bytes, with the media-type
    header, are within the limit, and so is every header and the body of the
    binary projection. *)
Theorem projections_within_limit {TL : TimeLaws} e s :
  into_stored e = Ok s ->
  EventSizeLimit.get (NewEvent.size_limit e) < usize_max ->
  body_bytes (NewEvent.content e) <= usize_max ->
  (exists p, structured_json s = Ok p /\
     structured_size (StructuredJsonProjection.as_bytes p)
       <= EventSizeLimit.get (NewEvent.size_limit e)) /\
  binary_message_bytes (binary s) <= EventSizeLimit.get (NewEvent.size_limit e).
Proof.
  unfold into_stored, StoredEvent.from_new, NewEvent.validate_with_limit. intros Hs Hl Hb.
  destruct (validate_content _ _) as [[]|] eqn:E; [|done]. injection Hs as <-.
  apply validate_content_Ok in E as (_ & _ & _ & _ & size & Hp & Hle).
  destruct (portable_size_bounds _ _ Hb Hp) as (b & Hj & Hsize); [lia|].
  split.
  - unfold structured_json. cbn [StoredEvent.content]. rewrite Hj. eexists. split; [done|].
    cbn [StructuredJsonProjection.as_bytes]. lia.
  - enough (binary_message_bytes (binary (StoredEvent.Make _ (NewEvent.content e)))
            = binary_size (NewEvent.content e)) by lia.
    unfold binary_message_bytes, binary, binary_size, body_bytes.
    cbn [BinaryProjection.body BinaryProjection.attributes BinaryProjection.datacontenttype
         StoredEvent.content].
    rewrite binary_context_projection, attributes_bytes_app.
    destruct (EventContent.data (NewEvent.content e)); simpl; lia.
Qed.
End Projection.
