(* ===== verification/State.v ===== *)
(** * Delivery states (crates/dovecote/src/state.rs)

    The lifecycle states, the outcomes of the adapter operations, and the
    snapshots and events the adapters return. *)

From S2P Require Import Prelude Utf8 External Errors Limits Validation Bounds Values Extension Serialization Event.

Module DeliveryState.
Inductive t : Type := Pending | Claimed | Delivered | Quarantined.
#[global] Instance eq_dec : EqDecision t.
Proof. solve_decision. Defined.
End DeliveryState.

Module EnqueueOutcome.
Inductive t : Type :=
  | Enqueued (row_id : RowId.t)
  | AlreadyEnqueued (row_id : RowId.t).
End EnqueueOutcome.

Module ImportedDeliveryState.
Inductive t `{TimeLib} : Type :=
  | Pending
  | Delivered (delivered_at : OffsetDateTime).

Section Ops.
Context `{TimeLib}.

Definition pending : t := Pending.

Definition delivered (delivered_at : OffsetDateTime) : Result t ValidationError.t :=
  let? delivered_at := canonicalize_instant "delivered_at" delivered_at in
  Ok (Delivered delivered_at).

Definition validate (self : t) : Result unit ValidationError.t :=
  match self with
  | Pending => Ok tt
  | Delivered delivered_at => validate_instant "delivered_at" delivered_at
  end.

Definition delivered_at (self : t) : option OffsetDateTime :=
  match self with
  | Pending => None
  | Delivered delivered_at => Some (to_utc delivered_at)
  end.
End Ops.
End ImportedDeliveryState.

Module ImportOutcome.
Inductive t : Type :=
  | Imported (row_id : RowId.t)
  | AlreadyImported (row_id : RowId.t).
End ImportOutcome.

Module FinalizeOutcome.
Inductive t : Type :=
  | Finalized (row_id : RowId.t)
  | AlreadyFinalized (row_id : RowId.t).
End FinalizeOutcome.

(** [ClaimToken([u8; CLAIM_TOKEN_BYTES])]: the sixteen bytes *)
Module ClaimToken.
Record t : Type := Make { as_bytes : bytes }.
#[global] Instance eq_dec : EqDecision t.
Proof. solve_decision. Defined.
Definition from_bytes (value : bytes) : t := Make value.
End ClaimToken.

Module DeliverySnapshot.
Inductive t `{TimeLib} : Type :=
  | Pending (available_at : OffsetDateTime) (attempts : AttemptCount.t)
      (last_failure : option Failure.t)
  | Claimed (available_at : OffsetDateTime) (worker : WorkerId.t) (expires_at : OffsetDateTime)
      (attempts : AttemptCount.t) (last_failure : option Failure.t)
  | Delivered (available_at delivered_at : OffsetDateTime) (attempts : AttemptCount.t)
      (last_failure : option Failure.t)
  | Quarantined (available_at quarantined_at : OffsetDateTime) (attempts : AttemptCount.t)
      (last_failure : option Failure.t) (reason : QuarantineReason.t).

Section Ops.
Context `{TimeLib}.

Definition pending (available_at : OffsetDateTime) (attempts : AttemptCount.t)
    (last_failure : option Failure.t) : Result t ValidationError.t :=
  let? available_at := canonicalize_instant "available_at" available_at in
  Ok (Pending available_at attempts last_failure).

Definition claimed (available_at : OffsetDateTime) (worker : WorkerId.t)
    (expires_at : OffsetDateTime) (attempts : AttemptCount.t)
    (last_failure : option Failure.t) : Result t ValidationError.t :=
  let? available_at := canonicalize_instant "available_at" available_at in
  let? expires_at := canonicalize_instant "claim_expires_at" expires_at in
  Ok (Claimed available_at worker expires_at attempts last_failure).

Definition delivered (available_at delivered_at : OffsetDateTime) (attempts : AttemptCount.t)
    (last_failure : option Failure.t) : Result t ValidationError.t :=
  let? available_at := canonicalize_instant "available_at" available_at in
  let? delivered_at := canonicalize_instant "delivered_at" delivered_at in
  Ok (Delivered available_at delivered_at attempts last_failure).

Definition quarantined (available_at quarantined_at : OffsetDateTime)
    (attempts : AttemptCount.t) (last_failure : option Failure.t)
    (reason : QuarantineReason.t) : Result t ValidationError.t :=
  let? available_at := canonicalize_instant "available_at" available_at in
  let? quarantined_at := canonicalize_instant "quarantined_at" quarantined_at in
  Ok (Quarantined available_at quarantined_at attempts last_failure reason).

Definition state (self : t) : DeliveryState.t :=
  match self with
  | Pending _ _ _ => DeliveryState.Pending
  | Claimed _ _ _ _ _ => DeliveryState.Claimed
  | Delivered _ _ _ _ => DeliveryState.Delivered
  | Quarantined _ _ _ _ _ => DeliveryState.Quarantined
  end.

Definition attempts (self : t) : AttemptCount.t :=
  match self with
  | Pending _ attempts _ | Claimed _ _ _ attempts _
  | Delivered _ _ attempts _ | Quarantined _ _ attempts _ _ => attempts
  end.

Definition last_failure (self : t) : option Failure.t :=
  match self with
  | Pending _ _ last_failure | Claimed _ _ _ _ last_failure
  | Delivered _ _ _ last_failure | Quarantined _ _ _ last_failure _ => last_failure
  end.

Definition available_at (self : t) : option OffsetDateTime :=
  match self with
  | Pending available_at _ _ | Claimed available_at _ _ _ _
  | Delivered available_at _ _ _ | Quarantined available_at _ _ _ _ =>
      Some (to_utc available_at)
  end.

Definition claim_expires_at (self : t) : option OffsetDateTime :=
  match self with
  | Claimed _ _ expires_at _ _ => Some (to_utc expires_at)
  | _ => None
  end.

Definition claimed_by (self : t) : option WorkerId.t :=
  match self with Claimed _ worker _ _ _ => Some worker | _ => None end.

Definition delivered_at (self : t) : option OffsetDateTime :=
  match self with
  | Delivered _ delivered_at _ _ => Some (to_utc delivered_at)
  | _ => None
  end.

Definition quarantined_at (self : t) : option OffsetDateTime :=
  match self with
  | Quarantined _ quarantined_at _ _ _ => Some (to_utc quarantined_at)
  | _ => None
  end.

Definition quarantine_reason (self : t) : option QuarantineReason.t :=
  match self with Quarantined _ _ _ _ reason => Some reason | _ => None end.
End Ops.
End DeliverySnapshot.

Module ClaimedEvent.
Record t `{TimeLib} : Type := Make {
  tenant_id : TenantId.t;
  row_id : RowId.t;
  event : StoredEvent.t;
  attempts : AttemptCount.t;
  claim_token : ClaimToken.t;
  claimed_by : WorkerId.t;
  claim_expires_at : OffsetDateTime;
}.

Definition new `{TimeLib} (tenant_id : TenantId.t) (row_id : RowId.t) (event : StoredEvent.t)
    (attempts : AttemptCount.t) (claim_token : ClaimToken.t) (claimed_by : WorkerId.t)
    (claim_expires_at : OffsetDateTime) : Result t ValidationError.t :=
  let? claim_expires_at := canonicalize_instant "claim_expires_at" claim_expires_at in
  Ok (Make _ tenant_id row_id event attempts claim_token claimed_by claim_expires_at).
End ClaimedEvent.

Module PagedEvent.
Record t `{TimeLib} : Type := Make {
  tenant_id : TenantId.t;
  row_id : RowId.t;
  event : StoredEvent.t;
  enqueued_at : OffsetDateTime;
  delivery : DeliverySnapshot.t;
}.

Definition new `{TimeLib} (tenant_id : TenantId.t) (row_id : RowId.t) (event : StoredEvent.t)
    (enqueued_at : OffsetDateTime) (delivery : DeliverySnapshot.t) :
    Result t ValidationError.t :=
  let? enqueued_at := canonicalize_instant "enqueued_at" enqueued_at in
  Ok (Make _ tenant_id row_id event enqueued_at delivery).
End PagedEvent.

(** ** Snapshots hold canonical instants *)

Section SnapshotLaws.
Context `{TimeLib} {TL : TimeLaws}.

Definition canonical_instant (t : OffsetDateTime) : Prop :=
  portable_instant t /\ utc_offset t = 0.

(** Every instant a snapshot holds is portable and in UTC. *)
Definition snapshot_wf (s : DeliverySnapshot.t) : Prop :=
  match s with
  | DeliverySnapshot.Pending a _ _ => canonical_instant a
  | DeliverySnapshot.Claimed a _ b _ _ | DeliverySnapshot.Delivered a b _ _
  | DeliverySnapshot.Quarantined a b _ _ _ => canonical_instant a /\ canonical_instant b
  end.

Lemma canonicalize_canonical field t u :
  canonicalize_instant field t = Ok u -> canonical_instant u /\ unix_nanos u = unix_nanos t.
Proof.
  intros Hc. apply canonicalize_instant_Ok in Hc as [Hp ->].
  unfold canonical_instant. by rewrite portable_to_utc, to_utc_offset, to_utc_nanos.
Qed.

Lemma canonicalize_id field t :
  canonical_instant t -> canonicalize_instant field t = Ok t.
Proof.
  intros [Hp Ho]. apply canonicalize_instant_Ok. split; [done|]. by rewrite to_utc_id.
Qed.

(** Rebuilding a well-formed snapshot from its own accessors through the
    checked constructor of its state succeeds and gives the snapshot back, so
    the accessors lose nothing and their conversion to UTC is the identity. *)
Theorem snapshot_rebuild s :
  snapshot_wf s ->
  match DeliverySnapshot.state s with
  | DeliveryState.Pending =>
      exists a, DeliverySnapshot.available_at s = Some a /\
        DeliverySnapshot.pending a (DeliverySnapshot.attempts s)
          (DeliverySnapshot.last_failure s) = Ok s
  | DeliveryState.Claimed =>
      exists a w e, DeliverySnapshot.available_at s = Some a /\
        DeliverySnapshot.claimed_by s = Some w /\
        DeliverySnapshot.claim_expires_at s = Some e /\
        DeliverySnapshot.claimed a w e (DeliverySnapshot.attempts s)
          (DeliverySnapshot.last_failure s) = Ok s
  | DeliveryState.Delivered =>
      exists a d, DeliverySnapshot.available_at s = Some a /\
        DeliverySnapshot.delivered_at s = Some d /\
        DeliverySnapshot.delivered a d (DeliverySnapshot.attempts s)
          (DeliverySnapshot.last_failure s) = Ok s
  | DeliveryState.Quarantined =>
      exists a q r, DeliverySnapshot.available_at s = Some a /\
        DeliverySnapshot.quarantined_at s = Some q /\
        DeliverySnapshot.quarantine_reason s = Some r /\
        DeliverySnapshot.quarantined a q (DeliverySnapshot.attempts s)
          (DeliverySnapshot.last_failure s) r = Ok s
  end.
Proof.
  destruct s; simpl; intros Hwf; rewrite ?to_utc_id by apply Hwf;
    repeat eexists; unfold DeliverySnapshot.pending, DeliverySnapshot.claimed,
    DeliverySnapshot.delivered, DeliverySnapshot.quarantined;
    by rewrite !canonicalize_id by apply Hwf.
Qed.
End SnapshotLaws.
