(* ===== verification/Tables.v ===== *)
(** * The tables (migrations/0002_dovecote_tenant_baseline.sql of each adapter)

    The rows of the two domain tables over the type of a time column, the CHECK,
    UNIQUE and FOREIGN KEY constraints the migrations declare, and facts about
    tables in key order.  A table is the list of its rows in primary-key order;
    a text column holds the bytes of the text, compared byte by byte.  SQLite
    keeps times as texts, PostgreSQL as instants; the constraints of the two
    migrations are the same. *)

From S2P Require Import Prelude.

Module Events.
(** a row of [dovecote_events] *)
Record row_of (T : Type) : Type := Row {
  row_id : Z;
  tenant_id : string;
  stream : string;
  specversion : string;
  event_id : string;
  source : string;
  event_type : string;
  subject : option string;
  occurred_at : option T;
  datacontenttype : option string;
  dataschema : option string;
  partitionkey : option string;
  extensions : string;
  data_kind : option string;
  data : option bytes;
  enqueued_at : T;
}.
Arguments Row {T}.
Arguments row_id {T}.
Arguments tenant_id {T}.
Arguments stream {T}.
Arguments specversion {T}.
Arguments event_id {T}.
Arguments source {T}.
Arguments event_type {T}.
Arguments subject {T}.
Arguments occurred_at {T}.
Arguments datacontenttype {T}.
Arguments dataschema {T}.
Arguments partitionkey {T}.
Arguments extensions {T}.
Arguments data_kind {T}.
Arguments data {T}.
Arguments enqueued_at {T}.

(** times as texts *)
Abbreviation row := (row_of string).

Definition max_len (n : Z) (s : string) : bool := len s <=? n.
Definition opt_max_len (n : Z) (s : option string) : bool := is_none_or s (max_len n).

(** the CHECK constraints of the table *)
Definition check {T} (r : row_of T) : bool :=
  (0 <? row_id r)
  && (0 <? len (tenant_id r)) && max_len 255 (tenant_id r)
  && max_len 255 (stream r)
  && bool_decide (specversion r = "1.0")
  && max_len 1024 (event_id r) && max_len 2048 (source r) && max_len 1024 (event_type r)
  && opt_max_len 2048 (subject r)
  && opt_max_len 255 (datacontenttype r)
  && opt_max_len 2048 (dataschema r)
  && opt_max_len 255 (partitionkey r)
  && is_none_or (data_kind r) (fun k => bool_decide (k = "json") || bool_decide (k = "binary"))
  && Bool.eqb (bool_decide (data_kind r = None)) (bool_decide (data r = None))
  && (len (source r) + len (event_id r) <=? 2048)
  && is_none_or (data r) (fun d => (len d =? 0) || negb (bool_decide (datacontenttype r = None))).

(** the identity of the unique index [dovecote_events_tenant_source_event_id] *)
Definition has_identity {T} (tenant source' id : string) (r : row_of T) : bool :=
  bool_decide (tenant_id r = tenant) && bool_decide (source r = source')
  && bool_decide (event_id r = id).
End Events.

Module Deliveries.
(** a row of [dovecote_deliveries] *)
Record row_of (T : Type) : Type := Row {
  event_row_id : Z;
  tenant_id : string;
  state : string;
  available_at : T;
  attempts : Z;
  claim_token : option bytes;
  claimed_by : option string;
  claim_expires_at : option T;
  last_failure_code : option string;
  last_failure_detail : option string;
  delivered_at : option T;
  quarantined_at : option T;
  quarantine_reason : option string;
}.
Arguments Row {T}.
Arguments event_row_id {T}.
Arguments tenant_id {T}.
Arguments state {T}.
Arguments available_at {T}.
Arguments attempts {T}.
Arguments claim_token {T}.
Arguments claimed_by {T}.
Arguments claim_expires_at {T}.
Arguments last_failure_code {T}.
Arguments last_failure_detail {T}.
Arguments delivered_at {T}.
Arguments quarantined_at {T}.
Arguments quarantine_reason {T}.

(** times as texts *)
Abbreviation row := (row_of string).

#[global] Instance row_eq_dec {T} `{EqDecision T} : EqDecision (row_of T).
Proof. solve_decision. Defined.

(** the columns that are NULL together in every state but one *)
Definition no_claim {T} (r : row_of T) : bool :=
  bool_decide (claim_token r = None) && bool_decide (claimed_by r = None)
  && bool_decide (claim_expires_at r = None).
Definition full_claim {T} (r : row_of T) : bool :=
  negb (bool_decide (claim_token r = None)) && negb (bool_decide (claimed_by r = None))
  && negb (bool_decide (claim_expires_at r = None)).
Definition no_quarantine {T} (r : row_of T) : bool :=
  bool_decide (quarantined_at r = None) && bool_decide (quarantine_reason r = None).
Definition full_quarantine {T} (r : row_of T) : bool :=
  negb (bool_decide (quarantined_at r = None))
  && negb (bool_decide (quarantine_reason r = None)).

(** the state CHECK: which columns each state requires and forbids *)
Definition shape {T} (r : row_of T) : bool :=
  (bool_decide (state r = "pending") && no_claim r
     && bool_decide (delivered_at r = None) && no_quarantine r)
  || (bool_decide (state r = "claimed") && full_claim r
        && bool_decide (delivered_at r = None) && no_quarantine r)
  || (bool_decide (state r = "delivered") && no_claim r
        && negb (bool_decide (delivered_at r = None)) && no_quarantine r)
  || (bool_decide (state r = "quarantined") && no_claim r
        && bool_decide (delivered_at r = None) && full_quarantine r).

Definition check {T} (r : row_of T) : bool :=
  (0 <? len (tenant_id r)) && Events.max_len 255 (tenant_id r)
  && (0 <=? attempts r)
  && is_none_or (claim_token r) (fun t => len t =? 16)
  && Events.opt_max_len 255 (claimed_by r)
  && Events.opt_max_len 128 (last_failure_code r)
  && Events.opt_max_len 2048 (last_failure_detail r)
  && Events.opt_max_len 2048 (quarantine_reason r)
  && Bool.eqb (bool_decide (last_failure_code r = None))
              (bool_decide (last_failure_detail r = None))
  && shape r.
End Deliveries.

(** The content of the two tables, and the names of the tables the catalog
    lists. *)
Record Db_of (T : Type) : Type := MkDb {
  events : list (Events.row_of T);
  deliveries : list (Deliveries.row_of T);
  tables : list string;
}.
Arguments MkDb {T}.
Arguments events {T}.
Arguments deliveries {T}.
Arguments tables {T}.

(** times as texts *)
Abbreviation Db := (Db_of string).

(** Insert into a table kept in primary-key order. *)
Fixpoint insert_row {R} (key : R -> Z) (r : R) (table : list R) : list R :=
  match table with
  | [] => [r]
  | r' :: table' => if key r <? key r' then r :: table else r' :: insert_row key r table'
  end.

(** ** Well-formed tables *)

Definition event_keys {T} (db : Db_of T) : list Z := map Events.row_id (events db).
Definition delivery_keys {T} (db : Db_of T) : list Z := map Deliveries.event_row_id (deliveries db).

Definition event_identity {T} (r : Events.row_of T) : string * string * string :=
  (Events.tenant_id r, Events.source r, Events.event_id r).

(** What the migration's constraints keep true: keys in order, every CHECK, one
    event per identity, and every delivery's event present under the same tenant. *)
Definition db_wf {T} (db : Db_of T) : Prop :=
  StronglySorted Z.lt (event_keys db) /\
  StronglySorted Z.lt (delivery_keys db) /\
  Forall (fun r => Events.check r = true) (events db) /\
  Forall (fun r => Deliveries.check r = true) (deliveries db) /\
  NoDup (map event_identity (events db)) /\
  Forall (fun d => exists e, e ∈ events db /\ Events.row_id e = Deliveries.event_row_id d /\
                             Events.tenant_id e = Deliveries.tenant_id d) (deliveries db).

(** ** Rows selected and inserted *)

(** The one element a predicate selects. *)
Lemma filter_unique {A} (p : A -> bool) (l : list A) x :
  NoDup l -> x ∈ l -> p x = true -> (forall y, y ∈ l -> p y = true -> y = x) ->
  List.filter p l = [x].
Proof.
  induction 1 as [|y l Hy Hnd IH]; intros Hx Hp Hu; [set_solver|]. simpl.
  apply elem_of_cons in Hx as [->|Hx].
  - rewrite Hp. f_equal. destruct (List.filter p l) as [|z zs] eqn:E; [done|].
    assert (Hz : In z (List.filter p l)) by (rewrite E; by left).
    apply filter_In in Hz as [Hz Hpz]. apply list_elem_of_In in Hz.
    assert (z = y) as -> by (apply Hu; [by right|done]). done.
  - destruct (p y) eqn:Epy.
    + assert (y = x) as -> by (apply Hu; [left|done]). done.
    + apply IH; [done..|]. intros z Hz. apply Hu. by right.
Qed.

(** ** Strictly sorted keys *)

Section SortedKeys.
Context {R : Type} (key : R -> Z).

Lemma sorted_key_inj table a b :
  StronglySorted Z.lt (map key table) -> a ∈ table -> b ∈ table -> key a = key b -> a = b.
Proof.
  induction table as [|r table IH]; simpl; intros Hs Ha Hb Hk; [set_solver|].
  inversion Hs as [|? ? Hs' Hall]; subst. rewrite Forall_forall in Hall.
  assert (Hlt : forall x, x ∈ table -> key r < key x)
    by (intros x Hx; apply Hall, list_elem_of_fmap; eauto).
  apply elem_of_cons in Ha as [->|Ha]; apply elem_of_cons in Hb as [->|Hb]; [done| | |by apply IH].
  - specialize (Hlt _ Hb). lia.
  - specialize (Hlt _ Ha). lia.
Qed.

Lemma sorted_filter (p : R -> bool) table :
  StronglySorted Z.lt (map key table) -> StronglySorted Z.lt (map key (List.filter p table)).
Proof.
  induction table as [|r table IH]; simpl; intros Hs; [done|].
  inversion Hs as [|? ? Hs' Hall]; subst. destruct (p r); simpl; [|by apply IH].
  constructor; [by apply IH|]. apply Forall_forall. intros k Hk.
  apply list_elem_of_fmap in Hk as (x & -> & Hx). apply list_elem_of_In, filter_In in Hx as [Hx _].
  rewrite Forall_forall in Hall. apply Hall, list_elem_of_fmap. exists x.
  split; [done|by apply list_elem_of_In].
Qed.

Lemma sorted_take n table :
  StronglySorted Z.lt (map key table) -> StronglySorted Z.lt (map key (take n table)).
Proof.
  revert n. induction table as [|r table IH]; intros [|n]; simpl; intros Hs; try constructor.
  - inversion Hs; subst. by apply IH.
  - inversion Hs as [|? ? Hs' Hall]; subst. apply Forall_forall. intros k Hk.
    rewrite Forall_forall in Hall. apply Hall. apply list_elem_of_fmap in Hk as (x & -> & Hx).
    apply list_elem_of_fmap. exists x. split; [done|]. by eapply elem_of_take in Hx as (? & ? & _);
      eapply list_elem_of_lookup_2.
Qed.

(** Everything before a cut is below everything after it. *)
Lemma sorted_app_lt (l1 l2 : list Z) :
  StronglySorted Z.lt (l1 ++ l2) -> forall x y, x ∈ l1 -> y ∈ l2 -> x < y.
Proof.
  induction l1 as [|z l1 IH]; simpl; intros Hs x y Hx Hy; [set_solver|].
  inversion Hs as [|? ? Hs' Hall]; subst. apply elem_of_cons in Hx as [->|Hx]; [|by apply IH].
  rewrite Forall_forall in Hall. apply Hall. apply elem_of_app. by right.
Qed.

Lemma sorted_lt_NoDup (l : list Z) : StronglySorted Z.lt l -> NoDup l.
Proof.
  induction 1 as [|x l Hs IH Hall]; constructor; [|done]. intros Hin.
  rewrite Forall_forall in Hall. specialize (Hall _ Hin). lia.
Qed.
End SortedKeys.

(** ** Insertion in key order *)

Lemma elem_of_insert_row {R} (key : R -> Z) r table x :
  x ∈ insert_row key r table <-> x = r \/ x ∈ table.
Proof.
  induction table as [|r' table IH]; simpl; [set_solver|].
  destruct (key r <? key r'); [set_solver|]. rewrite !elem_of_cons, IH. naive_solver.
Qed.

Lemma insert_row_perm {R} (key : R -> Z) r table : insert_row key r table ≡ₚ r :: table.
Proof.
  induction table as [|r' table IH]; simpl; [done|].
  destruct (key r <? key r'); [done|]. rewrite IH. apply perm_swap.
Qed.

Lemma NoDup_insert_row {R A} (f : R -> A) (key : R -> Z) r table :
  NoDup (map f table) -> f r ∉ map f table -> NoDup (map f (insert_row key r table)).
Proof. intros Hnd Hn. rewrite insert_row_perm. simpl. by constructor. Qed.

(** A row with a new key keeps the table in key order. *)
Lemma insert_row_sorted {R} (key : R -> Z) r table :
  StronglySorted Z.lt (map key table) -> key r ∉ map key table ->
  StronglySorted Z.lt (map key (insert_row key r table)).
Proof.
  induction table as [|r' table IH]; simpl; intros Hs Hn; [by repeat constructor|].
  inversion Hs as [|? ? Hs' Hall]; subst. destruct (Z.ltb_spec (key r) (key r')); simpl.
  - constructor; [done|]. constructor; [done|]. eapply Forall_impl; [done|]. simpl. lia.
  - constructor; [apply IH; set_solver|]. apply Forall_forall. intros k Hk.
    apply list_elem_of_fmap in Hk as (x & -> & Hx). apply elem_of_insert_row in Hx as [->|Hx].
    + assert (key r <> key r') by set_solver. lia.
    + rewrite Forall_forall in Hall. apply Hall. apply list_elem_of_fmap. eauto.
Qed.
