(* ===== verification/Queries.v ===== *)
(** * Queries over the tables

    The rows the adapters read, the joins and conditions their statements share,
    and what inserting an event with its delivery or updating deliveries keeps.
    The statements are those of the adapters' enqueue, lifecycle, page and
    import files; they differ in the type of a time column only. *)

From S2P Require Import Prelude Tables.

Module DurableRow.
Record t_of (T : Type) : Type := Make {
  row_id : Z;
  tenant_id : string;
  stream : string;
  specversion : string;
  event_id : string;
  source : string;
  event_type : string;
  subject : option string;
  occurred_at : option T;
  enqueued_at : T;
  datacontenttype : option string;
  dataschema : option string;
  partitionkey : option string;
  extensions : string;
  data_kind : option string;
  data : option bytes;
  state : option string;
  available_at : option T;
  attempts : option Z;
  claim_token : option bytes;
  claimed_by : option string;
  claim_expires_at : option T;
  last_failure_code : option string;
  last_failure_detail : option string;
  delivered_at : option T;
  quarantined_at : option T;
  quarantine_reason : option string;
}.
Arguments Make {T}.
Arguments row_id {T}.
Arguments tenant_id {T}.
Arguments stream {T}.
Arguments specversion {T}.
Arguments event_id {T}.
Arguments source {T}.
Arguments event_type {T}.
Arguments subject {T}.
Arguments occurred_at {T}.
Arguments enqueued_at {T}.
Arguments datacontenttype {T}.
Arguments dataschema {T}.
Arguments partitionkey {T}.
Arguments extensions {T}.
Arguments data_kind {T}.
Arguments data {T}.
Arguments state {T}.
Arguments available_at {T}.
Arguments attempts {T}.
Arguments claim_token {T}.
Arguments claimed_by {T}.
Arguments claim_expires_at {T}.
Arguments last_failure_code {T}.
Arguments last_failure_detail {T}.
Arguments delivered_at {T}.
Arguments quarantined_at {T}.
Arguments quarantine_reason {T}.

(** times as texts *)
Abbreviation t := (t_of string).
End DurableRow.

Module EventRow.
Record t_of (T : Type) : Type := Make {
  stream : string;
  specversion : string;
  event_id : string;
  source : string;
  event_type : string;
  subject : option string;
  occurred_at : option T;
  datacontenttype : option string;
  dataschema : option string;
  partitionkey : option string;
  extensions : string;
  data_kind : option string;
  data : option bytes;
}.
Arguments Make {T}.
Arguments stream {T}.
Arguments specversion {T}.
Arguments event_id {T}.
Arguments source {T}.
Arguments event_type {T}.
Arguments subject {T}.
Arguments occurred_at {T}.
Arguments datacontenttype {T}.
Arguments dataschema {T}.
Arguments partitionkey {T}.
Arguments extensions {T}.
Arguments data_kind {T}.
Arguments data {T}.

(** times as texts *)
Abbreviation t := (t_of string).

#[global] Instance eq_dec {T} `{EqDecision T} : EqDecision (t_of T).
Proof. solve_decision. Defined.
End EventRow.

Module DeliveryRow.
Record t_of (T : Type) : Type := Make {
  state : string;
  attempts : Z;
  claim_token : option bytes;
  claimed_by : option string;
  claim_expires_at : option T;
  last_failure_code : option string;
  last_failure_detail : option string;
  delivered_at : option T;
  quarantined_at : option T;
  quarantine_reason : option string;
  available_at : T;
}.
Arguments Make {T}.
Arguments state {T}.
Arguments attempts {T}.
Arguments claim_token {T}.
Arguments claimed_by {T}.
Arguments claim_expires_at {T}.
Arguments last_failure_code {T}.
Arguments last_failure_detail {T}.
Arguments delivered_at {T}.
Arguments quarantined_at {T}.
Arguments quarantine_reason {T}.
Arguments available_at {T}.

(** times as texts *)
Abbreviation t := (t_of string).

(** the columns both SELECTs read *)
Definition of_row {T} (d : Deliveries.row_of T) : t_of T :=
  Make (Deliveries.state d) (Deliveries.attempts d) (Deliveries.claim_token d)
    (Deliveries.claimed_by d) (Deliveries.claim_expires_at d) (Deliveries.last_failure_code d)
    (Deliveries.last_failure_detail d) (Deliveries.delivered_at d) (Deliveries.quarantined_at d)
    (Deliveries.quarantine_reason d) (Deliveries.available_at d).
End DeliveryRow.

Module ExistingEvent.
Record t_of (T : Type) : Type := Make {
  row_id : Z;
  stream : string;
  specversion : string;
  event_id : string;
  source : string;
  event_type : string;
  subject : option string;
  occurred_at : option T;
  datacontenttype : option string;
  dataschema : option string;
  partitionkey : option string;
  extensions : string;
  data_kind : option string;
  data : option bytes;
  enqueued_at : T;
}.
Arguments Make {T}.
Arguments row_id {T}.
Arguments stream {T}.
Arguments specversion {T}.
Arguments event_id {T}.
Arguments source {T}.
Arguments event_type {T}.
Arguments subject {T}.
Arguments occurred_at {T}.
Arguments datacontenttype {T}.
Arguments dataschema {T}.
Arguments partitionkey {T}.
Arguments extensions {T}.
Arguments data_kind {T}.
Arguments data {T}.
Arguments enqueued_at {T}.

(** times as texts *)
Abbreviation t := (t_of string).

(** the [EventRow] that [validate_existing_event] hydrates *)
Definition columns {T} (self : t_of T) : EventRow.t_of T :=
  EventRow.Make (stream self) (specversion self) (event_id self) (source self)
    (event_type self) (subject self) (occurred_at self) (datacontenttype self)
    (dataschema self) (partitionkey self) (extensions self) (data_kind self) (data self).
End ExistingEvent.

(** ** Rows and their columns *)

Section Rows.
Context {T : Type}.

Definition event_row (self : DurableRow.t_of T) : EventRow.t_of T :=
  EventRow.Make (DurableRow.stream self) (DurableRow.specversion self)
    (DurableRow.event_id self) (DurableRow.source self) (DurableRow.event_type self)
    (DurableRow.subject self) (DurableRow.occurred_at self) (DurableRow.datacontenttype self)
    (DurableRow.dataschema self) (DurableRow.partitionkey self) (DurableRow.extensions self)
    (DurableRow.data_kind self) (DurableRow.data self).

(** the event columns of a table row *)
Definition row_columns (r : Events.row_of T) : EventRow.t_of T :=
  EventRow.Make (Events.stream r) (Events.specversion r) (Events.event_id r) (Events.source r)
    (Events.event_type r) (Events.subject r) (Events.occurred_at r) (Events.datacontenttype r)
    (Events.dataschema r) (Events.partitionkey r) (Events.extensions r) (Events.data_kind r)
    (Events.data r).

Definition new_event_row (row_id : Z) (tenant : string) (c : EventRow.t_of T) (enqueued_at : T) : Events.row_of T :=
  Events.Row row_id tenant (EventRow.stream c) (EventRow.specversion c) (EventRow.event_id c)
    (EventRow.source c) (EventRow.event_type c) (EventRow.subject c) (EventRow.occurred_at c)
    (EventRow.datacontenttype c) (EventRow.dataschema c) (EventRow.partitionkey c)
    (EventRow.extensions c) (EventRow.data_kind c) (EventRow.data c) enqueued_at.

(** A delivery row of the given state, untouched since its insertion. *)
Definition untouched_row (tenant : string) (event_row_id : Z) (state : string)
    (available_at : T) (delivered_at : option T) : Deliveries.row_of T :=
  Deliveries.Row event_row_id tenant state available_at 0 None None None None None delivered_at None
    None.

(** a delivery row with the columns the statement leaves at their defaults *)
Definition pending_row (tenant : string) (event_row_id : Z) (available_at : T) : Deliveries.row_of T :=
  Deliveries.Row event_row_id tenant "pending" available_at 0 None None None None None None None
    None.

(** the row after [SET state = ?, available_at = ?, claim_token = NULL, claimed_by
    = NULL, claim_expires_at = NULL] and the state's own columns *)
Definition unclaimed (d : Deliveries.row_of T) (state : string) (available_at : T)
    (failure : option (string * string)) (delivered_at quarantined_at : option T)
    (reason : option string) : Deliveries.row_of T :=
  Deliveries.Row (Deliveries.event_row_id d) (Deliveries.tenant_id d) state available_at
    (Deliveries.attempts d) None None None
    (match failure with Some f => Some f.1 | None => Deliveries.last_failure_code d end)
    (match failure with Some f => Some f.2 | None => Deliveries.last_failure_detail d end)
    delivered_at quarantined_at reason.

(** the row after [SET state = 'claimed', attempts = ?, claim_token = ?,
    claimed_by = ?, claim_expires_at = ...] *)
Definition set_claimed (attempts : Z) (token : bytes) (worker : string) (expiry : option T)
    (r : Deliveries.row_of T) : Deliveries.row_of T :=
  Deliveries.Row (Deliveries.event_row_id r) (Deliveries.tenant_id r) "claimed"
    (Deliveries.available_at r) attempts (Some token) (Some worker) expiry
    (Deliveries.last_failure_code r) (Deliveries.last_failure_detail r)
    (Deliveries.delivered_at r) (Deliveries.quarantined_at r) (Deliveries.quarantine_reason r).

(** [SET state = 'delivered', delivered_at = ?] *)
Definition set_finalized (delivered_at : T) (r : Deliveries.row_of T) : Deliveries.row_of T :=
  Deliveries.Row (Deliveries.event_row_id r) (Deliveries.tenant_id r) "delivered"
    (Deliveries.available_at r) (Deliveries.attempts r) (Deliveries.claim_token r)
    (Deliveries.claimed_by r) (Deliveries.claim_expires_at r) (Deliveries.last_failure_code r)
    (Deliveries.last_failure_detail r) (Some delivered_at) (Deliveries.quarantined_at r)
    (Deliveries.quarantine_reason r).
End Rows.

(** ** Conditions of the queries *)

Section Conditions.
Context {T : Type}.

(** [WHERE tenant_id = ? AND row_id = ?] *)
Definition event_at (tenant : string) (row_id : Z) (r : Events.row_of T) : bool :=
  bool_decide (Events.tenant_id r = tenant) && (Events.row_id r =? row_id).

(** [SELECT ... FROM dovecote_deliveries WHERE tenant_id = ? AND event_row_id = ?] *)
Definition delivery_of (tenant : string) (row_id : Z) (r : Deliveries.row_of T) : bool :=
  bool_decide (Deliveries.tenant_id r = tenant) && (Deliveries.event_row_id r =? row_id).

Definition select_delivery_sql (tenant : string) (row_id : Z) (db : Db_of T) : option (DeliveryRow.t_of T) :=
  option_map DeliveryRow.of_row (find (delivery_of tenant row_id) (deliveries db)).

(** [SELECT ... FROM dovecote_events WHERE tenant_id = ? AND source = ? AND
    event_id = ?] *)
Definition find_existing_sql (tenant source event_id : string) (db : Db_of T) :
    option (ExistingEvent.t_of T) :=
  option_map (fun r => ExistingEvent.Make (Events.row_id r) (Events.stream r)
                (Events.specversion r) (Events.event_id r) (Events.source r) (Events.event_type r)
                (Events.subject r) (Events.occurred_at r) (Events.datacontenttype r)
                (Events.dataschema r) (Events.partitionkey r) (Events.extensions r)
                (Events.data_kind r) (Events.data r) (Events.enqueued_at r))
    (find (Events.has_identity tenant source event_id) (events db)).

Definition in_scope (tenant : option string) (d : Deliveries.row_of T) : bool :=
  is_none_or tenant (fun t => bool_decide (Deliveries.tenant_id d = t)).

(** [event_row_id = ? AND (? IS NULL OR tenant_id = ?)] *)
Definition row_in_scope (tenant : option string) (row_id : Z) (d : Deliveries.row_of T) : bool :=
  (Deliveries.event_row_id d =? row_id) && in_scope tenant d.

(** a row of the join of the two tables *)
Definition joined_row (e : Events.row_of T) (d : Deliveries.row_of T) : DurableRow.t_of T :=
  DurableRow.Make (Events.row_id e) (Events.tenant_id e) (Events.stream e) (Events.specversion e)
    (Events.event_id e) (Events.source e) (Events.event_type e) (Events.subject e)
    (Events.occurred_at e) (Events.enqueued_at e) (Events.datacontenttype e)
    (Events.dataschema e) (Events.partitionkey e) (Events.extensions e) (Events.data_kind e)
    (Events.data e) (Some (Deliveries.state d)) (Some (Deliveries.available_at d))
    (Some (Deliveries.attempts d)) (Deliveries.claim_token d) (Deliveries.claimed_by d)
    (Deliveries.claim_expires_at d) (Deliveries.last_failure_code d)
    (Deliveries.last_failure_detail d) (Deliveries.delivered_at d) (Deliveries.quarantined_at d)
    (Deliveries.quarantine_reason d).

(** [e.tenant_id = d.tenant_id AND e.row_id = d.event_row_id] *)
Definition join_condition (d : Deliveries.row_of T) (e : Events.row_of T) : bool :=
  bool_decide (Events.tenant_id e = Deliveries.tenant_id d)
  && (Events.row_id e =? Deliveries.event_row_id d).

(** the row of the LEFT JOIN for an event without a delivery *)
Definition orphan_row (e : Events.row_of T) : DurableRow.t_of T :=
  DurableRow.Make (Events.row_id e) (Events.tenant_id e) (Events.stream e) (Events.specversion e)
    (Events.event_id e) (Events.source e) (Events.event_type e) (Events.subject e)
    (Events.occurred_at e) (Events.enqueued_at e) (Events.datacontenttype e)
    (Events.dataschema e) (Events.partitionkey e) (Events.extensions e) (Events.data_kind e)
    (Events.data e) None None None None None None None None None None None.

(** [LEFT JOIN dovecote_deliveries AS d ON d.tenant_id = e.tenant_id AND
    d.event_row_id = e.row_id] for one event *)
Definition left_join (ds : list (Deliveries.row_of T)) (e : Events.row_of T) :
    list (DurableRow.t_of T) :=
  match List.filter (fun d => join_condition d e) ds with
  | [] => [orphan_row e]
  | matching => map (joined_row e) matching
  end.

(** the WHERE clause of the page queries *)
Definition in_page (tenant : option string) (after : Z) (upper : option Z) (e : Events.row_of T) : bool :=
  (after <? Events.row_id e)
  && is_none_or upper (fun upper => Events.row_id e <=? upper)
  && is_none_or tenant (fun t => bool_decide (Events.tenant_id e = t)).

(** [PAGE_SQL], [PAGE_SNAPSHOT_SQL], [SCOPED_PAGE_SQL] and
    [SCOPED_PAGE_SNAPSHOT_SQL], by the optional tenant and upper bound *)
Definition page_sql (tenant : option string) (after : Z) (upper : option Z) (limit : Z) (db : Db_of T) :
    list (DurableRow.t_of T) :=
  take (Z.to_nat limit)
    (concat (map (left_join (deliveries db)) (List.filter (in_page tenant after upper) (events db)))).

(** [SELECT MAX(row_id) FROM dovecote_events WHERE (? IS NULL OR tenant_id = ?)] *)
Definition max_row_id_sql (tenant : option string) (db : Db_of T) : option Z :=
  fold_left (fun acc e => match acc with
                          | None => Some (Events.row_id e)
                          | Some m => Some (Z.max m (Events.row_id e))
                          end)
    (List.filter (fun e => is_none_or tenant (fun t => bool_decide (Events.tenant_id e = t)))
       (events db)) None.
Definition select_enqueued_at_sql (tenant : string) (row_id : Z) (db : Db_of T) : option T :=
  option_map Events.enqueued_at (find (event_at tenant row_id) (events db)).

(** the WHERE clause of the update *)
Definition pending_import `{EqDecision T} (tenant : string) (row_id : Z) (enqueued_at : T)
    (r : Deliveries.row_of T) : bool :=
  delivery_of tenant row_id r
  && bool_decide (Deliveries.state r = "pending")
  && (Deliveries.attempts r =? 0)
  && is_none (Deliveries.claim_token r) && is_none (Deliveries.claimed_by r)
  && is_none (Deliveries.claim_expires_at r)
  && is_none (Deliveries.last_failure_code r) && is_none (Deliveries.last_failure_detail r)
  && is_none (Deliveries.delivered_at r)
  && is_none (Deliveries.quarantined_at r) && is_none (Deliveries.quarantine_reason r)
  && bool_decide (Deliveries.available_at r = enqueued_at).
End Conditions.

(** ** What they select *)

Section Selected.
Context {T : Type}.

Lemma has_identity_spec tenant source id (r : Events.row_of T) :
  Events.has_identity tenant source id r = true <-> event_identity r = (tenant, source, id).
Proof.
  unfold Events.has_identity, event_identity.
  rewrite !andb_true_iff, !bool_decide_eq_true. split; [intros [[-> ->] ->]|intros [= -> -> ->]]; done.
Qed.

Lemma find_existing_columns tenant source id (db : Db_of T) x :
  find_existing_sql tenant source id db = Some x ->
  exists r, r ∈ events db /\ event_identity r = (tenant, source, id) /\
    ExistingEvent.row_id x = Events.row_id r /\ ExistingEvent.columns x = row_columns r /\
    ExistingEvent.enqueued_at x = Events.enqueued_at r.
Proof.
  unfold find_existing_sql. destruct (find _ _) as [r|] eqn:E; [|done]. intros [= <-].
  apply List.find_some in E as [Hin Hid]. exists r. apply has_identity_spec in Hid.
  apply list_elem_of_In in Hin. done.
Qed.

Lemma delivery_of_spec tenant id (r : Deliveries.row_of T) :
  delivery_of tenant id r = true <-> Deliveries.tenant_id r = tenant /\ Deliveries.event_row_id r = id.
Proof. unfold delivery_of. by rewrite andb_true_iff, bool_decide_eq_true, Z.eqb_eq. Qed.

(** Two deliveries of one key are one row. *)
Lemma delivery_of_unique (db : Db_of T) tenant id d d' :
  db_wf db ->
  d ∈ deliveries db -> d' ∈ deliveries db ->
  delivery_of tenant id d = true -> delivery_of tenant id d' = true -> d = d'.
Proof.
  rewrite !delivery_of_spec. intros Hwf Hd Hd' [_ Hk] [_ Hk'].
  eapply (sorted_key_inj Deliveries.event_row_id); [apply Hwf|done..|congruence].
Qed.

Lemma select_delivery_Some tenant id (db : Db_of T) row :
  select_delivery_sql tenant id db = Some row ->
  exists d, d ∈ deliveries db /\ delivery_of tenant id d = true /\ row = DeliveryRow.of_row d.
Proof.
  unfold select_delivery_sql. destruct (find _ _) as [d|] eqn:E; [|done]. intros [= <-].
  apply List.find_some in E as [Hin Hd]. exists d. by rewrite list_elem_of_In.
Qed.

Lemma select_delivery_run (db : Db_of T) tenant id d :
  db_wf db -> d ∈ deliveries db -> delivery_of tenant id d = true ->
  select_delivery_sql tenant id db = Some (DeliveryRow.of_row d).
Proof.
  intros Hwf Hd Hdel. unfold select_delivery_sql.
  destruct (find (delivery_of tenant id) (deliveries db)) as [d'|] eqn:Ef.
  - apply List.find_some in Ef as [Hin Hdel']. apply list_elem_of_In in Hin.
    by rewrite (delivery_of_unique db _ _ _ _ Hwf Hin Hd Hdel' Hdel).
  - apply list_elem_of_In in Hd. by rewrite (List.find_none _ _ Ef d Hd) in Hdel.
Qed.

(** the one row the condition selects *)
Lemma pending_import_row `{EqDecision T} tenant key (enqueued_at : T) r :
  pending_import tenant key enqueued_at r = true <->
  r = untouched_row tenant key "pending" enqueued_at None.
Proof.
  unfold pending_import, untouched_row.
  rewrite !andb_true_iff, !is_none_true, delivery_of_spec, Z.eqb_eq, !bool_decide_eq_true.
  destruct r. cbn. split; [intros H'; by destruct_and!; subst|intros [=]; by subst].
Qed.

Lemma select_enqueued_at_Some tenant key (db : Db_of T) t :
  select_enqueued_at_sql tenant key db = Some t ->
  exists e, e ∈ events db /\ event_at tenant key e = true /\ Events.enqueued_at e = t.
Proof.
  unfold select_enqueued_at_sql. destruct (find _ _) as [e|] eqn:E; [|done]. intros [= <-].
  apply List.find_some in E as [Hin He]. exists e. by rewrite list_elem_of_In.
Qed.

Lemma select_enqueued_at_None tenant key (db : Db_of T) e :
  select_enqueued_at_sql tenant key db = None -> e ∈ events db -> event_at tenant key e = false.
Proof.
  unfold select_enqueued_at_sql. destruct (find _ _) eqn:E; [done|]. intros _ He.
  apply (List.find_none _ _ E). by apply list_elem_of_In.
Qed.

(** The tables an import and a finalization see, found by key. *)
Lemma select_enqueued_at_run (db : Db_of T) tenant id e :
  db_wf db -> e ∈ events db -> event_at tenant id e = true ->
  select_enqueued_at_sql tenant id db = Some (Events.enqueued_at e).
Proof.
  intros Hwf He Hat. unfold select_enqueued_at_sql.
  destruct (find (event_at tenant id) (events db)) as [e'|] eqn:Ef.
  - apply List.find_some in Ef as [Hin Hat']. apply list_elem_of_In in Hin.
    unfold event_at in *. bools.
    rewrite (sorted_key_inj Events.row_id (events db) e' e); [done|apply Hwf|done..|congruence].
  - apply list_elem_of_In in He. by rewrite (List.find_none _ _ Ef e He) in Hat.
Qed.

Lemma deliveries_NoDup (db : Db_of T) : db_wf db -> NoDup (deliveries db).
Proof.
  intros (_ & Hs & _). apply sorted_lt_NoDup in Hs. by apply NoDup_fmap_1 in Hs.
Qed.

Lemma join_condition_spec (d : Deliveries.row_of T) (e : Events.row_of T) :
  join_condition d e = true <->
  Events.tenant_id e = Deliveries.tenant_id d /\ Events.row_id e = Deliveries.event_row_id d.
Proof. unfold join_condition. by rewrite andb_true_iff, bool_decide_eq_true, Z.eqb_eq. Qed.

(** The events joined to a delivery. *)
Lemma joined_events (db : Db_of T) d (q : bool) (s : Events.row_of T -> bool) :
  db_wf db -> d ∈ deliveries db ->
  exists e, e ∈ events db /\ join_condition d e = true /\
    List.filter (fun e => join_condition d e && q && s e) (events db)
    = if q && s e then [e] else [].
Proof.
  intros (Hev & _ & _ & _ & _ & Hfk) Hd. rewrite Forall_forall in Hfk.
  destruct (Hfk _ Hd) as (e & He & Hk & Ht). exists e.
  assert (Hj : join_condition d e = true) by by apply join_condition_spec.
  assert (Hu : forall y, y ∈ events db -> join_condition d y = true -> y = e).
  { intros y Hy Hjy. apply join_condition_spec in Hjy as [_ Hjy].
    eapply (sorted_key_inj Events.row_id); eauto; congruence. }
  split_and!; [done..|]. destruct (q && s e) eqn:Eq.
  - apply andb_true_iff in Eq as [-> Hs]. apply filter_unique.
    + apply (NoDup_fmap_1 Events.row_id). by apply sorted_lt_NoDup.
    + done.
    + by rewrite Hj, Hs.
    + intros y Hy Hp. bools. by apply Hu.
  - destruct (List.filter _ (events db)) as [|y ys] eqn:E; [done|].
    assert (Hy : In y (List.filter (fun e => join_condition d e && q && s e) (events db)))
      by (rewrite E; by left).
    apply filter_In in Hy as [Hy Hp]. bools. apply list_elem_of_In in Hy.
    assert (y = e) as -> by by apply Hu.
    match goal with H1 : q = true, H2 : s e = true |- _ => rewrite H1, H2 in Eq end. done.
Qed.
End Selected.

(** ** What inserting and updating keeps *)

Section Changes.
Context {T : Type}.

Definition with_event (r : Events.row_of T) (db : Db_of T) : Db_of T :=
  MkDb (insert_row Events.row_id r (events db)) (deliveries db) (tables db).

Definition with_delivery (r : Deliveries.row_of T) (db : Db_of T) : Db_of T :=
  MkDb (events db) (insert_row Deliveries.event_row_id r (deliveries db)) (tables db).

(** An event with a new key and identity. *)
Lemma with_event_wf (db : Db_of T) r :
  db_wf db -> Events.row_id r ∉ event_keys db ->
  event_identity r ∉ map event_identity (events db) -> Events.check r = true ->
  db_wf (with_event r db).
Proof.
  intros (He & Hd & Hce & Hcd & Hid & Hfk) Hfresh Hnew Hck.
  rewrite Forall_forall in Hfk. unfold with_event, db_wf, event_keys, delivery_keys. simpl.
  split_and!; try done.
  - by apply insert_row_sorted.
  - apply Forall_forall. intros x Hx. apply elem_of_insert_row in Hx as [->|Hx]; [done|].
    rewrite Forall_forall in Hce. by apply Hce.
  - by apply (NoDup_insert_row event_identity).
  - apply Forall_forall. intros x Hx. destruct (Hfk _ Hx) as (e & Hein & He'). exists e.
    split; [apply elem_of_insert_row; by right|done].
Qed.

(** A delivery with a new key, of an event of its tenant. *)
Lemma with_delivery_wf (db : Db_of T) d e :
  db_wf db -> Deliveries.event_row_id d ∉ delivery_keys db -> Deliveries.check d = true ->
  e ∈ events db -> Events.row_id e = Deliveries.event_row_id d ->
  Events.tenant_id e = Deliveries.tenant_id d ->
  db_wf (with_delivery d db).
Proof.
  intros (He & Hd & Hce & Hcd & Hid & Hfk) Hfresh Hck Hein Hkey Htn.
  unfold with_delivery, db_wf, event_keys, delivery_keys. simpl. split_and!; try done.
  - by apply insert_row_sorted.
  - apply Forall_forall. intros x Hx. apply elem_of_insert_row in Hx as [->|Hx]; [done|].
    rewrite Forall_forall in Hcd. by apply Hcd.
  - apply Forall_forall. intros x Hx. apply elem_of_insert_row in Hx as [->|Hx]; [by exists e|].
    rewrite Forall_forall in Hfk. by apply Hfk.
Qed.

(** An event with a new key and identity, inserted with its delivery. *)
Lemma insert_pair_wf (db : Db_of T) r d :
  db_wf db -> Forall (fun k => k < Events.row_id r) (event_keys db) ->
  event_identity r ∉ map event_identity (events db) ->
  Events.check r = true -> Deliveries.check d = true ->
  Deliveries.event_row_id d = Events.row_id r -> Deliveries.tenant_id d = Events.tenant_id r ->
  db_wf (with_delivery d (with_event r db)).
Proof.
  intros Hwf Hfresh Hnew Hck Hdck Hkey Htn.
  assert (Hn : Events.row_id r ∉ event_keys db).
  { intros Hin. rewrite Forall_forall in Hfresh. specialize (Hfresh _ Hin). lia. }
  eapply with_delivery_wf; [by apply with_event_wf| |done| |by symmetry..].
  - intros Hin. apply list_elem_of_fmap in Hin as (d' & Hkd & Hin). simpl in Hin.
    destruct Hwf as (_ & _ & _ & _ & _ & Hfk). rewrite Forall_forall in Hfk.
    destruct (Hfk _ Hin) as (e & Hein & Hke & _). apply Hn, list_elem_of_fmap. exists e.
    split; [congruence|done].
  - apply elem_of_insert_row. by left.
Qed.

(** The row of an untouched delivery passes the CHECKs when its event does. *)
Lemma untouched_row_check (r : Events.row_of T) id state (at_ : T) delivered_at :
  Events.check r = true ->
  (state = "pending" /\ delivered_at = None) \/ (state = "delivered" /\ is_Some delivered_at) ->
  Deliveries.check (untouched_row (Events.tenant_id r) id state at_ delivered_at) = true.
Proof.
  unfold Events.check. intros Hck Hs. bools.
  unfold Deliveries.check, untouched_row.
  cbn [Deliveries.tenant_id Deliveries.attempts Deliveries.claim_token Deliveries.claimed_by
       Deliveries.last_failure_code Deliveries.last_failure_detail Deliveries.quarantine_reason].
  match goal with H : 0 < len (Events.tenant_id r) |- _ => apply Z.ltb_lt in H; rewrite H end.
  match goal with H : Events.max_len 255 (Events.tenant_id r) = true |- _ => rewrite H end.
  destruct Hs as [[-> ->]|[-> [t ->]]]; reflexivity.
Qed.

(** The rows [f] produces pass the CHECKs when the rows of [table] do. *)
Definition checks_kept (f : Deliveries.row_of T -> Deliveries.row_of T)
    (table : list (Deliveries.row_of T)) :
    Prop :=
  forall d, d ∈ table -> Deliveries.check d = true -> Deliveries.check (f d) = true.

(** Rewriting the delivery rows within the CHECKs keeps the tables well formed. *)
Lemma map_deliveries_wf (f : Deliveries.row_of T -> Deliveries.row_of T) (db : Db_of T) :
  db_wf db -> checks_kept f (deliveries db) ->
  (forall d, Deliveries.event_row_id (f d) = Deliveries.event_row_id d /\
             Deliveries.tenant_id (f d) = Deliveries.tenant_id d) ->
  db_wf (MkDb (events db) (map f (deliveries db)) (tables db)).
Proof.
  intros (He & Hd & Hce & Hcd & Hid & Hfk) Hk Hkeep. unfold db_wf, delivery_keys, event_keys. simpl.
  split_and!; try done.
  - rewrite map_map. erewrite map_ext; [exact Hd|]. intros d. apply Hkeep.
  - apply Forall_map, Forall_forall. intros d Hin. simpl. apply Hk; [done|].
    rewrite Forall_forall in Hcd. by apply Hcd.
  - apply Forall_map. eapply Forall_impl; [exact Hfk|]. intros d. simpl.
    destruct (Hkeep d) as [-> ->]. done.
Qed.
End Changes.

(** ** The rows of the other tenants *)

Section Others.
Context {T : Type} (tenant : string).

Definition foreign_event (e : Events.row_of T) : bool :=
  negb (bool_decide (Events.tenant_id e = tenant)).
Definition foreign_delivery (d : Deliveries.row_of T) : bool :=
  negb (bool_decide (Deliveries.tenant_id d = tenant)).
Definition others (db : Db_of T) : list (Events.row_of T) * list (Deliveries.row_of T) :=
  (List.filter foreign_event (events db), List.filter foreign_delivery (deliveries db)).

Lemma filter_insert_row {R} (key : R -> Z) (p : R -> bool) r l :
  p r = false -> List.filter p (insert_row key r l) = List.filter p l.
Proof.
  intros Hp. induction l as [|x l IH]; simpl; [by rewrite Hp|].
  destruct (key r <? key x); simpl; [by rewrite Hp|]. by rewrite IH.
Qed.

(** Rewriting the tenant's own rows leaves the others' as they were. *)
Lemma filter_map_own {R} (p : R -> bool) (f : R -> R) l :
  (forall r, r ∈ l -> f r = r \/ (p r = false /\ p (f r) = false)) ->
  List.filter p (map f l) = List.filter p l.
Proof.
  induction l as [|x l IH]; simpl; intros Hf; [done|].
  destruct (Hf x) as [-> |[-> ->]]; [left| |apply IH; set_solver]. rewrite IH; [done|set_solver].
Qed.

Lemma others_insert_event (r : Events.row_of T) db :
  Events.tenant_id r = tenant -> others (with_event r db) = others db.
Proof.
  intros Ht. unfold others, with_event. cbn. f_equal. apply filter_insert_row.
  unfold foreign_event. by rewrite Ht, bool_decide_true.
Qed.

Lemma others_insert_delivery (d : Deliveries.row_of T) db :
  Deliveries.tenant_id d = tenant -> others (with_delivery d db) = others db.
Proof.
  intros Ht. unfold others, with_delivery. cbn. f_equal. apply filter_insert_row.
  unfold foreign_delivery. by rewrite Ht, bool_decide_true.
Qed.

(** A row map that keeps every tenant and changes only the tenant's rows. *)
Lemma others_map f (db : Db_of T) :
  (forall d, d ∈ deliveries db -> f d = d \/
     (Deliveries.tenant_id d = tenant /\ Deliveries.tenant_id (f d) = tenant)) ->
  others (MkDb (events db) (map f (deliveries db)) (tables db)) = others db.
Proof.
  intros Hf. unfold others. cbn. f_equal. apply filter_map_own. intros d Hd.
  destruct (Hf d Hd) as [|[H1 H2]]; [by left|right].
  unfold foreign_delivery. by rewrite H1, H2, bool_decide_true.
Qed.
End Others.
