(* ===== verification/Paging.v ===== *)
(** * Pages and windows of the event table

    What the page query reads on well-formed tables, the events a tenant owns,
    and the window a snapshot pager moves over them: each adapter's pager holds
    an upper bound, a cursor and whether it is exhausted, and a page advances
    them. *)

From S2P Require Import Prelude Step Utf8 External Errors Limits Validation Bounds Values Extension Serialization Event State Tables Queries.

(** ** Rows of a page *)

Section PageRows.
Context {T : Type}.

(** On well-formed tables the left join gives one row per event. *)
Lemma left_join_one (db : Db_of T) e :
  db_wf db -> e ∈ events db ->
  exists c, left_join (deliveries db) e = [c] /\ DurableRow.row_id c = Events.row_id e /\
    DurableRow.tenant_id c = Events.tenant_id e.
Proof.
  intros (_ & Hd & _) He. unfold left_join.
  destruct (List.filter _ (deliveries db)) as [|d ds] eqn:E; [by eexists|].
  assert (Hin : forall x, x ∈ d :: ds -> x ∈ deliveries db /\ join_condition x e = true).
  { intros x Hx. rewrite <- E in Hx. apply list_elem_of_In, filter_In in Hx as [Hx ?].
    by rewrite list_elem_of_In. }
  destruct ds as [|d2 ds]; [by eexists|]. exfalso.
  destruct (Hin d) as [Hd1 Hj1]; [left|]. destruct (Hin d2) as [Hd2 Hj2]; [right; left|].
  apply join_condition_spec in Hj1 as [_ Hk1], Hj2 as [_ Hk2].
  assert (d = d2) as <- by (eapply (sorted_key_inj Deliveries.event_row_id); eauto; congruence).
  assert (Hnd : NoDup (deliveries db))
    by by apply (NoDup_fmap_1 Deliveries.event_row_id), sorted_lt_NoDup.
  assert (Hf : NoDup (d :: d :: ds)).
  { rewrite <- E. apply NoDup_ListNoDup, List.NoDup_filter. by apply NoDup_ListNoDup. }
  inversion Hf as [|? ? Hn]; subst. apply Hn. left.
Qed.

(** The durable row of an event. *)
Definition durable_of (db : Db_of T) (e : Events.row_of T) : DurableRow.t_of T :=
  match left_join (deliveries db) e with c :: _ => c | [] => orphan_row e end.

Lemma page_sql_rows tenant after upper limit (db : Db_of T) :
  db_wf db ->
  page_sql tenant after upper limit db
  = map (durable_of db) (take (Z.to_nat limit) (List.filter (in_page tenant after upper) (events db))).
Proof.
  intros Hwf. unfold page_sql. rewrite <- firstn_map. f_equal.
  assert (Hin : Forall (fun e => e ∈ events db) (List.filter (in_page tenant after upper) (events db))).
  { apply Forall_forall. intros e He. apply list_elem_of_In, filter_In in He as [He _].
    by apply list_elem_of_In. }
  induction Hin as [|e es He Hin IH]; simpl; [done|].
  destruct (left_join_one db e Hwf He) as (c & Hc & _). unfold durable_of at 1.
  rewrite Hc, IH. done.
Qed.

Lemma durable_of_row_id (db : Db_of T) e :
  db_wf db -> e ∈ events db -> DurableRow.row_id (durable_of db e) = Events.row_id e.
Proof.
  intros Hwf He. destruct (left_join_one db e Hwf He) as (c & Hc & Hid & _).
  unfold durable_of. by rewrite Hc.
Qed.

Lemma durable_of_tenant (db : Db_of T) e :
  db_wf db -> e ∈ events db -> DurableRow.tenant_id (durable_of db e) = Events.tenant_id e.
Proof.
  intros Hwf He. destruct (left_join_one db e Hwf He) as (c & Hc & _ & Ht).
  unfold durable_of. by rewrite Hc.
Qed.

(** An event of a page query is an event of the scope. *)
Lemma page_row tenant after upper limit (db : Db_of T) e :
  e ∈ take limit (List.filter (in_page tenant after upper) (events db)) ->
  e ∈ events db /\ in_page tenant after upper e = true.
Proof.
  intros He. apply elem_of_take in He as (i & Hi & _).
  apply list_elem_of_lookup_2, list_elem_of_In, filter_In in Hi as [Hi Hp].
  by rewrite list_elem_of_In.
Qed.
End PageRows.

(** ** The events of a page *)

Section PageEvents.
Context {T : Type}.

Definition page_events (tenant_id : option TenantId.t) (after : Z) (upper : option Z)
    (limit : Limit.t) (db : Db_of T) : list (Events.row_of T) :=
  take (Z.to_nat (Limit.get limit))
    (List.filter (in_page (option_map TenantId.as_str tenant_id) after upper) (events db)).

Lemma page_events_sorted tenant_id after upper limit (db : Db_of T) :
  db_wf db -> StronglySorted Z.lt (map Events.row_id (page_events tenant_id after upper limit db)).
Proof. intros Hwf. apply sorted_take, sorted_filter, Hwf. Qed.

Lemma page_events_length tenant_id after upper limit (db : Db_of T) :
  0 <= Limit.get limit ->
  Z.of_nat (length (page_events tenant_id after upper limit db)) <= Limit.get limit.
Proof. intros Hl. unfold page_events. rewrite length_take. lia. Qed.

(** No event is skipped: one that lies after the cursor is on the page, unless
    the page is full and the event lies beyond its last row. *)
Lemma page_events_complete tenant_id after upper limit (db : Db_of T) e :
  db_wf db -> 0 <= Limit.get limit -> e ∈ events db ->
  in_page (option_map TenantId.as_str tenant_id) after upper e = true ->
  let es := page_events tenant_id after upper limit db in
  e ∈ es \/ (Z.of_nat (length es) = Limit.get limit /\
             forall x, x ∈ es -> Events.row_id x < Events.row_id e).
Proof.
  intros Hwf Hl He Hin es. unfold es, page_events.
  set (all := List.filter _ (events db)). set (n := Z.to_nat (Limit.get limit)).
  assert (Hall : e ∈ all) by (apply list_elem_of_In, filter_In; rewrite <- list_elem_of_In; done).
  rewrite <- (take_drop n all) in Hall.
  apply elem_of_app in Hall as [|Hd]; [by left|right].
  assert (Hmore : (n < length all)%nat).
  { destruct (decide (n < length all)%nat) as [|Hge]; [done|].
    rewrite drop_ge in Hd by lia. set_solver. }
  split; [rewrite length_take; lia|]. intros x Hx.
  assert (Hsorted : StronglySorted Z.lt (map Events.row_id all)) by apply sorted_filter, Hwf.
  rewrite <- (take_drop n all), map_app in Hsorted.
  apply (sorted_app_lt _ _ Hsorted); apply list_elem_of_fmap; eauto.
Qed.
End PageEvents.

(** ** The events of a scope *)

Section Scopes.
Context {T : Type}.

(** The events a tenant (or everyone) owns. *)
Definition scope (tenant : option string) (db : Db_of T) : list (Events.row_of T) :=
  List.filter (in_page tenant 0 None) (events db).

Lemma filter_filter {A} (p q : A -> bool) l :
  List.filter p (List.filter q l) = List.filter (fun x => p x && q x) l.
Proof.
  induction l as [|a l IH]; simpl; [done|]. destruct (q a); simpl; rewrite IH.
  - by rewrite andb_true_r.
  - by rewrite andb_false_r.
Qed.

Lemma scope_sorted tenant (db : Db_of T) : db_wf db -> StronglySorted Z.lt (map Events.row_id (scope tenant db)).
Proof. intros Hwf. apply sorted_filter, Hwf. Qed.

(** Below an upper bound of the scope the page query reads the part of the
    scope after the cursor. *)
Lemma in_page_scope tenant cursor u (db : Db_of T) :
  0 <= cursor -> (forall e, e ∈ scope tenant db -> Events.row_id e <= u) ->
  List.filter (in_page tenant cursor (Some u)) (events db)
  = List.filter (fun e => cursor <? Events.row_id e) (scope tenant db).
Proof.
  intros Hc Hu. unfold scope. rewrite filter_filter. apply List.filter_ext_in.
  intros e He. unfold in_page. simpl.
  destruct (Z.ltb_spec cursor (Events.row_id e)); [|done].
  destruct (Z.ltb_spec 0 (Events.row_id e)); [|lia]. simpl.
  destruct (Z.leb_spec (Events.row_id e) u) as [|Hgt]; [done|].
  destruct (is_none_or tenant _) eqn:Et; [|done]. exfalso.
  enough (Events.row_id e <= u) by lia. apply Hu, list_elem_of_In, filter_In.
  split; [done|]. unfold in_page. rewrite Et. cbn [is_none_or]. rewrite !andb_true_r. by apply Z.ltb_lt.
Qed.

(** In ascending rows, those beyond the last row already read are the rest. *)
Lemma filter_after (done' rest : list (Events.row_of T)) cursor :
  (forall e, e ∈ done' -> Events.row_id e <= cursor) ->
  (forall e, e ∈ rest -> cursor < Events.row_id e) ->
  List.filter (fun e => cursor <? Events.row_id e) (done' ++ rest) = rest.
Proof.
  intros Hd Hr. rewrite List.filter_app.
  replace (List.filter _ done') with (@nil (Events.row_of T)).
  - simpl. induction rest as [|e rest IH]; simpl; [done|].
    destruct (Z.ltb_spec cursor (Events.row_id e)).
    + f_equal. apply IH. intros x Hx. apply Hr. by right.
    + enough (cursor < Events.row_id e) by lia. apply Hr. left.
  - symmetry. induction done' as [|e done' IH]; simpl; [done|].
    destruct (Z.ltb_spec cursor (Events.row_id e)).
    + enough (Events.row_id e <= cursor) by lia. apply Hd. left.
    + apply IH. intros x Hx. apply Hd. by right.
Qed.

Lemma max_fold (es : list (Events.row_of T)) acc :
  fold_left (fun acc e => match acc with
                          | None => Some (Events.row_id e)
                          | Some m => Some (Z.max m (Events.row_id e))
                          end) es acc
  = match es, acc with
    | [], _ => acc
    | e :: es, _ =>
        Some (fold_left Z.max (map Events.row_id es)
                (match acc with None => Events.row_id e | Some m => Z.max m (Events.row_id e) end))
    end.
Proof.
  revert acc. induction es as [|e es IH]; intros acc; simpl; [done|].
  rewrite IH. destruct es; by destruct acc.
Qed.

Lemma fold_max l m :
  (fold_left Z.max l m = m \/ fold_left Z.max l m ∈ l) /\ m <= fold_left Z.max l m /\
  (forall x, x ∈ l -> x <= fold_left Z.max l m).
Proof.
  revert m. induction l as [|a l IH]; intros m; simpl.
  - split_and!; [by left|lia|]. by intros x Hx%elem_of_nil.
  - destruct (IH (Z.max m a)) as (Hin & Hle & Hall). split_and!; [|lia|].
    + destruct Hin as [->|]; [|right; by right].
      destruct (Z.max_spec m a) as [[? ->]|[? ->]]; [right; left|by left].
    + intros x [->|Hx]%elem_of_cons; [lia|by apply Hall].
Qed.

Lemma max_row_id_spec tenant (db : Db_of T) :
  match max_row_id_sql tenant db with
  | None => scope tenant db = []
  | Some u => (forall e, e ∈ scope tenant db -> Events.row_id e <= u) /\
              (0 < u -> exists e, e ∈ scope tenant db /\ Events.row_id e = u)
  end.
Proof.
  unfold max_row_id_sql, scope. rewrite max_fold.
  assert (Hf : List.filter (in_page tenant 0 None) (events db)
    = List.filter (fun e => 0 <? Events.row_id e)
        (List.filter (fun e => is_none_or tenant (fun t => bool_decide (Events.tenant_id e = t)))
           (events db))).
  { rewrite filter_filter. apply List.filter_ext. intros e. unfold in_page. simpl. by rewrite andb_true_r. }
  rewrite Hf. clear Hf. destruct (List.filter (fun e => is_none_or _ _) _) as [|e0 es]; [done|].
  destruct (fold_max (map Events.row_id es) (Events.row_id e0)) as (Hin & Hle & Hall). split.
  - intros e He. apply list_elem_of_In, filter_In in He as [He _]. apply list_elem_of_In in He.
    apply elem_of_cons in He as [->|He]; [done|]. apply Hall, list_elem_of_fmap. eauto.
  - intros Hpos. destruct Hin as [Heq|Hin].
    + exists e0. split; [|by rewrite Heq]. apply list_elem_of_In, filter_In.
      split; [by left|]. rewrite Heq in Hpos. by apply Z.ltb_lt.
    + apply list_elem_of_fmap in Hin as (e & He & Hin). exists e. split; [|done].
      apply list_elem_of_In, filter_In. split; [right; by apply list_elem_of_In|].
      rewrite <- He. by apply Z.ltb_lt.
Qed.

Lemma last_In {A} (l : list A) x : last l = Some x -> x ∈ l.
Proof. intros (l' & ->)%last_Some. apply elem_of_app. right. left. Qed.

(** In ascending rows the last one has the greatest key. *)
Lemma sorted_last (l : list (Events.row_of T)) x e :
  StronglySorted Z.lt (map Events.row_id l) -> last l = Some x -> e ∈ l ->
  Events.row_id e <= Events.row_id x.
Proof.
  intros Hs (l' & ->)%last_Some He. rewrite map_app in Hs.
  apply elem_of_app in He as [He|He%list_elem_of_singleton]; [|by subst].
  enough (Events.row_id e < Events.row_id x) by lia.
  apply (sorted_app_lt _ _ Hs); apply list_elem_of_fmap; [by exists e|].
  exists x. split; [done|left].
Qed.

Lemma sorted_app_l (l1 l2 : list Z) : StronglySorted Z.lt (l1 ++ l2) -> StronglySorted Z.lt l1.
Proof.
  induction l1 as [|a l1 IH]; simpl; intros Hs; [constructor|].
  apply StronglySorted_inv in Hs as [Hs Ha]. constructor; [auto|]. by apply Forall_app in Ha as [Ha _].
Qed.
End Scopes.

(** ** The window of a pager *)

Lemma RowId_get_inj (a b : RowId.t) : RowId.get a = RowId.get b -> a = b.
Proof. destruct a, b. simpl. by intros ->. Qed.

Section Windows.
Context `{TimeLib} {T : Type}.

(** After a page that reached [x], nothing is left exactly when the page was
    short or [x] is the upper bound. *)
Lemma page_exhausts (before page rest : list (Events.row_of T)) u x :
  StronglySorted Z.lt (map Events.row_id (before ++ page ++ rest)) ->
  (forall e, e ∈ before ++ page ++ rest -> Events.row_id e <= RowId.get u) ->
  (exists e, e ∈ before ++ page ++ rest /\ Events.row_id e = RowId.get u) ->
  last page = Some x ->
  Events.row_id x = RowId.get u <-> rest = [].
Proof.
  rewrite app_assoc. intros Hs Hle (e & He & Hu) Hx.
  assert (Hxin : x ∈ before ++ page) by (apply elem_of_app; right; by apply last_In).
  assert (Hl : last (before ++ page) = Some x) by by rewrite last_app, Hx.
  rewrite map_app in Hs. split.
  - intros Hxu. destruct rest as [|e' rest]; [done|exfalso].
    assert (Events.row_id e' <= RowId.get u) by (apply Hle, elem_of_app; right; left).
    enough (Events.row_id x < Events.row_id e') by lia.
    apply (sorted_app_lt _ _ Hs); apply list_elem_of_fmap; eexists; (split; [done|]); [done|left].
  - intros ->. rewrite app_nil_r in *.
    assert (Events.row_id e <= Events.row_id x) by by apply sorted_last with (before ++ page).
    assert (Events.row_id x <= RowId.get u) by by apply Hle. lia.
Qed.

(** The cursor as the query's lower bound. *)
Definition cursor_id (cursor : option RowId.t) : Z :=
  match cursor with Some id => RowId.get id | None => 0 end.

(** What a pager knows of the scope [all]: the rows [before] it were given, those
    of [rest] were not, and it is exhausted exactly when none is left. *)
Record window_at (all : list (Events.row_of T)) (upper cursor : option RowId.t) (exhausted : bool)
    (before rest : list (Events.row_of T)) : Prop := {
  at_scope : all = before ++ rest;
  at_exhausted : exhausted = true <-> rest = [];
  at_upper : rest <> [] -> exists u, upper = Some u /\
    (forall e, e ∈ before ++ rest -> Events.row_id e <= RowId.get u) /\
    (exists e, e ∈ before ++ rest /\ Events.row_id e = RowId.get u);
  at_cursor : match cursor with
              | None => before = []
              | Some c => exists e, last before = Some e /\ Events.row_id e = RowId.get c
              end;
}.

(** What a page changes: the new cursor and whether the pager is exhausted. *)
Definition advance (upper cursor : option RowId.t) (limit : Limit.t) (rows : list PagedEvent.t) :
    option RowId.t * bool :=
  match last rows with
  | Some event =>
      (Some (PagedEvent.row_id event),
       (Z.of_nat (length rows) <? Limit.get limit)
       || bool_decide (Some (PagedEvent.row_id event) = upper))
  | None => (cursor, true)
  end.

(** The page query of a pager reads the first rows of what is left. *)
Lemma window_page (db : Db_of T) tenant upper cursor exhausted before rest u limit :
  db_wf db -> window_at (scope tenant db) upper cursor exhausted before rest ->
  upper = Some u -> rest <> [] ->
  take limit (List.filter (in_page tenant (cursor_id cursor) (Some (RowId.get u))) (events db))
  = take limit rest.
Proof.
  intros Hwf [Hs _ Hu Hc] Hub Hne. destruct (Hu Hne) as (u' & Hu' & Hle & _).
  simplify_eq. clear Hu. f_equal. rewrite <- Hs in Hle.
  pose proof (scope_sorted tenant db Hwf) as Hsort.
  assert (Hpos : forall e, e ∈ before ++ rest -> 0 < Events.row_id e).
  { intros e. rewrite <- Hs. unfold scope. intros He. apply list_elem_of_In, filter_In in He as [_ He].
    unfold in_page in He. apply andb_prop in He as [He _]. apply andb_prop in He as [He _].
    by apply Z.ltb_lt. }
  destruct cursor as [c|]; simpl.
  - destruct Hc as (x & Hx & <-).
    assert (0 < Events.row_id x) by (apply Hpos, elem_of_app; left; by apply last_In).
    rewrite in_page_scope by (done || lia). rewrite Hs in *. apply filter_after.
    + rewrite map_app in Hsort. intros e He. apply sorted_last with before; [|done..].
      by apply sorted_app_l in Hsort.
    + rewrite map_app in Hsort. intros e He.
      apply (sorted_app_lt _ _ Hsort); apply list_elem_of_fmap; [exists x|by exists e].
      split; [done|by apply last_In].
  - subst before. simpl in *. rewrite in_page_scope by (done || lia). rewrite Hs.
    apply (filter_after []); [by intros e He%elem_of_nil|]. intros e He. by apply Hpos.
Qed.

(** A page read back from its events. *)
Context (hydrated : Events.row_of T -> PagedEvent.t -> Prop).
Context (hydrated_id : forall e p, hydrated e p ->
  RowId.get (PagedEvent.row_id p) = Events.row_id e).

Lemma pages_of_events es pages :
  Forall2 hydrated es pages ->
  map (fun p => RowId.get (PagedEvent.row_id p)) pages = map Events.row_id es.
Proof.
  induction 1 as [|e p es pages Hp Hf IH]; simpl; [done|]. by rewrite (hydrated_id _ _ Hp), IH.
Qed.

Lemma page_last es pages :
  Forall2 hydrated es pages ->
  match last pages with
  | None => es = []
  | Some p => exists e, last es = Some e /\ Events.row_id e = RowId.get (PagedEvent.row_id p)
  end.
Proof.
  intros Hf. pose proof (pages_of_events _ _ Hf) as Hids.
  assert (Hl : last (map (fun p => RowId.get (PagedEvent.row_id p)) pages)
    = last (map Events.row_id es)) by by rewrite Hids.
  change (map ?f ?l) with (f <$> l) in Hl. rewrite !fmap_last in Hl.
  destruct (last pages) as [p|], (last es) as [e|] eqn:Ee; simpl in Hl; simplify_eq.
  - eauto.
  - by apply last_None in Ee.
Qed.

(** A page of the first [limit] rows left moves the window past them. *)
Lemma window_advance all upper cursor before rest limit rows cursor' exhausted' :
  StronglySorted Z.lt (map Events.row_id all) -> 0 < Limit.get limit -> rest <> [] ->
  window_at all upper cursor false before rest ->
  Forall2 hydrated (take (Z.to_nat (Limit.get limit)) rest) rows ->
  advance upper cursor limit rows = (cursor', exhausted') ->
  window_at all upper cursor' exhausted' (before ++ take (Z.to_nat (Limit.get limit)) rest)
    (drop (Z.to_nat (Limit.get limit)) rest).
Proof.
  intros Hs Hlim Hne [Hsc _ Hup _] Hr. set (n := Z.to_nat (Limit.get limit)) in *.
  destruct (Hup Hne) as (u & Hub & Hle & Hmax). rewrite Hsc in Hs.
  rewrite <- (take_drop n rest) in Hs, Hle, Hmax.
  assert (Htake : take n rest <> []) by (destruct rest; [done|]; by destruct n eqn:?; [lia|]).
  pose proof (page_last _ _ Hr) as Hlast. unfold advance.
  destruct (last rows) as [p|]; [|done]. destruct Hlast as (x & Hx & Hk). intros [= <- <-].
  pose proof (page_exhausts _ _ _ _ _ Hs Hle Hmax Hx) as Hend.
  constructor.
  - by rewrite Hsc, <- app_assoc, take_drop.
  - rewrite Hub, orb_true_iff, bool_decide_eq_true, Z.ltb_lt, <- Hend, <- (Forall2_length _ _ _ Hr),
      length_take. rewrite Hk. split.
    + intros [Hshort|[= ->]]; [|done]. rewrite <- Hk. apply Hend. apply drop_ge. lia.
    + intros Heq. right. f_equal. by apply RowId_get_inj.
  - intros _. exists u. rewrite <- app_assoc. by repeat split.
  - exists x. by rewrite last_app, Hx.
Qed.
End Windows.

(** Where a window begins. *)
Lemma window_start {T} tenant (db : Db_of T) upper :
  (forall u, max_row_id_sql tenant db = Some u -> exists id, upper = Some id /\ RowId.get id = u /\ 0 < u) ->
  (max_row_id_sql tenant db = None -> upper = None) ->
  window_at (scope tenant db) upper None (match upper with None => true | Some _ => false end) []
    (scope tenant db).
Proof.
  intros Hs Hn. pose proof (max_row_id_spec tenant db) as Hmax.
  destruct (max_row_id_sql tenant db) as [u|].
  - destruct (Hs u eq_refl) as (id & -> & <- & Hpos). destruct Hmax as [Hle Hex].
    destruct (Hex Hpos) as (e & He & Hu). constructor; [done| | |done].
    + split; [done|]. intros Hnil. rewrite Hnil in He. by apply elem_of_nil in He.
    + intros _. exists id. split_and!; [done..|]. by exists e.
  - rewrite Hn by done. rewrite Hmax. by constructor.
Qed.

(** ** Hydrated pages *)

Section HydratedPages.
Context `{TimeLib} {T : Type} (hydrate : DurableRow.t_of T -> Result PagedEvent.t string).
Context (hydrate_row_id : forall c p,
  hydrate c = Ok p -> RowId.get (PagedEvent.row_id p) = DurableRow.row_id c).

(** An event with its delivery, hydrated. *)
Definition hydrated_row (db : Db_of T) (e : Events.row_of T) (p : PagedEvent.t) : Prop :=
  e ∈ events db /\ hydrate (durable_of db e) = Ok p.

Lemma hydrated_row_id db e p :
  db_wf db -> hydrated_row db e p -> RowId.get (PagedEvent.row_id p) = Events.row_id e.
Proof. intros Hwf [He Hp]. apply hydrate_row_id in Hp as ->. by apply durable_of_row_id. Qed.

(** The rows of a page, hydrated. *)
Definition page_rows (tenant_id : option TenantId.t) (after : Z) (upper : option Z) (limit : Limit.t)
    (db : Db_of T) (pages : list PagedEvent.t) : Prop :=
  Forall2 (hydrated_row db) (page_events tenant_id after upper limit db) pages.

Lemma page_rows_collect tenant_id after upper limit db pages :
  db_wf db ->
  collect hydrate (page_sql (option_map TenantId.as_str tenant_id) after upper (Limit.get limit) db)
  = Ok pages -> page_rows tenant_id after upper limit db pages.
Proof.
  intros Hwf Hc. rewrite page_sql_rows in Hc by done.
  apply collect_Ok_Forall2, Forall2_fmap_l in Hc. unfold page_rows, page_events.
  assert (Hin : forall e, e ∈ take (Z.to_nat (Limit.get limit)) (List.filter
            (in_page (option_map TenantId.as_str tenant_id) after upper) (events db)) -> e ∈ events db)
    by (intros e He; by apply page_row in He as [? _]).
  induction Hc as [|e p es pages Hp Hf IH]; constructor.
  - split; [apply Hin; left|done].
  - apply IH. intros x Hx. apply Hin. by right.
Qed.

(** A page after a cursor: its events are hydrated, in ascending order, no more
    than the limit, and none of the scope is skipped. *)
Record page_complete (tenant_id : option TenantId.t) (after : Z) (limit : Limit.t) (db : Db_of T)
    (pages : list PagedEvent.t) : Prop := {
  pc_rows : page_rows tenant_id after None limit db pages;
  pc_sorted : StronglySorted Z.lt (map (fun p => RowId.get (PagedEvent.row_id p)) pages);
  pc_length : Z.of_nat (length pages) <= Limit.get limit;
  pc_complete : forall e, e ∈ events db ->
    in_page (option_map TenantId.as_str tenant_id) after None e = true ->
    (exists p, p ∈ pages /\ hydrated_row db e p) \/
    (Z.of_nat (length pages) = Limit.get limit /\
     forall p, p ∈ pages -> RowId.get (PagedEvent.row_id p) < Events.row_id e);
}.

Lemma page_rows_complete tenant_id after limit db pages :
  db_wf db -> 0 <= Limit.get limit -> page_rows tenant_id after None limit db pages ->
  page_complete tenant_id after limit db pages.
Proof.
  intros Hwf Hl Hp. unfold page_rows in Hp.
  pose proof (pages_of_events _ (fun e p => hydrated_row_id _ e p Hwf) _ _ Hp) as Hids.
  pose proof (Forall2_length _ _ _ Hp) as Hlen. constructor; [done|..].
  - rewrite Hids. by apply page_events_sorted.
  - rewrite <- Hlen. by apply page_events_length.
  - rewrite <- Hlen. intros e He Hin.
    destruct (page_events_complete tenant_id after None limit db e Hwf Hl He Hin) as [Hes|[Hfull Hlt]].
    + left. apply list_elem_of_lookup in Hes as [i Hi].
      destruct (Forall2_lookup_l _ _ _ _ _ Hp Hi) as (p & Hpi & Hh). exists p.
      split; [by eapply list_elem_of_lookup_2|done].
    + right. split; [done|]. intros p Hpin.
      assert (Hk : RowId.get (PagedEvent.row_id p) ∈ map Events.row_id
                (page_events tenant_id after None limit db)).
      { rewrite <- Hids. apply list_elem_of_fmap. by exists p. }
      apply list_elem_of_fmap in Hk as (e0 & -> & He0). by apply Hlt.
Qed.

(** The pages of a tenant show that tenant. *)
Lemma page_rows_tenant tenant_id after upper limit db pages :
  (forall c p, hydrate c = Ok p -> TenantId.as_str (PagedEvent.tenant_id p) = DurableRow.tenant_id c) ->
  db_wf db -> page_rows (Some tenant_id) after upper limit db pages ->
  Forall (fun p => TenantId.as_str (PagedEvent.tenant_id p) = TenantId.as_str tenant_id) pages.
Proof.
  intros Htenant Hwf Hp. apply Forall_forall. intros p Hpin.
  apply list_elem_of_lookup in Hpin as [i Hi].
  destruct (Forall2_lookup_r _ _ _ _ _ Hp Hi) as (e & He & _ & Hh).
  apply list_elem_of_lookup_2, page_row in He as [He Hin].
  rewrite (Htenant _ _ Hh), durable_of_tenant by done. unfold in_page in Hin. bools.
  match goal with H : is_none_or (option_map _ _) _ = true |- _ =>
    cbn in H; by apply bool_decide_eq_true in H end.
Qed.
End HydratedPages.

(** ** Reading pages one after the other *)

Section Drains.
Context `{TimeLib} {W E P T : Type}.
Context (next_page : P -> Limit.t -> Step W (Result (list PagedEvent.t) E * P)).

(** A caller that reads one page per limit and collects what it is given. *)
Fixpoint drain (limits : list Limit.t) (self : P) : Step W (Result (list PagedEvent.t) E * P) :=
  match limits with
  | [] => ret (Ok [], self)
  | limit :: limits =>
      let* (result, self) := next_page self limit in
      match result with
      | Err e => ret (Err e, self)
      | Ok rows =>
          let* (result, self) := drain limits self in
          ret (map_ok (app rows) result, self)
      end
  end.

(** What a page does to a pager that was given the rows [before] and not those
    of [rest]. *)
Context (hydrated : Events.row_of T -> PagedEvent.t -> Prop).
Context (at_rows : W -> P -> list (Events.row_of T) -> list (Events.row_of T) -> Prop).
Context (failed : W -> P -> Prop) (related : W -> W -> Prop) (exhausted : P -> bool).
Context (related_refl : forall w, related w w).
Context (related_trans : forall w1 w2 w3, related w1 w2 -> related w2 w3 -> related w1 w3).
Context (at_end : forall w self before rest,
  at_rows w self before rest -> exhausted self = true <-> rest = []).
Context (page_step : forall self before rest limit w,
  at_rows w self before rest -> 0 < Limit.get limit ->
  let n := Z.to_nat (Limit.get limit) in
  exists r self' w', next_page self limit w = Some ((r, self'), w') /\ related w w' /\
    match r with
    | Err _ => failed w' self'
    | Ok rows => at_rows w' self' (before ++ take n rest) (drop n rest) /\
        Forall2 hydrated (take n rest) rows
    end).

Lemma drain_step limits self before rest w :
  at_rows w self before rest -> Forall (fun l => 0 < Limit.get l) limits ->
  exists r self' w', drain limits self w = Some ((r, self'), w') /\ related w w' /\
    match r with
    | Err _ => failed w' self'
    | Ok rows => exists k, Forall2 hydrated (take k rest) rows /\
        at_rows w' self' (before ++ take k rest) (drop k rest) /\
        (length rest <= length limits -> drop k rest = [])%nat
    end.
Proof.
  revert self before rest w. induction limits as [|limit limits IH];
    intros self before rest w Hat Hlim; simpl.
  - exists (Ok []), self, w. do 2 (split; [done|]). exists 0%nat. rewrite take_0, app_nil_r.
    split_and!; [constructor|done|]. simpl. intros Hl. destruct rest; [done|simpl in Hl; lia].
  - apply Forall_cons in Hlim as [Hl Hlim].
    destruct (page_step _ _ _ _ _ Hat Hl) as (r & self1 & w1 & Hr & Hc1 & Hm).
    rewrite (bind_run _ _ _ _ _ Hr). cbv beta iota. destruct r as [rows|e].
    2:{ exists (Err e), self1, w1. by repeat split. }
    destruct Hm as (Hat1 & Hrows).
    destruct (IH _ _ _ _ Hat1 Hlim) as (r & self2 & w2 & Hr2 & Hc2 & Hm2).
    rewrite (bind_run _ _ _ _ _ Hr2). cbv beta iota.
    exists (map_ok (app rows) r), self2, w2. split; [done|]. split; [by eapply related_trans|].
    destruct r as [rows2|e]; [|done]. destruct Hm2 as (k & Hf & Hat2 & Hall).
    set (n := Z.to_nat (Limit.get limit)) in *.
    exists (n + k)%nat. rewrite <- take_take_drop, <- drop_drop. split_and!.
    + by apply Forall2_app.
    + by rewrite app_assoc.
    + intros Hlen. apply Hall. rewrite length_drop. simpl in Hlen. lia.
Qed.

(** The rows of any number of pages are a prefix of all, and all of them once
    the pager is exhausted. *)
Lemma drain_all limits self all w :
  at_rows w self [] all -> Forall (fun l => 0 < Limit.get l) limits ->
  exists r self' w', drain limits self w = Some ((r, self'), w') /\ related w w' /\
    match r with
    | Err _ => failed w' self'
    | Ok rows =>
        (exists before rest, at_rows w' self' before rest) /\
        Forall2 hydrated (take (length rows) all) rows /\
        (exhausted self' = true <-> length rows = length all) /\
        (length all <= length limits -> exhausted self' = true)%nat
    end.
Proof.
  intros Hat Hlim. destruct (drain_step _ _ _ _ _ Hat Hlim) as (r & self' & w' & Hr & Hrel & Hm).
  exists r, self', w'. do 2 (split; [done|]). destruct r as [rows|e]; [|done].
  destruct Hm as (k & Hrows & Hat' & Hall).
  assert (Hlen : length rows = (k `min` length all)%nat)
    by by rewrite <- (Forall2_length _ _ _ Hrows), length_take.
  assert (Hnil : drop k all = [] <-> length rows = length all).
  { rewrite Hlen, <- length_zero_iff_nil, length_drop. lia. }
  split; [eauto|]. split; [|split].
  - rewrite Hlen. replace (take (k `min` length all) all) with (take k all); [done|].
    destruct (decide (k <= length all)%nat); [by rewrite Nat.min_l|].
    rewrite Nat.min_r by lia. by rewrite !take_ge by lia.
  - rewrite <- Hnil. by eapply at_end.
  - intros Hle. eapply at_end; [done|]. by apply Hall.
Qed.
End Drains.
