(* ===== verification/Claims.v ===== *)
(** * Claims, whatever the database

    What the adapters' claims share: the tokens a draw may yield, the claim that
    belongs to a row, and the rows after a batch of claims. *)

From S2P Require Import Prelude Utf8 External Errors Limits Validation Bounds Values Extension Serialization Event State Tables Queries.

(** ** Tokens *)

Section Tokens.

(** A draw that [fresh_token] accepts. *)
Definition acceptable (previous : option bytes) (used : list bytes) (t : bytes) : bool :=
  negb (bool_decide (previous = Some t))
  && forallb (fun value => negb (bool_decide (value = t))) used.

Lemma acceptable_spec previous used t :
  acceptable previous used t = true <-> previous <> Some t /\ t ∉ used.
Proof.
  unfold acceptable. rewrite andb_true_iff, negb_true_iff, bool_decide_eq_false, forallb_forall.
  split; intros [Hp Hu]; (split; [done|]).
  - intros Hin. apply list_elem_of_In, Hu in Hin. by rewrite bool_decide_true in Hin.
  - intros x Hx. rewrite bool_decide_false; [done|]. intros ->. by apply Hu, list_elem_of_In.
Qed.

Lemma acceptable_false previous used t :
  acceptable previous used t = false ->
  t ∈ (match previous with Some p => [p] | None => [] end) ++ used.
Proof.
  intros Ha. destruct (decide (previous = Some t)) as [->|Hp]; [set_solver|].
  destruct (decide (t ∈ used)) as [Hu|Hu]; [set_solver|].
  by rewrite (proj2 (acceptable_spec previous used t)) in Ha.
Qed.

(** Among more distinct draws than tokens to avoid, one is acceptable. *)
Lemma acceptable_among previous used (t : nat -> bytes) fuel :
  (forall i j, (i < fuel)%nat -> (j < fuel)%nat -> t i = t j -> i = j) ->
  (length used + 1 < fuel)%nat ->
  exists k, (k < fuel)%nat /\ acceptable previous used (t k) = true.
Proof.
  intros Hinj Hfuel. set (bad := (match previous with Some p => [p] | None => [] end) ++ used).
  assert (Hbad : (length bad <= length used + 1)%nat).
  { unfold bad. rewrite length_app. destruct previous; simpl; lia. }
  set (drawn := map t (seq 0 fuel)).
  destruct (existsb (acceptable previous used) drawn) eqn:Ex.
  - apply existsb_exists in Ex as (tok & Hin & Ha).
    apply in_map_iff in Hin as (k & <- & Hk). apply in_seq in Hk. exists k. split; [lia|done].
  - exfalso. assert (Hsub : drawn ⊆ bad).
    { intros x Hx. apply acceptable_false. apply not_true_iff_false. intros Ha.
      apply not_true_iff_false in Ex. apply Ex, existsb_exists. exists x.
      split; [by apply list_elem_of_In|done]. }
    assert (Hnd : NoDup drawn).
    { apply NoDup_fmap_2_strong; [|apply NoDup_ListNoDup, seq_NoDup].
      intros i j Hi Hj Hij. apply list_elem_of_In, in_seq in Hi, Hj. apply Hinj in Hij; lia. }
    apply NoDup_submseteq in Hsub; [|done]. apply submseteq_length in Hsub.
    unfold drawn in Hsub. rewrite length_map, length_seq in Hsub. lia.
Qed.
End Tokens.

(** ** The deliveries a claim may take *)

Section Due.
Context {T : Type} (before : T -> T -> Prop) `{!RelDecision before}.

(** A delivery of the scope that is pending and due, or claimed and expired, at
    [now], and that is not among the locked rows. *)
Definition due (tenant : option string) (now : T) (held : list Z) (d : Deliveries.row_of T) : Prop :=
  from_option (fun t => Deliveries.tenant_id d = t) True tenant /\
  (Deliveries.state d = "pending" /\ before (Deliveries.available_at d) now \/
   Deliveries.state d = "claimed" /\
     from_option (fun expiry => before expiry now) False (Deliveries.claim_expires_at d)) /\
  Deliveries.event_row_id d ∉ held.

#[global] Instance due_dec tenant now held d : Decision (due tenant now held d).
Proof.
  unfold due. destruct tenant, (Deliveries.claim_expires_at d); simpl; apply _.
Defined.
End Due.

(** ** The rows of a batch *)

Section Batch.
Context {T : Type} `{TimeLib}.

(** The claim of a batch that belongs to a row. *)
Definition claim_for_row (evs : list ClaimedEvent.t) (d : Deliveries.row_of T) :
    option ClaimedEvent.t :=
  find (fun ev => RowId.get (ClaimedEvent.row_id ev) =? Deliveries.event_row_id d) evs.

(** The row after the batch: claimed with its claim's token, attempt count and
    the new expiry, or untouched. *)
Definition row_after_claim (worker : WorkerId.t) (expiry : option T)
    (evs : list ClaimedEvent.t) (d : Deliveries.row_of T) : Deliveries.row_of T :=
  match claim_for_row evs d with
  | Some ev => set_claimed (AttemptCount.get (ClaimedEvent.attempts ev))
                 (ClaimToken.as_bytes (ClaimedEvent.claim_token ev)) (WorkerId.as_str worker)
                 expiry d
  | None => d
  end.

(** The returned claim [ev] is the delivery [d] of the tables [db], claimed. *)
Record is_claim_of (hydrate : EventRow.t_of T -> Result StoredEvent.t string) (db : Db_of T)
    (worker : WorkerId.t) (d : Deliveries.row_of T) (ev : ClaimedEvent.t) : Prop := {
  co_row_id : RowId.get (ClaimedEvent.row_id ev) = Deliveries.event_row_id d;
  co_tenant : TenantId.as_str (ClaimedEvent.tenant_id ev) = Deliveries.tenant_id d;
  co_worker : ClaimedEvent.claimed_by ev = worker;
  co_attempts : AttemptCount.get (ClaimedEvent.attempts ev) = Deliveries.attempts d + 1;
  co_bound : AttemptCount.get (ClaimedEvent.attempts ev) <= i64_max;
  co_token : Deliveries.claim_token d <> Some (ClaimToken.as_bytes (ClaimedEvent.claim_token ev));
  co_event : exists e, e ∈ events db /\ join_condition d e = true /\
               hydrate (row_columns e) = Ok (ClaimedEvent.event ev);
}.
End Batch.

Lemma Forall2_map_eq {A B C} (f : A -> C) (g : B -> C) la lb :
  Forall2 (fun a b => f a = g b) la lb -> map f la = map g lb.
Proof. induction 1; simpl; congruence. Qed.
