(* ===== verification/Contract.v ===== *)
(** * The contract of an outbox

    What the adapters promise of the two tables, whatever the database and
    whatever type its instants have: a few guarded actions, one per committed
    operation, and what every history of actions keeps. The first part is the
    specification of one delivery in its state and attempt count; then come the
    actions with their guards, histories of actions, and leases over histories. *)

From stdpp Require Import relations.
From S2P Require Import Prelude Values State Tables Queries Claims.

(** ** One delivery *)

(** One step of a delivery in state and attempt count. *)
Inductive spec_step : DeliveryState.t * Z -> DeliveryState.t * Z -> Prop :=
  | spec_stay x : spec_step x x
  | spec_claim n : spec_step (DeliveryState.Pending, n) (DeliveryState.Claimed, n + 1)
  | spec_reclaim n : spec_step (DeliveryState.Claimed, n) (DeliveryState.Claimed, n + 1)
  | spec_ack n : spec_step (DeliveryState.Claimed, n) (DeliveryState.Delivered, n)
  | spec_requeue n : spec_step (DeliveryState.Claimed, n) (DeliveryState.Pending, n)
  | spec_quarantine n : spec_step (DeliveryState.Claimed, n) (DeliveryState.Quarantined, n)
  (** the migration's unfenced step, for a delivery that was never claimed *)
  | spec_finalize : spec_step (DeliveryState.Pending, 0) (DeliveryState.Delivered, 0).

Lemma spec_attempts_monotone x y : spec_step x y -> x.2 <= y.2.
Proof. destruct 1; simpl; lia. Qed.

Definition state_name (s : DeliveryState.t) : string :=
  match s with
  | DeliveryState.Pending => "pending"
  | DeliveryState.Claimed => "claimed"
  | DeliveryState.Delivered => "delivered"
  | DeliveryState.Quarantined => "quarantined"
  end.

Lemma state_name_inj s s' : state_name s = state_name s' -> s = s'.
Proof. by destruct s, s'. Qed.

Section Abstraction.
Context {T : Type}.
Implicit Types d : Deliveries.row_of T.

(** The abstraction of a row. *)
Definition abstracts d (x : DeliveryState.t * Z) : Prop :=
  Deliveries.state d = state_name x.1 /\ Deliveries.attempts d = x.2.

Lemma abstracts_fun d x y : abstracts d x -> abstracts d y -> x = y.
Proof.
  destruct x as [s n], y as [s' n']. unfold abstracts. simpl. intros [H1' H2'] [H3' H4'].
  f_equal; [|congruence]. apply state_name_inj. congruence.
Qed.

(** The CHECK on the state column gives every row an abstraction. *)
Lemma check_abstracts d : Deliveries.check d = true -> exists x, abstracts d x.
Proof.
  unfold Deliveries.check. intros Hc. bools.
  match goal with H : Deliveries.shape d = true |- _ => unfold Deliveries.shape in H end.
  rewrite !orb_true_iff, !andb_true_iff, !bool_decide_eq_true in *.
  destruct_or!; destruct_and!;
    [exists (DeliveryState.Pending, Deliveries.attempts d)
    |exists (DeliveryState.Claimed, Deliveries.attempts d)
    |exists (DeliveryState.Delivered, Deliveries.attempts d)
    |exists (DeliveryState.Quarantined, Deliveries.attempts d)]; by split.
Qed.

(** What a commit does to one row: its key stays, it moves along the
    specification, and a row in a terminal state does not change at all. *)
Record row_refines d d' : Prop := {
  rr_key : Deliveries.event_row_id d' = Deliveries.event_row_id d;
  rr_tenant : Deliveries.tenant_id d' = Deliveries.tenant_id d;
  rr_step : forall x, abstracts d x -> exists y, abstracts d' y /\ spec_step x y;
  rr_terminal : (Deliveries.state d = "delivered" \/ Deliveries.state d = "quarantined") -> d' = d;
}.

Lemma row_refines_refl d : row_refines d d.
Proof. constructor; try done. intros x Hx. exists x. split; [done|constructor]. Qed.

(** A row in a state that is not terminal, and a step of it. *)
Lemma row_refines_step d d' x y :
  Deliveries.event_row_id d' = Deliveries.event_row_id d ->
  Deliveries.tenant_id d' = Deliveries.tenant_id d ->
  abstracts d x -> abstracts d' y -> spec_step x y ->
  x.1 <> DeliveryState.Delivered -> x.1 <> DeliveryState.Quarantined -> row_refines d d'.
Proof.
  intros Hk Ht Hx Hy Hs Hd Hq. constructor; [done..| |].
  - intros x' Hx'. rewrite (abstracts_fun _ _ _ Hx' Hx). eauto.
  - destruct Hx as [Hst _]. rewrite Hst. destruct x as [[] n]; simpl in *; by intros [].
Qed.
End Abstraction.

(** ** Actions *)

(** The order of the instants of a database: [a <= b]. *)
Class TimeOrder (T : Type) := {
  time_leb : T -> T -> bool;
  time_eq_dec :: EqDecision T;
}.

#[global] Instance micros_order : TimeOrder Z := {| time_leb := Z.leb |}.
#[global] Instance text_order : TimeOrder string := {| time_leb := String.leb |}.

Section Actions.
Context {T : Type} `{!TimeOrder T}.
Implicit Types (d : Deliveries.row_of T) (db : Db_of T).

(** What the holder of a claim may do to its delivery. *)
Inductive update : Type :=
  | Renew (expiry : option T)
  | Ack (at_ : T)
  | Retry (available_at : T) (code detail : string)
  | Release (available_at : T)
  | Quarantine (at_ : T) (reason : string).

Definition apply_update (u : update) d : Deliveries.row_of T :=
  match u with
  | Renew expiry =>
      Deliveries.Row (Deliveries.event_row_id d) (Deliveries.tenant_id d) (Deliveries.state d)
        (Deliveries.available_at d) (Deliveries.attempts d) (Deliveries.claim_token d)
        (Deliveries.claimed_by d) expiry (Deliveries.last_failure_code d)
        (Deliveries.last_failure_detail d) (Deliveries.delivered_at d) (Deliveries.quarantined_at d)
        (Deliveries.quarantine_reason d)
  | Ack at_ =>
      unclaimed d "delivered" (Deliveries.available_at d) None (Some at_)
        (Deliveries.quarantined_at d) (Deliveries.quarantine_reason d)
  | Retry available_at code detail =>
      unclaimed d "pending" available_at (Some (code, detail)) (Deliveries.delivered_at d)
        (Deliveries.quarantined_at d) (Deliveries.quarantine_reason d)
  | Release available_at =>
      unclaimed d "pending" available_at None (Deliveries.delivered_at d)
        (Deliveries.quarantined_at d) (Deliveries.quarantine_reason d)
  | Quarantine at_ reason =>
      unclaimed d "quarantined" (Deliveries.available_at d) None (Deliveries.delivered_at d)
        (Some at_) (Some reason)
  end.

(** What a connection commits: a new event with its delivery, pending or, when
    imported as such, delivered; claims of some deliveries by a worker, each
    under a token of its own; a mutation of a delivery under its token; the
    finalization of an imported delivery. *)
Inductive action : Type :=
  | Insert (e : Events.row_of T) (delivered : option T)
  | Claim (worker : string) (now : T) (expiry : option T) (grants : list (Z * bytes))
  | Mutate (key : Z) (token : bytes) (now : T) (u : update)
  | Finalize (key : Z) (at_ : T).

Definition grant (grants : list (Z * bytes)) (key : Z) : option bytes :=
  option_map snd (find (fun g => g.1 =? key) grants).

(** The delivery a new event comes with. *)
Definition first_delivery (e : Events.row_of T) (delivered : option T) : Deliveries.row_of T :=
  untouched_row (Events.tenant_id e) (Events.row_id e)
    (match delivered with Some _ => "delivered" | None => "pending" end)
    (Events.enqueued_at e) delivered.

(** The row after an action. *)
Definition row_after (a : action) d : Deliveries.row_of T :=
  match a with
  | Insert _ _ => d
  | Claim worker _ expiry grants =>
      match grant grants (Deliveries.event_row_id d) with
      | Some token => set_claimed (Deliveries.attempts d + 1) token worker expiry d
      | None => d
      end
  | Mutate key _ _ u => if Deliveries.event_row_id d =? key then apply_update u d else d
  | Finalize key at_ => if Deliveries.event_row_id d =? key then set_finalized at_ d else d
  end.

Definition perform (a : action) db : Db_of T :=
  match a with
  | Insert e delivered => with_delivery (first_delivery e delivered) (with_event e db)
  | _ => MkDb (events db) (map (row_after a) (deliveries db)) (tables db)
  end.

(** A claim may take the delivery at [now]. *)
Definition open_to_claim (now : T) d : bool :=
  (bool_decide (Deliveries.state d = "pending") && time_leb (Deliveries.available_at d) now)
  || (bool_decide (Deliveries.state d = "claimed")
      && is_some_and (Deliveries.claim_expires_at d) (fun expiry => time_leb expiry now)).

(** The holder of [token] may mutate the delivery at [now]. *)
Definition held_under (token : bytes) (now : T) d : bool :=
  bool_decide (Deliveries.state d = "claimed")
  && bool_decide (Deliveries.claim_token d = Some token)
  && is_some_and (Deliveries.claim_expires_at d) (fun expiry => negb (time_leb expiry now)).

(** When an action may happen to a row. *)
Definition row_guard (a : action) db d : bool :=
  match a with
  | Insert _ _ => true
  | Claim _ now _ grants =>
      match grant grants (Deliveries.event_row_id d) with
      | Some token => open_to_claim now d && negb (bool_decide (Deliveries.claim_token d = Some token))
      | None => true
      end
  | Mutate key token now _ => negb (Deliveries.event_row_id d =? key) || held_under token now d
  | Finalize key _ =>
      negb (Deliveries.event_row_id d =? key)
      || existsb (fun e => bool_decide (d = first_delivery e None)) (events db)
  end.

Definition row_allows (a : action) db d : bool :=
  row_guard a db d && Deliveries.check (row_after a d).

(** When an action may happen at all: an insertion under a key and an identity
    that are free; claims, a mutation or finalization of deliveries that are there. *)
Definition guard (a : action) db : bool :=
  match a with
  | Insert e _ =>
      negb (bool_decide (Events.row_id e ∈ event_keys db))
      && negb (bool_decide (event_identity e ∈ map event_identity (events db)))
      && Events.check e
  | Claim _ _ _ grants =>
      bool_decide (NoDup (map snd grants))
      && forallb (fun g => bool_decide (g.1 ∈ delivery_keys db)) grants
  | Mutate key _ _ _ | Finalize key _ => bool_decide (key ∈ delivery_keys db)
  end.

Definition enabled (a : action) db : bool :=
  guard a db && forallb (row_allows a db) (deliveries db).

(** A history: actions that happen one after the other. *)
Fixpoint run (acts : list action) db : option (Db_of T) :=
  match acts with
  | [] => Some db
  | a :: acts => if enabled a db then run acts (perform a db) else None
  end.
End Actions.
Arguments action : clear implicits.
Arguments update : clear implicits.

(** ** What one action does *)

Section OneAction.
Context {T : Type} `{!TimeOrder T}.
Implicit Types (d : Deliveries.row_of T) (db : Db_of T) (a : action T).

Lemma row_after_keeps a d :
  Deliveries.event_row_id (row_after a d) = Deliveries.event_row_id d /\
  Deliveries.tenant_id (row_after a d) = Deliveries.tenant_id d.
Proof.
  destruct a as [| |key token now []|]; simpl; try case_match; done.
Qed.

Lemma enabled_row a db d : enabled a db = true -> d ∈ deliveries db -> row_allows a db d = true.
Proof.
  unfold enabled. rewrite andb_true_iff, forallb_forall. intros [_ Hall] Hd.
  by apply Hall, list_elem_of_In.
Qed.

Lemma enabled_insert e delivered db :
  enabled (Insert e delivered) db = true <->
  Events.row_id e ∉ event_keys db /\ event_identity e ∉ map event_identity (events db) /\
  Events.check e = true /\ Forall (fun d => Deliveries.check d = true) (deliveries db).
Proof.
  unfold enabled, guard. rewrite !andb_true_iff, !negb_true_iff, !bool_decide_eq_false, forallb_forall.
  rewrite Forall_forall. setoid_rewrite list_elem_of_In. unfold row_allows. tauto.
Qed.

(** What the claimed states allow, as propositions. *)
Lemma open_to_claim_state now d :
  open_to_claim now d = true -> Deliveries.state d = "pending" \/ Deliveries.state d = "claimed".
Proof.
  unfold open_to_claim. rewrite orb_true_iff, !andb_true_iff, !bool_decide_eq_true. tauto.
Qed.

Lemma held_under_spec token now d :
  held_under token now d = true <->
  Deliveries.state d = "claimed" /\ Deliveries.claim_token d = Some token /\
  exists expiry, Deliveries.claim_expires_at d = Some expiry /\ time_leb expiry now = false.
Proof.
  unfold held_under. rewrite !andb_true_iff, !bool_decide_eq_true.
  destruct (Deliveries.claim_expires_at d) as [expiry|]; simpl.
  - rewrite negb_true_iff. split; [intros [[? ?] ?]; eauto 10|].
    by intros (? & ? & x & [= <-] & ?).
  - split; [by intros [_ ?]|by intros (_ & _ & x & ? & _)].
Qed.

(** A claimed delivery is not open while its holder may mutate it. *)
Lemma held_not_open token now d : held_under token now d = true -> open_to_claim now d = false.
Proof.
  intros (Hst & _ & expiry & He & Hlt)%held_under_spec. unfold open_to_claim.
  rewrite Hst, He. simpl. by rewrite Hlt.
Qed.

(** The row of a holder after its update. *)
Lemma update_abstracts u d :
  Deliveries.state d = "claimed" ->
  exists s, abstracts (apply_update u d) (s, Deliveries.attempts d) /\
    spec_step (DeliveryState.Claimed, Deliveries.attempts d) (s, Deliveries.attempts d).
Proof.
  intros Hst. destruct u;
    [exists DeliveryState.Claimed|exists DeliveryState.Delivered|exists DeliveryState.Pending
    |exists DeliveryState.Pending|exists DeliveryState.Quarantined]; (split; [done|constructor]).
Qed.

(** One action and one row. *)
Lemma row_after_refines a db d : row_allows a db d = true -> row_refines d (row_after a d).
Proof.
  intros Hal. apply andb_true_iff in Hal as [Hal _].
  destruct (row_after_keeps a d) as [Hk Ht].
  destruct a as [e delivered|worker now expiry grants|key token now u|key at_];
    cbn [row_after row_guard] in *; [apply row_refines_refl| | |].
  - destruct (grant grants _) as [t|]; [|apply row_refines_refl].
    apply andb_true_iff in Hal as [Ho _]. apply open_to_claim_state in Ho as [Hst|Hst].
    + by eapply (row_refines_step _ _ (DeliveryState.Pending, _) (DeliveryState.Claimed, _));
        [..|constructor| |].
    + by eapply (row_refines_step _ _ (DeliveryState.Claimed, _) (DeliveryState.Claimed, _));
        [..|apply spec_reclaim| |].
  - destruct (_ =? key) eqn:Ek; [|apply row_refines_refl]. simpl in Hal.
    apply held_under_spec in Hal as (Hst & _). destruct (update_abstracts u d Hst) as (s & Ha & Hs).
    by eapply (row_refines_step _ _ (DeliveryState.Claimed, _)); [..|exact Ha|exact Hs| |].
  - destruct (_ =? key) eqn:Ek; [|apply row_refines_refl]. simpl in Hal.
    apply existsb_exists in Hal as (e & _ & ->%bool_decide_eq_true).
    by eapply (row_refines_step _ _ (DeliveryState.Pending, 0) (DeliveryState.Delivered, 0));
      [..|constructor| |].
Qed.

(** How often a history claims a delivery. *)
Definition claims (key : Z) (a : action T) : Z :=
  match a with
  | Claim _ _ _ grants => if bool_decide (is_Some (grant grants key)) then 1 else 0
  | _ => 0
  end.

Lemma row_after_attempts a d :
  Deliveries.attempts (row_after a d)
  = Deliveries.attempts d + claims (Deliveries.event_row_id d) a.
Proof.
  destruct a as [|worker now expiry grants|key token now u|key at_]; simpl; try lia.
  - destruct (grant grants _); simpl; lia.
  - case_match; [destruct u; simpl; lia|lia].
  - case_match; simpl; lia.
Qed.

(** A row stays in the table as what it became. *)
Lemma perform_row a db d : d ∈ deliveries db -> row_after a d ∈ deliveries (perform a db).
Proof.
  intros Hd. destruct a as [e delivered| | |]; [apply elem_of_insert_row; by right|..];
    by apply list_elem_of_fmap_2.
Qed.

Lemma perform_events a db : events db ⊆ events (perform a db).
Proof. destruct a; [|done..]. intros x Hx. apply elem_of_insert_row. by right. Qed.

Definition inserts a : bool := match a with Insert _ _ => true | _ => false end.

(** An update of delivery rows that is an action. *)
Lemma perform_update a db f :
  inserts a = false -> guard a db = true ->
  (forall d, d ∈ deliveries db -> f d = row_after a d /\ row_guard a db d = true) ->
  db_wf (MkDb (events db) (map f (deliveries db)) (tables db)) ->
  enabled a db = true /\
  MkDb (events db) (map f (deliveries db)) (tables db) = perform a db.
Proof.
  intros Hi Hg Hrows Hwf.
  assert (Hmap : map f (deliveries db) = map (row_after a) (deliveries db)).
  { apply map_ext_in. intros d Hd. apply Hrows. by apply list_elem_of_In. }
  rewrite Hmap in *. split; [|by destruct a].
  unfold enabled. rewrite Hg. apply forallb_forall. intros d Hd. unfold row_allows.
  rewrite (proj2 (Hrows d (proj2 (list_elem_of_In _ _) Hd))).
  destruct Hwf as (_ & _ & _ & Hck & _). rewrite Forall_forall in Hck. apply Hck.
  apply list_elem_of_In. by apply in_map.
Qed.

Lemma grant_Some (grants : list (Z * bytes)) k token :
  NoDup (map fst grants) -> (k, token) ∈ grants -> grant grants k = Some token.
Proof.
  unfold grant. induction grants as [|[k' t'] grants IH]; simpl; [set_solver|].
  intros [Hn Hnd]%NoDup_cons [[= <- <-]|Hin]%elem_of_cons; [by rewrite Z.eqb_refl|].
  destruct (Z.eqb_spec k' k) as [->|]; [|by apply IH].
  destruct Hn. by apply (list_elem_of_fmap_2 fst) in Hin.
Qed.

Lemma grant_None (grants : list (Z * bytes)) k : k ∉ map fst grants -> grant grants k = None.
Proof.
  unfold grant. intros Hk. destruct (find _ grants) as [g|] eqn:Ef; [|done]. destruct Hk.
  apply List.find_some in Ef as [Hin <-%Z.eqb_eq]. apply list_elem_of_fmap_2.
  by apply list_elem_of_In.
Qed.

(** Where a row of the table comes from. *)
Lemma perform_row_inv a db d' :
  d' ∈ deliveries (perform a db) ->
  (exists d, d ∈ deliveries db /\ d' = row_after a d) \/
  (exists e delivered, a = Insert e delivered /\ d' = first_delivery e delivered).
Proof.
  destruct a as [e delivered| | |]; [|intros (d & -> & Hd)%list_elem_of_fmap; eauto..].
  intros [->|Hd]%elem_of_insert_row; [eauto|left; by exists d'].
Qed.

Lemma first_delivery_check e (delivered : option T) :
  Events.check e = true -> Deliveries.check (first_delivery e delivered) = true.
Proof. intros He. apply untouched_row_check; [done|]. destruct delivered; eauto. Qed.

(** Every constraint of the migrations is kept. *)
Lemma perform_wf a db : enabled a db = true -> db_wf db -> db_wf (perform a db).
Proof.
  intros He Hwf. destruct a as [e delivered| | |]; simpl.
  2-4: apply map_deliveries_wf; [done| |apply row_after_keeps]; intros d Hd _;
    by apply (enabled_row _ _ _ He), andb_true_iff in Hd as [_ ?].
  apply enabled_insert in He as (Hk & Hid & Hck & _).
  eapply (with_delivery_wf _ _ e); [by apply with_event_wf| |by apply first_delivery_check
    |apply elem_of_insert_row; by left|done|done].
  intros Hin. apply Hk. apply list_elem_of_fmap in Hin as (d & Hkd & Hd).
  destruct Hwf as (_ & _ & _ & _ & _ & Hfk). rewrite Forall_forall in Hfk.
  destruct (Hfk _ Hd) as (e' & He' & Hke & _). apply list_elem_of_fmap. exists e'.
  split; [|done]. simpl in Hkd. congruence.
Qed.
End OneAction.

(** ** Histories *)

Section Histories.
Context {T : Type} `{!TimeOrder T}.
Implicit Types (d : Deliveries.row_of T) (db : Db_of T) (a : action T) (acts : list (action T)).

Lemma run_cons a acts db db' :
  run (a :: acts) db = Some db' -> enabled a db = true /\ run acts (perform a db) = Some db'.
Proof. simpl. by destruct (enabled a db). Qed.

Lemma run_app acts1 acts2 db db1 :
  run acts1 db = Some db1 -> run (acts1 ++ acts2) db = run acts2 db1.
Proof.
  revert db. induction acts1 as [|a acts1 IH]; simpl; intros db; [by intros [= ->]|].
  destruct (enabled a db); [apply IH|done].
Qed.

(** What every action keeps, every history keeps. *)
Lemma run_invariant (P : Db_of T -> Prop) (Q : action T -> Prop) acts db db' :
  (forall a db, Q a -> enabled a db = true -> db_wf db -> P db -> P (perform a db)) ->
  run acts db = Some db' -> Forall Q acts -> db_wf db -> P db -> db_wf db' /\ P db'.
Proof.
  intros Hstep. revert db. induction acts as [|a acts IH]; intros db; [by intros [= ->]|].
  intros [He Hr]%run_cons HQ Hwf HP. inversion HQ; subst. apply (IH (perform a db)); auto.
  by apply perform_wf.
Qed.

Lemma run_wf acts db db' : run acts db = Some db' -> db_wf db -> db_wf db'.
Proof.
  intros Hr Hwf. by eapply (run_invariant (fun _ => True) (fun _ => True)) in Hr as [? _];
    [..|by apply Forall_true| |].
Qed.

Definition total_claims (key : Z) acts : Z :=
  fold_right (fun a total => claims key a + total) 0 acts.

(** What a history made of a row. *)
Record descends (acts : list (action T)) d d' : Prop := {
  ds_key : Deliveries.event_row_id d' = Deliveries.event_row_id d;
  ds_tenant : Deliveries.tenant_id d' = Deliveries.tenant_id d;
  (** the attempt count counts the claims *)
  ds_attempts : Deliveries.attempts d'
    = Deliveries.attempts d + total_claims (Deliveries.event_row_id d) acts;
  ds_steps : forall x, abstracts d x -> exists y, abstracts d' y /\ rtc spec_step x y;
  ds_terminal : Deliveries.state d = "delivered" \/ Deliveries.state d = "quarantined" -> d' = d;
}.

Lemma descends_refl d : descends [] d d.
Proof. constructor; try done; [simpl; lia|]. intros x Hx. by exists x. Qed.

Lemma descends_cons a acts db d d' :
  row_allows a db d = true -> descends acts (row_after a d) d' -> descends (a :: acts) d d'.
Proof.
  intros Hal [Hk Ht Ha Hs Hterm]. destruct (row_after_keeps a d) as [Hk1 Ht1].
  apply row_after_refines in Hal as [_ _ Hs1 Hterm1]. constructor; [congruence..| | |].
  - rewrite Ha, Hk1, row_after_attempts. simpl. lia.
  - intros x Hx. destruct (Hs1 x Hx) as (y & Hy & Hxy). destruct (Hs y Hy) as (z & Hz & Hyz).
    exists z. split; [done|]. by eapply rtc_l.
  - intros Htd. rewrite (Hterm1 Htd) in *. by apply Hterm.
Qed.

Lemma run_descends acts db db' d :
  run acts db = Some db' -> d ∈ deliveries db ->
  exists d', d' ∈ deliveries db' /\ descends acts d d'.
Proof.
  revert db d. induction acts as [|a acts IH]; intros db d.
  - intros [= ->] Hd. exists d. split; [done|apply descends_refl].
  - intros [He Hr]%run_cons Hd.
    destruct (IH _ _ Hr (perform_row a db d Hd)) as (d' & Hd' & Hds). exists d'. split; [done|].
    by eapply descends_cons; [eapply enabled_row|].
Qed.

Lemma run_events acts db db' : run acts db = Some db' -> events db ⊆ events db'.
Proof.
  revert db. induction acts as [|a acts IH]; intros db; [by intros [= ->]|].
  intros [_ Hr]%run_cons. etrans; [apply perform_events|by apply IH].
Qed.

Lemma perform_keys a db k :
  k ∈ delivery_keys (perform a db) <->
  k ∈ delivery_keys db \/ exists e delivered, a = Insert e delivered /\ k = Events.row_id e.
Proof.
  assert (Hmap : delivery_keys (MkDb (events db) (map (row_after a) (deliveries db)) (tables db))
                 = delivery_keys db).
  { unfold delivery_keys. simpl. rewrite map_map. apply map_ext. intros d. apply row_after_keeps. }
  destruct a as [e delivered| | |]; simpl; [|rewrite Hmap; naive_solver..].
  unfold delivery_keys at 1. rewrite list_elem_of_fmap. simpl. setoid_rewrite elem_of_insert_row.
  split.
  - intros (d & -> & [->|Hd]); [right; by exists e, delivered|left; by apply list_elem_of_fmap_2].
  - intros [(d & -> & Hd)%list_elem_of_fmap|(e' & dl & [= <- <-] & ->)];
      [exists d; auto|exists (first_delivery e delivered); auto].
Qed.

(** An action claims only deliveries that are there. *)
Lemma claims_absent a db k : enabled a db = true -> k ∉ delivery_keys db -> claims k a = 0.
Proof.
  intros He Hk. destruct a as [|worker now expiry grants| |]; [done| |done..]. simpl.
  unfold enabled, guard in He. rewrite !andb_true_iff, forallb_forall in He. destruct He as [[_ Hall] _].
  unfold grant. destruct (find _ grants) as [g|] eqn:Ef; [|done]. destruct Hk.
  apply List.find_some in Ef as [Hin Hg]. apply Z.eqb_eq in Hg as <-.
  specialize (Hall g Hin). by apply bool_decide_eq_true in Hall.
Qed.

(** A delivery the history inserted counts the claims of the whole history. *)
Lemma run_new acts db db' d' :
  run acts db = Some db' -> db_wf db -> d' ∈ deliveries db' ->
  Deliveries.event_row_id d' ∉ delivery_keys db ->
  Deliveries.attempts d' = total_claims (Deliveries.event_row_id d') acts.
Proof.
  revert db. induction acts as [|a acts IH]; intros db.
  - intros [= ->] _ Hd Hk. destruct Hk. by apply list_elem_of_fmap_2.
  - intros [He Hr]%run_cons Hwf Hd Hk. pose proof (perform_wf _ _ He Hwf) as Hwf1.
    simpl. rewrite (claims_absent _ _ _ He Hk), Z.add_0_l.
    destruct (decide (Deliveries.event_row_id d' ∈ delivery_keys (perform a db))) as [Hin|]; [|by eapply IH].
    apply perform_keys in Hin as [|(e & delivered & -> & Hke)]; [done|].
    assert (Hin : first_delivery e delivered ∈ deliveries (perform (Insert e delivered) db))
      by (apply elem_of_insert_row; by left).
    destruct (run_descends _ _ _ _ Hr Hin) as (d2 & Hd2 & [Hk2 _ Ha2 _ _]). simpl in Hk2, Ha2.
    assert (d2 = d') as ->; [|by rewrite Ha2, Hke].
    eapply (sorted_key_inj Deliveries.event_row_id); [apply (run_wf _ _ _ Hr Hwf1)|done..|congruence].
Qed.

End Histories.

(** ** Leases and tokens over histories *)

Section Leasing.
Context {T : Type} `{!TimeOrder T} (key : Z).
Implicit Types (d : Deliveries.row_of T) (db : Db_of T) (a : action T) (acts : list (action T)).

(** The action grants [token] on the delivery. *)
Definition grants_token (token : bytes) a : bool :=
  match a with
  | Claim _ _ _ grants => bool_decide (grant grants key = Some token)
  | _ => false
  end.

(** The delivery, if there, does not hold [token]. *)
Definition token_gone (token : bytes) db : Prop :=
  forall d, d ∈ deliveries db -> Deliveries.event_row_id d = key ->
  Deliveries.claim_token d <> Some token.

Lemma update_token u d token :
  Deliveries.claim_token d <> Some token -> Deliveries.claim_token (apply_update u d) <> Some token.
Proof. by destruct u. Qed.

Lemma token_gone_step token a db :
  grants_token token a = false -> token_gone token db -> token_gone token (perform a db).
Proof.
  intros Hg Hgone d' Hd' Hk. apply perform_row_inv in Hd' as [(d & Hd & ->)|(e & delivered & -> & ->)];
    [|done].
  destruct (row_after_keeps a d) as [Hka _]. rewrite Hka in Hk. specialize (Hgone d Hd Hk).
  destruct a as [|worker now expiry grants|key' token' now u|key' at_]; simpl in *; [done|..].
  - apply bool_decide_eq_false in Hg. rewrite Hk. destruct (grant grants key); [|done]. simpl. congruence.
  - case_match; [by apply update_token|done].
  - by case_match.
Qed.

Lemma token_gone_mutation token now u db :
  token_gone token db -> enabled (Mutate key token now u) db = false.
Proof.
  intros Hgone. apply not_true_is_false. intros He. pose proof He as He'.
  unfold enabled in He'. apply andb_true_iff in He' as [Hin%bool_decide_eq_true _].
  apply list_elem_of_fmap in Hin as (d & Hk & Hd). apply (enabled_row _ _ _ He) in Hd as Hal.
  apply andb_true_iff in Hal as [Hal _]. simpl in Hal. rewrite <- Hk, Z.eqb_refl in Hal. simpl in Hal.
  apply held_under_spec in Hal as (_ & Htok & _). by eapply Hgone.
Qed.

(** A claim replaces the delivery's token. *)
Lemma claim_replaces worker now expiry grants granted token db :
  enabled (Claim worker now expiry grants) db = true -> grant grants key = Some granted ->
  token <> granted -> token_gone token (perform (Claim worker now expiry grants) db).
Proof.
  intros He Hg Hne d' Hd' Hk. apply perform_row_inv in Hd' as [(d & Hd & ->)|(? & ? & ? & ?)]; [|done].
  destruct (row_after_keeps (Claim worker now expiry grants) d) as [Hka _]. rewrite Hka in Hk.
  simpl. rewrite Hk, Hg. simpl. congruence.
Qed.


(** An action that leaves the holder of [token] alone while its lease runs to
    [expiry]: it claims before then, and mutates the delivery under another
    token if at all. *)
Definition before_expiry (token : bytes) (expiry : T) a : Prop :=
  match a with
  | Claim _ now _ _ => time_leb expiry now = false
  | Mutate key' token' _ _ => key' = key -> token' <> token
  | _ => True
  end.

Definition holds_lease (token : bytes) (expiry : T) d : Prop :=
  Deliveries.event_row_id d = key /\ Deliveries.state d = "claimed" /\
  Deliveries.claim_token d = Some token /\ Deliveries.claim_expires_at d = Some expiry.

Lemma lease_step token expiry a db d :
  holds_lease token expiry d -> before_expiry token expiry a ->
  row_allows a db d = true -> row_after a d = d.
Proof.
  intros (Hk & Hst & Htok & Hexp) Hb Hal. apply andb_true_iff in Hal as [Hal _].
  destruct a as [|worker now exp' grants|key' token' now u|key' at_]; simpl in *; [done|..].
  - destruct (grant grants _); [|done]. apply andb_true_iff in Hal as [Ho _].
    unfold open_to_claim in Ho. by rewrite Hst, Hexp in Ho; simpl in Ho; rewrite Hb in Ho.
  - destruct (Z.eqb_spec (Deliveries.event_row_id d) key'); [|done]. simpl in Hal.
    apply held_under_spec in Hal as (_ & Htok' & _). exfalso. apply Hb; congruence.
  - destruct (_ =? key'); [|done]. simpl in Hal.
    apply existsb_exists in Hal as (e & _ & Heq%bool_decide_eq_true). by subst d.
Qed.

End Leasing.
