(* ===== verification/Overlay.v ===== *)
(** * A transaction's own rows over the committed ones

    PostgreSQL and MySQL keep the row versions a transaction wrote apart from the
    committed ones until it commits; the transaction sees its own versions in
    their place. Tables are in key order, so a table is determined by the row at
    each key, and updating existing rows is mapping them. *)

From S2P Require Import Prelude Tables Queries.

Section Overlay.
Context {T : Type}.

(** Insert a row, or put it in the place of the row of its key. *)
Fixpoint upsert {R} (key : R -> Z) (r : R) (table : list R) : list R :=
  match table with
  | [] => [r]
  | r' :: table' =>
      if key r <? key r' then r :: table
      else if key r =? key r' then r :: table'
      else r' :: upsert key r table'
  end.

Definition upsert_all {R} (key : R -> Z) (rows table : list R) : list R :=
  fold_left (fun table r => upsert key r table) rows table.

(** What a transaction did and did not commit: the row versions it wrote, oldest
    first, and the keys of the rows it holds locked. *)
Record Own : Type := MkOwn {
  own_events : list (Events.row_of T);
  own_deliveries : list (Deliveries.row_of T);
  own_locks : list Z;
}.

Definition nothing : Own := MkOwn [] [] [].

Definition own_app (a b : Own) : Own :=
  MkOwn (own_events a ++ own_events b) (own_deliveries a ++ own_deliveries b)
    (own_locks a ++ own_locks b).

(** The tables as the transaction sees them. *)
Definition overlay (own : Own) (db : Db_of T) : Db_of T :=
  MkDb (upsert_all Events.row_id (own_events own) (events db))
    (upsert_all Deliveries.event_row_id (own_deliveries own) (deliveries db)) (tables db).
End Overlay.
Arguments Own : clear implicits.

(** ** Rows by key *)

Section Keys.
Context {R : Type} (key : R -> Z).

Definition row_at (k : Z) (table : list R) : option R := find (fun r => key r =? k) table.

Lemma row_at_Some k table r : row_at k table = Some r -> r ∈ table /\ key r = k.
Proof.
  intros H. apply List.find_some in H as [Hin Hk]. rewrite list_elem_of_In.
  split; [done|by apply Z.eqb_eq].
Qed.

Lemma row_at_None k table : row_at k table = None <-> k ∉ map key table.
Proof.
  unfold row_at. induction table as [|r table IH]; simpl; [split; [intros _; apply not_elem_of_nil|done]|].
  destruct (Z.eqb_spec (key r) k) as [->|Hne].
  - split; [done|]. intros Hn. exfalso. apply Hn. left.
  - rewrite IH, not_elem_of_cons. split; [|tauto]. intros Hn. split; [congruence|done].
Qed.

Lemma row_at_elem table r :
  StronglySorted Z.lt (map key table) -> r ∈ table -> row_at (key r) table = Some r.
Proof.
  intros Hs Hr. destruct (row_at (key r) table) as [r'|] eqn:E.
  - apply row_at_Some in E as [Hin Hk]. f_equal. by eapply (sorted_key_inj key).
  - apply row_at_None in E. destruct E. apply list_elem_of_fmap. eauto.
Qed.

Lemma row_at_unique table r :
  r ∈ table -> (forall r', r' ∈ table -> key r' = key r -> r' = r) -> row_at (key r) table = Some r.
Proof.
  intros Hr Hu. destruct (row_at (key r) table) as [r'|] eqn:E.
  - apply row_at_Some in E as [Hin Hk]. f_equal. by apply Hu.
  - apply row_at_None in E. destruct E. apply list_elem_of_fmap. eauto.
Qed.

Lemma row_at_rev table k : NoDup (map key table) -> row_at k (rev table) = row_at k table.
Proof.
  intros Hnd. destruct (row_at k table) as [r|] eqn:E.
  - apply row_at_Some in E as [Hr <-]. apply row_at_unique.
    + by apply list_elem_of_In, in_rev; rewrite rev_involutive; apply list_elem_of_In.
    + intros r' Hr' Hk. apply list_elem_of_In, in_rev, list_elem_of_In in Hr'.
      apply list_elem_of_lookup in Hr as [i Hi]. apply list_elem_of_lookup in Hr' as [j Hj].
      enough (i = j) by congruence. eapply NoDup_lookup; [exact Hnd|..].
      * rewrite list_lookup_fmap, Hi. reflexivity.
      * rewrite list_lookup_fmap, Hj. simpl. by rewrite Hk.
  - apply row_at_None. apply row_at_None in E. intros Hin. apply E.
    apply list_elem_of_fmap in Hin as (r & -> & Hr). apply list_elem_of_fmap_2.
    by apply list_elem_of_In, in_rev, list_elem_of_In in Hr.
Qed.

(** A table in key order is determined by its rows. *)
Lemma table_ext t1 t2 :
  StronglySorted Z.lt (map key t1) -> StronglySorted Z.lt (map key t2) ->
  (forall k, row_at k t1 = row_at k t2) -> t1 = t2.
Proof.
  revert t2. induction t1 as [|r1 t1 IH]; intros [|r2 t2] Hs1 Hs2 Hk; simpl in *.
  - done.
  - specialize (Hk (key r2)). simpl in Hk. by rewrite Z.eqb_refl in Hk.
  - specialize (Hk (key r1)). simpl in Hk. by rewrite Z.eqb_refl in Hk.
  - inversion Hs1 as [|? ? Hs1' Hlt1]; subst. inversion Hs2 as [|? ? Hs2' Hlt2]; subst.
    rewrite Forall_forall in Hlt1. rewrite Forall_forall in Hlt2.
    assert (Hfst : key r1 = key r2).
    { destruct (Z.lt_trichotomy (key r1) (key r2)) as [Hl|[He|Hl]]; [|done|]; exfalso.
      - pose proof (Hk (key r1)) as H. simpl in H. rewrite Z.eqb_refl in H. symmetry in H.
        destruct (Z.eqb_spec (key r2) (key r1)); [lia|]. apply row_at_Some in H as [Hin He].
        enough (key r2 < key r1) by lia. apply Hlt2. apply list_elem_of_fmap. eauto.
      - pose proof (Hk (key r2)) as H. simpl in H. rewrite Z.eqb_refl in H.
        destruct (Z.eqb_spec (key r1) (key r2)); [lia|]. apply row_at_Some in H as [Hin He].
        enough (key r1 < key r2) by lia. apply Hlt1. apply list_elem_of_fmap. eauto. }
    assert (r1 = r2) as ->.
    { pose proof (Hk (key r1)) as H. simpl in H. rewrite Z.eqb_refl, <- Hfst, Z.eqb_refl in H.
      by injection H. }
    f_equal. apply IH; [done..|]. intros k. pose proof (Hk k) as H. simpl in H.
    destruct (Z.eqb_spec (key r2) k) as [He|]; [|done].
    assert (Hn : forall t, (forall x, x ∈ map key t -> key r2 < x) -> row_at k t = None).
    { rewrite <- He. intros t Ht. apply row_at_None. intros Hin. specialize (Ht _ Hin). lia. }
    by rewrite !Hn.
Qed.

Lemma upsert_keys r table k : k ∈ map key (upsert key r table) <-> k = key r \/ k ∈ map key table.
Proof.
  induction table as [|r' table IH]; simpl; [set_solver|].
  destruct (Z.ltb_spec (key r) (key r')); simpl; [set_solver|].
  destruct (Z.eqb_spec (key r) (key r')) as [He|]; simpl.
  - rewrite !elem_of_cons, He. tauto.
  - rewrite !elem_of_cons, IH. tauto.
Qed.

Lemma upsert_sorted r table :
  StronglySorted Z.lt (map key table) -> StronglySorted Z.lt (map key (upsert key r table)).
Proof.
  induction table as [|r' table IH]; simpl; intros Hs; [by repeat constructor|].
  inversion Hs as [|? ? Hs' Hall]; subst.
  destruct (Z.ltb_spec (key r) (key r')); simpl.
  - constructor; [done|]. constructor; [done|]. eapply Forall_impl; [exact Hall|]. simpl. lia.
  - destruct (Z.eqb_spec (key r) (key r')) as [He|]; simpl; [rewrite He; by constructor|].
    constructor; [by apply IH|]. apply Forall_forall. intros k Hk. apply upsert_keys in Hk as [->|Hk].
    + lia.
    + rewrite Forall_forall in Hall. by apply Hall.
Qed.

Lemma row_at_upsert r table k :
  row_at k (upsert key r table) = if key r =? k then Some r else row_at k table.
Proof.
  unfold row_at. induction table as [|r' table IH]; simpl; [done|].
  destruct (Z.ltb_spec (key r) (key r')); simpl; [done|].
  destruct (Z.eqb_spec (key r) (key r')) as [He|Hne]; simpl.
  - destruct (Z.eqb_spec (key r) k); [done|]. destruct (Z.eqb_spec (key r') k); [lia|done].
  - rewrite IH. destruct (Z.eqb_spec (key r') k) as [<-|]; [|done].
    by rewrite (proj2 (Z.eqb_neq _ _)).
Qed.

Lemma upsert_all_sorted rows table :
  StronglySorted Z.lt (map key table) -> StronglySorted Z.lt (map key (upsert_all key rows table)).
Proof.
  unfold upsert_all. revert table. induction rows as [|r rows IH]; simpl; intros table Hs; [done|].
  apply IH. by apply upsert_sorted.
Qed.

Lemma upsert_all_app rows1 rows2 table :
  upsert_all key (rows1 ++ rows2) table = upsert_all key rows2 (upsert_all key rows1 table).
Proof. apply fold_left_app. Qed.

(** The newest version of a key wins. *)
Lemma row_at_upsert_all rows table k :
  row_at k (upsert_all key rows table)
  = match row_at k (rev rows) with Some r => Some r | None => row_at k table end.
Proof.
  unfold upsert_all. revert table. induction rows as [|r rows IH] using rev_ind; intros table; [done|].
  rewrite fold_left_app, rev_app_distr. simpl. rewrite row_at_upsert, IH.
  by destruct (key r =? k).
Qed.

(** The version of a row among [rows], itself if none is newer. *)
Definition version (rows : list R) (x : R) : R :=
  match row_at (key x) (rev rows) with Some r => r | None => x end.

Lemma version_key rows x : key (version rows x) = key x.
Proof.
  unfold version. destruct (row_at _ _) eqn:E; [|done]. by apply row_at_Some in E as [_ ->].
Qed.

Lemma row_at_map (f : R -> R) table k :
  (forall x, key (f x) = key x) ->
  row_at k (map f table) = option_map f (row_at k table).
Proof.
  intros Hf. unfold row_at. induction table as [|r table IH]; simpl; [done|]. rewrite Hf.
  by destruct (key r =? k).
Qed.

(** Newer versions of rows that exist only replace them. *)
Lemma upsert_all_map rows table :
  StronglySorted Z.lt (map key table) -> (forall r, r ∈ rows -> key r ∈ map key table) ->
  upsert_all key rows table = map (version rows) table.
Proof.
  intros Hs Hin. apply table_ext.
  - by apply upsert_all_sorted.
  - rewrite map_map. by erewrite map_ext; [exact Hs|apply version_key].
  - intros k. rewrite row_at_upsert_all, row_at_map by apply version_key.
    destruct (row_at k (rev rows)) as [r|] eqn:E.
    + pose proof E as E'. apply row_at_Some in E as [Hr <-].
      apply list_elem_of_In, in_rev, list_elem_of_In in Hr.
      destruct (row_at (key r) table) as [x|] eqn:Ex.
      * simpl. apply row_at_Some in Ex as [_ Hx]. unfold version. by rewrite Hx, E'.
      * apply row_at_None in Ex. by destruct (Ex (Hin _ Hr)).
    + destruct (row_at k table) as [x|] eqn:Ex; [|done]. simpl. f_equal.
      apply row_at_Some in Ex as [_ <-]. unfold version. by rewrite E.
Qed.
End Keys.

Section OverlayFacts.
Context {T : Type}.

Lemma overlay_nothing (db : Db_of T) : overlay nothing db = db.
Proof. by destruct db. Qed.

Lemma own_app_nothing_r (o : Own T) : own_app o nothing = o.
Proof. destruct o. unfold own_app. simpl. by rewrite !app_nil_r. Qed.

Lemma own_app_assoc (a b c : Own T) : own_app (own_app a b) c = own_app a (own_app b c).
Proof. unfold own_app. simpl. by rewrite !app_assoc. Qed.

Lemma overlay_app (a b : Own T) db : overlay (own_app a b) db = overlay b (overlay a db).
Proof. unfold overlay, own_app. simpl. by rewrite !upsert_all_app. Qed.
End OverlayFacts.

(** ** New rows *)

Section NewRows.
Context {T : Type}.

Lemma upsert_new {R} (key : R -> Z) r table :
  key r ∉ map key table -> upsert key r table = insert_row key r table.
Proof.
  induction table as [|r' table IH]; simpl; intros Hn; [done|].
  destruct (Z.ltb_spec (key r) (key r')); [done|].
  destruct (Z.eqb_spec (key r) (key r')); [set_solver|]. f_equal. apply IH. set_solver.
Qed.

Lemma overlay_event (r : Events.row_of T) keys db :
  Events.row_id r ∉ event_keys db -> overlay (MkOwn [r] [] keys) db = with_event r db.
Proof.
  intros Hn. unfold overlay, with_event, upsert_all. simpl. rewrite upsert_new by done. done.
Qed.

Lemma overlay_delivery (r : Deliveries.row_of T) keys db :
  Deliveries.event_row_id r ∉ delivery_keys db ->
  overlay (MkOwn [] [r] keys) db = with_delivery r db.
Proof.
  intros Hn. unfold overlay, with_delivery, upsert_all. simpl. rewrite upsert_new by done. done.
Qed.

(** Newer versions of deliveries that exist, one for each of their keys. *)
Lemma overlay_deliveries (rows : list (Deliveries.row_of T)) keys db :
  db_wf db -> (forall r, r ∈ rows -> Deliveries.event_row_id r ∈ delivery_keys db) ->
  overlay (MkOwn [] rows keys) db
  = MkDb (events db) (map (version Deliveries.event_row_id rows) (deliveries db)) (tables db).
Proof.
  intros Hwf Hin. unfold overlay. simpl. rewrite upsert_all_map; [done|apply Hwf|done].
Qed.

(** Locks are not seen. *)
Lemma overlay_locks keys (db : Db_of T) : overlay (MkOwn [] [] keys) db = db.
Proof. by destruct db. Qed.
End NewRows.

(** ** Fewer rows *)

(** A table with fewer rows shows fewer rows under the same own versions. *)
Lemma upsert_all_mono {R} (key : R -> Z) rows t1 t2 :
  StronglySorted Z.lt (map key t1) -> StronglySorted Z.lt (map key t2) -> t1 ⊆ t2 ->
  upsert_all key rows t1 ⊆ upsert_all key rows t2.
Proof.
  intros Hs1 Hs2 Hsub r Hr.
  pose proof (row_at_elem key _ r (upsert_all_sorted key rows t1 Hs1) Hr) as Hat.
  rewrite row_at_upsert_all in Hat.
  enough (row_at key (key r) (upsert_all key rows t2) = Some r) as Hin by (by apply row_at_Some in Hin as [? _]).
  rewrite row_at_upsert_all. destruct (row_at key (key r) (rev rows)); [done|].
  apply row_at_Some in Hat as [Hin _]. by apply row_at_elem, Hsub.
Qed.

Lemma overlay_events_mono {T} (o : Own T) (v db : Db_of T) :
  db_wf v -> db_wf db -> events v ⊆ events db -> events (overlay o v) ⊆ events (overlay o db).
Proof. intros Hv Hdb. apply upsert_all_mono; [apply Hv|apply Hdb]. Qed.
