(* ===== verification/Others.v ===== *)
(** * Other connections

    What other connections commit and lock between two statements of a
    transaction, whatever the database: they keep the tables well formed, with
    and without the rows the transaction wrote, and cannot change a delivery it
    holds locked. Times in the tables are microseconds since the Unix epoch. *)

From S2P Require Import Prelude Tables Queries Contract Overlay.

Abbreviation Db := (Db_of Z).

Class Others := {
  (** what other connections commit before a statement runs, given what this
      one wrote and locked *)
  others_commit : nat -> Own Z -> Db -> Db;
  (** the deliveries other connections hold locked *)
  others_lock : nat -> Db -> list Z;
}.

Section Others.
Context `{Others}.

(** Other connections keep the tables well formed, with and without the rows of
    this transaction, and leave the deliveries it locked as they are. *)
Record respects (o : Own Z) (db db' : Db) : Prop := {
  r_wf : db_wf db';
  r_view : db_wf (overlay o db');
  r_locked : forall k, k ∈ own_locks o ->
    row_at Deliveries.event_row_id k (deliveries db')
    = row_at Deliveries.event_row_id k (deliveries db);
}.

Definition isolated : Prop :=
  forall n o db, db_wf db -> db_wf (overlay o db) -> respects o db (others_commit n o db).

(** [db'] is [db] after any commits of others while this connection held the
    deliveries [keys] locked. *)
Inductive during (keys : list Z) (db : Db) : Db -> Prop :=
  | during_none : during keys db db
  | during_more n o db' : during keys db db' -> keys ⊆ own_locks o ->
      db_wf (overlay o db') -> during keys db (others_commit n o db').

Lemma during_trans keys db1 db2 db3 : during keys db1 db2 -> during keys db2 db3 -> during keys db1 db3.
Proof. intros H1 H2. induction H2; [done|]. by constructor. Qed.

Lemma during_mono keys keys' db db' : keys' ⊆ keys -> during keys db db' -> during keys' db db'.
Proof. intros Hk. induction 1; constructor; [done|set_solver|done]. Qed.

Lemma during_nil keys db db' : during keys db db' -> during [] db db'.
Proof. apply during_mono. set_solver. Qed.

Lemma during_one n o db : db_wf (overlay o db) -> during (own_locks o) db (others_commit n o db).
Proof. intros Hv. constructor; [constructor|done..]. Qed.

Context (Hisolated : isolated).

Lemma during_wf keys db db' : db_wf db -> during keys db db' -> db_wf db'.
Proof. intros Hwf. induction 1; [done|]. by apply Hisolated. Qed.

(** Locked deliveries stay as they are. *)
Lemma during_locked keys db db' k :
  db_wf db -> during keys db db' -> k ∈ keys ->
  row_at Deliveries.event_row_id k (deliveries db')
  = row_at Deliveries.event_row_id k (deliveries db).
Proof.
  intros Hwf Hd Hk. induction Hd as [|n o db' Hd IH Hsub Hv]; [done|]. rewrite <- IH.
  apply (r_locked _ _ _ (Hisolated n o db' (during_wf _ _ _ Hwf Hd) Hv)). set_solver.
Qed.

Lemma during_locked_row keys db db' d :
  db_wf db -> during keys db db' -> d ∈ deliveries db ->
  Deliveries.event_row_id d ∈ keys -> d ∈ deliveries db'.
Proof.
  intros Hwf Hd Hin Hk. pose proof (during_locked _ _ _ _ Hwf Hd Hk) as He.
  rewrite (row_at_elem _ (deliveries db) d) in He; [|apply Hwf|done]. by apply row_at_Some in He as [? _].
Qed.

(** A row locked stays in the transaction's view as it is. *)
Lemma locked_own_row (o : Own Z) db db' d :
  db_wf db -> during (own_locks o) db db' ->
  Deliveries.event_row_id d ∈ own_locks o -> d ∈ deliveries (overlay o db) ->
  d ∈ deliveries (overlay o db').
Proof.
  intros Hwf Hd Hk Hin.
  pose proof (during_locked _ _ _ _ Hwf Hd Hk) as He.
  pose proof (row_at_elem Deliveries.event_row_id (deliveries (overlay o db)) d) as Hat.
  unfold overlay at 3 in Hat. cbn [deliveries] in Hat. rewrite row_at_upsert_all in Hat.
  assert (Hat' : row_at Deliveries.event_row_id (Deliveries.event_row_id d)
                   (deliveries (overlay o db')) = Some d).
  { unfold overlay. cbn [deliveries]. rewrite row_at_upsert_all, He. apply Hat; [|done].
    apply upsert_all_sorted, Hwf. }
  by apply row_at_Some in Hat' as [? _].
Qed.
End Others.

(** ** Events of other connections *)

Section AppendOnly.
Context `{Others}.

(** Other connections never remove or change an event: no adapter operation does. *)
Definition append_only : Prop :=
  forall n o db, db_wf db -> db_wf (overlay o db) -> events db ⊆ events (others_commit n o db).

Lemma during_events keys db db' :
  isolated -> append_only -> db_wf db -> during keys db db' -> events db ⊆ events db'.
Proof.
  intros Hi Ha Hwf Hd. induction Hd as [|n o db' Hd IH Hk Hv]; [done|].
  etrans; [exact IH|]. apply Ha; [|exact Hv]. exact (during_wf Hi _ _ _ Hwf Hd).
Qed.
End AppendOnly.

(** ** What stays of the other tenants *)

Section Confined.
Context `{Others} (tenant : string).

(** [db'] keeps every row of the other tenants as it is in some state of the
    tables that other connections committed after [db]. *)
Definition confined (db db' : Db) : Prop :=
  exists seen, during [] db seen /\ others tenant db' = others tenant seen.

Lemma during_confined db db' : during [] db db' -> confined db db'.
Proof. by exists db'. Qed.

(** A change of one of the tenant's deliveries. *)
Lemma confined_row db0 db key d d' :
  during [] db0 db -> db_wf db -> d ∈ deliveries db -> Deliveries.event_row_id d = key ->
  Deliveries.tenant_id d = tenant -> Deliveries.tenant_id d' = tenant ->
  confined db0 (MkDb (events db)
    (map (fun r => if Deliveries.event_row_id r =? key then d' else r) (deliveries db)) (tables db)).
Proof.
  intros Hd Hwf Hin Hkd Htd Htd'. exists db. split; [done|]. apply others_map. intros x Hx.
  destruct (Z.eqb_spec (Deliveries.event_row_id x) key) as [Hk|]; [right|by left].
  assert (x = d) as -> by (eapply (sorted_key_inj Deliveries.event_row_id); [apply Hwf|done..|congruence]).
  done.
Qed.
End Confined.

(** ** Other connections that keep to the contract *)

(** An action beside a transaction that wrote and locked [o]: the action leaves
    what is locked alone, and its insertions use neither a key the transaction
    holds nor an identity it inserted, which the unique keys make it wait for. *)
Definition touches (a : action Z) (k : Z) : Prop :=
  match a with
  | Insert e _ => k = Events.row_id e
  | Claim _ _ _ grants => is_Some (grant grants k)
  | Mutate key _ _ _ | Finalize key _ => k = key
  end.

Record beside (o : Own Z) (a : action Z) (db : Db) : Prop := {
  be_locked : forall k, k ∈ own_locks o -> ~ touches a k;
  be_free : forall e delivered, a = Insert e delivered ->
    Events.row_id e ∉ event_keys (overlay o db) /\
    event_identity e ∉ map event_identity (events (overlay o db));
}.

Fixpoint all_beside (o : Own Z) (acts : list (action Z)) (db : Db) : Prop :=
  match acts with
  | [] => True
  | a :: acts => beside o a db /\ all_beside o acts (perform a db)
  end.

Section ByContract.

Lemma upsert_all_keys {R} (key : R -> Z) rows table k :
  k ∈ map key (upsert_all key rows table) <-> k ∈ map key rows \/ k ∈ map key table.
Proof.
  unfold upsert_all. revert table. induction rows as [|r rows IH]; intros table; simpl; [set_solver|].
  rewrite IH, upsert_keys, elem_of_cons. tauto.
Qed.

Lemma upsert_all_insert {R} (key : R -> Z) rows r table :
  StronglySorted Z.lt (map key table) -> key r ∉ map key rows -> key r ∉ map key table ->
  upsert_all key rows (insert_row key r table) = insert_row key r (upsert_all key rows table).
Proof.
  intros Hs Hr Ht. rewrite <- !upsert_new by (rewrite ?upsert_all_keys; tauto).
  apply (table_ext key); [by apply upsert_all_sorted, upsert_sorted
    |by apply upsert_sorted, upsert_all_sorted|].
  intros k. rewrite row_at_upsert, !row_at_upsert_all, row_at_upsert.
  destruct (Z.eqb_spec (key r) k) as [<-|]; [|done].
  destruct (row_at key (key r) (rev rows)) as [x|] eqn:E; [|done].
  apply row_at_Some in E as [Hin Hk]. destruct Hr. rewrite <- Hk. apply list_elem_of_fmap_2.
  by apply list_elem_of_In, in_rev, list_elem_of_In.
Qed.

Lemma row_at_insert {R} (key : R -> Z) r table k :
  key r ∉ map key table -> key r <> k -> row_at key k (insert_row key r table) = row_at key k table.
Proof. intros Hr Hk. rewrite <- upsert_new, row_at_upsert by done. by destruct (Z.eqb_spec (key r) k). Qed.

(** Rewriting the committed rows, seen under newer versions of some. *)
Lemma upsert_all_map_commute {R} (key : R -> Z) rows (f : R -> R) table :
  StronglySorted Z.lt (map key table) -> (forall r, key (f r) = key r) ->
  upsert_all key rows (map f table)
  = map (fun r => match row_at key (key r) (rev rows) with Some _ => r | None => f r end)
      (upsert_all key rows table).
Proof.
  intros Hs Hf. set (g := fun r => _).
  assert (Hg : forall r, key (g r) = key r) by (intros r; unfold g; by destruct (row_at _ _ _)).
  apply (table_ext key).
  - apply upsert_all_sorted. rewrite map_map. by erewrite map_ext; [exact Hs|].
  - rewrite map_map. erewrite map_ext; [by apply (upsert_all_sorted key)|done].
  - intros k. rewrite row_at_map, !row_at_upsert_all, row_at_map by done.
    destruct (row_at key k (rev rows)) as [r|] eqn:E; simpl.
    + pose proof E as E'. apply row_at_Some in E as [_ Hk]. unfold g. by rewrite Hk, E'.
    + destruct (row_at key k table) as [r|] eqn:E'; [|done]. simpl.
      apply row_at_Some in E' as [? Hk]. unfold g. by rewrite Hk, E.
Qed.

Context (o : Own Z).
Implicit Types (db : Db) (a : action Z).

Lemma own_event_key e db : e ∈ own_events o -> Events.row_id e ∈ event_keys (overlay o db).
Proof. intros He. apply upsert_all_keys. left. by apply list_elem_of_fmap_2. Qed.

(** A row that is not its newest own version is committed. *)
Lemma overlay_row_committed db d :
  db_wf db -> d ∈ deliveries (overlay o db) ->
  row_at Deliveries.event_row_id (Deliveries.event_row_id d) (rev (own_deliveries o)) = None ->
  d ∈ deliveries db.
Proof.
  intros Hwf Hd Hno. pose proof (upsert_all_sorted Deliveries.event_row_id (own_deliveries o)
    (deliveries db) (proj1 (proj2 Hwf))) as Hs.
  pose proof (row_at_elem _ _ _ Hs Hd) as Hat. rewrite row_at_upsert_all, Hno in Hat.
  by apply row_at_Some in Hat as [? _].
Qed.

(** An insertion beside the transaction happens in its view as well. *)
Lemma overlay_insert e delivered db :
  db_wf db -> db_wf (overlay o db) ->
  Events.row_id e ∉ event_keys (overlay o db) ->
  overlay o (perform (Insert e delivered) db) = perform (Insert e delivered) (overlay o db).
Proof.
  intros Hwf Hv Hk.
  assert (Hd : Events.row_id e ∉ delivery_keys (overlay o db)).
  { intros (d & Hkd & Hd)%list_elem_of_fmap. destruct Hv as (_ & _ & _ & _ & _ & Hfk).
    rewrite Forall_forall in Hfk. destruct (Hfk _ Hd) as (e' & He' & Hke & _).
    apply Hk, list_elem_of_fmap. exists e'. split; [congruence|done]. }
  unfold event_keys, delivery_keys, overlay in Hk, Hd. cbn [events deliveries] in Hk, Hd.
  rewrite upsert_all_keys in Hk. rewrite upsert_all_keys in Hd.
  unfold overlay, perform, with_delivery, with_event. cbn [events deliveries tables].
  rewrite !upsert_all_insert; try tauto; apply Hwf.
Qed.

Lemma overlay_rewrite a db :
  db_wf db -> inserts a = false ->
  overlay o (perform a db)
  = MkDb (events (overlay o db))
      (map (fun d => match row_at Deliveries.event_row_id (Deliveries.event_row_id d)
                             (rev (own_deliveries o)) with Some _ => d | None => row_after a d end)
         (deliveries (overlay o db))) (tables db).
Proof.
  intros Hwf Ha.
  assert (Hp : perform a db = MkDb (events db) (map (row_after a) (deliveries db)) (tables db))
    by (by destruct a).
  rewrite Hp. unfold overlay. cbn [events deliveries tables]. f_equal.
  apply upsert_all_map_commute; [apply Hwf|]. intros d. apply row_after_keeps.
Qed.

Lemma beside_view a db :
  db_wf db -> db_wf (overlay o db) -> enabled a db = true -> beside o a db ->
  db_wf (overlay o (perform a db)).
Proof.
  intros Hwf Hv He [_ Hfree].
  assert (Hrow : inserts a = false -> db_wf (overlay o (perform a db))).
  { intros Ha. rewrite overlay_rewrite by done. apply (map_deliveries_wf _ (overlay o db)); [done|..].
    - intros d Hd Hck. cbv beta. destruct (row_at _ _ _) eqn:E; [done|].
      assert (Hal : row_allows a db d = true) by (by apply enabled_row, overlay_row_committed).
      by apply andb_true_iff in Hal as [_ ?].
    - intros d. destruct (row_at _ _ _); [done|apply row_after_keeps]. }
  destruct a as [e delivered| | |]; [|by apply Hrow..].
  destruct (Hfree e delivered eq_refl) as [Hk Hid]. rewrite overlay_insert by done.
  apply perform_wf; [|done]. apply enabled_insert in He as (_ & _ & Hck & _).
  apply enabled_insert. split_and!; [done..|apply Hv].
Qed.

Lemma untouched_after a d : ~ touches a (Deliveries.event_row_id d) -> row_after a d = d.
Proof.
  destruct a as [| |key token now u|key at_]; simpl; [done|..]; intros Hn.
  - destruct (grant _ _); [|done]. destruct Hn. by eexists.
  - by destruct (Z.eqb_spec (Deliveries.event_row_id d) key).
  - by destruct (Z.eqb_spec (Deliveries.event_row_id d) key).
Qed.

Lemma beside_locked a db k :
  db_wf db -> enabled a db = true -> ~ touches a k ->
  row_at Deliveries.event_row_id k (deliveries (perform a db))
  = row_at Deliveries.event_row_id k (deliveries db).
Proof.
  intros Hwf He Hn. assert (Hmap : row_at Deliveries.event_row_id k (map (row_after a) (deliveries db))
                                   = row_at Deliveries.event_row_id k (deliveries db)).
  { rewrite row_at_map by (intros d; apply row_after_keeps).
    destruct (row_at _ k _) as [d|] eqn:E; [|done]. apply row_at_Some in E as [_ <-]. simpl.
    by rewrite untouched_after. }
  destruct a as [e delivered| | |]; [|done..]. simpl. apply row_at_insert; [|simpl in *; congruence].
  simpl. intros Hin. apply enabled_insert in He as (Hk & _). apply Hk.
  apply list_elem_of_fmap in Hin as (d & Hkd & Hd). destruct Hwf as (_ & _ & _ & _ & _ & Hfk).
  rewrite Forall_forall in Hfk. destruct (Hfk _ Hd) as (e' & He' & Hke & _).
  apply list_elem_of_fmap. exists e'. split; [congruence|done].
Qed.

(** One action beside the transaction respects it. *)
Lemma beside_respects a db :
  db_wf db -> db_wf (overlay o db) -> enabled a db = true -> beside o a db ->
  respects o db (perform a db).
Proof.
  intros Hwf Hv He Hb. constructor.
  - by apply perform_wf.
  - by apply beside_view.
  - intros k Hk. apply beside_locked; [done..|]. by apply Hb.
Qed.

Lemma respects_trans db1 db2 db3 : respects o db1 db2 -> respects o db2 db3 -> respects o db1 db3.
Proof.
  intros [_ _ Hl1] [Hw Hv Hl2]. constructor; [done..|]. intros k Hk. rewrite Hl2 by done. by apply Hl1.
Qed.

Lemma all_beside_respects acts db db' :
  db_wf db -> db_wf (overlay o db) -> run acts db = Some db' -> all_beside o acts db ->
  respects o db db'.
Proof.
  revert db. induction acts as [|a acts IH]; intros db Hwf Hv.
  - intros [= ->] _. by constructor.
  - intros [He Hr]%run_cons [Hb Hbs]. pose proof (beside_respects _ _ Hwf Hv He Hb) as Hresp.
    eapply respects_trans; [exact Hresp|]. by apply IH; [apply Hresp|apply Hresp|..].
Qed.

(** A key the transaction holds stays free, and a row it holds stays. *)
Lemma all_beside_fresh acts db db' k :
  run acts db = Some db' -> all_beside o acts db -> k ∈ own_locks o ->
  k ∉ event_keys db -> k ∉ event_keys db'.
Proof.
  revert db. induction acts as [|a acts IH]; intros db; [by intros [= ->]|].
  intros [_ Hr]%run_cons [Hb Hbs] Hk Hn. eapply IH; [done..|].
  destruct a as [e delivered| | |]; [|done..]. pose proof (be_locked _ _ _ Hb k Hk) as Ht.
  simpl in Ht. unfold event_keys. simpl. rewrite list_elem_of_fmap.
  intros (x & -> & [->|Hx]%elem_of_insert_row); [done|]. apply Hn. by apply list_elem_of_fmap_2.
Qed.
End ByContract.

Section Contracted.
Context `{Others}.

(** Every other connection commits actions of the contract only, beside this
    connection's transaction. *)
Definition keep_contract : Prop :=
  forall n o db, db_wf db -> db_wf (overlay o db) ->
  exists acts, run acts db = Some (others_commit n o db) /\ all_beside o acts db.

Lemma contract_isolated : keep_contract -> isolated.
Proof.
  intros Hc n o db Hwf Hv. destruct (Hc n o db Hwf Hv) as (acts & Hr & Hb).
  by eapply all_beside_respects.
Qed.

Lemma contract_append_only : keep_contract -> append_only.
Proof.
  intros Hc n o db Hwf Hv. destruct (Hc n o db Hwf Hv) as (acts & Hr & _). by eapply run_events.
Qed.

Lemma during_fresh keys db db' k :
  keep_contract -> db_wf db -> during keys db db' -> k ∈ keys ->
  k ∉ event_keys db -> k ∉ event_keys db'.
Proof.
  intros Hc Hwf Hd Hk Hn. induction Hd as [|n o db' Hd IH Hsub Hv]; [done|].
  pose proof (during_wf (contract_isolated Hc) _ _ _ Hwf Hd) as Hwf'.
  destruct (Hc n o db' Hwf' Hv) as (acts & Hr & Hb).
  eapply all_beside_fresh; [exact Hr|exact Hb|by apply Hsub|done].
Qed.

(** What others commit is a history of the contract. *)
Lemma during_history keys db db' :
  keep_contract -> db_wf db -> during keys db db' -> exists acts, run acts db = Some db'.
Proof.
  intros Hc Hwf Hd. induction Hd as [|n o db' Hd [acts1 IH] Hsub Hv]; [by exists []|].
  pose proof (during_wf (contract_isolated Hc) _ _ _ Hwf Hd) as Hwf'.
  destruct (Hc n o db' Hwf' Hv) as (acts & Hr & _). exists (acts1 ++ acts).
  by rewrite (run_app _ _ _ _ IH).
Qed.


(** [acts] happened to the tables, after actions of others. *)
Definition performed (db db' : Db) (acts : list (action Z)) : Prop :=
  exists foreign, run (foreign ++ acts) db = Some db'.

Lemma performed_none db db' :
  keep_contract -> db_wf db -> during [] db db' -> performed db db' [].
Proof.
  intros Hkeep Hwf Hd. destruct (during_history [] db db') as [foreign Hr]; [done..|].
  exists foreign. by rewrite app_nil_r.
Qed.

Lemma performed_all db db1 db' acts :
  keep_contract -> db_wf db -> during [] db db1 -> run acts db1 = Some db' -> performed db db' acts.
Proof.
  intros Hkeep Hwf Hd Hr. destruct (during_history [] db db1) as [foreign Hf]; [done..|].
  exists foreign. by rewrite (run_app _ _ _ _ Hf).
Qed.

Lemma performed_one db db1 db' a :
  keep_contract -> db_wf db -> during [] db db1 ->
  enabled a db1 = true /\ db' = perform a db1 -> performed db db' [a].
Proof.
  intros Hkeep Hwf Hd [He ->]. apply (performed_all db db1); [done..|]. simpl. by rewrite He.
Qed.

(** ** Transactions that write one action after the other *)

(** [o'] is [o] and what action [a] writes: whatever others commit while the
    transaction holds what it locked, its rows make the tables that [a] makes
    of those with the rows it wrote before. *)
Definition adds (db : Db) (o o' : Own Z) (a : action Z) : Prop :=
  forall db', during (own_locks o') db db' -> db_wf db' -> db_wf (overlay o' db') ->
  db_wf (overlay o db') /\ enabled a (overlay o db') = true /\
  overlay o' db' = perform a (overlay o db').

(** The transaction that started over [db0] having written [o0] has written the
    actions so far, and its last statement ran over the committed tables. *)
Inductive session (db0 : Db) (o0 : Own Z) : list (action Z) -> Db -> Own Z -> Prop :=
  | session_start : session db0 o0 [] db0 o0
  | session_reads acts db o db' o' :
      session db0 o0 acts db o -> during (own_locks o) db db' ->
      own_locks o ⊆ own_locks o' -> own_events o' = own_events o ->
      own_deliveries o' = own_deliveries o -> session db0 o0 acts db' o'
  | session_adds acts db o db' o' a :
      session db0 o0 acts db o -> during (own_locks o) db db' ->
      own_locks o ⊆ own_locks o' -> adds db' o o' a -> session db0 o0 (acts ++ [a]) db' o'.

Lemma session_during db0 o0 acts db o : session db0 o0 acts db o -> during [] db0 db.
Proof.
  induction 1; [constructor|..]; (eapply during_trans; [eassumption|by eapply during_nil]).
Qed.

Lemma overlay_rows (o o' : Own Z) db :
  own_events o' = own_events o -> own_deliveries o' = own_deliveries o -> overlay o' db = overlay o db.
Proof. unfold overlay. by intros -> ->. Qed.

(** What the COMMIT of a transaction makes of the tables it finds. *)
Lemma session_commit db0 o0 acts db o db' :
  session db0 o0 acts db o -> during (own_locks o) db db' -> db_wf db' -> db_wf (overlay o db') ->
  db_wf (overlay o0 db') /\ run acts (overlay o0 db') = Some (overlay o db').
Proof.
  intros Hs. induction Hs as [|acts db1 o1 db2 o2 Hs IH Hd Hl He Hdl|acts db1 o1 db2 o2 a Hs IH Hd Hl Ha];
    intros Hd' Hwf Hv; [done|..].
  - rewrite (overlay_rows o1 o2) in * by done. apply IH; [|done..].
    eapply during_trans; [exact Hd|]. by eapply during_mono.
  - destruct (Ha db' Hd' Hwf Hv) as (Hv1 & He & Hp). rewrite Hp.
    assert (Hd1 : during (own_locks o1) db1 db')
      by (eapply during_trans; [exact Hd|by eapply during_mono]).
    destruct (IH Hd1 Hwf Hv1) as [Hv0 Hr]. split; [done|].
    rewrite (run_app _ _ _ _ Hr). simpl. by rewrite He.
Qed.

(** Without the new pair the tables are as well formed as with it. *)
Lemma insert_pair_inv (db : Db) e d :
  StronglySorted Z.lt (event_keys db) -> StronglySorted Z.lt (delivery_keys db) ->
  Events.row_id e ∉ delivery_keys db ->
  db_wf (with_delivery d (with_event e db)) ->
  db_wf db /\ event_identity e ∉ map event_identity (events db).
Proof.
  intros Hse Hsd Hk (_ & _ & Hce & Hcd & Hid & Hfk). simpl in *.
  rewrite Forall_forall in Hce. rewrite Forall_forall in Hcd. rewrite Forall_forall in Hfk.
  rewrite (Permutation_map event_identity (insert_row_perm Events.row_id e (events db))) in Hid.
  apply NoDup_cons in Hid as [Hn Hnd]. split; [|done]. split_and!; try done.
  - apply Forall_forall. intros x Hx. apply Hce, elem_of_insert_row. by right.
  - apply Forall_forall. intros x Hx. apply Hcd, elem_of_insert_row. by right.
  - apply Forall_forall. intros x Hx. destruct (Hfk x) as (e' & He' & Hke & Ht).
    { apply elem_of_insert_row. by right. }
    apply elem_of_insert_row in He' as [->|He']; [|by exists e'].
    destruct Hk. rewrite Hke. by apply list_elem_of_fmap_2.
Qed.

Lemma no_delivery_of_free (db : Db) k : db_wf db -> k ∉ event_keys db -> k ∉ delivery_keys db.
Proof.
  intros (_ & _ & _ & _ & _ & Hfk) Hk (d & -> & Hd)%list_elem_of_fmap. rewrite Forall_forall in Hfk.
  destruct (Hfk _ Hd) as (e & He & Hke & _). apply Hk, list_elem_of_fmap. by exists e.
Qed.

(** A key free in the view is free among the rows of the transaction. *)
Lemma overlay_free (o : Own Z) db0 db k :
  db_wf (overlay o db0) -> db_wf db -> k ∉ event_keys (overlay o db0) -> k ∉ event_keys db ->
  k ∉ event_keys (overlay o db) /\ k ∉ delivery_keys (overlay o db).
Proof.
  intros Hv Hwf Hk Hk'. pose proof (no_delivery_of_free _ _ Hv Hk) as Hd.
  pose proof (no_delivery_of_free _ _ Hwf Hk') as Hd'.
  unfold event_keys, delivery_keys, overlay in *. cbn [events deliveries] in *.
  rewrite upsert_all_keys in Hk. rewrite upsert_all_keys in Hd. rewrite !upsert_all_keys. tauto.
Qed.

(** An event and its first delivery, both new, inserted under a key that was
    free when the transaction locked it. *)
Lemma adds_insert (Hkeep : keep_contract) db0 db (o : Own Z) e delivered keys :
  db_wf db0 -> db_wf (overlay o db0) -> Events.row_id e ∈ keys -> Events.check e = true ->
  Events.row_id e ∉ event_keys (overlay o db0) ->
  during (own_locks o ++ keys) db0 db ->
  adds db o (own_app o (MkOwn [e] [first_delivery e delivered] keys)) (Insert e delivered).
Proof.
  intros Hwf0 Hv0 Hin Hck Hk Hd db' Hd' Hwf' Hv. simpl in Hd'.
  pose proof (during_trans _ _ _ _ Hd Hd') as Hdd.
  assert (Hk' : Events.row_id e ∉ event_keys db').
  { eapply (during_fresh (own_locks o ++ keys) db0); [done..|set_solver|]. intros Hx. apply Hk.
    unfold event_keys, overlay. cbn [events]. apply upsert_all_keys. by right. }
  destruct (overlay_free o db0 db' _ Hv0 Hwf' Hk Hk') as [Hkv Hkd].
  assert (Hov : overlay (MkOwn [e] [first_delivery e delivered] keys) (overlay o db')
                = perform (Insert e delivered) (overlay o db')).
  { unfold overlay at 1, upsert_all at 1 2. simpl. by rewrite !upsert_new. }
  rewrite overlay_app, Hov in *. apply insert_pair_inv in Hv as [Hv Hid]; [|..|done].
  - split; [done|]. split; [|done]. apply enabled_insert. split_and!; [done..|apply Hv].
  - apply upsert_all_sorted, Hwf'.
  - apply upsert_all_sorted, Hwf'.
Qed.

(** Without the new version of a row that passes the CHECKs the tables are as well
    formed as with it. *)
Lemma update_one_inv (db : Db) d f :
  StronglySorted Z.lt (delivery_keys db) -> Deliveries.check d = true ->
  (forall r, r ∈ deliveries db -> r = d \/ f r = r) ->
  (forall r, Deliveries.event_row_id (f r) = Deliveries.event_row_id r /\
     (r = d -> Deliveries.tenant_id (f r) = Deliveries.tenant_id r)) ->
  db_wf (MkDb (events db) (map f (deliveries db)) (tables db)) -> db_wf db.
Proof.
  intros Hsd Hck Hrow Hkeep (Hse & _ & Hce & Hcd & Hid & Hfk). simpl in *.
  rewrite Forall_forall in Hcd. rewrite Forall_forall in Hfk.
  assert (Hin : forall r, r ∈ deliveries db -> f r ∈ map f (deliveries db))
    by (intros r; by apply list_elem_of_fmap_2).
  split_and!; try done; apply Forall_forall; intros r Hr.
  - destruct (Hrow r Hr) as [->|Hf]; [done|]. rewrite <- Hf. by apply Hcd, Hin.
  - destruct (Hfk _ (Hin r Hr)) as (e & He & Hke & Ht). exists e. split; [done|].
    destruct (Hkeep r) as [Hk Htn]. split; [congruence|]. rewrite Ht.
    destruct (Hrow r Hr) as [->|Hf]; [by apply Htn|by rewrite Hf].
Qed.

(** The finalization of a delivery the transaction locked. *)
Lemma adds_finalize db (o : Own Z) e at_ keys :
  isolated -> append_only -> db_wf db ->
  e ∈ events (overlay o db) -> first_delivery e None ∈ deliveries (overlay o db) ->
  Events.row_id e ∈ keys ->
  adds db o (own_app o (MkOwn [] [set_finalized at_ (first_delivery e None)] keys))
    (Finalize (Events.row_id e) at_).
Proof.
  intros Hi Ha Hwf He Hd Hk db' Hd' Hwf' Hv'. simpl in Hd'.
  set (d := first_delivery e None) in *.
  assert (Hdv : d ∈ deliveries (overlay o db')).
  { pose proof (locked_own_row Hi (own_app o (MkOwn [] [] keys)) db db' d) as Hl.
    rewrite !overlay_app, !overlay_locks in Hl. apply Hl; try done. simpl. set_solver. }
  assert (Hev : e ∈ events (overlay o db')).
  { eapply overlay_events_mono; [exact Hwf|exact Hwf'| |exact He]. by eapply during_events. }
  pose proof (upsert_all_sorted Deliveries.event_row_id (own_deliveries o) (deliveries db')
    (proj1 (proj2 Hwf'))) as Hsd.
  rewrite overlay_app in *. set (db2 := overlay o db') in *.
  change (upsert_all Deliveries.event_row_id (own_deliveries o) (deliveries db'))
    with (deliveries db2) in Hsd.
  set (f := fun r => if Deliveries.event_row_id r =? Events.row_id e then set_finalized at_ d else r).
  assert (Hov : overlay (MkOwn [] [set_finalized at_ d] keys) db2
                = MkDb (events db2) (map f (deliveries db2)) (tables db2)).
  { unfold overlay. cbn [own_events own_deliveries]. f_equal. rewrite upsert_all_map; [|done|].
    - apply map_ext. intros r. unfold version, f, row_at. simpl. rewrite Z.eqb_sym.
      by destruct (_ =? _).
    - intros r ->%list_elem_of_singleton. by apply (list_elem_of_fmap_2 Deliveries.event_row_id) in Hdv. }
  assert (Hone : forall r, r ∈ deliveries db2 -> Deliveries.event_row_id r = Events.row_id e -> r = d)
    by (intros r Hr Hkr; by eapply (sorted_key_inj Deliveries.event_row_id)).
  rewrite Hov in *. assert (Hce : Events.check e = true).
  { destruct Hv' as (_ & _ & Hce & _). rewrite Forall_forall in Hce. by apply Hce. }
  split; [|apply perform_update; [done|..|done]].
  - apply (update_one_inv db2 d f); [done|by apply first_delivery_check|..|done].
    + intros r Hr. unfold f. destruct (Z.eqb_spec (Deliveries.event_row_id r) (Events.row_id e)); auto.
    + intros r. unfold f. destruct (Z.eqb_spec (Deliveries.event_row_id r) (Events.row_id e)) as [Hkr|].
      * split; [by rewrite Hkr|]. by intros ->.
      * done.
  - apply bool_decide_eq_true. by apply (list_elem_of_fmap_2 Deliveries.event_row_id) in Hdv.
  - intros r Hr. unfold f. simpl.
    destruct (Z.eqb_spec (Deliveries.event_row_id r) (Events.row_id e)) as [Hkr|]; [|done].
    rewrite (Hone r Hr Hkr). split; [done|]. apply existsb_exists. exists e.
    split; [by apply list_elem_of_In|]. by apply bool_decide_eq_true.
Qed.
End Contracted.
