(* ===== verification/RowHydration.v ===== *)
(** * Event columns and their hydration

    The columns an event is written as and the reconstruction of the event from
    them through the core's own checked constructors, over the type of a time
    column. The adapters instantiate how a time is written and read; the code is
    that of each adapter's hydrate.rs, and of page.rs where hydration checks the
    delivery columns. *)

From S2P Require Import Prelude Utf8 External BTree Errors Limits Validation Bounds Values Extension Serialization Event State Tables Queries.

(** [{:?}] of a [str], whose escapes follow Unicode tables of the standard
    library *)
Class RustDebug := { debug_str : string -> string }.

(** [.map_err(|error| error.to_string())?] on a validation result *)
Definition text {A} (r : Result A ValidationError.t) : Result A string :=
  map_err ValidationError.to_string r.

(** A builder step for a column that may be NULL. *)
Definition optional_step {B C V} (builder : B) (column : option C)
    (new : C -> Result V string) (set : B -> V -> B) : Result B string :=
  match column with
  | Some value => let? v := new value in Ok (set builder v)
  | None => Ok builder
  end.

Section Hydrate.
Context `{TimeLib, SerdeJson, Base64, MimeLib, FluentUri}.

(** The match on [(row.data_kind, row.data)]. *)
Definition hydrate_data (builder : NewEventBuilder.t) (data_kind : option string)
    (data : option bytes) : Result NewEventBuilder.t string :=
  match data_kind, data with
  | None, None => Ok builder
  | Some kind, Some bytes =>
      if bool_decide (kind = "json") then
        let? data := text (EventData.json bytes) in
        Ok (NewEventBuilder.set_data builder data)
      else if bool_decide (kind = "binary") then
        Ok (NewEventBuilder.set_data builder (EventData.binary bytes))
      else Err "stored data kind and data columns do not agree"
  | _, _ => Err "stored data kind and data columns do not agree"
  end.

(** How a time column is read. *)
Context {T : Type} (read_time : T -> Result OffsetDateTime string).

Definition hydrate_event_with (row : EventRow.t_of T) : Result StoredEvent.t string :=
  if negb (bool_decide (EventRow.specversion row = SPEC_VERSION))
  then Err "stored event has an unsupported specversion"
  else
    let? stream := text (StreamName.new (EventRow.stream row)) in
    let? id := text (EventId.new (EventRow.event_id row)) in
    let? source := text (EventSource.new (EventRow.source row)) in
    let? event_type := text (EventType.new (EventRow.event_type row)) in
    let builder := NewEventBuilder.new stream id source event_type in
    let? builder := optional_step builder (EventRow.subject row)
                      (fun v => text (EventSubject.new v)) NewEventBuilder.set_subject in
    let? builder := optional_step builder (EventRow.occurred_at row)
                      read_time NewEventBuilder.set_time in
    let? builder := optional_step builder (EventRow.datacontenttype row)
                      (fun v => text (ContentType.new v))
                      NewEventBuilder.set_datacontenttype in
    let? builder := optional_step builder (EventRow.dataschema row)
                      (fun v => text (SchemaUri.new v)) NewEventBuilder.set_dataschema in
    let? builder := optional_step builder (EventRow.partitionkey row)
                      (fun v => text (PartitionKey.new v))
                      NewEventBuilder.set_partitionkey in
    let? extensions := map_err ExtensionDecodeError.to_string
                         (Extensions.from_canonical_json (EventRow.extensions row)) in
    let builder := NewEventBuilder.set_extensions builder extensions in
    let? builder := hydrate_data builder (EventRow.data_kind row) (EventRow.data row) in
    let? event := text (NewEventBuilder.build_with_limit builder
                          (EventSizeLimit.Make usize_max)) in
    text (into_stored event).
End Hydrate.

Definition require_absent {A} (field : string) (value : option A) : Result unit string :=
  match value with
  | Some _ => Err (field +:+ " must be NULL for its delivery state")
  | None => Ok tt
  end.

Definition require_token_width (value : option bytes) : Result unit string :=
  match value with
  | Some value =>
      if len value =? 16 then Ok tt
      else Err ("claimed delivery has an invalid claim token width: " +:+ pretty (len value))
  | None => Err "claimed delivery has no claim token"
  end.

Definition parse_failure (code detail : option string) : Result (option Failure.t) string :=
  match code, detail with
  | None, None => Ok None
  | Some code, Some detail => map_ok Some (text (Failure.new code detail))
  | _, _ => Err "delivery failure code and detail must be both NULL or non-NULL"
  end.

(** ** Writing an event *)

(** [data.map(|data| if data.is_json() { "json" } else { "binary" })] *)
Definition data_kind_of (data : option EventData.t) : option string :=
  option_map (fun data => if EventData.is_json data then "json" else "binary") data.

Section Columns.
Context `{TimeLib, SerdeJson, Base64}.
Context {T : Type} (write_time : OffsetDateTime -> T).

(** The event columns that enqueue and import bind. *)
Definition event_columns_with (c : EventContent.t) : EventRow.t_of T :=
  EventRow.Make (StreamName.as_str (EventContent.stream c)) SPEC_VERSION
    (EventId.as_str (EventContent.id c)) (EventSource.as_str (EventContent.source c))
    (EventType.as_str (EventContent.event_type c))
    (option_map EventSubject.as_str (EventContent.subject c))
    (option_map write_time (EventContent.time c))
    (option_map ContentType.as_str (EventContent.datacontenttype c))
    (option_map SchemaUri.as_str (EventContent.dataschema c))
    (option_map PartitionKey.as_str (EventContent.partitionkey c))
    (Extensions.canonical_json (EventContent.extensions c))
    (data_kind_of (EventContent.data c))
    (option_map EventData.as_bytes (EventContent.data c)).
End Columns.

(** ** Reading back what was written *)

Lemma optional_step_Some {B V} (b : B) (as_str : V -> string) (o : option V) new set r :
  match o with
  | Some v => new (as_str v) = Ok v /\ set b v = r
  | None => b = r
  end ->
  optional_step b (option_map as_str o) new set = Ok r.
Proof. destruct o as [v|]; simpl; [intros [-> ->]|intros ->]; done. Qed.

Lemma text_Ok {A} (r : Result A ValidationError.t) a : r = Ok a -> text r = Ok a.
Proof. by intros ->. Qed.

Section RoundTrip.
Context `{TimeLib, SerdeJson, Base64, MimeLib, FluentUri}.
Context {TL : TimeLaws} {TT : TimeTextLaws} {NL : JsonNumberLaws} {SL : SerdeJsonLaws} {BL : Base64Laws}.

(** The builder after the optional attribute columns. *)
Lemma hydrate_data_columns b data :
  option_all data_wf data ->
  hydrate_data b (data_kind_of data) (option_map EventData.as_bytes data)
  = Ok (match data with Some d => NewEventBuilder.set_data b d | None => b end).
Proof.
  destruct data as [[j|bytes]|]; simpl; [|done..]. intros Hd. by rewrite Hd.
Qed.

Context {T : Type} (read_time : T -> Result OffsetDateTime string) (write_time : OffsetDateTime -> T).
Context (read_write_time : forall t, portable_instant t -> utc_offset t = 0 ->
  read_time (write_time t) = Ok t).

(** The columns of an accepted event hydrate. *)
Lemma hydrate_with_columns c limit :
  content_wf c -> validate_content c limit = Ok tt ->
  EventSizeLimit.get limit <= usize_max ->
  hydrate_event_with read_time (event_columns_with write_time c) = Ok (StoredEvent.Make _ c).
Proof.
  intros Hwf Hv Hl. unfold hydrate_event_with, event_columns_with.
  cbn [EventRow.specversion EventRow.stream EventRow.event_id EventRow.source EventRow.event_type
       EventRow.subject EventRow.occurred_at EventRow.datacontenttype EventRow.dataschema
       EventRow.partitionkey EventRow.extensions EventRow.data_kind EventRow.data].
  rewrite bool_decide_true by done. cbn [negb].
  pose proof Hv as Hc. apply validate_content_Ok in Hc as (_ & Htime & Htrace & _ & _).
  destruct Hwf as [Hst Hid Hso Hty Hsu Hti Hct Hds Hpk Hex Hda].
  rewrite (text_Ok _ _ Hst), (text_Ok _ _ Hid), (text_Ok _ _ Hso), (text_Ok _ _ Hty).
  assert (Hext : Extensions.from_canonical_json
                   (Extensions.canonical_json (EventContent.extensions c))
                 = Ok (EventContent.extensions c)) by by apply from_canonical_json_Ok.
  assert (Hbuild : forall b, NewEventBuilder.content b = c ->
    (let? event := text (NewEventBuilder.build_with_limit b (EventSizeLimit.Make usize_max)) in
     text (into_stored event)) = Ok (StoredEvent.Make _ c)).
  { intros b Hb. unfold NewEventBuilder.build_with_limit.
    rewrite Hb, (validate_content_mono c limit (EventSizeLimit.Make usize_max) Hl Hv).
    simpl. unfold into_stored, StoredEvent.from_new, NewEvent.validate_with_limit.
    cbn [NewEvent.content NewEvent.size_limit].
    by rewrite (validate_content_mono c limit (EventSizeLimit.Make usize_max) Hl Hv). }
  destruct c as [st id so ty su ti ct ds pk ex da].
  cbn [EventContent.stream EventContent.id EventContent.source EventContent.event_type
       EventContent.subject EventContent.time EventContent.datacontenttype
       EventContent.dataschema EventContent.partitionkey EventContent.extensions
       EventContent.data] in *.
  unfold time_portable in Htime. cbn [EventContent.time] in Htime.
  assert (Htm : forall t, ti = Some t ->
            read_time (write_time t) = Ok t /\ to_utc t = t).
  { intros t ->. simpl in Hti, Htime. by rewrite to_utc_id, read_write_time. }
  unfold optional_step. rewrite Hext.
  destruct su as [su|], ti as [ti|], ct as [ct|], ds as [ds|], pk as [pk|];
    cbn [option_map option_all map_err] in *;
    try (destruct (Htm _ eq_refl) as [Hp Hu]; rewrite Hp);
    rewrite ?(text_Ok _ _ Hsu), ?(text_Ok _ _ Hct), ?(text_Ok _ _ Hds), ?(text_Ok _ _ Hpk);
    rewrite hydrate_data_columns by done; apply Hbuild;
    unfold NewEventBuilder.set_time; rewrite ?Hu; by destruct da.
Qed.
End RoundTrip.
