(* ===== verification/SqliteError.v ===== *)
(** * Errors of the SQLite adapter (crates/dovecote-sqlx-sqlite/src/error.rs)

    The busy test, and one error type per operation with the constructors the
    code uses. *)

From S2P Require Import Prelude Text Errors Bounds State External.

(** [code.parse::<i32>()] *)
Definition parse_i32 (s : string) : option Z :=
  let '(sign, digits) :=
    match s with
    | String a rest => if Ascii.eqb a "-" then (-1, rest)
                       else if Ascii.eqb a "+" then (1, rest) else (1, s)
    | EmptyString => (1, s)
    end in
  if is_empty digits then None
  else match parse_digits 0 digits with
       | Some n => if in_range i32_min i32_max (sign * n) then Some (sign * n) else None
       | None => None
       end.

Definition is_busy (source : SqlxError.t) : bool :=
  let code := match source with SqlxError.Database code => code | _ => None end in
  let code := match code with Some code => parse_i32 code | None => None end in
  is_some_and code (fun code =>
    (code =? 5) || (code =? 6) || (Z.land code 255 =? 5) || (Z.land code 255 =? 6)).

Module EnqueueError.
Inductive t : Type :=
  | WriteTransactionRequired
  | Configuration (detail : string)
  | IdempotencyConflict (existing_row_id : RowId.t)
  | MigrationMismatch (detail : string)
  | Serialization (detail : string)
  | BusyExhausted (operation : string) (source : SqlxError.t)
  | Sql (operation : string) (source : SqlxError.t).

Definition sql (operation : string) (source : SqlxError.t) : t :=
  if is_busy source then BusyExhausted operation source else Sql operation source.

Definition serialization (detail : string) : t := Serialization detail.
End EnqueueError.

Module ClaimError.
Inductive t : Type :=
  | CounterOverflow (row_id : RowId.t)
  | EntropyUnavailable (source : EntropyError)
  | Serialization (detail : string)
  | MigrationMismatch (detail : string)
  | Configuration (detail : string)
  | BusyExhausted (operation : string) (source : SqlxError.t)
  | Sql (operation : string) (source : SqlxError.t).

Definition sql (operation : string) (source : SqlxError.t) : t := Sql operation source.

Definition serialization (detail : string) : t := Serialization detail.

Definition busy_source (self : t) : option SqlxError.t :=
  match self with
  | Sql _ source | BusyExhausted _ source => if is_busy source then Some source else None
  | _ => None
  end.

Definition into_busy_exhausted (self : t) : t :=
  match self with
  | Sql operation source => BusyExhausted operation source
  | other => other
  end.
End ClaimError.

Module MutationError.
Inductive t : Type :=
  | NotFound
  | IllegalTransition (state : DeliveryState.t)
  | LostClaim
  | MigrationMismatch (detail : string)
  | Configuration (detail : string)
  | Serialization (detail : string)
  | BusyExhausted (operation : string) (source : SqlxError.t)
  | Sql (operation : string) (source : SqlxError.t).

Definition sql (operation : string) (source : SqlxError.t) : t := Sql operation source.

Definition serialization (detail : string) : t := Serialization detail.

Definition into_busy_exhausted (self : t) : t :=
  match self with
  | Sql operation source => BusyExhausted operation source
  | other => other
  end.

Definition is_busy (self : t) : bool :=
  match self with Sql _ source => is_busy source | _ => false end.
End MutationError.

Module PageError.
Inductive t : Type :=
  | Closed
  | Serialization (detail : string)
  | BusyExhausted (operation : string) (source : SqlxError.t)
  | Sql (operation : string) (source : SqlxError.t).

Definition sql (operation : string) (source : SqlxError.t) : t :=
  if is_busy source then BusyExhausted operation source else Sql operation source.

Definition serialization (detail : string) : t := Serialization detail.
End PageError.

Module ImportError.
Inductive t : Type :=
  | WriteTransactionRequired
  | IdentityConflict (existing_row_id : RowId.t)
  | ImportConflict (existing_row_id : RowId.t)
  | Configuration (detail : string)
  | InvalidState (source : ValidationError.t)
  | MigrationMismatch (detail : string)
  | Serialization (detail : string)
  | BusyExhausted (operation : string) (source : SqlxError.t)
  | Sql (operation : string) (source : SqlxError.t).

Definition sql (operation : string) (source : SqlxError.t) : t :=
  if is_busy source then BusyExhausted operation source else Sql operation source.

Definition serialization (detail : string) : t := Serialization detail.
End ImportError.

Module FinalizeError.
Inductive t : Type :=
  | WriteTransactionRequired
  | NotFound
  | StateConflict (row_id : RowId.t)
  | InvalidTimestamp (source : ValidationError.t)
  | MigrationMismatch (detail : string)
  | Serialization (detail : string)
  | BusyExhausted (operation : string) (source : SqlxError.t)
  | Sql (operation : string) (source : SqlxError.t).

Definition sql (operation : string) (source : SqlxError.t) : t :=
  if is_busy source then BusyExhausted operation source else Sql operation source.
End FinalizeError.

Module SchemaError.
Inductive t : Type :=
  | MigrationMismatch (detail : string)
  | BusyExhausted (operation : string) (source : SqlxError.t)
  | Sql (operation : string) (source : SqlxError.t).

Definition sql (operation : string) (source : SqlxError.t) : t :=
  if is_busy source then BusyExhausted operation source else Sql operation source.
End SchemaError.

(** ** The busy test *)

(** An error without a database code is never retried. *)
Lemma is_busy_no_code source : is_busy source = true -> exists code, source = SqlxError.Database (Some code).
Proof. destruct source as [[code|]| | |]; simpl; eauto; done. Qed.

Lemma into_busy_exhausted_claim e :
  ClaimError.busy_source (ClaimError.into_busy_exhausted e) = ClaimError.busy_source e.
Proof. by destruct e. Qed.
