(* ===== verification/Sqlite.v ===== *)
(** * The SQLite connection (crates/dovecote-sqlx-sqlite/src/lib.rs)

    Statements as steps over an explicit world: the committed tables, the
    caller's or the operation's transaction, and a counter that indexes what
    the environment does at each statement.  The busy configuration, the
    transaction helpers of lib.rs and the millisecond conversions follow. *)

From S2P Require Import Prelude Step Utf8 Errors Limits Bounds Tables Queries External SqliteError.

(** ** Constraint errors and updates: the extended result codes *)

Definition check_failed : SqlxError.t := SqlxError.Database (Some "275").
Definition foreign_key_failed : SqlxError.t := SqlxError.Database (Some "787").
Definition not_null_failed : SqlxError.t := SqlxError.Database (Some "1299").
Definition primary_key_failed : SqlxError.t := SqlxError.Database (Some "1555").

(** [UPDATE ... SET f WHERE p]: the new table and the number of rows it
    changed; a CHECK failure on a new row fails the statement. *)
Fixpoint update_rows (p : Deliveries.row -> bool)
    (f : Deliveries.row -> Result Deliveries.row SqlxError.t) (table : list Deliveries.row) : Result (list Deliveries.row * Z) SqlxError.t :=
  match table with
  | [] => Ok ([], 0)
  | r :: table =>
      if p r then
        let? r' := f r in
        if Deliveries.check r' then
          let? rest := update_rows p f table in Ok (r' :: rest.1, rest.2 + 1)
        else Err check_failed
      else let? rest := update_rows p f table in Ok (r :: rest.1, rest.2)
  end.

(** ** Facts about updates *)

Section UpdateRows.
Context (p : Deliveries.row -> bool) (f : Deliveries.row -> Result Deliveries.row SqlxError.t).

Lemma update_rows_Ok table table' n :
  update_rows p f table = Ok (table', n) ->
  Forall2 (fun r r' => if p r then f r = Ok r' /\ Deliveries.check r' = true else r' = r)
    table table' /\
  n = Z.of_nat (length (List.filter p table)).
Proof.
  revert table' n. induction table as [|r table IH]; simpl; intros table' n Hu; [by simplify_eq|].
  destruct (p r) eqn:Ep.
  - destruct (f r) as [r'|] eqn:Ef; [|done]. destruct (Deliveries.check r') eqn:Ec; [|done].
    destruct (update_rows p f table) as [[t k]|] eqn:Eu; [|done]. injection Hu as <- <-.
    destruct (IH _ _ eq_refl) as [Hf Hk]. split; [constructor; [by rewrite Ep|done]|].
    cbn [length]. lia.
  - destruct (update_rows p f table) as [[t k]|] eqn:Eu; [|done]. injection Hu as <- <-.
    destruct (IH _ _ eq_refl) as [Hf Hk]. split; [constructor; [by rewrite Ep|done]|done].
Qed.

Lemma update_rows_run (g : Deliveries.row -> Deliveries.row) table :
  (forall r, r ∈ table -> p r = true -> f r = Ok (g r) /\ Deliveries.check (g r) = true) ->
  update_rows p f table
  = Ok (map (fun r => if p r then g r else r) table,
        Z.of_nat (length (List.filter p table))).
Proof.
  induction table as [|r table IH]; simpl; intros Hg; [done|].
  rewrite IH by (intros; apply Hg; [by right|done]).
  destruct (p r) eqn:Ep; [|done]. destruct (Hg r) as [-> ->]; [left|done|].
  cbn [length]. by rewrite Nat2Z.inj_succ.
Qed.
End UpdateRows.

(** An update that sets the columns by a function [g] of the row. *)
Lemma update_rows_map p g table table' n :
  update_rows p (fun r => Ok (g r)) table = Ok (table', n) ->
  table' = map (fun r => if p r then g r else r) table /\
  n = Z.of_nat (length (List.filter p table)) /\
  (forall r, r ∈ table -> p r = true -> Deliveries.check (g r) = true).
Proof.
  intros Hu. apply update_rows_Ok in Hu as [Hf ->]. split_and!; [|done|].
  - induction Hf as [|r r' t t' Hr Hf IH]; simpl; [done|]. f_equal; [|done].
    destruct (p r); [|done]. by destruct Hr as [[= ->] _].
  - intros r Hr Hp. apply list_elem_of_lookup in Hr as [i Hi].
    destruct (Forall2_lookup_l _ _ _ _ _ Hf Hi) as (r' & _ & Hr'). rewrite Hp in Hr'.
    by destruct Hr' as [[= ->] ?].
Qed.

(** ** Environment and world *)

(** What the code does not decide, per statement number: failures, clocks, the
    values PRAGMAs report, entropy, the row ids AUTOINCREMENT picks, and what
    other connections committed before a transaction begins. *)
Class Env := {
  sql_fault : nat -> option SqlxError.t;
  (** [strftime('%Y-%m-%dT%H:%M:%f000Z', 'now')] *)
  clock : nat -> string;
  (** the same format for a time text and a modifier; [None] is SQL NULL *)
  strftime : string -> string -> option string;
  foreign_keys_pragma : nat -> Z;
  busy_timeout_pragma : nat -> Z -> Z;
  new_row_id : nat -> Db -> Z;
  foreign_writes : nat -> Db -> Db;
  (** [getrandom::fill] of sixteen bytes, by the number of the draw *)
  entropy : nat -> Result bytes EntropyError;
  (** how many draws [fresh_token] may make before the model gives up *)
  entropy_fuel : nat;
}.

Record World : Type := MkWorld {
  committed : Db;
  (** the open transaction: whether it holds the write lock, and its tables *)
  txn : option (bool * Db);
  tick : nat;
  draws : nat;
}.

(** A step of the connection: [None] when the model's fuel ran out. *)
Definition M (A : Type) : Type := Step World A.

Section Statements.
Context `{Env}.

Definition next_tick (w : World) : World :=
  MkWorld (committed w) (txn w) (S (tick w)) (draws w).

(** A call that reaches the engine or the pool and touches no table. *)
Definition call {A} (f : nat -> A) : M (Result A SqlxError.t) :=
  fun w => Some (match sql_fault (tick w) with
                 | Some e => Err e
                 | None => Ok (f (tick w))
                 end, next_tick w).

(** The tables a statement reads: those of the open transaction, or the
    committed ones. *)
Definition visible (w : World) : Db :=
  match txn w with Some (_, db) => db | None => committed w end.

Definition query {A} (f : nat -> Db -> A) : M (Result A SqlxError.t) :=
  fun w => Some (match sql_fault (tick w) with
                 | Some e => Err e
                 | None => Ok (f (tick w) (visible w))
                 end, next_tick w).

(** A statement that writes: it fails as a whole or applies as a whole, and a
    write outside a transaction commits at once. *)
Definition execute {A} (f : nat -> Db -> Result (A * Db) SqlxError.t) :
    M (Result A SqlxError.t) :=
  fun w =>
    match sql_fault (tick w) with
    | Some e => Some (Err e, next_tick w)
    | None =>
        match f (tick w) (visible w) with
        | Err e => Some (Err e, next_tick w)
        | Ok (a, db) =>
            let w := next_tick w in
            Some (Ok a, match txn w with
                        | Some _ => MkWorld (committed w) (Some (true, db)) (tick w) (draws w)
                        | None => MkWorld db None (tick w) (draws w)
                        end)
        end
    end.

(** [BEGIN] and [BEGIN IMMEDIATE]: the transaction starts from what is
    committed when it begins. *)
Definition begin_statement (write : bool) : M (Result unit SqlxError.t) :=
  fun w => match sql_fault (tick w) with
           | Some e => Some (Err e, next_tick w)
           | None =>
               let db := foreign_writes (tick w) (committed w) in
               Some (Ok tt, MkWorld db (Some (write, db)) (S (tick w)) (draws w))
           end.

(** [transaction.rollback().await] with its result ignored, and the drop of an
    owned transaction *)
Definition rollback : M unit :=
  fun w => Some (tt, MkWorld (committed w) None (S (tick w)) (draws w)).

(** [SqliteTransactionManager::commit] *)
Definition commit_statement : M (Result unit SqlxError.t) :=
  fun w => match sql_fault (tick w) with
           | Some e => Some (Err e, next_tick w)
           | None =>
               Some (Ok tt, MkWorld (visible w) None (S (tick w)) (draws w))
           end.
End Statements.

#[global] Arguments call : simpl never.
#[global] Arguments query : simpl never.
#[global] Arguments execute : simpl never.
#[global] Arguments begin_statement : simpl never.
#[global] Arguments commit_statement : simpl never.
#[global] Arguments rollback : simpl never.

(** ** lib.rs *)

Module BusyConfig.
Record t : Type := Make { timeout : Duration.t; retries : nat }.

Definition DEFAULT_BUSY_RETRIES : nat := 3.
Definition DEFAULT_BUSY_TIMEOUT : Duration.t := Duration.from_secs 5.

Definition new (timeout : Duration.t) (retries : nat) : t := Make timeout retries.
Definition with_retries (retries : nat) : t := new DEFAULT_BUSY_TIMEOUT retries.
Definition default : t := new DEFAULT_BUSY_TIMEOUT DEFAULT_BUSY_RETRIES.
End BusyConfig.

Definition checked_milliseconds (value : Duration.t) : Result Z string :=
  if negb (Duration.is_zero value) && negb (Duration.subsec_nanos value mod 1000000 =? 0)
  then Err "duration must be an exact whole number of milliseconds"
  else if Duration.as_millis value <=? i64_max then Ok (Duration.as_millis value)
  else Err "duration exceeds SQLite integer range".

Definition checked_busy_timeout (value : Duration.t) : Result Z string :=
  let? milliseconds := checked_milliseconds value in
  if i32_max <? milliseconds
  then Err "busy timeout exceeds SQLite's signed 32-bit millisecond range"
  else Ok milliseconds.

Definition validate_busy_config (busy : BusyConfig.t) : Result unit string :=
  map_ok (fun _ => tt) (checked_busy_timeout (BusyConfig.timeout busy)).

Section Lib.
Context `{Env}.

Definition install_foreign_keys : M (Result unit SqlxError.t) :=
  try* _ := call (fun _ => tt) else (fun e => e) in
  try* enabled := call foreign_keys_pragma else (fun e => e) in
  if negb (enabled =? 1)
  then ret (Err (SqlxError.Protocol "SQLite foreign-key enforcement could not be enabled"))
  else ret (Ok tt).

Definition install_busy_timeout (busy : BusyConfig.t) : M (Result unit SqlxError.t) :=
  match checked_busy_timeout (BusyConfig.timeout busy) with
  | Err detail =>
      ret (Err (SqlxError.Protocol ("invalid busy configuration: " +:+ detail)))
  | Ok milliseconds =>
      try* _ := call (fun _ => tt) else (fun e => e) in
      try* installed := call (fun n => busy_timeout_pragma n milliseconds)
           else (fun e => e) in
      if negb (installed =? milliseconds)
      then ret (Err (SqlxError.Protocol
             ("SQLite busy timeout installation mismatch: requested "
              +:+ pretty milliseconds +:+ ", installed " +:+ pretty installed)))
      else ret (Ok tt)
  end.

Definition begin_immediate (busy : BusyConfig.t) : M (Result unit SqlxError.t) :=
  try* _ := call (fun _ => tt) else (fun e => e) in
  try* _ := install_foreign_keys else (fun e => e) in
  try* _ := install_busy_timeout busy else (fun e => e) in
  begin_statement true.

Definition begin_read : M (Result unit SqlxError.t) :=
  try* _ := call (fun _ => tt) else (fun e => e) in
  try* _ := install_foreign_keys else (fun e => e) in
  begin_statement false.

Definition commit_transaction : M (Result unit SqlxError.t) :=
  let* result := commit_statement in
  match result with
  | Err e => let* _ := rollback in ret (Err e)
  | Ok value => ret (Ok value)
  end.

Definition transaction_is_write : M (Result bool SqlxError.t) :=
  fun w => Some (match sql_fault (tick w) with
                 | Some e => Err e
                 | None => Ok match txn w with Some (write, _) => write | None => false end
                 end, next_tick w).

(** The retry loop of [begin_write_with_config] with [n] retries left. *)
Fixpoint begin_write_loop (busy : BusyConfig.t) (n : nat) : M (Result unit EnqueueError.t) :=
  let* result := begin_immediate busy in
  match result with
  | Ok transaction => ret (Ok transaction)
  | Err source =>
      match is_busy source, n with
      | true, S n => begin_write_loop busy n
      | _, _ => ret (Err (EnqueueError.sql "begin write transaction" source))
      end
  end.

Definition begin_write_with_config (busy : BusyConfig.t) : M (Result unit EnqueueError.t) :=
  match validate_busy_config busy with
  | Err detail => ret (Err (EnqueueError.Configuration detail))
  | Ok _ => begin_write_loop busy (BusyConfig.retries busy)
  end.
End Lib.

(** ** Laws of SQLite's time texts *)

(** The text of a Unix millisecond in the adapter's [strftime] format. *)
Class SqliteTime := {
  millis_text : Z -> string;
}.

Definition max_millis : Z := 253402300799999.

(** [printf('+%lld.%03lld seconds', ms / 1000, ms % 1000)] *)
Definition pad3 (z : Z) : string :=
  if z <? 10 then "00" +:+ pretty z else if z <? 100 then "0" +:+ pretty z else pretty z.
Definition seconds_modifier (ms : Z) : string :=
  "+" +:+ pretty (Z.quot ms 1000) +:+ "." +:+ pad3 (Z.rem ms 1000) +:+ " seconds".

(** Documented behaviour of the engine: the clock and [strftime] agree with the
    text of a millisecond, texts of the supported years sort like the instants
    they denote, RFC 3339 parsing reads them, and AUTOINCREMENT picks a row id
    above every row of the table. *)
Class SqliteLaws `{Env, SqliteTime, TimeLib} : Prop := {
  clock_text n : exists ms, 0 <= ms <= max_millis /\ clock n = millis_text ms;
  strftime_add ms d :
    0 <= ms -> 0 <= d -> ms + d <= max_millis ->
    strftime (millis_text ms) (seconds_modifier d) = Some (millis_text (ms + d));
  millis_text_leb a b :
    0 <= a <= max_millis -> 0 <= b <= max_millis ->
    String.leb (millis_text a) (millis_text b) = (a <=? b);
  parse_millis ms :
    0 <= ms <= max_millis ->
    exists t, rfc3339_parse (millis_text ms) = Ok t /\ unix_nanos t = ms * 1000000;
  new_row_id_fresh n db :
    0 < new_row_id n db /\ Forall (fun k => k < new_row_id n db) (event_keys db);
}.

(** ** Millisecond conversions *)

(** A duration accepted as a lease or a delay converts exactly. *)
Lemma checked_milliseconds_exact d lo max ms :
  Duration.wf d -> whole_millis lo max d -> max * 1000 <= i64_max ->
  Duration.as_nanos d = ms * 1000000 -> checked_milliseconds d = Ok ms.
Proof.
  intros [Hs Hn] (ms' & Hms' & Hr) Hmax Hms. assert (ms' = ms) as -> by lia.
  unfold checked_milliseconds, Duration.is_zero, Duration.as_millis in *.
  unfold Duration.as_nanos in *. destruct d as [s n]. cbn -[Z.mul Z.pow i64_max] in *.
  assert (Hm : n mod 1000000 = 0) by euclid.
  rewrite Hm, andb_false_r. cbn [Z.eqb negb].
  assert (s * 1000 + n / 1000000 = ms) as -> by euclid.
  destruct (Z.leb_spec ms i64_max); [done|lia].
Qed.

Lemma checked_busy_timeout_bound d ms :
  Duration.wf d -> checked_busy_timeout d = Ok ms -> 0 <= ms <= i32_max.
Proof.
  intros [Hs Hn]. unfold checked_busy_timeout, checked_milliseconds.
  repeat (case_match; simplify_eq/=); intros; simplify_eq; bools.
  all: split; [|lia]; unfold Duration.as_millis; euclid.
Qed.

(** ** Running a step *)

Section Runs.
Context `{Env}.

(** [w'] differs from [w] in the statement counter only. *)
Definition same_tables (w w' : World) : Prop :=
  committed w' = committed w /\ txn w' = txn w.

Lemma same_tables_refl w : same_tables w w.
Proof. done. Qed.
Lemma same_tables_trans w1 w2 w3 : same_tables w1 w2 -> same_tables w2 w3 -> same_tables w1 w3.
Proof. unfold same_tables. intuition congruence. Qed.

Lemma call_inv {A} (f : nat -> A) w r w' :
  call f w = Some (r, w') ->
  same_tables w w' /\ draws w' = draws w /\
  match r with Ok a => a = f (tick w) | Err e => sql_fault (tick w) = Some e end.
Proof.
  unfold call. intros [= <- <-]. repeat split. by destruct (sql_fault (tick w)).
Qed.

Lemma query_inv {A} (f : nat -> Db -> A) w r w' :
  query f w = Some (r, w') ->
  same_tables w w' /\ draws w' = draws w /\
  match r with
  | Ok a => a = f (tick w) (visible w)
  | Err e => sql_fault (tick w) = Some e
  end.
Proof.
  unfold query. intros [= <- <-]. repeat split. by destruct (sql_fault (tick w)).
Qed.

(** A write inside a transaction. *)
Lemma execute_inv {A} (f : nat -> Db -> Result (A * Db) SqlxError.t) w wr db r w' :
  txn w = Some (wr, db) -> execute f w = Some (r, w') ->
  committed w' = committed w /\ draws w' = draws w /\
  match r with
  | Ok a => exists db', f (tick w) db = Ok (a, db') /\ txn w' = Some (true, db')
  | Err e => txn w' = txn w /\ (sql_fault (tick w) = Some e \/ f (tick w) db = Err e)
  end.
Proof.
  intros Ht. unfold execute, visible. rewrite Ht.
  destruct (sql_fault (tick w)); [intros [= <- <-]; auto|].
  destruct (f (tick w) db) as [[a db']|e] eqn:E; intros [= <- <-]; simpl; rewrite ?Ht; simpl; eauto.
Qed.

Lemma transaction_is_write_inv w r w' :
  transaction_is_write w = Some (r, w') ->
  same_tables w w' /\
  match r with
  | Ok b => b = match txn w with Some (write, _) => write | None => false end
  | Err e => sql_fault (tick w) = Some e
  end.
Proof.
  unfold transaction_is_write. intros [= <- <-]. split; [done|].
  by destruct (sql_fault (tick w)).
Qed.
End Runs.

(** ** Steps without a loop always return *)

Section Returns.
Context `{Env}.

Lemma returns_call {A} (f : nat -> A) : returns (call f).
Proof. by eexists. Qed.
Lemma returns_query {A} (f : nat -> Db -> A) : returns (query f).
Proof. by eexists. Qed.
Lemma returns_execute {A} (f : nat -> Db -> Result (A * Db) SqlxError.t) : returns (execute f).
Proof.
  intros w. unfold execute. destruct (sql_fault (tick w)); [by eexists|].
  by destruct (f (tick w) (visible w)) as [[]|]; eexists.
Qed.
Lemma returns_transaction_is_write : returns transaction_is_write.
Proof. by eexists. Qed.
End Returns.

#[export] Hint Resolve returns_call returns_query returns_execute
  returns_transaction_is_write : dovecote.

(** Without faults a statement runs. *)
Section NoFaults.
Context `{Env}.
Context (Hok : forall n, sql_fault n = None).

Lemma call_run {A} (f : nat -> A) w : call f w = Some (Ok (f (tick w)), next_tick w).
Proof. unfold call. by rewrite Hok. Qed.
Lemma query_run {A} (f : nat -> Db -> A) w :
  query f w = Some (Ok (f (tick w) (visible w)), next_tick w).
Proof. unfold query. by rewrite Hok. Qed.
Lemma transaction_is_write_run w :
  transaction_is_write w
  = Some (Ok match txn w with Some (write, _) => write | None => false end, next_tick w).
Proof. unfold transaction_is_write. by rewrite Hok. Qed.
Lemma execute_run {A} (f : nat -> Db -> Result (A * Db) SqlxError.t) w wr db a db' :
  txn w = Some (wr, db) -> f (tick w) db = Ok (a, db') ->
  execute f w = Some (Ok a, MkWorld (committed w) (Some (true, db')) (S (tick w)) (draws w)).
Proof. intros Ht Hf. unfold execute, visible. rewrite Hok, Ht, Hf. simpl. by rewrite Ht. Qed.
Lemma begin_statement_run b w :
  begin_statement b w
  = Some (Ok tt, MkWorld (foreign_writes (tick w) (committed w))
                   (Some (b, foreign_writes (tick w) (committed w))) (S (tick w)) (draws w)).
Proof. unfold begin_statement. by rewrite Hok. Qed.
Lemma commit_statement_run w :
  commit_statement w = Some (Ok tt, MkWorld (visible w) None (S (tick w)) (draws w)).
Proof. unfold commit_statement. by rewrite Hok. Qed.
End NoFaults.

(** ** Transactions *)

Section Transactions.
Context `{Env}.

(** [db'] is [db] after any number of foreign commits. *)
Inductive foreign_only (db : Db) : Db -> Prop :=
  | foreign_refl : foreign_only db db
  | foreign_step n db' : foreign_only db db' -> foreign_only db (foreign_writes n db').

Lemma foreign_only_trans db1 db2 db3 :
  foreign_only db1 db2 -> foreign_only db2 db3 -> foreign_only db1 db3.
Proof. intros H1 H2. induction H2; [done|]. by constructor. Qed.

(** Other connections keep the tables well formed: they are bound by the same
    constraints. *)
Definition foreign_wf : Prop := forall n db, db_wf db -> db_wf (foreign_writes n db).

Lemma foreign_only_wf db db' : foreign_wf -> db_wf db -> foreign_only db db' -> db_wf db'.
Proof. intros Hf Hw. induction 1; auto. Qed.

Lemma install_foreign_keys_inv w r w' :
  install_foreign_keys w = Some (r, w') -> same_tables w w'.
Proof.
  unfold install_foreign_keys. intros Hr. run_inv Hr. apply call_inv in Hm as (Hs & _ & _).
  destruct r0; [|by run_inv Hr]. run_inv Hr. apply call_inv in Hm as (Hs' & _ & _).
  pose proof (same_tables_trans _ _ _ Hs Hs').
  destruct r0 as [enabled|]; [|by run_inv Hr]. destruct (negb (enabled =? 1)); by run_inv Hr.
Qed.

Lemma install_busy_timeout_inv busy w r w' :
  install_busy_timeout busy w = Some (r, w') -> same_tables w w'.
Proof.
  unfold install_busy_timeout. intros Hr. case_match; [|by run_inv Hr].
  run_inv Hr. apply call_inv in Hm as (Hs & _ & _).
  destruct r0; [|by run_inv Hr]. run_inv Hr. apply call_inv in Hm as (Hs' & _ & _).
  pose proof (same_tables_trans _ _ _ Hs Hs').
  destruct r0 as [i|]; [|by run_inv Hr]. destruct (negb _); by run_inv Hr.
Qed.

Lemma begin_statement_inv b w r w' :
  begin_statement b w = Some (r, w') ->
  match r with
  | Ok _ => exists n, committed w' = foreign_writes n (committed w) /\
                      txn w' = Some (b, committed w')
  | Err _ => same_tables w w'
  end.
Proof. unfold begin_statement. destruct (sql_fault (tick w)); intros [= <- <-]; [done|]. eauto. Qed.

Lemma begin_immediate_inv busy w r w' :
  begin_immediate busy w = Some (r, w') ->
  match r with
  | Ok _ => exists n, committed w' = foreign_writes n (committed w) /\
                      txn w' = Some (true, committed w')
  | Err _ => same_tables w w'
  end.
Proof.
  unfold begin_immediate. intros Hr. run_inv Hr. apply call_inv in Hm as (Hs1 & _ & _).
  destruct r0; [|by run_inv Hr]. run_inv Hr. apply install_foreign_keys_inv in Hm.
  pose proof (same_tables_trans _ _ _ Hs1 Hm) as Hs2.
  destruct r0; [|by run_inv Hr]. run_inv Hr. apply install_busy_timeout_inv in Hm0.
  pose proof (same_tables_trans _ _ _ Hs2 Hm0) as Hs3.
  destruct r0; [|by run_inv Hr]. apply begin_statement_inv in Hr. destruct Hs3 as [Hc Ht].
  destruct r; [by rewrite <- Hc|]. destruct Hr. split; congruence.
Qed.

Lemma begin_read_inv w w' :
  begin_read w = Some (Ok tt, w') ->
  exists db, foreign_only (committed w) db /\ txn w' = Some (false, db).
Proof.
  unfold begin_read. intros Hr. run_inv Hr. apply call_inv in Hm as ([Hc1 _] & _ & _).
  destruct r; [|by run_inv Hr]. run_inv Hr. apply install_foreign_keys_inv in Hm as [Hc2 _].
  destruct r; [|by run_inv Hr]. apply begin_statement_inv in Hr as (n & Hf & ->).
  eexists. split; [|done]. rewrite Hf, Hc2, Hc1. constructor. constructor.
Qed.

Lemma commit_transaction_inv w wr db r w' :
  txn w = Some (wr, db) -> commit_transaction w = Some (r, w') ->
  txn w' = None /\
  match r with Ok _ => committed w' = db | Err _ => committed w' = committed w end.
Proof.
  intros Ht. unfold commit_transaction, bind, commit_statement, rollback, ret, visible. rewrite Ht.
  destruct (sql_fault (tick w)); by intros [= <- <-].
Qed.
End Transactions.
