(* ===== verification/Migration.v ===== *)
(** * Migration metadata (crates/dovecote-sqlx-sqlite/src/migration.rs)

    Numeric crate versions, compatibility ranges and the choice of the current
    migration.  The migration.rs of the other two adapters has the same ones,
    so [PgMigration] and the schema checks of both servers use these. *)

From S2P Require Import Prelude.

Definition SCHEMA_VERSION : Z := 2.

Module CrateVersion.
Record t : Type := Make { major : Z; minor : Z; patch : Z }.

#[global] Instance eq_dec : EqDecision t.
Proof. solve_decision. Defined.

Definition new (major minor patch : Z) : t := Make major minor patch.

Definition is_less_than (self other : t) : bool :=
  (major self <? major other)
  || ((major self =? major other)
      && ((minor self <? minor other)
          || ((minor self =? minor other) && (patch self <? patch other)))).
End CrateVersion.

Module MigrationCompatibility.
Record t : Type := Make { minimum : CrateVersion.t; maximum : option CrateVersion.t }.

#[global] Instance eq_dec : EqDecision t.
Proof. solve_decision. Defined.

Definition new (minimum : CrateVersion.t) (maximum : option CrateVersion.t) : t :=
  Make minimum maximum.

(** the unit error is [MigrationCompatibilityError] *)
Definition try_new (minimum : CrateVersion.t) (maximum : option CrateVersion.t) :
    Result t unit :=
  if is_some_and maximum (fun maximum => CrateVersion.is_less_than maximum minimum)
  then Err tt
  else Ok (new minimum maximum).

Definition contains (self : t) (version : CrateVersion.t) : bool :=
  negb (CrateVersion.is_less_than version (minimum self))
  && match maximum self with
     | Some maximum => negb (CrateVersion.is_less_than maximum version)
     | None => true
     end.
End MigrationCompatibility.

Module Migration.
Record t : Type := Make {
  version : Z;
  sql : string;
  compatibility : MigrationCompatibility.t;
  rolling_compatible : bool;
}.
End Migration.

(** [env!("CARGO_PKG_VERSION_...")]: the workspace version of Cargo.toml *)
Definition current_crate_version : CrateVersion.t := CrateVersion.new 0 2 3.

Section Current.
(** the text of migrations/0002_dovecote_tenant_baseline.sql *)
Context (tenant_baseline_sql : string).

Definition MIGRATIONS : list Migration.t :=
  [Migration.Make 2 tenant_baseline_sql
     (MigrationCompatibility.new (CrateVersion.new 0 2 0) None) false].

Definition current_migration : Result Migration.t string :=
  ok_or (find (fun migration => Migration.version migration =? SCHEMA_VERSION) MIGRATIONS)
    ("adapter does not ship schema version " +:+ pretty SCHEMA_VERSION).
End Current.

Definition migration_is_usable (migration : Migration.t) : Result unit string :=
  if negb (MigrationCompatibility.contains (Migration.compatibility migration)
             current_crate_version)
  then Err "current crate is outside migration compatibility range"
  else Ok tt.

(** ** Versions and ranges *)

(** Lexicographic order on the three components. *)
Definition version_lt (a b : CrateVersion.t) : Prop :=
  CrateVersion.major a < CrateVersion.major b \/
  CrateVersion.major a = CrateVersion.major b /\
    (CrateVersion.minor a < CrateVersion.minor b \/
     CrateVersion.minor a = CrateVersion.minor b /\ CrateVersion.patch a < CrateVersion.patch b).

Lemma is_less_than_spec a b : CrateVersion.is_less_than a b = true <-> version_lt a b.
Proof.
  unfold CrateVersion.is_less_than, version_lt.
  rewrite !orb_true_iff, !andb_true_iff, !orb_true_iff, !andb_true_iff, !Z.ltb_lt, !Z.eqb_eq.
  tauto.
Qed.

Lemma is_less_than_false a b :
  CrateVersion.is_less_than a b = false <-> a = b \/ version_lt b a.
Proof.
  rewrite <- not_true_iff_false, is_less_than_spec. unfold version_lt.
  destruct a as [a1 a2 a3], b as [b1 b2 b3]; simpl. split; [|intros [[=]|]; lia].
  intros Hn. destruct (decide (a1 = b1 /\ a2 = b2 /\ a3 = b3)) as [(-> & -> & ->)|]; [by left|].
  right. lia.
Qed.

(** A checked compatibility range is never empty: [try_new] refuses exactly
    the ranges whose maximum precedes the minimum, and the range it returns
    contains exactly the versions between its bounds in version order, its own
    bounds included. *)
Theorem compatibility_range minimum maximum :
  (MigrationCompatibility.try_new minimum maximum = Err tt <->
   exists m, maximum = Some m /\ version_lt m minimum) /\
  (forall r, MigrationCompatibility.try_new minimum maximum = Ok r ->
   MigrationCompatibility.contains r minimum = true /\
   (forall m, maximum = Some m -> MigrationCompatibility.contains r m = true) /\
   forall v, MigrationCompatibility.contains r v = true <->
     ~ version_lt v minimum /\ (forall m, maximum = Some m -> ~ version_lt m v)).
Proof.
  assert (Hirr : forall v, CrateVersion.is_less_than v v = false)
    by (intros v; apply is_less_than_false; by left).
  unfold MigrationCompatibility.try_new, MigrationCompatibility.contains.
  destruct maximum as [m|]; simpl.
  - destruct (CrateVersion.is_less_than m minimum) eqn:E.
    + apply is_less_than_spec in E. split; [|done]. split; [eauto|done].
    + split; [split; [done|]; intros (? & [= <-] & Hl); apply is_less_than_spec in Hl; congruence|].
      intros r [= <-]. simpl. rewrite !Hirr, E. split_and!; [done|by intros ? [= <-]; rewrite E, Hirr|].
      intros v. rewrite andb_true_iff, !negb_true_iff, <- !not_true_iff_false, !is_less_than_spec.
      naive_solver.
  - split; [split; [done|naive_solver]|]. intros r [= <-]. simpl. rewrite Hirr.
    split_and!; [done|done|]. intros v. rewrite andb_true_r, negb_true_iff, <- not_true_iff_false,
      is_less_than_spec. naive_solver.
Qed.
