(* ===== verification/Schema.v ===== *)
(** * The schema check (crates/dovecote-sqlx-sqlite/src/schema.rs)

    The catalog of the connection as the PRAGMAs and [sqlite_master] report it,
    the check of every table, column, index and foreign key against the shipped
    migration, and what the check accepts. *)

From S2P Require Import Prelude Step Utf8 Errors External SqliteError Tables Queries Sqlite Migration.

(** ** The catalog *)

Module SchemaMarker.
Record t : Type := Make {
  schema_version : Z;
  minimum_crate_major : Z;
  minimum_crate_minor : Z;
  minimum_crate_patch : Z;
  rolling_compatible : Z;
}.

#[global] Instance eq_dec : EqDecision t.
Proof. solve_decision. Defined.
End SchemaMarker.

(** A row of [PRAGMA table_info]; [None] where [try_get] fails. *)
Module TableInfo.
Record t : Type := Make {
  name : option string;
  type : option string;
  pk : option Z;
  notnull : option Z;
}.
End TableInfo.

(** A row of [sqlite_master] or [sqlite_temp_master]. *)
Module SchemaObject.
Record t : Type := Make {
  object_type : string;
  name : string;
  tbl_name : option string;
  sql : option string;
}.

(** [COALESCE(tbl_name, '')] *)
Definition table_name (self : t) : string :=
  match tbl_name self with Some s => s | None => EmptyString end.
End SchemaObject.

(** A row of [PRAGMA index_list]. *)
Module IndexList.
Record t : Type := Make { name : option string; unique : option Z }.
End IndexList.

(** A row of [PRAGMA index_xinfo]. *)
Module IndexXinfo.
Record t : Type := Make { key : option Z; coll : option string }.
End IndexXinfo.

(** A row of [PRAGMA foreign_key_list]. *)
Module ForeignKey.
Record t : Type := Make { table : option string; from : option string; to : option string }.
End ForeignKey.

Record Catalog : Type := MkCatalog {
  markers : list SchemaMarker.t;
  table_info : string -> list TableInfo.t;
  master : list SchemaObject.t;
  temp_master : list SchemaObject.t;
  index_list : string -> list IndexList.t;
  index_info : string -> list (option string);
  index_xinfo : string -> list IndexXinfo.t;
  foreign_key_list : string -> list ForeignKey.t;
  (** how many rows [PRAGMA foreign_key_check] returns *)
  foreign_key_violations : nat;
}.

(** What the connection reports at a statement, and [char::to_lowercase] on the
    code points outside ASCII. *)
Class CatalogEnv := {
  catalog : nat -> Db -> Catalog;
  unicode_lowercase : Z -> list Z;
}.

(** ** Texts *)

(** [s.eq_ignore_ascii_case(t)] *)
Fixpoint eq_ignore_ascii_case (s t : string) : bool :=
  match s, t with
  | EmptyString, EmptyString => true
  | String a s, String b t =>
      (ascii_lowercase (byte_val a) =? ascii_lowercase (byte_val b)) && eq_ignore_ascii_case s t
  | _, _ => false
  end.

(** the text from the first occurrence of [needle] on: [s.find(needle)] and the
    slice that starts there *)
Fixpoint find_suffix (needle s : string) : option string :=
  if String.prefix needle s then Some s
  else match s with
       | EmptyString => None
       | String _ s => find_suffix needle s
       end.

(** The loop of [expected_table_source]: the text before the first semicolon
    outside quotes and parentheses. Characters outside ASCII have no byte in
    common with the four the loop looks for, so it runs over bytes. *)
Definition u32_max : Z := 2 ^ 32 - 1.

Fixpoint scan_statement (depth : Z) (quoted : bool) (s : string) : option string :=
  match s with
  | EmptyString => None
  | String a s =>
      if Ascii.eqb a "'" then option_map (String a) (scan_statement depth (negb quoted) s)
      else if Ascii.eqb a "(" && negb quoted
      then option_map (String a) (scan_statement (saturating_add u32_max depth 1) quoted s)
      else if Ascii.eqb a ")" && negb quoted
      then option_map (String a) (scan_statement (Z.max 0 (depth - 1)) quoted s)
      else if Ascii.eqb a ";" && negb quoted && (depth =? 0) then Some EmptyString
      else option_map (String a) (scan_statement depth quoted s)
  end.

Definition expected_table_source (migration table : string) : Result string string :=
  match find_suffix ("CREATE TABLE " +:+ table) migration with
  | None => Err ("migration does not define " +:+ table)
  | Some text =>
      match scan_statement 0 false text with
      | Some statement => Ok statement
      | None => Err ("migration statement for " +:+ table +:+ " is unterminated")
      end
  end.

Definition expected_index_source (migration index : string) : Result string string :=
  let needle :=
    match find_suffix ("CREATE UNIQUE INDEX " +:+ index) migration with
    | Some _ => "CREATE UNIQUE INDEX " +:+ index
    | None => "CREATE INDEX " +:+ index
    end in
  match find_suffix needle migration with
  | None => Err ("migration does not define " +:+ index)
  | Some text =>
      match split_once ";" text with
      | Some (statement, _) => Ok statement
      | None => Err ("migration statement for " +:+ index +:+ " is unterminated")
      end
  end.

Section Normalize.
Context `{CatalogEnv}.

(** [char::to_lowercase] *)
Definition to_lowercase (c : Z) : list Z :=
  if c <? 128 then [ascii_lowercase c] else unicode_lowercase c.

Fixpoint normalize_chars (in_string : bool) (cs : list Z) : list Z :=
  match cs with
  | [] => []
  | c :: cs =>
      if c =? 39 then c :: normalize_chars (negb in_string) cs
      else if (c =? 34) && negb in_string then normalize_chars in_string cs
      else if is_ascii_whitespace c then normalize_chars in_string cs
      else if in_string then c :: normalize_chars in_string cs
      else to_lowercase c ++ normalize_chars in_string cs
  end.

Definition normalize_sql (value : string) : string :=
  utf8_encode (normalize_chars false (chars value)).
End Normalize.

(** ** The check *)

Definition mismatch (detail : string) : SchemaError.t := SchemaError.MigrationMismatch detail.

Module ColumnSpec.
Record t : Type := Make { name : string; kind : string; primary_key : bool; not_null : bool }.

Definition required (name kind : string) (primary_key : bool) : t :=
  Make name kind primary_key (negb primary_key).
Definition optional (name kind : string) (primary_key : bool) : t :=
  Make name kind primary_key false.
End ColumnSpec.

Definition events_columns : list ColumnSpec.t :=
  [ColumnSpec.required "row_id" "INTEGER" true; ColumnSpec.required "tenant_id" "TEXT" false;
   ColumnSpec.required "stream" "TEXT" false; ColumnSpec.required "specversion" "TEXT" false;
   ColumnSpec.required "event_id" "TEXT" false; ColumnSpec.required "source" "TEXT" false;
   ColumnSpec.required "event_type" "TEXT" false; ColumnSpec.optional "subject" "TEXT" false;
   ColumnSpec.optional "occurred_at" "TEXT" false;
   ColumnSpec.optional "datacontenttype" "TEXT" false;
   ColumnSpec.optional "dataschema" "TEXT" false; ColumnSpec.optional "partitionkey" "TEXT" false;
   ColumnSpec.required "extensions" "TEXT" false; ColumnSpec.optional "data_kind" "TEXT" false;
   ColumnSpec.optional "data" "BLOB" false; ColumnSpec.required "enqueued_at" "TEXT" false].

Definition deliveries_columns : list ColumnSpec.t :=
  [ColumnSpec.required "event_row_id" "INTEGER" true; ColumnSpec.required "tenant_id" "TEXT" false;
   ColumnSpec.required "state" "TEXT" false; ColumnSpec.required "available_at" "TEXT" false;
   ColumnSpec.required "attempts" "INTEGER" false; ColumnSpec.optional "claim_token" "BLOB" false;
   ColumnSpec.optional "claimed_by" "TEXT" false;
   ColumnSpec.optional "claim_expires_at" "TEXT" false;
   ColumnSpec.optional "last_failure_code" "TEXT" false;
   ColumnSpec.optional "last_failure_detail" "TEXT" false;
   ColumnSpec.optional "delivered_at" "TEXT" false;
   ColumnSpec.optional "quarantined_at" "TEXT" false;
   ColumnSpec.optional "quarantine_reason" "TEXT" false].

(** [unwrap_or_default] of an integer column *)
Definition or_zero (o : option Z) : Z := match o with Some z => z | None => 0 end.

Definition has_name (name : string) (found : option string) : bool :=
  bool_decide (found = Some name).

(** The body of the loop of [check_columns]. *)
Definition check_column (table : string) (rows : list TableInfo.t) (spec : ColumnSpec.t) :
    Result unit SchemaError.t :=
  let column := table +:+ "." +:+ ColumnSpec.name spec in
  match find (fun row => has_name (ColumnSpec.name spec) (TableInfo.name row)) rows with
  | None => Err (mismatch ("required column " +:+ column +:+ " is missing"))
  | Some row =>
      match TableInfo.type row with
      | None => Err (mismatch ("column " +:+ column +:+ " has no type"))
      | Some kind =>
          if negb (eq_ignore_ascii_case kind (ColumnSpec.kind spec))
          then Err (mismatch ("column " +:+ column +:+ " has type " +:+ kind +:+ ", expected "
                              +:+ ColumnSpec.kind spec))
          else if ColumnSpec.primary_key spec && negb (or_zero (TableInfo.pk row) =? 1)
          then Err (mismatch ("column " +:+ column +:+ " is not the primary key"))
          else if ColumnSpec.not_null spec && (or_zero (TableInfo.notnull row) =? 0)
          then Err (mismatch ("column " +:+ column +:+ " must be NOT NULL"))
          else Ok tt
      end
  end.

Definition schema_tables : list string := ["dovecote_schema"; "dovecote_events"; "dovecote_deliveries"].
Definition domain_tables : list string := ["dovecote_events"; "dovecote_deliveries"].
Definition known_indexes : list string :=
  ["dovecote_events_tenant_source_event_id"; "dovecote_events_tenant_row";
   "dovecote_deliveries_claimable"; "dovecote_deliveries_expired_claims";
   "sqlite_autoindex_dovecote_events_1"].

Definition is_in (s : string) (l : list string) : bool := bool_decide (s ∈ l).

(** [name LIKE 'dovecote_%']: letters of either case, one character for the
    underscore and any text for the percent sign *)
Definition like_dovecote (name : string) : bool :=
  let cs := chars name in
  (9 <=? Z.of_nat (length cs))
  && eq_ignore_ascii_case (utf8_encode (take 8 cs)) "dovecote".

Definition concerns_dovecote (o : SchemaObject.t) : bool :=
  like_dovecote (SchemaObject.name o)
  || is_some_and (SchemaObject.tbl_name o) (fun t => is_in t domain_tables).

(** The two catalogs of [check schema object isolation]. *)
Definition extra_objects (c : Catalog) : list SchemaObject.t :=
  List.filter (fun o =>
      concerns_dovecote o
      && negb (bool_decide (SchemaObject.object_type o = "table")
               && is_in (SchemaObject.name o) schema_tables)
      && negb (bool_decide (SchemaObject.object_type o = "index")
               && is_in (SchemaObject.name o) known_indexes)) (master c)
  ++ List.filter concerns_dovecote (temp_master c).

(** [SELECT name, sql FROM sqlite_master WHERE type = 'table' AND name IN (...)] *)
Definition table_sources (c : Catalog) : list SchemaObject.t :=
  List.filter (fun o => bool_decide (SchemaObject.object_type o = "table")
                        && is_in (SchemaObject.name o) schema_tables) (master c).

(** decoding a column of type [String]: NULL is an error *)
Definition decode_text (o : option string) : Result string SqlxError.t :=
  ok_or o (SqlxError.Other "unexpected null").

Definition decode_sources (sources : list SchemaObject.t) : Result (list (string * string)) SqlxError.t :=
  collect (fun o => map_ok (pair (SchemaObject.name o)) (decode_text (SchemaObject.sql o))) sources.

(** [SELECT sql FROM sqlite_master WHERE type = 'index' AND name = ?] *)
Definition index_source (c : Catalog) (name : string) : Result (option string) SqlxError.t :=
  match find (fun o => bool_decide (SchemaObject.object_type o = "index")
                       && bool_decide (SchemaObject.name o = name)) (master c) with
  | None => Ok None
  | Some o => map_ok Some (decode_text (SchemaObject.sql o))
  end.

(** The key columns' collations as [check_index] pairs them. *)
Definition key_collations (xinfo : list IndexXinfo.t) : list string :=
  map snd
    (zip (List.filter (fun key => negb (key =? 0)) (omap IndexXinfo.key xinfo))
         (omap IndexXinfo.coll xinfo)).

Definition check_foreign_key_rows (rows : list ForeignKey.t) : Result unit SchemaError.t :=
  let matching := List.filter (fun row => has_name "dovecote_events" (ForeignKey.table row)) rows in
  if negb (length matching =? 2)%nat
  then Err (mismatch "delivery foreign key is missing")
  else
    let or_empty o := match o with Some s => s | None => EmptyString end in
    let columns := map (fun row => (or_empty (ForeignKey.from row), or_empty (ForeignKey.to row)))
                     matching in
    if negb (bool_decide (("tenant_id", "tenant_id") ∈ columns))
       || negb (bool_decide (("event_row_id", "row_id") ∈ columns))
    then Err (mismatch "delivery foreign key is incompatible")
    else Ok tt.

Definition check_marker_rows (migration : Migration.t) (markers : list SchemaMarker.t) :
    Result unit SchemaError.t :=
  match markers with
  | [marker] =>
      let minimum := MigrationCompatibility.minimum (Migration.compatibility migration) in
      if negb (SchemaMarker.schema_version marker =? Migration.version migration)
         || negb (SchemaMarker.minimum_crate_major marker =? CrateVersion.major minimum)
         || negb (SchemaMarker.minimum_crate_minor marker =? CrateVersion.minor minimum)
         || negb (SchemaMarker.minimum_crate_patch marker =? CrateVersion.patch minimum)
         || negb (SchemaMarker.rolling_compatible marker
                  =? (if Migration.rolling_compatible migration then 1 else 0))
      then Err (mismatch "schema marker is incompatible with this adapter")
      else Ok tt
  | _ => Err (mismatch ("expected exactly one schema marker row, found "
                        +:+ pretty (Z.of_nat (length markers))))
  end.

Definition identity_index : string := "dovecote_events_tenant_source_event_id".

Section Check.
Context `{Env, CatalogEnv}.
Context (tenant_baseline_sql : string).

(** A catalog query whose rows may fail to decode. *)
Definition catalog_query {A} (operation : string) (f : Catalog -> Result A SqlxError.t) :
    M (Result A SchemaError.t) :=
  let* result := query (fun n db => f (catalog n db)) in
  ret (map_err (SchemaError.sql operation) (let? rows := result in rows)).

Definition check_schema_marker (migration : Migration.t) : M (Result unit SchemaError.t) :=
  try* markers := catalog_query "check schema marker" (fun c => Ok (markers c)) else (fun e => e) in
  ret (check_marker_rows migration markers).

Definition check_columns (table : string) (expected : list ColumnSpec.t) :
    M (Result unit SchemaError.t) :=
  try* rows := catalog_query "check table columns" (fun c => Ok (table_info c table))
       else (fun e => e) in
  ret (all_ok (check_column table rows) expected).

(** The two loops over the table definitions. *)
Definition check_table_present (sources : list (string * string)) (name : string) :
    Result unit SchemaError.t :=
  if existsb (fun source => bool_decide (fst source = name)) sources then Ok tt
  else Err (mismatch ("required table " +:+ name +:+ " is missing")).

Definition check_table_source (migration : Migration.t) (sources : list (string * string))
    (name : string) : Result unit SchemaError.t :=
  match find (fun source => bool_decide (fst source = name)) sources with
  | None => Ok tt (* [expect]: the loop before this one found every table *)
  | Some source =>
      let? expected := map_err mismatch (expected_table_source (Migration.sql migration) name) in
      if negb (bool_decide (normalize_sql (snd source) = normalize_sql expected))
      then Err (mismatch ("table " +:+ name +:+ " definition is incompatible with schema version "
                          +:+ pretty (Migration.version migration)))
      else Ok tt
  end.

Definition check_tables (migration : Migration.t) : M (Result unit SchemaError.t) :=
  try* sources := catalog_query "read schema definitions" (fun c => decode_sources (table_sources c))
       else (fun e => e) in
  ret (let? _ := all_ok (check_table_present sources) schema_tables in
       all_ok (check_table_source migration sources) schema_tables).

Definition check_isolation : M (Result unit SchemaError.t) :=
  try* extra := catalog_query "check schema object isolation" (fun c => Ok (extra_objects c))
       else (fun e => e) in
  ret match extra with
      | [] => Ok tt
      | o :: _ => Err (mismatch ("unsupported SQLite schema object "
                    +:+ SchemaObject.object_type o +:+ " " +:+ SchemaObject.name o +:+ " on "
                    +:+ SchemaObject.table_name o))
      end.

Definition check_index_listed (expected_name : string) (unique : bool) (indexes : list IndexList.t) :
    Result unit SchemaError.t :=
  match find (fun row => has_name expected_name (IndexList.name row)) indexes with
  | None => Err (mismatch ("required index " +:+ expected_name +:+ " is missing"))
  | Some index =>
      if negb (Bool.eqb (negb (or_zero (IndexList.unique index) =? 0)) unique)
      then Err (mismatch ("index " +:+ expected_name +:+ " uniqueness is incompatible"))
      else Ok tt
  end.

Definition check_index_source (expected_name migration : string) (source : option string) :
    Result unit SchemaError.t :=
  match source with
  | None => Err (mismatch ("index " +:+ expected_name +:+ " has no definition"))
  | Some source =>
      let? expected := map_err mismatch (expected_index_source migration expected_name) in
      if negb (bool_decide (normalize_sql source = normalize_sql expected))
      then Err (mismatch ("index " +:+ expected_name +:+ " definition is incompatible"))
      else Ok tt
  end.

Definition check_index_columns (expected_name : string) (columns : list string)
    (info : list (option string)) : Result unit SchemaError.t :=
  if negb (bool_decide (omap id info = columns))
  then Err (mismatch ("index " +:+ expected_name +:+ " columns are incompatible"))
  else Ok tt.

Definition check_collations (xinfo : list IndexXinfo.t) : Result unit SchemaError.t :=
  if negb (bool_decide (key_collations xinfo = ["BINARY"; "BINARY"; "BINARY"]))
  then Err (mismatch "identity index collation is not BINARY")
  else Ok tt.

Definition check_index (table expected_name : string) (unique : bool) (columns : list string)
    (migration : string) : M (Result unit SchemaError.t) :=
  try* indexes := catalog_query "check schema indexes" (fun c => Ok (index_list c table))
       else (fun e => e) in
  match check_index_listed expected_name unique indexes with
  | Err e => ret (Err e)
  | Ok _ =>
      try* source := catalog_query "read schema index definition"
                       (fun c => index_source c expected_name) else (fun e => e) in
      match check_index_source expected_name migration source with
      | Err e => ret (Err e)
      | Ok _ =>
          try* info := catalog_query "read schema index columns"
                         (fun c => Ok (index_info c expected_name)) else (fun e => e) in
          match check_index_columns expected_name columns info with
          | Err e => ret (Err e)
          | Ok _ =>
              if bool_decide (expected_name = identity_index)
              then
                try* xinfo := catalog_query "read identity index collation"
                                (fun c => Ok (index_xinfo c expected_name)) else (fun e => e) in
                ret (check_collations xinfo)
              else ret (Ok tt)
          end
      end
  end.

Definition check_foreign_key : M (Result unit SchemaError.t) :=
  try* rows := catalog_query "check delivery foreign key"
                 (fun c => Ok (foreign_key_list c "dovecote_deliveries")) else (fun e => e) in
  ret (check_foreign_key_rows rows).

Definition check_integrity : M (Result unit SchemaError.t) :=
  try* violations := catalog_query "check foreign-key integrity"
                       (fun c => Ok (foreign_key_violations c)) else (fun e => e) in
  ret (if negb (violations =? 0)%nat
       then Err (mismatch "installed schema contains foreign-key violations")
       else Ok tt).

Definition check_schema_connection : M (Result unit SchemaError.t) :=
  try* enabled := call foreign_keys_pragma else SchemaError.sql "check foreign-key enforcement" in
  if negb (enabled =? 1) then ret (Err (mismatch "foreign-key enforcement is disabled"))
  else
    match map_err mismatch
            (let? migration := current_migration tenant_baseline_sql in
             let? _ := migration_is_usable migration in Ok migration) with
    | Err e => ret (Err e)
    | Ok migration =>
        try* _ := check_schema_marker migration else (fun e => e) in
        try* _ := check_columns "dovecote_events" events_columns else (fun e => e) in
        try* _ := check_columns "dovecote_deliveries" deliveries_columns else (fun e => e) in
        try* _ := check_tables migration else (fun e => e) in
        try* _ := check_isolation else (fun e => e) in
        try* _ := check_index "dovecote_events" identity_index true
                    ["tenant_id"; "source"; "event_id"] (Migration.sql migration)
             else (fun e => e) in
        try* _ := check_index "dovecote_events" "dovecote_events_tenant_row" false
                    ["tenant_id"; "row_id"] (Migration.sql migration) else (fun e => e) in
        try* _ := check_index "dovecote_deliveries" "dovecote_deliveries_claimable" false
                    ["tenant_id"; "state"; "available_at"; "event_row_id"] (Migration.sql migration)
             else (fun e => e) in
        try* _ := check_index "dovecote_deliveries" "dovecote_deliveries_expired_claims" false
                    ["tenant_id"; "state"; "claim_expires_at"; "event_row_id"]
                    (Migration.sql migration) else (fun e => e) in
        try* _ := check_foreign_key else (fun e => e) in
        check_integrity
    end.

Definition check_schema : M (Result unit SchemaError.t) :=
  try* _ := call (fun _ => tt) else SchemaError.sql "acquire schema-check connection" in
  check_schema_connection.
End Check.

(** ** The statement scanner *)

(** The state of the scanner after a byte: parenthesis depth and whether inside
    a literal. *)
Definition lex_byte (st : Z * bool) (a : ascii) : Z * bool :=
  let '(depth, quoted) := st in
  if Ascii.eqb a "'" then (depth, negb quoted)
  else if Ascii.eqb a "(" && negb quoted then (saturating_add u32_max depth 1, quoted)
  else if Ascii.eqb a ")" && negb quoted then (Z.max 0 (depth - 1), quoted)
  else st.

Fixpoint lex (st : Z * bool) (s : string) : Z * bool :=
  match s with
  | EmptyString => st
  | String a s => lex (lex_byte st a) s
  end.

Section Scanner.

Lemma find_suffix_Some needle s t :
  find_suffix needle s = Some t -> exists before, s = before +:+ t /\ String.prefix needle t = true.
Proof.
  revert t. induction s as [|a s IH]; intros t; cbn [find_suffix].
  - destruct (String.prefix needle EmptyString) eqn:Ep; [|done]. intros [= <-]. by exists EmptyString.
  - destruct (String.prefix needle (String a s)) eqn:Ep.
    + intros [= <-]. exists EmptyString. by rewrite str_app_nil_l.
    + intros Hf. destruct (IH _ Hf) as (before & -> & Hp). exists (String a before).
      by rewrite str_app_cons.
Qed.

(** The scanner stops at the first semicolon outside literals and parentheses. *)
Lemma scan_statement_Some depth quoted s t :
  scan_statement depth quoted s = Some t ->
  exists rest, s = t +:+ String ";" rest /\ lex (depth, quoted) t = (0, false) /\
    forall p q, t = p +:+ String ";" q -> lex (depth, quoted) p <> (0, false).
Proof.
  revert depth quoted t. induction s as [|a s IH]; intros depth quoted t; cbn [scan_statement]; [done|].
  assert (Hstep : forall d q,
    lex_byte (depth, quoted) a = (d, q) ->
    (Ascii.eqb a ";" && negb quoted && (depth =? 0) = false) ->
    option_map (String a) (scan_statement d q s) = Some t ->
    exists rest, String a s = t +:+ String ";" rest /\ lex (depth, quoted) t = (0, false) /\
      forall p q', t = p +:+ String ";" q' -> lex (depth, quoted) p <> (0, false)).
  { intros d q Hl Hn Ho. destruct (scan_statement d q s) as [u|] eqn:Eu; [|done].
    injection Ho as <-. destruct (IH _ _ _ Eu) as (rest & -> & Hend & Hfirst).
    exists rest. rewrite str_app_cons. split; [done|]. cbn [lex]. rewrite Hl. split; [done|].
    intros [|b p] q' Hp.
    - rewrite str_app_nil_l in Hp. injection Hp as -> _. cbn [lex]. intros [= -> ->]. done.
    - rewrite str_app_cons in Hp. injection Hp as -> Hp. cbn [lex]. rewrite Hl. by apply (Hfirst _ q'). }
  destruct (Ascii.eqb a "'") eqn:E1.
  { intros Hs. eapply Hstep; [unfold lex_byte; by rewrite E1| |exact Hs].
    apply Ascii.eqb_eq in E1 as ->. done. }
  destruct (Ascii.eqb a "(" && negb quoted) eqn:E2.
  { intros Hs. eapply Hstep; [unfold lex_byte; by rewrite E1, E2| |exact Hs].
    apply andb_prop in E2 as [->%Ascii.eqb_eq _]. done. }
  destruct (Ascii.eqb a ")" && negb quoted) eqn:E3.
  { intros Hs. eapply Hstep; [unfold lex_byte; by rewrite E1, E2, E3| |exact Hs].
    apply andb_prop in E3 as [->%Ascii.eqb_eq _]. done. }
  destruct (Ascii.eqb a ";" && negb quoted && (depth =? 0)) eqn:E4.
  - intros [= <-]. bools. apply Ascii.eqb_eq in H as ->. subst. exists s.
    rewrite str_app_nil_l. cbn [lex]. split_and!; [done|by f_equal|]. intros [|] q Hp; discriminate Hp.
  - intros Hs. eapply Hstep; [unfold lex_byte; by rewrite E1, E2, E3|done|exact Hs].
Qed.

(** The definition of a table is cut out of the migration text whole: it is
    a contiguous part of the text that begins with CREATE TABLE and the name and
    is followed by a semicolon; its literals are closed and its parentheses
    balanced there, and no earlier semicolon ends the statement, so a semicolon
    inside a literal or a CHECK does not truncate it. *)
Theorem expected_table_source_whole migration table statement :
  expected_table_source migration table = Ok statement ->
  exists before after, migration = before +:+ statement +:+ String ";" after /\
    String.prefix ("CREATE TABLE " +:+ table) (statement +:+ String ";" after) = true /\
    lex (0, false) statement = (0, false) /\
    forall p q, statement = p +:+ String ";" q -> lex (0, false) p <> (0, false).
Proof.
  unfold expected_table_source. destruct (find_suffix _ migration) as [text|] eqn:Ef; [|done].
  destruct (scan_statement 0 false text) as [st|] eqn:Es; [|done]. intros [= <-].
  apply find_suffix_Some in Ef as (before & -> & Hp).
  apply scan_statement_Some in Es as (after & -> & Hend & Hfirst). by exists before, after.
Qed.
End Scanner.

(** ** Reading only *)

Section ReadOnly.
Context `{Env, CatalogEnv}.

(** A step that always returns and touches no table. *)
Definition reads {A} (m : M A) : Prop :=
  forall w, exists r w', m w = Some (r, w') /\ same_tables w w'.

Lemma reads_inv {A} (m : M A) w r w' : reads m -> m w = Some (r, w') -> same_tables w w'.
Proof. intros Hm Hr. destruct (Hm w) as (? & ? & Hr' & Hs). by simplify_eq. Qed.

Lemma reads_returns {A} (m : M A) : reads m -> returns m.
Proof. intros Hm w. destruct (Hm w) as (? & ? & -> & _). by eexists. Qed.

Lemma reads_ret {A} (a : A) : reads (ret a).
Proof. intros w. by exists a, w. Qed.

Lemma reads_bind {A B} (m : M A) (k : A -> M B) :
  reads m -> (forall a, reads (k a)) -> reads (bind m k).
Proof.
  intros Hm Hk w. destruct (Hm w) as (a & w1 & Hr & Hs). destruct (Hk a w1) as (b & w2 & Hr2 & Hs2).
  exists b, w2. split; [by rewrite (bind_run _ _ _ _ _ Hr)|by eapply same_tables_trans].
Qed.

Lemma reads_call {A} (f : nat -> A) : reads (call f).
Proof. intros w. eexists _, _. by split. Qed.
Lemma reads_query {A} (f : nat -> Db -> A) : reads (query f).
Proof. intros w. eexists _, _. by split. Qed.
End ReadOnly.

(** The check of an installed schema that it accepts. *)
Definition schema_passes `{Env, CatalogEnv} (sql : string) : Prop :=
  forall w, exists w', check_schema_connection sql w = Some (Ok tt, w') /\ same_tables w w'.

#[export] Hint Resolve reads_ret reads_bind reads_call reads_query : dovecote.

Ltac reads_step :=
  repeat first
    [ apply reads_ret | apply reads_call | apply reads_query | progress eauto with dovecote
    | apply reads_bind; [|intros ?]
    | match goal with |- reads (match ?x with _ => _ end) => destruct x end ].

Section CheckReads.
Context `{Env, CatalogEnv}.
Context (sql : string).

Lemma catalog_query_reads {A} op (f : Catalog -> Result A SqlxError.t) : reads (catalog_query op f).
Proof. unfold catalog_query. reads_step. Qed.

Lemma check_index_reads table name unique columns migration :
  reads (check_index table name unique columns migration).
Proof. unfold check_index. pose proof @catalog_query_reads. reads_step. Qed.

(** The check returns whatever the engine answers, and never writes. *)
Lemma check_schema_reads : reads (check_schema_connection sql).
Proof.
  pose proof @catalog_query_reads. pose proof check_index_reads.
  unfold check_schema_connection, check_schema_marker, check_columns, check_tables, check_isolation,
    check_foreign_key, check_integrity.
  reads_step.
Qed.
End CheckReads.

(** ** What the check accepts *)

Definition index_verdict `{CatalogEnv} (c : Catalog) (table name : string) (unique : bool)
    (columns : list string) (migration : string) : Result unit SchemaError.t :=
  let? _ := check_index_listed name unique (index_list c table) in
  let? source := map_err (SchemaError.sql "read schema index definition") (index_source c name) in
  let? _ := check_index_source name migration source in
  let? _ := check_index_columns name columns (index_info c name) in
  if bool_decide (name = identity_index) then check_collations (index_xinfo c name) else Ok tt.

Definition tables_verdict `{CatalogEnv} (c : Catalog) (migration : Migration.t) :
    Result unit SchemaError.t :=
  let? sources := map_err (SchemaError.sql "read schema definitions")
                    (decode_sources (table_sources c)) in
  let? _ := all_ok (check_table_present sources) schema_tables in
  all_ok (check_table_source migration sources) schema_tables.

Section Accepts.
Context `{Env, CatalogEnv}.
Context (sql : string) (c : Catalog).

Definition baseline : Migration.t :=
  Migration.Make 2 sql (MigrationCompatibility.new (CrateVersion.new 0 2 0) None) false.

(** A column of a table: the first of its name has the type, whatever the case
    of its letters, and the key and NOT NULL flags where they are required. *)
Definition column_ok (table : string) (spec : ColumnSpec.t) : Prop :=
  exists row kind,
    find (fun row => has_name (ColumnSpec.name spec) (TableInfo.name row)) (table_info c table) = Some row /\
    TableInfo.type row = Some kind /\ eq_ignore_ascii_case kind (ColumnSpec.kind spec) = true /\
    (ColumnSpec.primary_key spec = true -> or_zero (TableInfo.pk row) = 1) /\
    (ColumnSpec.not_null spec = true -> or_zero (TableInfo.notnull row) <> 0).

Definition index_ok (table name : string) (unique : bool) (columns : list string) : Prop :=
  (exists row, find (fun row => has_name name (IndexList.name row)) (index_list c table) = Some row /\
     negb (or_zero (IndexList.unique row) =? 0) = unique) /\
  (exists source expected, index_source c name = Ok (Some source) /\
     expected_index_source sql name = Ok expected /\ normalize_sql source = normalize_sql expected) /\
  omap id (index_info c name) = columns /\
  (name = identity_index -> key_collations (index_xinfo c name) = ["BINARY"; "BINARY"; "BINARY"]).

Definition table_ok (sources : list (string * string)) (name : string) : Prop :=
  exists source expected, find (fun source => bool_decide (fst source = name)) sources = Some source /\
    expected_table_source sql name = Ok expected /\
    normalize_sql (snd source) = normalize_sql expected.

Definition foreign_key_ok (rows : list ForeignKey.t) : Prop :=
  let matching := List.filter (fun row => has_name "dovecote_events" (ForeignKey.table row)) rows in
  let column o := match o with Some s => s | None => EmptyString end in
  let columns := map (fun row => (column (ForeignKey.from row), column (ForeignKey.to row))) matching in
  length matching = 2%nat /\ ("tenant_id", "tenant_id") ∈ columns /\ ("event_row_id", "row_id") ∈ columns.

Record schema_ok : Prop := {
  ok_marker : markers c = [SchemaMarker.Make 2 0 2 0 0];
  ok_events : Forall (column_ok "dovecote_events") events_columns;
  ok_deliveries : Forall (column_ok "dovecote_deliveries") deliveries_columns;
  ok_tables : exists sources, decode_sources (table_sources c) = Ok sources /\
    Forall (table_ok sources) schema_tables;
  ok_isolation : extra_objects c = [];
  ok_identity : index_ok "dovecote_events" identity_index true ["tenant_id"; "source"; "event_id"];
  ok_tenant_row : index_ok "dovecote_events" "dovecote_events_tenant_row" false ["tenant_id"; "row_id"];
  ok_claimable : index_ok "dovecote_deliveries" "dovecote_deliveries_claimable" false
    ["tenant_id"; "state"; "available_at"; "event_row_id"];
  ok_expired : index_ok "dovecote_deliveries" "dovecote_deliveries_expired_claims" false
    ["tenant_id"; "state"; "claim_expires_at"; "event_row_id"];
  ok_foreign_key : foreign_key_ok (foreign_key_list c "dovecote_deliveries");
  ok_integrity : foreign_key_violations c = 0%nat;
}.

Definition schema_verdict : Result unit SchemaError.t :=
  let? _ := check_marker_rows baseline (markers c) in
  let? _ := all_ok (check_column "dovecote_events" (table_info c "dovecote_events")) events_columns in
  let? _ := all_ok (check_column "dovecote_deliveries" (table_info c "dovecote_deliveries"))
              deliveries_columns in
  let? _ := tables_verdict c baseline in
  let? _ := match extra_objects c with
            | [] => Ok tt
            | o :: _ => Err (mismatch ("unsupported SQLite schema object "
                          +:+ SchemaObject.object_type o +:+ " " +:+ SchemaObject.name o +:+ " on "
                          +:+ SchemaObject.table_name o))
            end in
  let? _ := index_verdict c "dovecote_events" identity_index true
              ["tenant_id"; "source"; "event_id"] sql in
  let? _ := index_verdict c "dovecote_events" "dovecote_events_tenant_row" false
              ["tenant_id"; "row_id"] sql in
  let? _ := index_verdict c "dovecote_deliveries" "dovecote_deliveries_claimable" false
              ["tenant_id"; "state"; "available_at"; "event_row_id"] sql in
  let? _ := index_verdict c "dovecote_deliveries" "dovecote_deliveries_expired_claims" false
              ["tenant_id"; "state"; "claim_expires_at"; "event_row_id"] sql in
  let? _ := check_foreign_key_rows (foreign_key_list c "dovecote_deliveries") in
  if negb (foreign_key_violations c =? 0)%nat
  then Err (mismatch "installed schema contains foreign-key violations") else Ok tt.

Lemma check_column_Ok table spec :
  check_column table (table_info c table) spec = Ok tt <-> column_ok table spec.
Proof.
  unfold check_column, column_ok. cbv zeta. destruct (find _ _) as [row|]; [|naive_solver].
  destruct (TableInfo.type row) as [kind|] eqn:Ek; [|naive_solver].
  destruct (eq_ignore_ascii_case kind _) eqn:Ei; cbn [negb].
  2: { split; [done|]. intros (? & ? & [= <-] & Hk & Hi & _). simplify_eq. congruence. }
  assert (Hiff :
    (exists row' kind', Some row = Some row' /\ TableInfo.type row' = Some kind' /\
       eq_ignore_ascii_case kind' (ColumnSpec.kind spec) = true /\
       (ColumnSpec.primary_key spec = true -> or_zero (TableInfo.pk row') = 1) /\
       (ColumnSpec.not_null spec = true -> or_zero (TableInfo.notnull row') <> 0)) <->
    (ColumnSpec.primary_key spec = true -> or_zero (TableInfo.pk row) = 1) /\
    (ColumnSpec.not_null spec = true -> or_zero (TableInfo.notnull row) <> 0)).
  { split; [intros (? & ? & [= <-] & _ & _ & ?); done|intros ?; by exists row, kind]. }
  rewrite Hiff.
  destruct (ColumnSpec.primary_key spec), (ColumnSpec.not_null spec); simpl;
    destruct (Z.eqb_spec (or_zero (TableInfo.pk row)) 1),
      (Z.eqb_spec (or_zero (TableInfo.notnull row)) 0); simpl; naive_solver.
Qed.

Lemma check_index_Ok table name unique columns :
  index_verdict c table name unique columns sql = Ok tt <-> index_ok table name unique columns.
Proof.
  unfold index_verdict, index_ok. rewrite bind_Ok.
  assert (H1 : check_index_listed name unique (index_list c table) = Ok tt <->
    exists row, find (fun row => has_name name (IndexList.name row)) (index_list c table) = Some row /\
      negb (or_zero (IndexList.unique row) =? 0) = unique).
  { unfold check_index_listed. destruct (find _ _) as [row|]; [|naive_solver].
    destruct (Bool.eqb _ unique) eqn:Eb; simpl; [apply eqb_prop in Eb|apply eqb_false_iff in Eb];
      naive_solver. }
  rewrite H1. apply and_iff_compat_l.
  destruct (index_source c name) as [source|e]; simpl; [|naive_solver].
  rewrite !bind_Ok.
  assert (H2 : check_index_source name sql source = Ok tt <->
    exists source' expected, (Ok source : Result _ SqlxError.t) = Ok (Some source') /\
      expected_index_source sql name = Ok expected /\ normalize_sql source' = normalize_sql expected).
  { unfold check_index_source. destruct source as [source|]; [|naive_solver].
    destruct (expected_index_source sql name) as [expected|]; simpl; [|naive_solver].
    case_bool_decide; simpl; naive_solver. }
  rewrite H2. unfold check_index_columns, check_collations.
  apply and_iff_compat_l. repeat case_bool_decide; simpl; naive_solver.
Qed.

Lemma check_tables_Ok :
  tables_verdict c baseline = Ok tt <->
  exists sources, decode_sources (table_sources c) = Ok sources /\
    Forall (table_ok sources) schema_tables.
Proof.
  unfold tables_verdict. destruct (decode_sources _) as [sources|]; simpl; [|naive_solver].
  pose proof (bind_Ok (all_ok (check_table_present sources) schema_tables)
                (all_ok (check_table_source baseline sources) schema_tables)) as Hb.
  rewrite !all_ok_Ok, <- Forall_and in Hb. simpl in Hb.
  rewrite Hb. clear Hb. split.
  - intros Hf. exists sources. split; [done|]. eapply Forall_impl; [exact Hf|]. intros name [Hp Hs].
    unfold check_table_present, check_table_source, table_ok in *.
    destruct (find _ sources) as [source|] eqn:Ef; simpl in *.
    + destruct (expected_table_source sql name) as [expected|]; simpl in Hs; [|done].
      case_bool_decide; simpl in Hs; [|done]. by exists source, expected.
    + destruct (existsb _ sources) eqn:Ex; [|done]. apply existsb_exists in Ex as (x & Hx & Hn).
      by rewrite (List.find_none _ _ Ef x Hx) in Hn.
  - intros (? & [= <-] & Hf). eapply Forall_impl; [exact Hf|].
    intros name (source & expected & Hfind & He & Hn).
    unfold check_table_present, check_table_source. rewrite Hfind. split.
    + apply List.find_some in Hfind. replace (existsb _ sources) with true; [done|].
      symmetry. apply existsb_exists. by exists source.
    + simpl. rewrite He. simpl. by rewrite bool_decide_true.
Qed.

Lemma check_foreign_key_Ok rows : check_foreign_key_rows rows = Ok tt <-> foreign_key_ok rows.
Proof.
  unfold check_foreign_key_rows, foreign_key_ok. cbv zeta.
  set (matching := List.filter _ rows). destruct (Nat.eqb_spec (length matching) 2); simpl;
    [|naive_solver].
  repeat case_bool_decide; simpl; naive_solver.
Qed.

Lemma check_marker_Ok rows :
  check_marker_rows baseline rows = Ok tt <-> rows = [SchemaMarker.Make 2 0 2 0 0].
Proof.
  unfold check_marker_rows, baseline. destruct rows as [|[v ma mi pa ro] [|]]; try naive_solver.
  cbn -[Z.eqb]. repeat match goal with |- context [?x =? ?y] => destruct (Z.eqb_spec x y) end;
    simpl; split; try done; try naive_solver; intros _; congruence.
Qed.

Lemma schema_verdict_Ok : schema_verdict = Ok tt <-> schema_ok.
Proof.
  unfold schema_verdict.
  rewrite !bind_Ok, check_marker_Ok, !all_ok_Ok, check_tables_Ok, !check_index_Ok, check_foreign_key_Ok.
  setoid_rewrite check_column_Ok.
  assert (H1 : (match extra_objects c with
                | [] => Ok tt
                | o :: _ => Err (mismatch ("unsupported SQLite schema object "
                              +:+ SchemaObject.object_type o +:+ " " +:+ SchemaObject.name o
                              +:+ " on " +:+ SchemaObject.table_name o))
                end = Ok tt) <-> extra_objects c = []) by (destruct (extra_objects c); naive_solver).
  rewrite H1.
  assert (H2 : (if negb (foreign_key_violations c =? 0)%nat
                then Err (mismatch "installed schema contains foreign-key violations") else Ok tt)
               = Ok tt <-> foreign_key_violations c = 0%nat)
    by (destruct (Nat.eqb_spec (foreign_key_violations c) 0); naive_solver).
  rewrite H2. split; [intros (?&?&?&?&?&?&?&?&?&?&?); by constructor|intros []; by split_and!].
Qed.
End Accepts.

Section Verdict.
Context `{Env, CatalogEnv}.
Context (sql : string) (c : Catalog).
Context (Hok : forall n, sql_fault n = None) (Hcat : forall n db, catalog n db = c).

(** A step that answers [v] and touches no table. *)
Definition yields {A} (m : M A) (v : A) : Prop :=
  forall w, exists w', m w = Some (v, w') /\ same_tables w w'.

Lemma yields_ret {A} (a : A) : yields (ret a) a.
Proof. intros w. by exists w. Qed.

Lemma yields_bind {A B} (m : M A) (k : A -> M B) a b : yields m a -> yields (k a) b -> yields (bind m k) b.
Proof.
  intros Hm Hk w. destruct (Hm w) as (w1 & Hr & Hs). destruct (Hk w1) as (w2 & Hr2 & Hs2).
  exists w2. split; [by rewrite (bind_run _ _ _ _ _ Hr)|by eapply same_tables_trans].
Qed.

(** [m?] followed by [k]: the verdict of [m] decides. *)
Lemma yields_try {A B E} (m : M (Result A E)) (k : A -> M (Result B E)) v (r : A -> Result B E) :
  yields m v -> (forall a, v = Ok a -> yields (k a) (r a)) ->
  yields (try* a := m else (fun e => e) in k a) (let? a := v in r a).
Proof. intros Hm Hk. eapply yields_bind; [exact Hm|]. destruct v; [by apply Hk|apply yields_ret]. Qed.

Lemma catalog_query_yields {A} op (f : Catalog -> Result A SqlxError.t) :
  yields (catalog_query op f) (map_err (SchemaError.sql op) (f c)).
Proof.
  unfold catalog_query. apply (yields_bind _ _ (Ok (f c))); [|by apply yields_ret].
  intros w. rewrite query_run by done. rewrite Hcat. by eexists.
Qed.

Lemma rows_query_yields {A} op (f : Catalog -> A) :
  yields (catalog_query op (fun c => Ok (f c))) (Ok (f c)).
Proof. apply (catalog_query_yields op (fun c => Ok (f c))). Qed.

Lemma check_index_yields table name unique columns migration :
  yields (check_index table name unique columns migration)
    (index_verdict c table name unique columns migration).
Proof.
  unfold check_index, index_verdict.
  eapply (yields_try _ _ (Ok (index_list c table)) (fun _ => _)); [apply (rows_query_yields _ (fun c => _ c _))|].
  intros _ [= <-]. destruct (check_index_listed _ _ _) as [[]|]; [|apply yields_ret].
  eapply yields_try; [apply catalog_query_yields|]. intros source _.
  destruct (check_index_source _ _ _) as [[]|]; [|apply yields_ret].
  eapply (yields_try _ _ (Ok (index_info c name)) (fun _ => _)); [apply (rows_query_yields _ (fun c => _ c _))|].
  intros _ [= <-]. destruct (check_index_columns _ _ _) as [[]|]; [|apply yields_ret].
  case_bool_decide; [|apply yields_ret].
  eapply (yields_try _ _ (Ok (index_xinfo c name)) (fun _ => _)); [apply (rows_query_yields _ (fun c => _ c _))|].
  intros _ [= <-]. apply yields_ret.
Qed.

(** One catalog query whose rows always decode, then a check of the rows. *)
Lemma checked_query_yields {A} op (f : Catalog -> A) (check : A -> Result unit SchemaError.t) :
  yields (try* rows := catalog_query op (fun c => Ok (f c)) else (fun e => e) in ret (check rows))
    (check (f c)).
Proof.
  eapply (yields_try _ _ (Ok (f c)) (fun _ => _)); [apply rows_query_yields|].
  intros _ [= <-]. apply yields_ret.
Qed.

Lemma check_tables_yields migration : yields (check_tables migration) (tables_verdict c migration).
Proof.
  unfold check_tables, tables_verdict. eapply yields_try; [apply catalog_query_yields|].
  intros sources _. apply yields_ret.
Qed.

Lemma check_schema_yields :
  (forall n, foreign_keys_pragma n = 1) -> yields (check_schema_connection sql) (schema_verdict sql c).
Proof.
  intros Hfk. unfold check_schema_connection.
  eapply yields_bind; [intros w; rewrite call_run by done; rewrite Hfk; by eexists|].
  cbn [Z.eqb Pos.eqb negb]. unfold current_migration, MIGRATIONS. cbn [find].
  change (Migration.version _ =? SCHEMA_VERSION) with true. cbn [ok_or map_err].
  change (migration_is_usable _) with (Ok tt : Result unit string). cbn [map_err].
  unfold schema_verdict.
  repeat (eapply yields_try;
    [first [apply checked_query_yields | apply check_tables_yields | apply check_index_yields]|];
    intros [] _).
  apply (checked_query_yields _ _ (fun violations => if negb (violations =? 0)%nat then _ else _)).
Qed.

End Verdict.
