(* ===== verification/Baseline.v ===== *)
(** * The shipped SQLite migration (migrations/0002_dovecote_tenant_baseline.sql)

    The text of the migration as the crate embeds it, the catalog SQLite reports
    for a fresh installation of it, and that the schema check accepts it. *)

From S2P Require Import Prelude Step Utf8 Errors External SqliteError Tables Queries Sqlite Migration Schema.

Definition tenant_baseline_sql : string :=
"-- Schema version 2: clean tenant-aware SQLite installation.
-- Version 1 remains immutable; existing files use explicit backfill and
-- activation rather than receiving a guessed tenant.

PRAGMA foreign_keys = ON;

CREATE TABLE dovecote_schema (
    schema_version INTEGER PRIMARY KEY CHECK (schema_version = 2),
    minimum_crate_major INTEGER NOT NULL CHECK (minimum_crate_major >= 0),
    minimum_crate_minor INTEGER NOT NULL CHECK (minimum_crate_minor >= 0),
    minimum_crate_patch INTEGER NOT NULL CHECK (minimum_crate_patch >= 0),
    rolling_compatible INTEGER NOT NULL
);
INSERT INTO dovecote_schema VALUES (2, 0, 2, 0, 0);

CREATE TABLE dovecote_events (
    row_id INTEGER PRIMARY KEY AUTOINCREMENT CHECK (row_id > 0),
    tenant_id TEXT NOT NULL CHECK (length(CAST(tenant_id AS BLOB)) > 0 AND length(CAST(tenant_id AS BLOB)) <= 255),
    stream TEXT NOT NULL CHECK (length(CAST(stream AS BLOB)) <= 255),
    specversion TEXT NOT NULL CHECK (specversion = '1.0'),
    event_id TEXT NOT NULL CHECK (length(CAST(event_id AS BLOB)) <= 1024),
    source TEXT NOT NULL CHECK (length(CAST(source AS BLOB)) <= 2048),
    event_type TEXT NOT NULL CHECK (length(CAST(event_type AS BLOB)) <= 1024),
    subject TEXT CHECK (subject IS NULL OR length(CAST(subject AS BLOB)) <= 2048),
    occurred_at TEXT,
    datacontenttype TEXT CHECK (datacontenttype IS NULL OR length(CAST(datacontenttype AS BLOB)) <= 255),
    dataschema TEXT CHECK (dataschema IS NULL OR length(CAST(dataschema AS BLOB)) <= 2048),
    partitionkey TEXT CHECK (partitionkey IS NULL OR length(CAST(partitionkey AS BLOB)) <= 255),
    extensions TEXT NOT NULL DEFAULT '{}',
    data_kind TEXT CHECK (data_kind IS NULL OR data_kind IN ('json', 'binary')),
    data BLOB, enqueued_at TEXT NOT NULL DEFAULT (strftime('%Y-%m-%dT%H:%M:%f000Z', 'now')),
    CHECK ((data_kind IS NULL) = (data IS NULL)),
    CHECK (length(CAST(stream AS BLOB)) <= 255),
    CHECK (length(CAST(event_id AS BLOB)) <= 1024),
    CHECK (length(CAST(source AS BLOB)) <= 2048),
    CHECK (length(CAST(event_type AS BLOB)) <= 1024),
    CHECK (length(CAST(source AS BLOB)) + length(CAST(event_id AS BLOB)) <= 2048),
    CHECK (data IS NULL OR length(data) = 0 OR datacontenttype IS NOT NULL),
    UNIQUE (tenant_id, row_id)
);
CREATE UNIQUE INDEX dovecote_events_tenant_source_event_id ON dovecote_events (tenant_id COLLATE BINARY, source COLLATE BINARY, event_id COLLATE BINARY);
CREATE INDEX dovecote_events_tenant_row ON dovecote_events (tenant_id COLLATE BINARY, row_id);

CREATE TABLE dovecote_deliveries (
    event_row_id INTEGER PRIMARY KEY,
    tenant_id TEXT NOT NULL CHECK (length(CAST(tenant_id AS BLOB)) > 0 AND length(CAST(tenant_id AS BLOB)) <= 255),
    state TEXT NOT NULL CHECK (state IN ('pending', 'claimed', 'delivered', 'quarantined')),
    available_at TEXT NOT NULL DEFAULT (strftime('%Y-%m-%dT%H:%M:%f000Z', 'now')),
    attempts INTEGER NOT NULL DEFAULT 0 CHECK (attempts >= 0),
    claim_token BLOB CHECK (claim_token IS NULL OR length(claim_token) = 16),
    claimed_by TEXT, claim_expires_at TEXT, last_failure_code TEXT,
    last_failure_detail TEXT, delivered_at TEXT, quarantined_at TEXT, quarantine_reason TEXT,
    CHECK (claimed_by IS NULL OR length(CAST(claimed_by AS BLOB)) <= 255),
    CHECK (last_failure_code IS NULL OR length(CAST(last_failure_code AS BLOB)) <= 128),
    CHECK (last_failure_detail IS NULL OR length(CAST(last_failure_detail AS BLOB)) <= 2048),
    CHECK (quarantine_reason IS NULL OR length(CAST(quarantine_reason AS BLOB)) <= 2048),
    CHECK ((last_failure_code IS NULL) = (last_failure_detail IS NULL)),
    CHECK ((state = 'pending' AND claim_token IS NULL AND claimed_by IS NULL AND claim_expires_at IS NULL AND delivered_at IS NULL AND quarantined_at IS NULL AND quarantine_reason IS NULL)
      OR (state = 'claimed' AND claim_token IS NOT NULL AND claimed_by IS NOT NULL AND claim_expires_at IS NOT NULL AND delivered_at IS NULL AND quarantined_at IS NULL AND quarantine_reason IS NULL)
      OR (state = 'delivered' AND claim_token IS NULL AND claimed_by IS NULL AND claim_expires_at IS NULL AND delivered_at IS NOT NULL AND quarantined_at IS NULL AND quarantine_reason IS NULL)
      OR (state = 'quarantined' AND claim_token IS NULL AND claimed_by IS NULL AND claim_expires_at IS NULL AND delivered_at IS NULL AND quarantined_at IS NOT NULL AND quarantine_reason IS NOT NULL)),
    FOREIGN KEY (tenant_id, event_row_id) REFERENCES dovecote_events (tenant_id, row_id) ON DELETE RESTRICT
);
CREATE INDEX dovecote_deliveries_claimable ON dovecote_deliveries (tenant_id, state, available_at, event_row_id);
CREATE INDEX dovecote_deliveries_expired_claims ON dovecote_deliveries (tenant_id, state, claim_expires_at, event_row_id);
".

(** ** A fresh installation *)

(** the definition [sqlite_master] keeps: the statement without its semicolon *)
Definition statement_of (source : Result string string) : option string :=
  match source with Ok s => Some s | Err _ => None end.

Definition installed_table (name : string) : SchemaObject.t :=
  SchemaObject.Make "table" name (Some name)
    (statement_of (expected_table_source tenant_baseline_sql name)).
Definition installed_index (name table : string) : SchemaObject.t :=
  SchemaObject.Make "index" name (Some table)
    (statement_of (expected_index_source tenant_baseline_sql name)).

Definition installed_column (spec : ColumnSpec.t) : TableInfo.t :=
  TableInfo.Make (Some (ColumnSpec.name spec)) (Some (ColumnSpec.kind spec))
    (Some (if ColumnSpec.primary_key spec then 1 else 0))
    (Some (if ColumnSpec.not_null spec then 1 else 0)).

(** the index columns, and the collation of each with the row id after them *)
Definition index_columns (name : string) : list string :=
  if bool_decide (name = identity_index) then ["tenant_id"; "source"; "event_id"]
  else if bool_decide (name = "dovecote_events_tenant_row") then ["tenant_id"; "row_id"]
  else if bool_decide (name = "dovecote_deliveries_claimable")
  then ["tenant_id"; "state"; "available_at"; "event_row_id"]
  else ["tenant_id"; "state"; "claim_expires_at"; "event_row_id"].

(** What the PRAGMAs and [sqlite_master] report after the migration ran. *)
Definition fresh_catalog : Catalog := {|
  markers := [SchemaMarker.Make 2 0 2 0 0];
  table_info table :=
    map installed_column
      (if bool_decide (table = "dovecote_events") then events_columns else deliveries_columns);
  master :=
    [installed_table "dovecote_schema"; installed_table "dovecote_events";
     SchemaObject.Make "table" "sqlite_sequence" (Some "sqlite_sequence")
       (Some "CREATE TABLE sqlite_sequence(name,seq)");
     SchemaObject.Make "index" "sqlite_autoindex_dovecote_events_1" (Some "dovecote_events") None;
     installed_index "dovecote_events_tenant_source_event_id" "dovecote_events";
     installed_index "dovecote_events_tenant_row" "dovecote_events";
     installed_table "dovecote_deliveries";
     installed_index "dovecote_deliveries_claimable" "dovecote_deliveries";
     installed_index "dovecote_deliveries_expired_claims" "dovecote_deliveries"];
  temp_master := [];
  index_list table :=
    if bool_decide (table = "dovecote_events")
    then [IndexList.Make (Some "dovecote_events_tenant_row") (Some 0);
          IndexList.Make (Some "dovecote_events_tenant_source_event_id") (Some 1);
          IndexList.Make (Some "sqlite_autoindex_dovecote_events_1") (Some 1)]
    else [IndexList.Make (Some "dovecote_deliveries_expired_claims") (Some 0);
          IndexList.Make (Some "dovecote_deliveries_claimable") (Some 0)];
  index_info name := map Some (index_columns name);
  index_xinfo name :=
    map (fun _ => IndexXinfo.Make (Some 1) (Some "BINARY")) (index_columns name)
    ++ [IndexXinfo.Make (Some 0) (Some "BINARY")];
  foreign_key_list _ :=
    [ForeignKey.Make (Some "dovecote_events") (Some "tenant_id") (Some "tenant_id");
     ForeignKey.Make (Some "dovecote_events") (Some "event_row_id") (Some "row_id")];
  foreign_key_violations := 0;
|}.

Section Fresh.
Context `{Env}.

(** A connection to a fresh installation. *)
#[local] Instance fresh_env : CatalogEnv := {|
  catalog _ _ := fresh_catalog;
  unicode_lowercase c := [c];
|}.

Lemma fresh_accepted : schema_verdict tenant_baseline_sql fresh_catalog = Ok tt.
Proof. vm_compute. reflexivity. Qed.

Lemma fresh_passes :
  (forall n, sql_fault n = None) -> (forall n, foreign_keys_pragma n = 1) ->
  schema_passes tenant_baseline_sql.
Proof.
  intros Hok Hfk w.
  destruct (@check_schema_yields _ fresh_env tenant_baseline_sql fresh_catalog Hok
    (fun _ _ => eq_refl) Hfk w)
    as (w' & Hr & Hs). exists w'. by rewrite fresh_accepted in Hr.
Qed.
End Fresh.
