(* ===== verification/Hydrate.v ===== *)
(** * Row hydration (crates/dovecote-sqlx-sqlite/src/hydrate.rs)

    Durable text columns back into the core's values, through the core's own
    checked constructors.  [format_timestamp] and [parse_timestamp] are those of
    enqueue.rs. *)

From S2P Require Import Prelude Utf8 External BTree Errors Limits Validation Bounds Values Extension Serialization Event State Tables Queries RowHydration.

Section Timestamps.
Context `{TimeLib}.

(** [expect]: the [None] branch is unreachable for validated instants *)
Definition adapter_format_timestamp (value : OffsetDateTime) : string :=
  match rfc3339_format (to_utc value) with Some s => s | None => EmptyString end.

Definition parse_timestamp (value : string) : Result OffsetDateTime string :=
  map_err (fun error => "invalid stored timestamp: " +:+ error)
    (map_ok to_utc (rfc3339_parse value)).
End Timestamps.

Section Hydrate.
Context `{TimeLib, SerdeJson, Base64, MimeLib, FluentUri, RustDebug}.

Definition hydrate_event (row : EventRow.t) : Result StoredEvent.t string :=
  hydrate_event_with parse_timestamp row.

(** The match on [state.as_str()]. *)
Definition hydrate_delivery (row : DurableRow.t) (state : string)
    (available_at : OffsetDateTime) (attempts : AttemptCount.t) (failure : option Failure.t) :
    Result DeliverySnapshot.t string :=
  if bool_decide (state = "pending") then
    let? _ := require_absent "pending claim token" (DurableRow.claim_token row) in
    let? _ := require_absent "pending claimed worker" (DurableRow.claimed_by row) in
    let? _ := require_absent "pending claim expiry" (DurableRow.claim_expires_at row) in
    let? _ := require_absent "pending delivered time" (DurableRow.delivered_at row) in
    let? _ := require_absent "pending quarantine time" (DurableRow.quarantined_at row) in
    let? _ := require_absent "pending quarantine reason" (DurableRow.quarantine_reason row) in
    text (DeliverySnapshot.pending available_at attempts failure)
  else if bool_decide (state = "claimed") then
    let? _ := require_token_width (DurableRow.claim_token row) in
    let? worker := ok_or (DurableRow.claimed_by row) "claimed delivery has no worker" in
    let? worker := text (WorkerId.new worker) in
    let? expires_at := ok_or (DurableRow.claim_expires_at row)
                         "claimed delivery has no claim expiry" in
    let? expires_at := parse_timestamp expires_at in
    let? _ := require_absent "claimed delivered time" (DurableRow.delivered_at row) in
    let? _ := require_absent "claimed quarantine time" (DurableRow.quarantined_at row) in
    let? _ := require_absent "claimed quarantine reason" (DurableRow.quarantine_reason row) in
    text (DeliverySnapshot.claimed available_at worker expires_at attempts failure)
  else if bool_decide (state = "delivered") then
    let? _ := require_absent "delivered claim token" (DurableRow.claim_token row) in
    let? _ := require_absent "delivered claimed worker" (DurableRow.claimed_by row) in
    let? _ := require_absent "delivered claim expiry" (DurableRow.claim_expires_at row) in
    let? delivered_at := ok_or (DurableRow.delivered_at row)
                           "delivered delivery has no delivered time" in
    let? delivered_at := parse_timestamp delivered_at in
    let? _ := require_absent "delivered quarantine time" (DurableRow.quarantined_at row) in
    let? _ := require_absent "delivered quarantine reason" (DurableRow.quarantine_reason row) in
    text (DeliverySnapshot.delivered available_at delivered_at attempts failure)
  else if bool_decide (state = "quarantined") then
    let? _ := require_absent "quarantined claim token" (DurableRow.claim_token row) in
    let? _ := require_absent "quarantined claimed worker" (DurableRow.claimed_by row) in
    let? _ := require_absent "quarantined claim expiry" (DurableRow.claim_expires_at row) in
    let? _ := require_absent "quarantined delivered time" (DurableRow.delivered_at row) in
    let? quarantined_at := ok_or (DurableRow.quarantined_at row)
                             "quarantined delivery has no quarantine time" in
    let? quarantined_at := parse_timestamp quarantined_at in
    let? _ := require_absent "quarantined delivered time" (DurableRow.delivered_at row) in
    let? reason := ok_or (DurableRow.quarantine_reason row)
                     "quarantined delivery has no quarantine reason" in
    let? reason := text (QuarantineReason.new reason) in
    text (DeliverySnapshot.quarantined available_at quarantined_at attempts failure reason)
  else Err ("unknown delivery state " +:+ debug_str state).

Definition hydrate_page (row : DurableRow.t) : Result PagedEvent.t string :=
  let? tenant_id := text (TenantId.new (DurableRow.tenant_id row)) in
  let? row_id := text (RowId.new (DurableRow.row_id row)) in
  let? event := hydrate_event (event_row row) in
  let? state := ok_or (DurableRow.state row) "event has no required delivery row" in
  let? available_at := ok_or (DurableRow.available_at row) "delivery row has no available_at" in
  let? attempts := ok_or (DurableRow.attempts row) "delivery row has no attempts" in
  let? attempts := text (AttemptCount.new attempts) in
  let? failure := parse_failure (DurableRow.last_failure_code row)
                    (DurableRow.last_failure_detail row) in
  let? available_at := parse_timestamp available_at in
  let? delivery := hydrate_delivery row state available_at attempts failure in
  let? enqueued_at := parse_timestamp (DurableRow.enqueued_at row) in
  text (PagedEvent.new tenant_id row_id event enqueued_at delivery).
End Hydrate.

(** ** Writing and hydrating an event *)

Section Columns.
Context `{TimeLib, SerdeJson, Base64}.

(** The event columns that enqueue and import bind. *)
Definition event_columns (c : EventContent.t) : EventRow.t :=
  event_columns_with adapter_format_timestamp c.

End Columns.

Section RoundTrip.
Context `{TimeLib, SerdeJson, Base64, MimeLib, FluentUri, RustDebug}.
Context {TL : TimeLaws} {TT : TimeTextLaws} {NL : JsonNumberLaws}
  {SL : SerdeJsonLaws} {BL : Base64Laws}.

Lemma adapter_timestamp_roundtrip t :
  portable_instant t -> parse_timestamp (adapter_format_timestamp t) = Ok (to_utc t).
Proof.
  intros [Hr _]. unfold parse_timestamp, adapter_format_timestamp.
  pose proof (to_utc_nanos t) as Hn. pose proof (to_utc_offset t) as Ho.
  assert (Hr' : 0 <= unix_nanos (to_utc t) <= year_9999_end_nanos) by by rewrite Hn.
  assert (Hs : 0 <= unix_nanos (to_utc t) / 1000000000 <= max_second)
    by (unfold max_second, year_9999_end_nanos in *; euclid).
  destruct (format_utc (to_utc t) Ho Hr') as [[-> Hz]|(d & -> & Hd & Hf)].
  - destruct (parse_whole _ Hs) as (u & -> & Hu & Hun). simpl. f_equal.
    rewrite to_utc_id by done. apply utc_unique; [congruence|]. rewrite Hun. euclid.
  - destruct (parse_fraction _ d Hs Hd) as (u & -> & Hu & Hun). simpl. f_equal.
    rewrite to_utc_id by done. apply utc_unique; [congruence|]. rewrite Hun, Hf. euclid.
Qed.

(** The columns of an accepted event hydrate. *)
Lemma hydrate_written_columns c limit :
  content_wf c -> validate_content c limit = Ok tt ->
  EventSizeLimit.get limit <= usize_max ->
  hydrate_event (event_columns c) = Ok (StoredEvent.Make _ c).
Proof.
  apply hydrate_with_columns. intros t Hp Hu. rewrite adapter_timestamp_roundtrip by done.
  by rewrite to_utc_id.
Qed.

End RoundTrip.
