(* ===== verification/Canonical.v ===== *)
(** * Canonical delivery rows (crates/dovecote-sqlx-sqlite/src/delivery_state.rs)

    The delivery columns the migration workflows compare, and the shapes import
    writes and finalization accepts. *)

From S2P Require Import Prelude Step Utf8 External BTree Errors Limits Validation Bounds Values Extension Serialization Event State Tables Queries Sqlite RowHydration Hydrate.

Definition canonical (row : DeliveryRow.t) (enqueued_at : string) : bool :=
  (DeliveryRow.attempts row =? 0)
  && is_none (DeliveryRow.claim_token row)
  && is_none (DeliveryRow.claimed_by row)
  && is_none (DeliveryRow.claim_expires_at row)
  && is_none (DeliveryRow.last_failure_code row)
  && is_none (DeliveryRow.last_failure_detail row)
  && is_none (DeliveryRow.quarantined_at row)
  && is_none (DeliveryRow.quarantine_reason row)
  && bool_decide (DeliveryRow.available_at row = enqueued_at).

Definition canonical_pending (row : DeliveryRow.t) (enqueued_at : string) : bool :=
  canonical row enqueued_at && bool_decide (DeliveryRow.state row = "pending")
  && is_none (DeliveryRow.delivered_at row).

(** The wildcard arm of the match is for states the enum does not have. *)
Definition matches_import `{TimeLib} (row : DeliveryRow.t) (state : ImportedDeliveryState.t)
    (enqueued_at : string) : Result bool string :=
  let canonical := canonical row enqueued_at in
  match state with
  | ImportedDeliveryState.Pending =>
      Ok (canonical && bool_decide (DeliveryRow.state row = "pending")
          && is_none (DeliveryRow.delivered_at row))
  | ImportedDeliveryState.Delivered delivered_at =>
      let delivered_at := adapter_format_timestamp delivered_at in
      Ok (canonical && bool_decide (DeliveryRow.state row = "delivered")
          && bool_decide (DeliveryRow.delivered_at row = Some delivered_at))
  end.

(** ** The rows of the canonical shapes *)

(** the state column and delivery time of an imported state *)
Definition imported_columns `{TimeLib} (state : ImportedDeliveryState.t) : string * option string :=
  match state with
  | ImportedDeliveryState.Pending => ("pending", None)
  | ImportedDeliveryState.Delivered delivered_at =>
      ("delivered", Some (adapter_format_timestamp delivered_at))
  end.

Section Shapes.

(** The canonical shape fixes every column but the key, the tenant, the state
    and the delivery time. *)
Lemma canonical_row d enqueued_at :
  canonical (DeliveryRow.of_row d) enqueued_at = true <->
  d = untouched_row (Deliveries.tenant_id d) (Deliveries.event_row_id d) (Deliveries.state d)
        enqueued_at (Deliveries.delivered_at d).
Proof.
  unfold canonical, DeliveryRow.of_row, untouched_row. cbn.
  rewrite !andb_true_iff, !is_none_true, Z.eqb_eq, bool_decide_eq_true.
  destruct d. cbn. split; [intros H; by destruct_and!; subst|intros [=]; by subst].
Qed.

Lemma matches_import_row `{TimeLib} d state enqueued_at :
  matches_import (DeliveryRow.of_row d) state enqueued_at = Ok true <->
  d = untouched_row (Deliveries.tenant_id d) (Deliveries.event_row_id d)
        (imported_columns state).1 enqueued_at (imported_columns state).2.
Proof.
  unfold matches_import. cbv zeta. pose proof (canonical_row d enqueued_at) as Hc.
  destruct state as [|t]; cbn [imported_columns fst snd]; cbn.
  all: rewrite (inj_iff Ok), !andb_true_iff, Hc, bool_decide_eq_true.
  - rewrite is_none_true. destruct d; cbn. split; [intros H'; destruct_and!; by simplify_eq|by intros [=]; simplify_eq].
  - rewrite bool_decide_eq_true. destruct d; cbn.
    split; [intros H'; destruct_and!; by simplify_eq|by intros [=]; simplify_eq].
Qed.
End Shapes.
