(* ===== verification/Enqueue.v ===== *)
(** * Enqueue (crates/dovecote-sqlx-sqlite/src/enqueue.rs)

    Insertion of an event and its delivery in the caller's transaction, with
    idempotency on the identity of tenant, source and event id. *)

From S2P Require Import Prelude Step Utf8 BTree Errors Limits Validation Bounds Values Extension Serialization Event State External SqliteError Tables Queries Sqlite Migration RowHydration Hydrate Canonical.

(** ** The SQL statements *)

(** [INSERT INTO dovecote_events ... ON CONFLICT(tenant_id, source, event_id) DO
    NOTHING RETURNING row_id, enqueued_at] *)
Definition insert_event_sql `{Env} (tenant : string) (columns : EventRow.t)
    (enqueued_at : nat -> string) (n : nat) (db : Db) :
    Result (option (Z * string) * Db) SqlxError.t :=
  let r := new_event_row (new_row_id n db) tenant columns (enqueued_at n) in
  if negb (Events.check r) then Err check_failed
  else if existsb (Events.has_identity tenant (EventRow.source columns)
                     (EventRow.event_id columns)) (events db)
  then Ok (None, db)
  else Ok (Some (Events.row_id r, Events.enqueued_at r),
           MkDb (insert_row Events.row_id r (events db)) (deliveries db) (tables db)).

(** An [INSERT] into [dovecote_deliveries]: CHECK, primary key and foreign key *)
Definition insert_delivery_row (r : Deliveries.row) (db : Db) : Result (unit * Db) SqlxError.t :=
  if negb (Deliveries.check r) then Err check_failed
  else if existsb (fun d => Deliveries.event_row_id d =? Deliveries.event_row_id r) (deliveries db)
  then Err primary_key_failed
  else if negb (existsb (fun e => bool_decide (Events.tenant_id e = Deliveries.tenant_id r)
                                  && (Events.row_id e =? Deliveries.event_row_id r)) (events db))
  then Err foreign_key_failed
  else Ok (tt, MkDb (events db) (insert_row Deliveries.event_row_id r (deliveries db)) (tables db)).

(** ** The operation *)

Section Enqueue.
Context `{TimeLib, SerdeJson, Base64, MimeLib, FluentUri, RustDebug, Env}.
Context (tenant_baseline_sql : string).

Definition same_event (event : NewEvent.t) (existing : ExistingEvent.t) : bool :=
  let c := NewEvent.content event in
  bool_decide (StreamName.as_str (EventContent.stream c) = ExistingEvent.stream existing)
  && bool_decide (SPEC_VERSION = ExistingEvent.specversion existing)
  && bool_decide (EventId.as_str (EventContent.id c) = ExistingEvent.event_id existing)
  && bool_decide (EventSource.as_str (EventContent.source c) = ExistingEvent.source existing)
  && bool_decide (EventType.as_str (EventContent.event_type c)
                  = ExistingEvent.event_type existing)
  && bool_decide (option_map EventSubject.as_str (EventContent.subject c)
                  = ExistingEvent.subject existing)
  && bool_decide (option_map adapter_format_timestamp (EventContent.time c)
                  = ExistingEvent.occurred_at existing)
  && bool_decide (option_map ContentType.as_str (EventContent.datacontenttype c)
                  = ExistingEvent.datacontenttype existing)
  && bool_decide (option_map SchemaUri.as_str (EventContent.dataschema c)
                  = ExistingEvent.dataschema existing)
  && bool_decide (option_map PartitionKey.as_str (EventContent.partitionkey c)
                  = ExistingEvent.partitionkey existing)
  && bool_decide (Extensions.canonical_json (EventContent.extensions c)
                  = ExistingEvent.extensions existing)
  && bool_decide (data_kind_of (EventContent.data c) = ExistingEvent.data_kind existing)
  && bool_decide (option_map EventData.as_bytes (EventContent.data c)
                  = ExistingEvent.data existing).

Definition validate_existing_event (existing : ExistingEvent.t) : Result unit string :=
  map_ok (fun _ => tt) (hydrate_event (ExistingEvent.columns existing)).

(** The loop over the two domain tables. *)
Fixpoint validate_tables (names : list string) : M (Result unit EnqueueError.t) :=
  match names with
  | [] => ret (Ok tt)
  | table :: names =>
      try* present := query (fun _ db => bool_decide (table ∈ tables db))
           else EnqueueError.sql "validate enqueue domain tables" in
      if negb present
      then ret (Err (EnqueueError.MigrationMismatch (table +:+ " is missing")))
      else validate_tables names
  end.

Definition validate_enqueue_schema : M (Result unit EnqueueError.t) :=
  try* foreign_keys := call foreign_keys_pragma
       else EnqueueError.sql "check enqueue foreign-key enforcement" in
  if negb (foreign_keys =? 1)
  then ret (Err (EnqueueError.MigrationMismatch "foreign-key enforcement is disabled"))
  else
    try* _ := validate_tables ["dovecote_events"; "dovecote_deliveries"] else (fun e => e) in
    ret (map_err EnqueueError.MigrationMismatch
           (let? migration := current_migration tenant_baseline_sql in
            migration_is_usable migration)).

(** The [let Some(inserted) = inserted else] branch. *)
Definition resolve_duplicate (tenant_id : TenantId.t) (event : NewEvent.t) :
    M (Result EnqueueOutcome.t EnqueueError.t) :=
  let columns := event_columns (NewEvent.content event) in
  try* existing := query (fun _ => find_existing_sql (TenantId.as_str tenant_id)
                            (EventRow.source columns) (EventRow.event_id columns))
       else EnqueueError.sql "find duplicate event" in
  match existing with
  | None => ret (Err (EnqueueError.sql "resolve duplicate event"
              (SqlxError.Protocol "identity disappeared after conflict")))
  | Some existing =>
      match RowId.new (ExistingEvent.row_id existing) with
      | Err error =>
          ret (Err (EnqueueError.serialization (ValidationError.to_string error)))
      | Ok existing_id =>
          match validate_existing_event existing with
          | Err detail => ret (Err (EnqueueError.serialization detail))
          | Ok _ =>
              if negb (same_event event existing)
              then ret (Err (EnqueueError.IdempotencyConflict existing_id))
              else
                try* delivery_exists :=
                  query (fun _ db => existsb (delivery_of (TenantId.as_str tenant_id)
                                                (ExistingEvent.row_id existing)) (deliveries db))
                  else EnqueueError.sql "check duplicate delivery" in
                if negb delivery_exists
                then ret (Err (EnqueueError.MigrationMismatch
                                 "an existing event has no delivery row"))
                else ret (Ok (EnqueueOutcome.AlreadyEnqueued existing_id))
          end
      end
  end.

Definition enqueue_for_scope (tenant_id : TenantId.t) (event : NewEvent.t) :
    M (Result EnqueueOutcome.t EnqueueError.t) :=
  try* is_write := transaction_is_write
       else EnqueueError.sql "inspect enqueue transaction state" in
  if negb is_write then ret (Err EnqueueError.WriteTransactionRequired)
  else
    try* _ := validate_enqueue_schema else (fun e => e) in
    let columns := event_columns (NewEvent.content event) in
    try* inserted := execute (insert_event_sql (TenantId.as_str tenant_id) columns clock)
         else EnqueueError.sql "insert event" in
    match inserted with
    | None => resolve_duplicate tenant_id event
    | Some (inserted_row_id, enqueued_at) =>
        match RowId.new inserted_row_id with
        | Err error =>
            ret (Err (EnqueueError.serialization (ValidationError.to_string error)))
        | Ok row_id =>
            try* _ := execute (fun _ => insert_delivery_row
                        (pending_row (TenantId.as_str tenant_id) inserted_row_id enqueued_at))
                 else EnqueueError.sql "insert delivery" in
            ret (Ok (EnqueueOutcome.Enqueued row_id))
        end
    end.
End Enqueue.

(** ** What a statement does to the tables *)

Section StatementFacts.
Context `{TimeLib, SerdeJson, Base64, Env}.

Lemma same_event_columns event existing :
  same_event event existing = true <->
  ExistingEvent.columns existing = event_columns (NewEvent.content event).
Proof.
  unfold same_event, ExistingEvent.columns, event_columns, event_columns_with.
  rewrite !andb_true_iff, !bool_decide_eq_true. split.
  - intros H'. by repeat match goal with H : _ /\ _ |- _ => destruct H as [? <-] end;
      match goal with H : _ = ExistingEvent.stream _ |- _ => rewrite <- H end.
  - intros [=]. by repeat split.
Qed.
End StatementFacts.

(** ** What an enqueue does *)

Section EnqueueSpec.
Context `{TimeLib, SerdeJson, Base64, MimeLib, FluentUri, RustDebug, Env}.
Context (sql : string) (tenant_id : TenantId.t) (event : NewEvent.t).

Let tenant := TenantId.as_str tenant_id.
Let columns := event_columns (NewEvent.content event).

(** the identity of the unique index *)
Definition identity : string * string * string :=
  (tenant, EventRow.source columns, EventRow.event_id columns).

(** Errors other than the idempotency conflict. *)
Definition not_conflict (e : EnqueueError.t) : Prop :=
  match e with EnqueueError.IdempotencyConflict _ => False | _ => True end.

Lemma sql_not_conflict op e : not_conflict (EnqueueError.sql op e).
Proof. unfold EnqueueError.sql. by destruct (is_busy e). Qed.

Definition error_not_conflict {A} (r : Result A EnqueueError.t) : Prop :=
  match r with Err e => not_conflict e | Ok _ => True end.

Lemma validate_tables_inv names w r w' :
  validate_tables names w = Some (r, w') -> same_tables w w' /\ error_not_conflict r.
Proof.
  revert w. induction names as [|table names IH]; simpl; intros w Hr; [by run_inv Hr|].
  run_inv Hr. apply query_inv in Hm as (Hs & _ & _).
  destruct r0 as [[]|e]; [|by run_inv Hr|run_inv Hr; split; [done|apply sql_not_conflict]].
  destruct (IH _ Hr) as [Hs' He]. split; [by eapply same_tables_trans|done].
Qed.

Lemma validate_enqueue_schema_inv w r w' :
  validate_enqueue_schema sql w = Some (r, w') -> same_tables w w' /\ error_not_conflict r.
Proof.
  unfold validate_enqueue_schema. intros Hr. run_inv Hr.
  apply call_inv in Hm as (Hs & _ & _).
  destruct r0 as [fk|e]; [|run_inv Hr; split; [done|apply sql_not_conflict]].
  destruct (negb (fk =? 1)); [by run_inv Hr|]. run_inv Hr.
  apply validate_tables_inv in Hm as [Hs' He].
  pose proof (same_tables_trans _ _ _ Hs Hs') as Hs2.
  destruct r0 as [[]|e]; run_inv Hr; (split; [done|]); [|done].
  by destruct (let? migration := current_migration sql in migration_is_usable migration).
Qed.

Lemma insert_event_sql_inv f n db o db' :
  insert_event_sql tenant columns f n db = Ok (o, db') ->
  match o with
  | None => db' = db /\ exists e, e ∈ events db /\ event_identity e = identity
  | Some (id, enqueued_at) =>
      id = new_row_id n db /\ enqueued_at = f n /\
      Events.check (new_event_row id tenant columns (f n)) = true /\
      db' = with_event (new_event_row id tenant columns (f n)) db /\
      identity ∉ map event_identity (events db)
  end.
Proof.
  unfold insert_event_sql. case_match eqn:Ec; [done|]. apply negb_false_iff in Ec.
  case_match eqn:Ei; intros [= <- <-].
  - apply existsb_exists in Ei as (e & Hin & Hid). apply has_identity_spec in Hid.
    split; [done|]. exists e. split; [by apply list_elem_of_In|done].
  - simpl. split_and!; try done. intros Hin. apply list_elem_of_fmap in Hin as (e & He & Hin).
    apply not_true_iff_false in Ei. apply Ei. apply existsb_exists. exists e.
    split; [by apply list_elem_of_In|]. by apply has_identity_spec.
Qed.

Lemma insert_delivery_row_inv r db db' :
  insert_delivery_row r db = Ok (tt, db') ->
  db' = with_delivery r db /\ Deliveries.check r = true /\
  Deliveries.event_row_id r ∉ delivery_keys db /\
  exists e, e ∈ events db /\ Events.tenant_id e = Deliveries.tenant_id r /\
            Events.row_id e = Deliveries.event_row_id r.
Proof.
  unfold insert_delivery_row. case_match eqn:Ec; [done|]. apply negb_false_iff in Ec.
  case_match eqn:Ek; [done|]. case_match eqn:Ef; [done|]. intros [= <-].
  split_and!; [done..| |].
  - intros Hin. apply list_elem_of_fmap in Hin as (d & He & Hin).
    apply not_true_iff_false in Ek. apply Ek, existsb_exists. exists d.
    split; [by apply list_elem_of_In|]. apply Z.eqb_eq. done.
  - apply negb_false_iff, existsb_exists in Ef as (e & Hin & He).
    apply andb_true_iff in He as [Ht Hk]. apply bool_decide_eq_true in Ht. apply Z.eqb_eq in Hk.
    exists e. split; [by apply list_elem_of_In|done].
Qed.

(** An insert that passes for one row passes for every row of its key. *)
Lemma insert_delivery_row_run r r' db db' :
  insert_delivery_row r db = Ok (tt, db') ->
  Deliveries.event_row_id r' = Deliveries.event_row_id r ->
  Deliveries.tenant_id r' = Deliveries.tenant_id r -> Deliveries.check r' = true ->
  insert_delivery_row r' db = Ok (tt, with_delivery r' db).
Proof.
  unfold insert_delivery_row. intros Hi Hk Ht Hc. rewrite Hk, Ht, Hc. cbn [negb].
  destruct (negb (Deliveries.check r)); [done|]. by repeat case_match.
Qed.

(** The duplicate branch reads only. *)
Lemma resolve_duplicate_inv w r w' :
  resolve_duplicate tenant_id event w = Some (r, w') ->
  same_tables w w' /\
  match r with
  | Ok (EnqueueOutcome.Enqueued _) => False
  | Ok (EnqueueOutcome.AlreadyEnqueued id) =>
      exists e d, e ∈ events (visible w) /\ event_identity e = identity /\
        Events.row_id e = RowId.get id /\ row_columns e = columns /\
        d ∈ deliveries (visible w) /\ delivery_of tenant (RowId.get id) d = true
  | Err (EnqueueError.IdempotencyConflict id) =>
      exists e, e ∈ events (visible w) /\ event_identity e = identity /\
        Events.row_id e = RowId.get id /\ row_columns e <> columns
  | Err _ => True
  end.
Proof.
  unfold resolve_duplicate. intros Hr. run_inv Hr. apply query_inv in Hm as (Hs & _ & Hq).
  destruct r0 as [existing|e]; [|run_inv Hr; pose proof (sql_not_conflict "find duplicate event" e);
    split; [done|]; by destruct (EnqueueError.sql _ e)].
  destruct existing as [x|]; [|by run_inv Hr].
  symmetry in Hq. apply find_existing_columns in Hq as (e & Hin & Hid & Hrow & Hcols & _).
  change (event_identity e = identity) in Hid.
  destruct (RowId.new (ExistingEvent.row_id x)) as [id|] eqn:Eid; [|by run_inv Hr].
  apply RowId_new_Ok in Eid as [Hget _].
  destruct (validate_existing_event x) as [[]|]; [|by run_inv Hr].
  destruct (same_event event x) eqn:Es.
  - simpl in Hr. apply same_event_columns in Es. run_inv Hr.
    apply query_inv in Hm as (Hs' & _ & Hq). pose proof (same_tables_trans _ _ _ Hs Hs') as Hs2.
    assert (visible w0 = visible w) as Hv by (unfold visible; destruct Hs as [-> ->]; done).
    destruct r0 as [b|e']; [|run_inv Hr;
      pose proof (sql_not_conflict "check duplicate delivery" e');
      split; [done|]; by destruct (EnqueueError.sql _ e')].
    destruct b; run_inv Hr; [|done]. split; [done|].
    symmetry in Hq. apply existsb_exists in Hq as (d & Hd & Hdel). rewrite Hv in Hd.
    exists e, d. rewrite Hget. apply list_elem_of_In in Hd.
    split_and!; try done; by rewrite <- Hcols.
  - run_inv Hr. split; [done|]. exists e. split_and!; [done|done|congruence|].
    intros Heq. apply not_true_iff_false in Es. apply Es, same_event_columns. by rewrite Hcols.
Qed.

Definition new_row (n : nat) (db : Db) : Events.row :=
  new_event_row (new_row_id n db) tenant columns (clock n).

(** What enqueue may do to the world [w] with the transaction [(wr, db)]. *)
Definition enqueue_effect (w : World) (wr : bool) (db : Db)
    (r : Result EnqueueOutcome.t EnqueueError.t) (w' : World) : Prop :=
  committed w' = committed w /\
  match r with
  | Ok (EnqueueOutcome.Enqueued id) =>
      wr = true /\ identity ∉ map event_identity (events db) /\
      exists n, RowId.get id = new_row_id n db /\ Events.check (new_row n db) = true /\
        txn w' = Some (true, with_delivery (pending_row tenant (RowId.get id) (clock n))
                               (with_event (new_row n db) db))
  | Ok (EnqueueOutcome.AlreadyEnqueued id) =>
      txn w' = txn w /\
      exists e d, e ∈ events db /\ event_identity e = identity /\
        Events.row_id e = RowId.get id /\ row_columns e = columns /\
        d ∈ deliveries db /\ delivery_of tenant (RowId.get id) d = true
  | Err (EnqueueError.IdempotencyConflict id) =>
      txn w' = txn w /\
      exists e, e ∈ events db /\ event_identity e = identity /\
        Events.row_id e = RowId.get id /\ row_columns e <> columns
  | Err _ =>
      txn w' = txn w \/ exists n, txn w' = Some (true, with_event (new_row n db) db)
  end.

(** The effect of one run. *)
Lemma enqueue_run_effect w wr db r w' :
  txn w = Some (wr, db) ->
  enqueue_for_scope sql tenant_id event w = Some (r, w') ->
  enqueue_effect w wr db r w'.
Proof.
  intros Ht. unfold enqueue_for_scope. intros Hr.
  (* an error other than the conflict, with the transaction as in [db'] *)
  assert (Hplain : forall e (w1 : World), not_conflict e -> committed w1 = committed w ->
    txn w1 = txn w \/ (exists n, txn w1 = Some (true, with_event (new_row n db) db)) ->
    enqueue_effect w wr db (Err e) w1).
  { intros e w1 He Hc Hx. split; [done|]. by destruct e. }
  run_inv Hr. apply transaction_is_write_inv in Hm as (Hs & Hw). rewrite Ht in Hw.
  destruct r0 as [b|e]; [subst b|run_inv Hr; destruct Hs; apply Hplain; auto using sql_not_conflict].
  destruct wr; [|run_inv Hr; destruct Hs; by apply Hplain; auto].
  run_inv Hr. apply validate_enqueue_schema_inv in Hm as [Hs1 He].
  pose proof (same_tables_trans _ _ _ Hs Hs1) as [Hc0 Ht0].
  destruct r0 as [[]|e]; [|run_inv Hr; by apply Hplain; auto].
  rewrite Ht in Ht0. run_inv Hr. apply (execute_inv _ _ _ _ _ _ Ht0) in Hm as (Hc1 & _ & Hx).
  destruct r0 as [inserted|e].
  2: { run_inv Hr. destruct Hx as [Ht1 _].
       apply Hplain; [apply sql_not_conflict|congruence|left; congruence]. }
  destruct Hx as (db1 & Hins & Ht1). apply insert_event_sql_inv in Hins.
  destruct inserted as [[id enqueued_at]|].
  - destruct Hins as (-> & -> & Hck & -> & Hnew).
    destruct (RowId.new _) as [id|ve] eqn:Eid.
    2: { run_inv Hr. apply Hplain; [done|congruence|]. right. eauto. }
    apply RowId_new_Ok in Eid as [Hget _]. run_inv Hr.
    apply (execute_inv _ _ _ _ _ _ Ht1) in Hm as (Hc2 & _ & Hx).
    destruct r0 as [[]|e]; run_inv Hr.
    + destruct Hx as (db2 & Hd & Ht2). apply insert_delivery_row_inv in Hd as (-> & _ & _ & _).
      split; [congruence|]. split; [done|]. split; [done|].
      eexists. split; [exact Hget|]. split; [exact Hck|]. rewrite Ht2, Hget. reflexivity.
    + destruct Hx as [Ht2 _]. apply Hplain; [apply sql_not_conflict|congruence|].
      right. eexists. rewrite Ht2, Ht1. reflexivity.
  - destruct Hins as [-> _]. apply resolve_duplicate_inv in Hr as [[Hc2 Ht2] Hres].
    unfold visible in Hres. rewrite Ht1 in Hres. cbn in Hres.
    assert (committed w' = committed w) as Hc by congruence.
    assert (txn w' = txn w) as Htw by congruence.
    split; [done|]. destruct r as [[id|id]|e]; [done|by split|].
    destruct e; auto.
Qed.

(** C17: enqueue in a caller's transaction never commits anything. It reports
    [Enqueued] only when no event has the identity, after adding exactly one
    event row with the event's columns and its pending delivery;
    [AlreadyEnqueued] only when the stored event of that identity has the same
    columns and a delivery, changing nothing; [IdempotencyConflict] only when
    the stored columns differ, changing nothing. Any other error leaves the
    transaction unchanged, or with the event row alone when its delivery could
    not be inserted, which only the caller's rollback removes. *)
Theorem enqueue_outcomes w wr db r w' :
  txn w = Some (wr, db) ->
  enqueue_for_scope sql tenant_id event w = Some (r, w') ->
  enqueue_effect w wr db r w'.
Proof. by apply enqueue_run_effect. Qed.
End EnqueueSpec.

(** ** Replays *)

Section Replay.
Context `{TimeLib, SerdeJson, Base64, MimeLib, FluentUri, RustDebug, Env}.
Context {TL : TimeLaws} {TT : TimeTextLaws} {NL : JsonNumberLaws}
  {SL : SerdeJsonLaws} {BL : Base64Laws}.
Context (sql : string) (tenant_id : TenantId.t).

(** A connection that answers every statement, on an installed schema. *)
Definition healthy (db : Db) : Prop :=
  (forall n, sql_fault n = None) /\ (forall n, foreign_keys_pragma n = 1) /\
  "dovecote_events" ∈ tables db /\ "dovecote_deliveries" ∈ tables db.

Lemma validate_enqueue_schema_run w wr db :
  healthy db -> txn w = Some (wr, db) ->
  exists w', validate_enqueue_schema sql w = Some (Ok tt, w') /\ same_tables w w'.
Proof.
  intros (Hok & Hfk & He & Hd) Ht.
  unfold validate_enqueue_schema. erewrite bind_run by by apply call_run.
  rewrite Hfk. simpl.
  assert (Hv : forall k w1, txn w1 = txn w -> k = "dovecote_events" \/ k = "dovecote_deliveries" ->
    query (fun _ db => bool_decide (k ∈ tables db)) w1 = Some (Ok true, next_tick w1)).
  { intros k w1 Hw1 Hk. rewrite query_run by done. unfold visible. rewrite Hw1, Ht.
    rewrite bool_decide_true; [done|]. by destruct Hk as [-> | ->]. }
  erewrite bind_run.
  2: { erewrite bind_run by (by apply Hv; auto). simpl.
       erewrite bind_run by (by apply Hv; auto). reflexivity. }
  simpl. eexists. split; [reflexivity|done].
Qed.

Lemma find_insert_row {R} (key : R -> Z) (p : R -> bool) r table :
  p r = true -> (forall x, x ∈ table -> p x = false) ->
  find p (insert_row key r table) = Some r.
Proof.
  intros Hr. induction table as [|x table IH]; simpl; intros Hn; [by rewrite Hr|].
  destruct (key r <? key x); simpl; [by rewrite Hr|].
  rewrite Hn by left. apply IH. intros y Hy. apply Hn. by right.
Qed.

(** The identity columns of an event. *)
Definition same_identity (e1 e2 : NewEvent.t) : Prop :=
  EventContent.source (NewEvent.content e1) = EventContent.source (NewEvent.content e2) /\
  EventContent.id (NewEvent.content e1) = EventContent.id (NewEvent.content e2).

(** The duplicate branch on a table holding [event]'s row and delivery. *)
Lemma resolve_duplicate_run w event event' limit id enqueued_at events' deliveries' tables' :
  let c := NewEvent.content event in
  let tenant := TenantId.as_str tenant_id in
  let r := new_event_row (RowId.get id) tenant (event_columns c) enqueued_at in
  let db := MkDb (insert_row Events.row_id r events')
                 (insert_row Deliveries.event_row_id
                    (pending_row tenant (RowId.get id) enqueued_at) deliveries') tables' in
  (forall n, sql_fault n = None) ->
  content_wf c -> validate_content c limit = Ok tt -> EventSizeLimit.get limit <= usize_max ->
  0 < RowId.get id ->
  identity tenant_id event ∉ map event_identity events' ->
  same_identity event event' -> visible w = db ->
  exists w', same_tables w w' /\
    resolve_duplicate tenant_id event' w
    = Some (if bool_decide (event_columns (NewEvent.content event') = event_columns c)
            then Ok (EnqueueOutcome.AlreadyEnqueued id)
            else Err (EnqueueError.IdempotencyConflict id), w').
Proof.
  intros c tenant r db Hok Hwf Hv Hl Hid Hnew [Hsrc Hsame] Hvis.
  unfold resolve_duplicate. cbv zeta. erewrite bind_run by by apply query_run.
  assert (Hfind : find (Events.has_identity tenant
            (EventRow.source (event_columns (NewEvent.content event')))
            (EventRow.event_id (event_columns (NewEvent.content event')))) (events db) = Some r).
  { apply find_insert_row.
    - apply has_identity_spec. unfold event_identity. simpl. by rewrite <- Hsrc, <- Hsame.
    - intros x Hx. apply not_true_iff_false. intros Hi. apply has_identity_spec in Hi.
      apply Hnew. apply list_elem_of_fmap. exists x. split; [|done].
      rewrite Hi. unfold identity. simpl. by rewrite <- Hsrc, <- Hsame. }
  unfold find_existing_sql. rewrite Hvis. fold tenant. rewrite Hfind.
  cbn [option_map]. set (x := ExistingEvent.Make _ _ _ _ _ _ _ _ _ _ _ _ _ _ _).
  assert (Hx : ExistingEvent.columns x = event_columns c) by reflexivity.
  change (ExistingEvent.row_id x) with (RowId.get id).
  rewrite (proj2 (RowId_new_Ok _ id)) by done.
  unfold validate_existing_event. rewrite Hx, (hydrate_written_columns c limit) by done.
  cbn [map_ok].
  destruct (same_event event' x) eqn:Es.
  - apply same_event_columns in Es. rewrite Hx in Es.
    rewrite bool_decide_true by done. cbn [negb]. erewrite bind_run by by apply query_run.
    assert (Hdel : existsb (delivery_of tenant (RowId.get id))
                     (deliveries (visible (next_tick w))) = true).
    { apply existsb_exists. exists (pending_row tenant (RowId.get id) enqueued_at). split.
      - apply list_elem_of_In. change (visible (next_tick w)) with (visible w).
        rewrite Hvis. apply elem_of_insert_row. by left.
      - unfold delivery_of. simpl. by rewrite bool_decide_true, Z.eqb_refl. }
    change (ExistingEvent.row_id x) with (RowId.get id). fold tenant.
    cbv beta iota. rewrite Hdel. exists (next_tick (next_tick w)). by split.
  - rewrite bool_decide_false.
    + cbn [negb]. exists (next_tick w). by split.
    + intros Heq. apply not_true_iff_false in Es. apply Es, same_event_columns. by rewrite Hx.
Qed.

(** The row of an accepted event. *)
Lemma accepted_row_check event limit id enqueued_at t :
  TenantId.new t = Ok tenant_id ->
  content_wf (NewEvent.content event) ->
  validate_content (NewEvent.content event) limit = Ok tt -> 0 < id ->
  Events.check (new_event_row id (TenantId.as_str tenant_id)
                  (event_columns (NewEvent.content event)) enqueued_at) = true.
Proof.
  intros Ht Hwf Hv Hid. apply validate_content_Ok in Hv as (Hident & _ & _ & Hdata & _).
  pose proof (TenantId_new_as_str _ _ Ht) as Htt. apply TenantId_new_len in Ht.
  destruct Hwf as [Hst Hid' Hso Hty Hsu _ Hct Hds Hpk _ _].
  apply StreamName_new_len in Hst. apply EventId_new_len in Hid'.
  apply EventSource_new_len in Hso. apply EventType_new_len in Hty.
  unfold Events.check, new_event_row, event_columns, event_columns_with, Events.opt_max_len, Events.max_len.
  unfold identity_bytes in Hident. unfold data_compatible in Hdata. rewrite Htt.
  assert (Hopt : forall {A} (o : option A) (f : A -> string) n,
    option_all (fun v => len (f v) <= n) o ->
    is_none_or (option_map f o) (fun s => len s <=? n) = true).
  { intros A [v|] f n Ho; [by apply Z.leb_le|done]. }
  cbn [Events.row_id Events.tenant_id Events.stream Events.specversion Events.event_id
       Events.source Events.event_type Events.subject Events.datacontenttype Events.dataschema
       Events.partitionkey Events.data_kind Events.data EventRow.stream EventRow.specversion
       EventRow.event_id EventRow.source EventRow.event_type EventRow.subject
       EventRow.datacontenttype EventRow.dataschema EventRow.partitionkey EventRow.data_kind
       EventRow.data].
  rewrite !andb_true_iff, !Z.leb_le, !Z.ltb_lt.
  repeat split; try lia; try done; try apply Hopt.
  - destruct (EventContent.subject _); [by eapply EventSubject_new_len|done].
  - destruct (EventContent.datacontenttype _); [by eapply ContentType_new_len|done].
  - destruct (EventContent.dataschema _); [by eapply SchemaUri_new_len|done].
  - destruct (EventContent.partitionkey _); [by eapply PartitionKey_new_len|done].
  - by destruct (EventContent.data _) as [[]|].
  - by destruct (EventContent.data _) as [[]|].
  - destruct (EventContent.data _) as [d|]; [|done]. destruct Hdata as [Hne _]. simpl.
    destruct (EventContent.datacontenttype _); simpl; [by rewrite orb_true_r|].
    rewrite orb_false_r. apply Z.eqb_eq, is_empty_len.
    destruct (EventData.as_bytes d); [done|]. by destruct Hne.
Qed.

(** Whatever the core accepts the tables accept: the columns written for an
    accepted event and a checked tenant satisfy every CHECK of the migration. *)
Theorem accepted_event_passes_checks event limit id enqueued_at t :
  TenantId.new t = Ok tenant_id ->
  content_wf (NewEvent.content event) ->
  validate_content (NewEvent.content event) limit = Ok tt -> 0 < id ->
  Events.check (new_event_row id (TenantId.as_str tenant_id)
                  (event_columns (NewEvent.content event)) enqueued_at) = true.
Proof. by apply accepted_row_check. Qed.

(** Replaying an enqueue in the same transaction changes nothing and
    returns the row of the first one; an event of the same identity that
    differs in any durable column is refused with that row's id. *)
Theorem enqueue_replay `{!SqliteTime} {QL : SqliteLaws} event event' limit limit' t w wr db id w1 :
  TenantId.new t = Ok tenant_id ->
  content_wf (NewEvent.content event) ->
  validate_content (NewEvent.content event) limit = Ok tt ->
  EventSizeLimit.get limit <= usize_max ->
  content_wf (NewEvent.content event') ->
  validate_content (NewEvent.content event') limit' = Ok tt ->
  same_identity event event' -> healthy db ->
  txn w = Some (wr, db) ->
  enqueue_for_scope sql tenant_id event w = Some (Ok (EnqueueOutcome.Enqueued id), w1) ->
  exists w2,
    enqueue_for_scope sql tenant_id event' w1
    = Some (if bool_decide (event_columns (NewEvent.content event')
                            = event_columns (NewEvent.content event))
            then Ok (EnqueueOutcome.AlreadyEnqueued id)
            else Err (EnqueueError.IdempotencyConflict id), w2) /\
    txn w2 = txn w1 /\ committed w2 = committed w.
Proof.
  intros Htn Hwf Hv Hl Hwf' Hv' Hsame Hh Ht Hrun.
  destruct (enqueue_run_effect _ _ _ _ _ _ _ _ Ht Hrun) as (Hc & _ & Hnew & n & Hid & _ & Ht1).
  set (r := new_row tenant_id event n db) in Ht1.
  set (d := pending_row (TenantId.as_str tenant_id) (RowId.get id) (clock n)) in Ht1.
  assert (Hh1 : healthy (with_delivery d (with_event r db))) by exact Hh.
  pose proof Hh as (Hok & _).
  unfold enqueue_for_scope. erewrite bind_run by by apply transaction_is_write_run.
  rewrite Ht1. cbn [negb].
  destruct (validate_enqueue_schema_run (next_tick w1) _ _ Hh1 Ht1) as (w2 & Hs & Hc2 & Ht2).
  erewrite bind_run by exact Hs. cbv beta iota zeta.
  simpl in Ht2, Hc2. rewrite Ht1 in Ht2.
  erewrite bind_run.
  2: { apply (execute_run Hok _ _ _ _ None (with_delivery d (with_event r db)) Ht2). unfold insert_event_sql.
       rewrite (accepted_row_check event' limit' _ _ t Htn Hwf' Hv')
         by apply new_row_id_fresh. cbn [negb].
       replace (existsb _ _) with true; [reflexivity|]. symmetry. apply existsb_exists.
       exists r. split; [apply list_elem_of_In, elem_of_insert_row; by left|].
       apply has_identity_spec. destruct Hsame as [Hsrc Hsid].
       unfold event_identity, r, new_row. simpl. by rewrite Hsrc, Hsid. }
  cbv beta iota.
  assert (Hr : r = new_event_row (RowId.get id) (TenantId.as_str tenant_id)
                     (event_columns (NewEvent.content event)) (clock n)).
  { unfold r, new_row. by rewrite <- Hid. }
  match goal with |- context [resolve_duplicate _ _ ?w3] =>
    destruct (resolve_duplicate_run w3 event event' limit id (clock n) (events db)
                (deliveries db) (tables db)) as (w4 & [Hc4 Ht4] & Hres) end;
    try done.
  - rewrite Hid. apply new_row_id_fresh.
  - unfold visible. simpl. unfold with_delivery, with_event. simpl. by rewrite Hr.
  - exists w4. split; [exact Hres|]. rewrite Ht4, Hc4. simpl. split; [done|congruence].
Qed.
End Replay.
