(* ===== verification/Finalize.v ===== *)
(** * Finalization of a migration import (crates/dovecote-sqlx-sqlite/src/finalize.rs)

    The one unfenced transition of the adapter: a delivery that import left
    pending and nothing touched since becomes delivered at the time the legacy
    publisher recorded. *)

From S2P Require Import Prelude Step Utf8 BTree Errors Limits Validation Bounds Values Extension Serialization Event State External SqliteError Tables Queries Sqlite Migration Schema RowHydration Hydrate Canonical Enqueue.

Definition map_schema_error (error : SchemaError.t) : FinalizeError.t :=
  match error with
  | SchemaError.MigrationMismatch detail => FinalizeError.MigrationMismatch detail
  | SchemaError.BusyExhausted operation source => FinalizeError.BusyExhausted operation source
  | SchemaError.Sql operation source => FinalizeError.Sql operation source
  end.

(** ** The statements *)

(** The update and its [rows_affected]. *)
Definition finalize_sql (tenant : string) (row_id : Z) (enqueued_at delivered_at : string)
    (db : Db) : Result (Z * Db) SqlxError.t :=
  let? updated := update_rows (pending_import tenant row_id enqueued_at)
                    (fun r => Ok (set_finalized delivered_at r)) (deliveries db) in
  Ok (updated.2, MkDb (events db) updated.1 (tables db)).

(** ** The operation *)

Section Finalize.
Context `{TimeLib, Env, CatalogEnv}.
Context (tenant_baseline_sql : string).

Definition finalize_for_scope (tenant_id : TenantId.t) (row_id : RowId.t)
    (delivered_at : OffsetDateTime) : M (Result FinalizeOutcome.t FinalizeError.t) :=
  match ImportedDeliveryState.delivered delivered_at with
  | Err source => ret (Err (FinalizeError.InvalidTimestamp source))
  | Ok _ =>
      try* is_write := transaction_is_write
           else FinalizeError.sql "inspect finalization transaction state" in
      if negb is_write then ret (Err FinalizeError.WriteTransactionRequired)
      else
        try* _ := check_schema_connection tenant_baseline_sql else map_schema_error in
        let delivered_at := adapter_format_timestamp delivered_at in
        try* event := query (fun _ => select_enqueued_at_sql (TenantId.as_str tenant_id)
                               (RowId.get row_id))
             else FinalizeError.sql "lock migration event" in
        match event with
        | None => ret (Err FinalizeError.NotFound)
        | Some enqueued_at =>
            try* delivery := query (fun _ => select_delivery_sql (TenantId.as_str tenant_id)
                                      (RowId.get row_id))
                 else FinalizeError.sql "lock migration delivery" in
            match delivery with
            | None => ret (Err (FinalizeError.MigrationMismatch
                                  "an existing event has no delivery row"))
            | Some delivery =>
                if bool_decide (DeliveryRow.state delivery = "delivered")
                   && canonical delivery enqueued_at
                   && bool_decide (DeliveryRow.delivered_at delivery = Some delivered_at)
                then ret (Ok (FinalizeOutcome.AlreadyFinalized row_id))
                else if negb (canonical_pending delivery enqueued_at)
                then ret (Err (FinalizeError.StateConflict row_id))
                else
                  try* rows_affected := execute (fun _ =>
                         finalize_sql (TenantId.as_str tenant_id) (RowId.get row_id) enqueued_at
                           delivered_at)
                       else FinalizeError.sql "finalize migration delivery" in
                  if negb (rows_affected =? 1)
                  then ret (Err (FinalizeError.StateConflict row_id))
                  else ret (Ok (FinalizeOutcome.Finalized row_id))
            end
        end
  end.
End Finalize.

(** ** What finalization does *)

Section FinalizeSpec.
Context `{TimeLib, Env, CatalogEnv}.
Context (sql : string) (tenant_id : TenantId.t) (row_id : RowId.t) (delivered_at : OffsetDateTime).

Let tenant := TenantId.as_str tenant_id.
Let key := RowId.get row_id.
Let text := adapter_format_timestamp delivered_at.

(** The event's delivery in the canonical shape of a state. *)
Definition imported_delivery (enqueued_at state : string) (at_ : option string) : Deliveries.row :=
  untouched_row tenant key state enqueued_at at_.

(** The tables after the delivery of [key] became delivered. *)
Definition finalized_db (enqueued_at : string) (db : Db) : Db :=
  MkDb (events db)
    (map (fun d => if delivery_of tenant key d
                   then imported_delivery enqueued_at "delivered" (Some text) else d) (deliveries db))
    (tables db).

(** The update of a canonical pending delivery changes that row alone. *)
Lemma finalize_sql_run db enqueued_at :
  db_wf db -> imported_delivery enqueued_at "pending" None ∈ deliveries db ->
  finalize_sql tenant key enqueued_at text db = Ok (1, finalized_db enqueued_at db).
Proof.
  intros Hwf Hin. unfold finalize_sql.
  rewrite (update_rows_run _ _ (set_finalized text)).
  - cbn [fst snd]. rewrite (filter_unique _ _ (imported_delivery enqueued_at "pending" None)).
    + simpl. do 3 f_equal. unfold finalized_db. f_equal. apply map_ext_in. intros d Hd.
      apply list_elem_of_In in Hd.
      destruct (delivery_of tenant key d) eqn:Ed.
      * rewrite (delivery_of_unique db tenant key d (imported_delivery enqueued_at "pending" None));
          [|done..|by apply delivery_of_spec].
        by rewrite (proj2 (pending_import_row _ _ _ _)).
      * unfold pending_import. by rewrite Ed.
    + by apply deliveries_NoDup.
    + done.
    + by apply pending_import_row.
    + intros y _. by apply pending_import_row.
  - intros r Hr Hp. split; [done|]. apply pending_import_row in Hp as ->.
    destruct Hwf as (_ & _ & _ & Hck & _). rewrite Forall_forall in Hck. apply Hck in Hr. clear Hck.
    revert Hr. unfold Deliveries.check. rewrite !andb_true_iff. simpl. intros Hr. by destruct_and!.
Qed.

(** What a call may do to the transaction [(wr, db)] of the world [w]. *)
Definition finalize_effect (w : World) (wr : bool) (db : Db)
    (r : Result FinalizeOutcome.t FinalizeError.t) (w' : World) : Prop :=
  committed w' = committed w /\
  match r with
  | Ok (FinalizeOutcome.Finalized id) =>
      id = row_id /\ wr = true /\
      exists e, e ∈ events db /\ event_at tenant key e = true /\
        imported_delivery (Events.enqueued_at e) "pending" None ∈ deliveries db /\
        txn w' = Some (true, finalized_db (Events.enqueued_at e) db)
  | Ok (FinalizeOutcome.AlreadyFinalized id) =>
      id = row_id /\ txn w' = txn w /\
      exists e, e ∈ events db /\ event_at tenant key e = true /\
        imported_delivery (Events.enqueued_at e) "delivered" (Some text) ∈ deliveries db
  | Err (FinalizeError.StateConflict id) =>
      id = row_id /\ txn w' = txn w /\
      exists e d, e ∈ events db /\ event_at tenant key e = true /\
        d ∈ deliveries db /\ delivery_of tenant key d = true /\
        d <> imported_delivery (Events.enqueued_at e) "pending" None /\
        d <> imported_delivery (Events.enqueued_at e) "delivered" (Some text)
  | Err FinalizeError.NotFound =>
      txn w' = txn w /\ forall e, e ∈ events db -> event_at tenant key e = false
  | Err (FinalizeError.InvalidTimestamp source) =>
      w' = w /\ ImportedDeliveryState.delivered delivered_at = Err source
  | Err _ => txn w' = txn w
  end.

Lemma canonical_pending_row d enqueued_at :
  delivery_of tenant key d = true ->
  (canonical_pending (DeliveryRow.of_row d) enqueued_at = true <->
   d = imported_delivery enqueued_at "pending" None).
Proof.
  rewrite delivery_of_spec. intros [Ht Hk]. unfold canonical_pending.
  rewrite !andb_true_iff, canonical_row, bool_decide_eq_true, is_none_true.
  unfold imported_delivery, untouched_row. destruct d. cbn in *. subst.
  split; [intros H'; destruct_and!; by simplify_eq|by intros [=]; simplify_eq].
Qed.

Lemma canonical_delivered_row d enqueued_at :
  delivery_of tenant key d = true ->
  (bool_decide (DeliveryRow.state (DeliveryRow.of_row d) = "delivered")
   && canonical (DeliveryRow.of_row d) enqueued_at
   && bool_decide (DeliveryRow.delivered_at (DeliveryRow.of_row d) = Some text) = true <->
   d = imported_delivery enqueued_at "delivered" (Some text)).
Proof.
  rewrite delivery_of_spec. intros [Ht Hk].
  rewrite !andb_true_iff, canonical_row, !bool_decide_eq_true.
  unfold imported_delivery, untouched_row. destruct d. cbn in *. subst.
  split; [intros H'; destruct_and!; by simplify_eq|by intros [=]; simplify_eq].
Qed.

Lemma finalize_returns : returns (finalize_for_scope sql tenant_id row_id delivered_at).
Proof.
  unfold finalize_for_scope. pose proof (reads_returns _ (check_schema_reads sql)). returns_step.
Qed.

(** Errors with no other effect than leaving the transaction alone. *)
Definition plain_error (e : FinalizeError.t) : Prop :=
  match e with
  | FinalizeError.StateConflict _ | FinalizeError.NotFound | FinalizeError.InvalidTimestamp _ => False
  | _ => True
  end.

Lemma sql_plain_error op e : plain_error (FinalizeError.sql op e).
Proof. unfold FinalizeError.sql. by destruct (is_busy e). Qed.

Lemma map_schema_plain_error e : plain_error (map_schema_error e).
Proof. by destruct e. Qed.

Lemma plain_effect w wr db e w' :
  plain_error e -> same_tables w w' -> finalize_effect w wr db (Err e) w'.
Proof. intros He [Hc Ht]. split; [done|]. by destruct e. Qed.

Lemma finalize_run_effect w wr db r w' :
  db_wf db -> txn w = Some (wr, db) ->
  finalize_for_scope sql tenant_id row_id delivered_at w = Some (r, w') ->
  finalize_effect w wr db r w'.
Proof.
  intros Hwf Ht. unfold finalize_for_scope. intros Hr.
  destruct (ImportedDeliveryState.delivered delivered_at) as [st|source] eqn:Ei; [|by run_inv Hr].
  run_inv Hr. apply transaction_is_write_inv in Hm as (Hs & Hw). rewrite Ht in Hw.
  destruct r0 as [b|e]; [subst b|run_inv Hr; by apply plain_effect; auto using sql_plain_error].
  destruct wr; [|run_inv Hr; by apply plain_effect].
  run_inv Hr. apply (reads_inv _ _ _ _ (check_schema_reads sql)) in Hm.
  pose proof (same_tables_trans _ _ _ Hs Hm) as Hs1. clear Hs Hm.
  destruct r0 as [[]|e]; [|run_inv Hr; by apply plain_effect; auto using map_schema_plain_error].
  cbv zeta in Hr. run_inv Hr. apply query_inv in Hm as (Hs & _ & Hq).
  assert (Hv : visible w1 = db) by (unfold visible; destruct Hs1 as [_ ->]; by rewrite Ht).
  rewrite Hv in Hq. pose proof (same_tables_trans _ _ _ Hs1 Hs) as Hs2. clear Hs1 Hs.
  destruct r0 as [event|e]; [|run_inv Hr; by apply plain_effect; auto using sql_plain_error].
  symmetry in Hq. destruct event as [enqueued_at|].
  2: { run_inv Hr. destruct Hs2. split; [done|]. split; [done|].
       intros e. by apply select_enqueued_at_None. }
  apply select_enqueued_at_Some in Hq as (e & He & Hat & <-).
  run_inv Hr. apply query_inv in Hm as (Hs & _ & Hq).
  assert (Hv2 : visible w2 = db) by (unfold visible; destruct Hs2 as [_ ->]; by rewrite Ht).
  rewrite Hv2 in Hq. pose proof (same_tables_trans _ _ _ Hs2 Hs) as Hs3. clear Hs2 Hs.
  destruct r0 as [delivery|e']; [|run_inv Hr; by apply plain_effect; auto using sql_plain_error].
  symmetry in Hq. destruct delivery as [row|]; [|run_inv Hr; by apply plain_effect].
  apply select_delivery_Some in Hq as (d & Hd & Hdel & ->).
  pose proof Hs3 as [Hc3 Ht3].
  pose proof (canonical_delivered_row d (Events.enqueued_at e) Hdel) as Hcd.
  pose proof (canonical_pending_row d (Events.enqueued_at e) Hdel) as Hcp.
  destruct (_ && _ && _) eqn:Ecd in Hr.
  { run_inv Hr. split; [done|]. split; [done|]. split; [done|]. exists e.
    apply Hcd in Ecd. by rewrite Ecd in Hd. }
  destruct (canonical_pending _ _) eqn:Ecp; cbn [negb] in Hr.
  2: { run_inv Hr. split; [done|]. split; [done|]. split; [done|]. exists e, d.
       split_and!; try done; intros Hx; [by apply Hcp in Hx|apply Hcd in Hx].
       by apply (eq_true_false_abs _ Hx Ecd). }
  apply proj1 in Hcp. specialize (Hcp eq_refl). subst d. run_inv Hr.
  rewrite Ht in Ht3. apply (execute_inv _ _ _ _ _ _ Ht3) in Hm as (Hc4 & _ & Hx).
  fold tenant key text in Hx. rewrite (finalize_sql_run db) in Hx by done.
  destruct r0 as [n|e'].
  2: { run_inv Hr. destruct Hx as [Hx _]. apply plain_effect; [apply sql_plain_error|].
       split; congruence. }
  destruct Hx as (db' & [= <- <-] & Ht4). cbn [Z.eqb Pos.eqb negb] in Hr. run_inv Hr.
  split; [congruence|]. split; [done|]. split; [done|]. by exists e.
Qed.
End FinalizeSpec.

Section FinalizeOutcomes.
Context `{TimeLib, Env, CatalogEnv}.

(** C22: finalization always returns, commits nothing, and changes the
    transaction only when it answers [Finalized]: then the transaction was a
    write transaction, the delivery of the event had exactly the shape a pending
    import leaves, and it alone became delivered at the supplied time, every
    other column as it was. [AlreadyFinalized] is answered only for a delivery
    that an earlier call with the same timestamp text left; any other delivery
    is a [StateConflict], and [NotFound] means the tenant has no such event. *)
Theorem finalize_outcomes sql tenant_id row_id delivered_at w wr db :
  db_wf db -> txn w = Some (wr, db) ->
  exists r w', finalize_for_scope sql tenant_id row_id delivered_at w = Some (r, w') /\
    finalize_effect tenant_id row_id delivered_at w wr db r w'.
Proof.
  intros Hwf Ht. destruct (finalize_returns sql tenant_id row_id delivered_at w) as [[r w'] Hr].
  exists r, w'. split; [exact Hr|]. by eapply finalize_run_effect.
Qed.
End FinalizeOutcomes.
