(* ===== verification/Import.v ===== *)
(** * Import of a legacy event (crates/dovecote-sqlx-sqlite/src/import.rs)

    Insertion of an event with a delivery that is pending or already delivered,
    idempotent on the event's identity and on the delivery's state. *)

From S2P Require Import Prelude Step Utf8 BTree Errors Limits Validation Bounds Values Extension Serialization Event State External SqliteError Tables Queries Sqlite Migration Schema RowHydration Hydrate Canonical Enqueue Finalize.

Definition import_schema_error (error : SchemaError.t) : ImportError.t :=
  match error with
  | SchemaError.MigrationMismatch detail => ImportError.MigrationMismatch detail
  | SchemaError.BusyExhausted operation source => ImportError.BusyExhausted operation source
  | SchemaError.Sql operation source => ImportError.Sql operation source
  end.

(** the function [row_id] *)
Definition import_row_id (value : Z) : Result RowId.t ImportError.t :=
  map_err (fun error => ImportError.serialization (ValidationError.to_string error))
    (RowId.new value).

(** the row of [INSERT INTO dovecote_deliveries (tenant_id, event_row_id, state,
    available_at, attempts, delivered_at) VALUES (?, ?, ?, ?, 0, ?)] *)
Definition imported_row (tenant : string) (event_row_id : Z) (state available_at : string)
    (delivered_at : option string) : Deliveries.row :=
  Deliveries.Row event_row_id tenant state available_at 0 None None None None None delivered_at None
    None.

Section ImportOps.
Context `{TimeLib, SerdeJson, Base64, MimeLib, FluentUri, RustDebug, Env, CatalogEnv}.
Context (tenant_baseline_sql : string).

(** The wildcard arm of the match is for states the enum does not have. *)
Definition insert_delivery (tenant_id : TenantId.t) (event_row_id : Z) (operation_time : string)
    (state : ImportedDeliveryState.t) : M (Result unit ImportError.t) :=
  let '(state_name, delivered_at) :=
    match state with
    | ImportedDeliveryState.Pending => ("pending", None)
    | ImportedDeliveryState.Delivered delivered_at =>
        ("delivered", Some (adapter_format_timestamp delivered_at))
    end in
  try* _ := execute (fun _ => insert_delivery_row
              (imported_row (TenantId.as_str tenant_id) event_row_id state_name operation_time
                 delivered_at))
       else ImportError.sql "insert imported delivery" in
  ret (Ok tt).

(** The code after the insert that returned no row. *)
Definition resolve_import (tenant_id : TenantId.t) (event : NewEvent.t)
    (state : ImportedDeliveryState.t) : M (Result ImportOutcome.t ImportError.t) :=
  let columns := event_columns (NewEvent.content event) in
  try* existing := query (fun _ => find_existing_sql (TenantId.as_str tenant_id)
                            (EventRow.source columns) (EventRow.event_id columns))
       else ImportError.sql "find imported event" in
  match existing with
  | None => ret (Err (ImportError.sql "resolve imported event"
              (SqlxError.Protocol "identity insert returned no row")))
  | Some existing =>
      match import_row_id (ExistingEvent.row_id existing) with
      | Err error => ret (Err error)
      | Ok existing_id =>
          match validate_existing_event existing with
          | Err detail => ret (Err (ImportError.serialization detail))
          | Ok _ =>
              if negb (same_event event existing)
              then ret (Err (ImportError.IdentityConflict existing_id))
              else
                try* delivery := query (fun _ => select_delivery_sql (TenantId.as_str tenant_id)
                                          (ExistingEvent.row_id existing))
                     else ImportError.sql "find imported delivery" in
                match delivery with
                | None => ret (Err (ImportError.MigrationMismatch
                                      "an existing event has no delivery row"))
                | Some delivery =>
                    match matches_import delivery state (ExistingEvent.enqueued_at existing) with
                    | Err detail => ret (Err (ImportError.MigrationMismatch detail))
                    | Ok true => ret (Ok (ImportOutcome.AlreadyImported existing_id))
                    | Ok false => ret (Err (ImportError.ImportConflict existing_id))
                    end
                end
          end
      end
  end.

Definition import_for_scope (tenant_id : TenantId.t) (event : NewEvent.t)
    (state : ImportedDeliveryState.t) : M (Result ImportOutcome.t ImportError.t) :=
  match ImportedDeliveryState.validate state with
  | Err source => ret (Err (ImportError.InvalidState source))
  | Ok _ =>
      try* is_write := transaction_is_write
           else ImportError.sql "inspect import transaction state" in
      if negb is_write then ret (Err ImportError.WriteTransactionRequired)
      else
        try* _ := check_schema_connection tenant_baseline_sql else import_schema_error in
        try* operation_time := call clock else ImportError.sql "read import operation time" in
        match parse_timestamp operation_time with
        | Err detail => ret (Err (ImportError.serialization detail))
        | Ok operation_time =>
            let operation_time := adapter_format_timestamp operation_time in
            let columns := event_columns (NewEvent.content event) in
            try* inserted := execute (insert_event_sql (TenantId.as_str tenant_id) columns
                                        (fun _ => operation_time))
                 else ImportError.sql "insert imported event" in
            match inserted with
            | Some (inserted_row_id, _) =>
                match import_row_id inserted_row_id with
                | Err error => ret (Err error)
                | Ok row_id =>
                    try* _ := insert_delivery tenant_id inserted_row_id operation_time state
                         else (fun e => e) in
                    ret (Ok (ImportOutcome.Imported row_id))
                end
            | None => resolve_import tenant_id event state
            end
        end
  end.
End ImportOps.

(** ** What import does *)

Section ImportSpec.
Context `{TimeLib, SerdeJson, Base64, MimeLib, FluentUri, RustDebug, Env, CatalogEnv}.
Context (sql : string) (tenant_id : TenantId.t) (event : NewEvent.t)
  (state : ImportedDeliveryState.t).

Let tenant := TenantId.as_str tenant_id.
Let columns := event_columns (NewEvent.content event).

(** The event's row and its delivery, inserted under [id] at [at_]. *)
Definition imported_event (id : Z) (at_ : string) : Events.row :=
  new_event_row id tenant columns at_.
Definition delivery_in_state (id : Z) (at_ : string) : Deliveries.row :=
  untouched_row tenant id (imported_columns state).1 at_ (imported_columns state).2.
Definition imported_db (id : Z) (at_ : string) (db : Db) : Db :=
  with_delivery (delivery_in_state id at_) (with_event (imported_event id at_) db).

(** [e] is the stored event of the identity, under [id]. *)
Definition stored_as (id : RowId.t) (db : Db) (e : Events.row) : Prop :=
  e ∈ events db /\ event_identity e = identity tenant_id event /\ Events.row_id e = RowId.get id.

(** What a call may do to the transaction [(wr, db)] of the world [w]. *)
Definition import_effect (w : World) (wr : bool) (db : Db)
    (r : Result ImportOutcome.t ImportError.t) (w' : World) : Prop :=
  committed w' = committed w /\
  match r with
  | Ok (ImportOutcome.Imported id) =>
      wr = true /\ identity tenant_id event ∉ map event_identity (events db) /\
      exists n m t, parse_timestamp (clock n) = Ok t /\ RowId.get id = new_row_id m db /\
        Events.check (imported_event (RowId.get id) (adapter_format_timestamp t)) = true /\
        txn w' = Some (true, imported_db (RowId.get id) (adapter_format_timestamp t) db)
  | Ok (ImportOutcome.AlreadyImported id) =>
      txn w' = txn w /\
      exists e, stored_as id db e /\ row_columns e = columns /\
        delivery_in_state (RowId.get id) (Events.enqueued_at e) ∈ deliveries db
  | Err (ImportError.IdentityConflict id) =>
      txn w' = txn w /\ exists e, stored_as id db e /\ row_columns e <> columns
  | Err (ImportError.ImportConflict id) =>
      txn w' = txn w /\
      exists e d, stored_as id db e /\ row_columns e = columns /\
        d ∈ deliveries db /\ delivery_of tenant (RowId.get id) d = true /\
        d <> delivery_in_state (RowId.get id) (Events.enqueued_at e)
  | Err (ImportError.InvalidState source) =>
      w' = w /\ ImportedDeliveryState.validate state = Err source
  | Err _ =>
      txn w' = txn w \/
      exists n m t, parse_timestamp (clock n) = Ok t /\
        txn w' = Some (true, with_event (imported_event (new_row_id m db)
                                           (adapter_format_timestamp t)) db)
  end.

(** Errors that say nothing about the stored rows. *)
Definition plain_import_error (e : ImportError.t) : Prop :=
  match e with
  | ImportError.IdentityConflict _ | ImportError.ImportConflict _ | ImportError.InvalidState _ => False
  | _ => True
  end.

Lemma sql_plain_import_error op e : plain_import_error (ImportError.sql op e).
Proof. unfold ImportError.sql. by destruct (is_busy e). Qed.

Lemma plain_import_effect w wr db e w' :
  plain_import_error e -> same_tables w w' -> import_effect w wr db (Err e) w'.
Proof. intros He [Hc Ht]. split; [done|]. destruct e; try done; by left. Qed.

Lemma import_row_id_inv id r :
  import_row_id id = r ->
  match r with Ok id' => RowId.get id' = id | Err e => plain_import_error e end.
Proof.
  unfold import_row_id. destruct (RowId.new id) as [id'|] eqn:E; intros <-; simpl; [|done].
  by apply RowId_new_Ok in E as [? _].
Qed.

Lemma delivery_in_state_spec d id at_ :
  delivery_of tenant id d = true ->
  (matches_import (DeliveryRow.of_row d) state at_ = Ok true <-> d = delivery_in_state id at_).
Proof. rewrite delivery_of_spec, matches_import_row. unfold delivery_in_state. by intros [-> ->]. Qed.

Lemma matches_import_Ok row at_ : exists b, matches_import row state at_ = Ok b.
Proof. destruct state; simpl; eauto. Qed.

(** The duplicate branch reads only. *)
Lemma resolve_import_inv w r w' :
  resolve_import tenant_id event state w = Some (r, w') ->
  same_tables w w' /\
  match r with
  | Ok (ImportOutcome.Imported _) => False
  | Err (ImportError.InvalidState _) => False
  | _ => forall w0 wr db, visible w = db -> same_tables w0 w -> import_effect w0 wr db r w'
  end.
Proof.
  unfold resolve_import. intros Hr. run_inv Hr. apply query_inv in Hm as (Hs & _ & Hq).
  assert (Hplain : forall e w', plain_import_error e -> same_tables w w' ->
    same_tables w w' /\ match e with ImportError.InvalidState _ => False
      | _ => forall w0 wr db, visible w = db -> same_tables w0 w -> import_effect w0 wr db (Err e) w' end).
  { intros e w1 He Hs'. split; [done|].
    assert (forall w0 wr db, visible w = db -> same_tables w0 w -> import_effect w0 wr db (Err e) w1)
      by (intros; apply plain_import_effect; [done|by eapply same_tables_trans]).
    by destruct e. }
  destruct r0 as [existing|e]; [|run_inv Hr; apply Hplain; auto using sql_plain_import_error].
  destruct existing as [x|]; [|run_inv Hr; by apply Hplain].
  symmetry in Hq. apply find_existing_columns in Hq as (e & Hin & Hid & Hrow & Hcols & Hat).
  destruct (import_row_id _) as [id|err] eqn:Eid; apply import_row_id_inv in Eid;
    [|run_inv Hr; by apply Hplain].
  assert (Hst : stored_as id (visible w) e) by (split_and!; [done|exact Hid|congruence]).
  destruct (validate_existing_event x) as [[]|]; [|run_inv Hr; by apply Hplain].
  destruct (same_event event x) eqn:Es; cbn [negb] in Hr.
  2: { run_inv Hr. split; [done|]. intros v wr db <- [Hc0 Ht0]. destruct Hs as [Hc Ht].
       split; [congruence|]. split; [congruence|]. exists e. split; [done|]. intros Heq.
       apply not_true_iff_false in Es. apply Es, same_event_columns. by rewrite Hcols. }
  apply same_event_columns in Es. rewrite Hcols in Es.
  run_inv Hr. apply query_inv in Hm as (Hs' & _ & Hq). pose proof (same_tables_trans _ _ _ Hs Hs') as Hs2.
  assert (visible w0 = visible w) as Hv by (unfold visible; destruct Hs as [-> ->]; done).
  rewrite Hv in Hq.
  destruct r0 as [delivery|e']; [|run_inv Hr; apply Hplain; auto using sql_plain_import_error].
  symmetry in Hq. destruct delivery as [row|]; [|run_inv Hr; by apply (Hplain (ImportError.MigrationMismatch _))].
  apply select_delivery_Some in Hq as (d & Hd & Hdel & ->). rewrite <- Eid in Hdel.
  pose proof (delivery_in_state_spec d (RowId.get id) (ExistingEvent.enqueued_at x) Hdel) as Hsp.
  destruct (matches_import_Ok (DeliveryRow.of_row d) (ExistingEvent.enqueued_at x)) as [b Hb].
  rewrite Hb in Hr, Hsp. rewrite Hat in Hsp. destruct Hs2 as [Hc2 Ht2].
  destruct b; run_inv Hr; (split; [done|]); intros w3 wr db <- [Hc3 Ht3];
    (split; [congruence|]); (split; [congruence|]).
  - exists e. split; [done|]. split; [done|]. by rewrite <- (proj1 Hsp eq_refl).
  - exists e, d. split_and!; [done..|]. intros Heq. by apply Hsp in Heq.
Qed.

Lemma import_returns : returns (import_for_scope sql tenant_id event state).
Proof.
  unfold import_for_scope, insert_delivery, resolve_import.
  pose proof (reads_returns _ (check_schema_reads sql)). returns_step.
Qed.

(** The insertion of both rows. *)
Lemma insert_imported_inv w db id at_ (r : Result unit ImportError.t) w' :
  txn w = Some (true, db) ->
  insert_delivery tenant_id id at_ state w = Some (r, w') ->
  committed w' = committed w /\
  match r with
  | Ok _ => txn w' = Some (true, with_delivery (delivery_in_state id at_) db)
  | Err e => plain_import_error e /\ txn w' = txn w
  end.
Proof.
  intros Ht. unfold insert_delivery.
  replace (match state with
           | ImportedDeliveryState.Pending => ("pending", None)
           | ImportedDeliveryState.Delivered delivered_at =>
               ("delivered", Some (adapter_format_timestamp delivered_at))
           end) with (imported_columns state) by by destruct state.
  unfold delivery_in_state. destruct (imported_columns state) as [state_name delivered_at].
  intros Hr. run_inv Hr. apply (execute_inv _ _ _ _ _ _ Ht) in Hm as (Hc & _ & Hx).
  destruct r0 as [[]|e]; run_inv Hr.
  - destruct Hx as (db' & Hd & Ht'). by apply insert_delivery_row_inv in Hd as (-> & _).
  - destruct Hx as [Hx _]. split; [done|]. split; [apply sql_plain_import_error|done].
Qed.

Lemma event_alone_effect w wr db e w' n m t :
  plain_import_error e -> committed w' = committed w -> parse_timestamp (clock n) = Ok t ->
  txn w' = Some (true, with_event (imported_event (new_row_id m db) (adapter_format_timestamp t)) db) ->
  import_effect w wr db (Err e) w'.
Proof. intros He Hc Hp Ht. split; [done|]. destruct e; try done; right; eauto 10. Qed.

Lemma import_run_effect w wr db r w' :
  txn w = Some (wr, db) ->
  import_for_scope sql tenant_id event state w = Some (r, w') ->
  import_effect w wr db r w'.
Proof.
  intros Ht. unfold import_for_scope. intros Hr.
  destruct (ImportedDeliveryState.validate state) as [[]|source] eqn:Ei; [|by run_inv Hr].
  run_inv Hr. apply transaction_is_write_inv in Hm as (Hs & Hw). rewrite Ht in Hw.
  destruct r0 as [b|e]; [subst b|run_inv Hr; by apply plain_import_effect; auto using sql_plain_import_error].
  destruct wr; [|run_inv Hr; by apply plain_import_effect].
  run_inv Hr. apply (reads_inv _ _ _ _ (check_schema_reads sql)) in Hm.
  pose proof (same_tables_trans _ _ _ Hs Hm) as Hs1. clear Hs Hm.
  destruct r0 as [[]|e]; [|run_inv Hr; apply plain_import_effect; [by destruct e|done]].
  run_inv Hr. apply call_inv in Hm as (Hs & _ & Hck).
  pose proof (same_tables_trans _ _ _ Hs1 Hs) as [Hc2 Ht2]. clear Hs1 Hs.
  destruct r0 as [text|e]; [|run_inv Hr; by apply plain_import_effect; auto using sql_plain_import_error].
  destruct (parse_timestamp text) as [t|] eqn:Ep; [|run_inv Hr; by apply plain_import_effect].
  subst text. cbv zeta in Hr. rewrite Ht in Ht2.
  run_inv Hr. apply (execute_inv _ _ _ _ _ _ Ht2) in Hm as (Hc3 & _ & Hx).
  destruct r0 as [inserted|e].
  2: { run_inv Hr. destruct Hx as [Hx _]. apply plain_import_effect; [apply sql_plain_import_error|].
       split; congruence. }
  destruct Hx as (db1 & Hins & Ht3). apply (insert_event_sql_inv tenant_id event) in Hins.
  destruct inserted as [[id at_]|].
  - destruct Hins as (-> & _ & Hchk & -> & Hnew).
    destruct (import_row_id _) as [id|err] eqn:Eid; apply import_row_id_inv in Eid.
    2: { run_inv Hr. eapply event_alone_effect; [done|congruence|exact Ep|exact Ht3]. }
    run_inv Hr. apply (insert_imported_inv _ _ _ _ _ _ Ht3) in Hm as [Hc4 Hx].
    destruct r0 as [[]|e]; run_inv Hr.
    + split; [congruence|]. split; [done|]. split; [done|]. rewrite Eid. eauto 10.
    + destruct Hx as [He Hx]. eapply event_alone_effect; [done|congruence|exact Ep|].
      rewrite Hx. exact Ht3.
  - destruct Hins as [-> _]. assert (Hsw : same_tables w w3) by (split; congruence).
    apply resolve_import_inv in Hr as [Hs4 Hres].
    assert (Hv : visible w3 = db) by (unfold visible; by rewrite Ht3).
    destruct r as [[id|id]|e]; [done|by apply Hres|]. destruct e; try done; by apply Hres.
Qed.
End ImportSpec.

Section ImportOutcomes.
Context `{TimeLib, SerdeJson, Base64, MimeLib, FluentUri, RustDebug, Env, CatalogEnv}.

(** C20: import always returns and commits nothing. [Imported] is answered only
    inside a write transaction that held no event of the identity, which then
    holds the event's row and its delivery, pending or delivered as asked, both
    stamped with the operation time; [AlreadyImported] only when the stored
    event has the same columns and its delivery is exactly the row such an
    import leaves. A stored event that differs is an [IdentityConflict], a
    delivery that differs an [ImportConflict]; neither changes anything. Any
    other error leaves the transaction as it was, or with the event row alone. *)
Theorem import_outcomes sql tenant_id event state w wr db :
  txn w = Some (wr, db) ->
  exists r w', import_for_scope sql tenant_id event state w = Some (r, w') /\
    import_effect tenant_id event state w wr db r w'.
Proof.
  intros Ht. destruct (import_returns sql tenant_id event state w) as [[r w'] Hr].
  exists r, w'. split; [exact Hr|]. by eapply import_run_effect.
Qed.
End ImportOutcomes.

(** ** Import and finalization together *)

Section ImportThenFinalize.
Context `{TimeLib, SerdeJson, Base64, MimeLib, FluentUri, RustDebug, Env, CatalogEnv}.
Context (sql : string) (tenant_id : TenantId.t) (event : NewEvent.t).
(** an engine that answers every statement and a schema the check accepts *)
Context (Hok : forall n, sql_fault n = None) (Hschema : schema_passes sql).

(** Finalization of an untouched import succeeds. *)
Lemma finalize_run w db row_id t instant e :
  db_wf db -> txn w = Some (true, db) ->
  ImportedDeliveryState.delivered t = Ok instant ->
  e ∈ events db -> event_at (TenantId.as_str tenant_id) (RowId.get row_id) e = true ->
  imported_delivery tenant_id row_id (Events.enqueued_at e) "pending" None ∈ deliveries db ->
  exists w', finalize_for_scope sql tenant_id row_id t w
             = Some (Ok (FinalizeOutcome.Finalized row_id), w') /\
    committed w' = committed w /\
    txn w' = Some (true, finalized_db tenant_id row_id t (Events.enqueued_at e) db).
Proof.
  intros Hwf Ht Hv He Hat Hin. unfold finalize_for_scope. rewrite Hv.
  erewrite bind_run by by apply transaction_is_write_run. rewrite Ht. cbn [negb].
  destruct (Hschema (next_tick w)) as (w1 & Hs & Hc1 & Ht1).
  erewrite bind_run by exact Hs. cbv beta iota zeta. simpl in Hc1, Ht1. rewrite Ht in Ht1.
  assert (Hdel : delivery_of (TenantId.as_str tenant_id) (RowId.get row_id)
            (imported_delivery tenant_id row_id (Events.enqueued_at e) "pending" None) = true)
    by by apply delivery_of_spec.
  erewrite bind_run by by apply query_run. cbv beta iota.
  unfold visible at 1. rewrite Ht1, (select_enqueued_at_run _ _ _ e) by done. cbv beta iota.
  erewrite bind_run by by apply query_run. cbv beta iota.
  unfold visible at 1. cbn [next_tick txn].
  rewrite Ht1, (select_delivery_run _ _ _ _ Hwf Hin Hdel). cbv beta iota.
  rewrite (proj2 (canonical_pending_row tenant_id row_id _ _ Hdel)) by done.
  change (bool_decide (DeliveryRow.state (DeliveryRow.of_row (imported_delivery tenant_id row_id
    (Events.enqueued_at e) "pending" None)) = "delivered")) with false. cbn [andb negb].
  erewrite bind_run.
  2: { apply (execute_run Hok _ _ true db); [exact Ht1|]. by apply finalize_sql_run. }
  cbn [Z.eqb Pos.eqb negb]. eexists. split; [reflexivity|]. split; [exact Hc1|done].
Qed.

(** A delivery inserted in one state could have been inserted in another. *)
Lemma insert_imported_other w db state state' id at_ w1 :
  txn w = Some (true, db) ->
  Deliveries.check (delivery_in_state tenant_id state' id at_) = true ->
  insert_delivery tenant_id id at_ state w = Some (Ok tt, w1) ->
  txn w1 = Some (true, with_delivery (delivery_in_state tenant_id state id at_) db) /\
  exists w2, insert_delivery tenant_id id at_ state' w = Some (Ok tt, w2) /\
    committed w2 = committed w /\
    txn w2 = Some (true, with_delivery (delivery_in_state tenant_id state' id at_) db).
Proof.
  intros Ht Hck Hi. pose proof Hi as Hi'.
  apply (insert_imported_inv _ _ _ _ _ _ _ _ Ht) in Hi' as [_ Ht1]. split; [exact Ht1|].
  unfold insert_delivery in *.
  assert (Hrow : forall st, (match st with
           | ImportedDeliveryState.Pending => ("pending", None)
           | ImportedDeliveryState.Delivered delivered_at =>
               ("delivered", Some (adapter_format_timestamp delivered_at))
           end) = imported_columns st) by by destruct st.
  rewrite Hrow in *. unfold delivery_in_state in Hck |- *.
  destruct (imported_columns state) as [n1 d1], (imported_columns state') as [n2 d2].
  run_inv Hi. apply (execute_inv _ _ _ _ _ _ Ht) in Hm as (_ & _ & Hx).
  destruct r as [[]|e]; [|by run_inv Hi]. destruct Hx as (db' & Hins & _).
  erewrite bind_run.
  2: { apply (execute_run Hok _ _ true db tt); [exact Ht|].
       by apply (insert_delivery_row_run _ (imported_row _ _ n2 at_ d2) _ _ Hins). }
  eexists. split; [reflexivity|]. by split.
Qed.

(** A run that inserted the event also does for another state. *)
Lemma import_other_state w wr db state state' id w1 :
  db_wf db -> txn w = Some (wr, db) ->
  ImportedDeliveryState.validate state' = Ok tt ->
  import_for_scope sql tenant_id event state w = Some (Ok (ImportOutcome.Imported id), w1) ->
  exists at_ w2,
    Events.check (imported_event tenant_id event (RowId.get id) at_) = true /\
    txn w1 = Some (true, imported_db tenant_id event state (RowId.get id) at_ db) /\
    import_for_scope sql tenant_id event state' w = Some (Ok (ImportOutcome.Imported id), w2) /\
    committed w2 = committed w /\
    txn w2 = Some (true, imported_db tenant_id event state' (RowId.get id) at_ db).
Proof.
  intros Hwf Ht Hval'. unfold import_for_scope. rewrite Hval'. intros Hr.
  destruct (ImportedDeliveryState.validate state) as [[]|source] eqn:Ei; [|by run_inv Hr].
  run_inv Hr. rewrite (bind_run _ _ _ _ _ Hm).
  apply transaction_is_write_inv in Hm as (Hs & Hw). rewrite Ht in Hw.
  destruct r as [b|e]; [subst b|by run_inv Hr]. destruct wr; [|by run_inv Hr].
  cbn [negb] in Hr |- *. run_inv Hr. rewrite (bind_run _ _ _ _ _ Hm).
  apply (reads_inv _ _ _ _ (check_schema_reads sql)) in Hm.
  pose proof (same_tables_trans _ _ _ Hs Hm) as Hs1. clear Hs Hm.
  destruct r as [[]|e]; [|by run_inv Hr]. run_inv Hr. rewrite (bind_run _ _ _ _ _ Hm).
  apply call_inv in Hm as (Hs & _ & _).
  pose proof (same_tables_trans _ _ _ Hs1 Hs) as [Hc2 Ht2]. clear Hs1 Hs.
  destruct r as [text|e]; [|by run_inv Hr].
  destruct (parse_timestamp text) as [t|]; [|by run_inv Hr]. cbv zeta in Hr |- *. rewrite Ht in Ht2.
  run_inv Hr. rewrite (bind_run _ _ _ _ _ Hm).
  apply (execute_inv _ _ _ _ _ _ Ht2) in Hm as (Hc3 & _ & Hx).
  destruct r as [inserted|e]; [|by run_inv Hr].
  destruct Hx as (db1 & Hins & Ht3). apply (insert_event_sql_inv tenant_id event) in Hins.
  destruct inserted as [[key at_]|]; [|by apply resolve_import_inv in Hr as [_ []]].
  destruct Hins as (_ & -> & Hchk & -> & _).
  destruct (import_row_id key) as [id'|err] eqn:Eid; [|by run_inv Hr].
  apply import_row_id_inv in Eid. rewrite <- Eid in *.
  run_inv Hr. destruct r as [[]|e]; [|by run_inv Hr]. run_inv Hr. simplify_eq.
  apply (insert_imported_other _ _ state state' _ _ _ Ht3) in Hm as (Htw & v & Hi & Hc5 & Ht5).
  - eexists _, v. rewrite (bind_run _ _ _ _ _ Hi). split_and!; [exact Hchk|exact Htw|done|congruence|exact Ht5].
  - by apply (untouched_row_check _ _ _ _ _ Hchk); destruct state'; simpl; eauto.
Qed.

(** The tables of an import, with the delivery as finalization finds it. *)
Lemma finalized_imported_db db id at_ t instant :
  RowId.get id ∉ delivery_keys db ->
  adapter_format_timestamp instant = adapter_format_timestamp t ->
  finalized_db tenant_id id t at_
    (imported_db tenant_id event ImportedDeliveryState.pending (RowId.get id) at_ db)
  = imported_db tenant_id event (ImportedDeliveryState.Delivered instant) (RowId.get id) at_ db.
Proof.
  intros Hnew Hfmt. unfold finalized_db, imported_db, with_delivery, with_event. cbn. f_equal.
  unfold imported_delivery, delivery_in_state. cbn. rewrite Hfmt.
  generalize (adapter_format_timestamp t) as text. intros text.
  unfold delivery_keys in Hnew. induction (deliveries db) as [|d l IH]; cbn.
  - unfold delivery_of. cbn. by rewrite bool_decide_true, Z.eqb_refl.
  - assert (Hd : delivery_of (TenantId.as_str tenant_id) (RowId.get id) d = false).
    { apply not_true_iff_false. rewrite delivery_of_spec. intros [_ Hk]. apply Hnew. rewrite <- Hk. left. }
    destruct (RowId.get id <? Deliveries.event_row_id d); cbn.
    + unfold delivery_of at 1. cbn. rewrite bool_decide_true, Z.eqb_refl by done. cbn. rewrite Hd. f_equal.
      f_equal. rewrite <- (map_id l) at 2. apply map_ext_in. intros x Hx.
      replace (delivery_of _ _ x) with false; [done|]. symmetry. apply not_true_iff_false.
      rewrite delivery_of_spec. intros [_ Hk]. apply Hnew. rewrite <- Hk. right.
      by apply list_elem_of_fmap_2, list_elem_of_In.
    + rewrite Hd. f_equal. apply IH. set_solver.
Qed.

(** C23: two ways to migrate a delivered event give the same tables: importing it
    pending and finalizing it at [t] leaves the transaction exactly as importing
    it as delivered at [t] would. So a migration may finalize later what it
    imported before the legacy publisher finished. *)
Theorem import_then_finalize `{!SqliteTime} {TL : TimeLaws} {QL : SqliteLaws} w wr db t instant id w1 :
  db_wf db -> txn w = Some (wr, db) ->
  ImportedDeliveryState.delivered t = Ok instant ->
  import_for_scope sql tenant_id event ImportedDeliveryState.pending w
    = Some (Ok (ImportOutcome.Imported id), w1) ->
  exists w2 w3,
    finalize_for_scope sql tenant_id id t w1 = Some (Ok (FinalizeOutcome.Finalized id), w2) /\
    import_for_scope sql tenant_id event instant w = Some (Ok (ImportOutcome.Imported id), w3) /\
    committed w3 = committed w2 /\ txn w3 = txn w2.
Proof.
  intros Hwf Ht Hv Hr. pose proof Hv as Hd.
  unfold ImportedDeliveryState.delivered in Hd. destruct (canonicalize_instant _ t) as [u|] eqn:Eu; [|done].
  injection Hd as <-. apply canonicalize_instant_Ok in Eu as [Hp ->].
  assert (Hutc : to_utc (to_utc t) = to_utc t) by (apply utc_unique; by rewrite ?to_utc_offset, ?to_utc_nanos).
  assert (Hval : ImportedDeliveryState.validate (ImportedDeliveryState.Delivered (to_utc t)) = Ok tt).
  { apply validate_instant_Ok. by apply portable_to_utc. }
  destruct (import_run_effect _ _ _ _ _ _ _ _ _ Ht Hr) as (Hc1 & _ & Hnew & _ & m & _ & _ & Hid & _).
  destruct (import_other_state _ _ _ _ _ _ _ Hwf Ht Hval Hr) as (at_ & w3 & Hck & Ht1 & Hr3 & Hc3 & Ht3).
  destruct (new_row_id_fresh m db) as [_ Hfresh]. rewrite <- Hid in Hfresh.
  assert (Hwf1 : db_wf (imported_db tenant_id event ImportedDeliveryState.pending (RowId.get id) at_ db)).
  { apply insert_pair_wf; try done. by apply (untouched_row_check _ _ _ _ _ Hck); auto. }
  destruct (finalize_run w1 _ id t (ImportedDeliveryState.Delivered (to_utc t))
              (imported_event tenant_id event (RowId.get id) at_) Hwf1 Ht1 Hv) as (w2 & Hr2 & Hc2 & Ht2).
  - apply elem_of_insert_row. by left.
  - unfold event_at. cbn. by rewrite bool_decide_true, Z.eqb_refl.
  - apply elem_of_insert_row. by left.
  - exists w2, w3. split_and!; [exact Hr2|exact Hr3|congruence|].
    rewrite Ht2, Ht3. do 2 f_equal. symmetry. apply finalized_imported_db.
    + intros Hin. destruct Hwf as (_ & _ & _ & _ & _ & Hfk).
      apply list_elem_of_fmap in Hin as (d & Hk & Hd). rewrite Forall_forall in Hfk.
      destruct (Hfk _ Hd) as (e & He & Hke & _). rewrite Forall_forall in Hfresh.
      assert (RowId.get id < RowId.get id); [|lia]. apply Hfresh.
      rewrite Hk, <- Hke. apply list_elem_of_fmap. by exists e.
    + unfold adapter_format_timestamp. by rewrite Hutc.
Qed.
End ImportThenFinalize.
