(* ===== verification/Lifecycle.v ===== *)
(** * Claims (crates/dovecote-sqlx-sqlite/src/lifecycle.rs)

    Selection of eligible deliveries, preparation of tokens and events, and the
    claiming update, in one immediate transaction that is rolled back on every
    error and retried a bounded number of times when the database is busy. *)

From S2P Require Import Prelude Step Utf8 BTree Errors Limits Validation Bounds Values Extension Serialization Event State External SqliteError Tables Queries Sqlite Migration RowHydration Hydrate Enqueue Claims.

(** ** The SQL statements *)

(** [(d.state = 'pending' AND d.available_at <= ?) OR (d.state = 'claimed' AND
    d.claim_expires_at <= ?)] *)
Definition eligible (now : string) (d : Deliveries.row) : bool :=
  (bool_decide (Deliveries.state d = "pending") && String.leb (Deliveries.available_at d) now)
  || (bool_decide (Deliveries.state d = "claimed")
      && is_some_and (Deliveries.claim_expires_at d) (fun expiry => String.leb expiry now)).

(** [CLAIM_SQL] ([tenant] absent) and [SCOPED_CLAIM_SQL] *)
Definition claim_sql (tenant : option string) (now : string) (limit : Z) (db : Db) :
    list DurableRow.t :=
  take (Z.to_nat limit)
    (concat (map (fun d =>
       map (fun e => joined_row e d)
         (List.filter (fun e => join_condition d e && eligible now d
                           && is_none_or tenant (fun t => bool_decide (Events.tenant_id e = t)))
            (events db))) (deliveries db))).

(** [UPDATE dovecote_deliveries SET state = 'claimed', ... RETURNING
    claim_expires_at] *)
Definition claim_update_sql `{Env} (attempts : Z) (token : bytes) (worker now : string)
    (lease_ms : Z) (tenant : string) (event_row_id : Z) (db : Db) :
    Result (option string * Db) SqlxError.t :=
  let expiry := strftime now (seconds_modifier lease_ms) in
  let? updated :=
    update_rows
      (fun r => bool_decide (Deliveries.tenant_id r = tenant)
                && (Deliveries.event_row_id r =? event_row_id)
                && (bool_decide (Deliveries.state r = "pending")
                    || bool_decide (Deliveries.state r = "claimed")))
      (fun r => Ok (set_claimed attempts token worker expiry r)) (deliveries db) in
  Ok (if updated.2 =? 0 then None else expiry, MkDb (events db) updated.1 (tables db)).

(** ** The operation *)

(** a candidate ready to be claimed *)
Record Prepared `{TimeLib} : Type := MkPrepared {
  p_row_id : RowId.t;
  p_event_row_id : Z;
  p_tenant_id : TenantId.t;
  p_event : StoredEvent.t;
  p_attempts : AttemptCount.t;
  p_token : bytes;
}.

(** [ClaimRequest] *)
Record ClaimRequest : Type := MkClaimRequest {
  r_tenant_id : option TenantId.t;
  r_worker : WorkerId.t;
  r_lease_for : Lease.t;
  r_limit : Limit.t;
}.

Section Claim.
Context `{TimeLib, SerdeJson, Base64, MimeLib, FluentUri, RustDebug, Env}.

Definition database_time : M (Result string SqlxError.t) := call clock.

Definition fill : M (Result bytes EntropyError) :=
  fun w => Some (entropy (draws w), MkWorld (committed w) (txn w) (tick w) (S (draws w))).

(** The unbounded loop of [fresh_token], with [fuel] draws. *)
Fixpoint fresh_token (fuel : nat) (previous : option bytes) (used : list bytes) :
    M (Result bytes EntropyError) :=
  match fuel with
  | O => fun _ => None
  | S fuel =>
      try* token := fill else (fun e => e) in
      if negb (bool_decide (previous = Some token))
         && forallb (fun value => negb (bool_decide (value = token))) used
      then ret (Ok token)
      else fresh_token fuel previous used
  end.

Definition rollback_claim {A} (error : ClaimError.t) : M (Result A ClaimError.t) :=
  let* _ := rollback in ret (Err error).

(** The body of the loop over the candidates. *)
Definition prepare_candidate (candidate : DurableRow.t) (used_tokens : list bytes) :
    M (Result Prepared ClaimError.t) :=
  match RowId.new (DurableRow.row_id candidate) with
  | Err error => rollback_claim (ClaimError.serialization (ValidationError.to_string error))
  | Ok row_id =>
    match DurableRow.attempts candidate with
    | None => rollback_claim (ClaimError.MigrationMismatch
                                "eligible delivery row has no attempts")
    | Some attempts =>
      match checked_add i64_max attempts 1 with
      | None => rollback_claim (ClaimError.CounterOverflow row_id)
      | Some attempts =>
        match AttemptCount.new attempts with
        | Err error => rollback_claim (ClaimError.serialization (ValidationError.to_string error))
        | Ok attempts =>
          let* token := fresh_token entropy_fuel (DurableRow.claim_token candidate) used_tokens in
          match token with
          | Err source => rollback_claim (ClaimError.EntropyUnavailable source)
          | Ok token =>
            match hydrate_event (event_row candidate) with
            | Err error => rollback_claim (ClaimError.serialization error)
            | Ok event =>
              match TenantId.new (DurableRow.tenant_id candidate) with
              | Err error =>
                  rollback_claim (ClaimError.serialization (ValidationError.to_string error))
              | Ok tenant_id =>
                  ret (Ok (MkPrepared _ row_id (DurableRow.row_id candidate) tenant_id event
                             attempts token))
              end
            end
          end
        end
      end
    end
  end.

Fixpoint prepare (candidates : list DurableRow.t) (used_tokens : list bytes) :
    M (Result (list Prepared) ClaimError.t) :=
  match candidates with
  | [] => ret (Ok [])
  | candidate :: candidates =>
      try* p := prepare_candidate candidate used_tokens else (fun e => e) in
      try* rest := prepare candidates (used_tokens ++ [p_token p]) else (fun e => e) in
      ret (Ok (p :: rest))
  end.

(** The body of the loop over the prepared candidates. *)
Definition claim_prepared (worker : WorkerId.t) (operation_time : string) (lease_ms : Z)
    (p : Prepared) : M (Result ClaimedEvent.t ClaimError.t) :=
  let* expiry := execute (fun _ =>
      claim_update_sql (AttemptCount.get (p_attempts p)) (p_token p) (WorkerId.as_str worker)
        operation_time lease_ms (TenantId.as_str (p_tenant_id p)) (p_event_row_id p)) in
  match expiry with
  | Ok None => rollback_claim (ClaimError.sql "update claimed delivery"
                 (SqlxError.Protocol "claim candidate disappeared while writer lock was held"))
  | Err source => rollback_claim (ClaimError.sql "update claimed delivery" source)
  | Ok (Some expiry) =>
      match parse_timestamp expiry with
      | Err error => rollback_claim (ClaimError.serialization error)
      | Ok expiry =>
          match ClaimedEvent.new (p_tenant_id p) (p_row_id p) (p_event p) (p_attempts p)
                  (ClaimToken.from_bytes (p_token p)) worker expiry with
          | Err error => rollback_claim (ClaimError.serialization (ValidationError.to_string error))
          | Ok claimed_event => ret (Ok claimed_event)
          end
      end
  end.

Fixpoint claim_all (worker : WorkerId.t) (operation_time : string) (lease_ms : Z)
    (prepared : list Prepared) : M (Result (list ClaimedEvent.t) ClaimError.t) :=
  match prepared with
  | [] => ret (Ok [])
  | p :: prepared =>
      try* event := claim_prepared worker operation_time lease_ms p else (fun e => e) in
      try* rest := claim_all worker operation_time lease_ms prepared else (fun e => e) in
      ret (Ok (event :: rest))
  end.

Definition claim_once (request : ClaimRequest) (busy : BusyConfig.t) :
    M (Result (list ClaimedEvent.t) ClaimError.t) :=
  match checked_milliseconds (Lease.get (r_lease_for request)) with
  | Err detail => ret (Err (ClaimError.serialization detail))
  | Ok lease_ms =>
      try* _ := begin_immediate busy
           else ClaimError.sql "begin immediate claim transaction" in
      let* operation_time := database_time in
      match operation_time with
      | Err source => rollback_claim (ClaimError.sql "read claim operation time" source)
      | Ok operation_time =>
          let* candidates := query (fun _ =>
              claim_sql (option_map TenantId.as_str (r_tenant_id request)) operation_time
                (Limit.get (r_limit request))) in
          match candidates with
          | Err source => rollback_claim (ClaimError.sql "select claim candidates" source)
          | Ok candidates =>
              try* prepared := prepare candidates [] else (fun e => e) in
              try* claimed := claim_all (r_worker request) operation_time lease_ms prepared
                   else (fun e => e) in
              try* _ := commit_transaction else ClaimError.sql "commit claim transaction" in
              ret (Ok claimed)
          end
      end
  end.

(** The retry loop of [claim_with_entropy_scoped] with [n] retries left. *)
Fixpoint claim_loop (request : ClaimRequest) (busy : BusyConfig.t) (n : nat) :
    M (Result (list ClaimedEvent.t) ClaimError.t) :=
  let* result := claim_once request busy in
  match result with
  | Err error =>
      match ClaimError.busy_source error, n with
      | Some _, S n => claim_loop request busy n
      | Some _, O => ret (Err (ClaimError.into_busy_exhausted error))
      | None, _ => ret (Err error)
      end
  | Ok claimed => ret (Ok claimed)
  end.

Definition claim_for_scope (tenant_id : option TenantId.t) (worker : WorkerId.t)
    (lease_for : Lease.t) (limit : Limit.t) (busy : BusyConfig.t) :
    M (Result (list ClaimedEvent.t) ClaimError.t) :=
  match validate_busy_config busy with
  | Err detail => ret (Err (ClaimError.Configuration detail))
  | Ok _ => claim_loop (MkClaimRequest tenant_id worker lease_for limit) busy
              (BusyConfig.retries busy)
  end.
End Claim.

(** ** The candidates of a claim *)

(** The order of the stored times, which are texts. *)
Definition text_le (a b : string) : Prop := String.leb a b = true.

#[global] Instance text_le_dec : RelDecision text_le.
Proof. intros a b. unfold text_le. apply _. Defined.

(** The deliveries a claim takes: the first [limit] of the scope that are due, in
    ascending row order. Times are texts, compared byte by byte. *)
Definition chosen (tenant : option string) (now : string) (limit : Z) (db : Db) :
    list Deliveries.row :=
  take (Z.to_nat limit)
    (List.filter (fun d => bool_decide (due text_le tenant now [] d))
       (deliveries db)).

Lemma eligible_due tenant now d :
  eligible now d && in_scope tenant d
  = bool_decide (due text_le tenant now [] d).
Proof.
  apply eq_bool_prop_intro. rewrite !Is_true_true, bool_decide_eq_true.
  unfold due, in_scope, eligible, text_le.
  rewrite andb_true_iff, orb_true_iff, !andb_true_iff, !bool_decide_eq_true.
  destruct tenant, (Deliveries.claim_expires_at d); simpl; rewrite ?bool_decide_eq_true;
    intuition (congruence || set_solver).
Qed.

Lemma chosen_eligible tenant now limit db :
  chosen tenant now limit db
  = take (Z.to_nat limit)
      (List.filter (fun d => eligible now d && in_scope tenant d) (deliveries db)).
Proof. unfold chosen. f_equal. apply filter_ext. intros d. symmetry. apply eligible_due. Qed.

Section Candidates.

Definition candidate_of (db : Db) (d : Deliveries.row) (c : DurableRow.t) : Prop :=
  exists e, e ∈ events db /\ join_condition d e = true /\ c = joined_row e d.

Lemma claim_sql_chosen tenant now limit db :
  db_wf db ->
  Forall2 (candidate_of db) (chosen tenant now limit db) (claim_sql tenant now limit db).
Proof.
  intros Hwf. rewrite chosen_eligible. unfold claim_sql. apply Forall2_take.
  match goal with |- Forall2 ?R (List.filter ?p _) (concat (map ?g _)) =>
    enough (Hg : forall ds, Forall (fun d => d ∈ deliveries db) ds ->
                   Forall2 R (List.filter p ds) (concat (map g ds)))
      by (apply Hg, Forall_forall; done) end.
  intros ds. induction ds as [|d ds IH]; intros Hin; simpl; [constructor|].
  apply Forall_cons in Hin as [Hd Hin].
  destruct (joined_events db d (eligible now d)
              (fun e => is_none_or tenant (fun t => bool_decide (Events.tenant_id e = t)))
              Hwf Hd) as (e & He & Hj & ->).
  assert (Hs : is_none_or tenant (fun t => bool_decide (Events.tenant_id e = t)) = in_scope tenant d).
  { unfold in_scope. apply join_condition_spec in Hj as [Ht _].
    destruct tenant; simpl; [by rewrite Ht|done]. }
  rewrite Hs. destruct (eligible now d && in_scope tenant d); simpl; [|by apply IH].
  constructor; [|by apply IH]. by exists e.
Qed.

Lemma sqlite_chosen_sorted tenant now limit db :
  db_wf db -> StronglySorted Z.lt (map Deliveries.event_row_id (chosen tenant now limit db)).
Proof. intros Hwf. apply sorted_take, sorted_filter, Hwf. Qed.

Lemma sqlite_chosen_spec tenant now limit db d :
  d ∈ chosen tenant now limit db ->
  d ∈ deliveries db /\ eligible now d = true /\ in_scope tenant d = true.
Proof.
  rewrite chosen_eligible. intros Hd. apply elem_of_take in Hd as (i & Hi & _).
  apply list_elem_of_lookup_2, list_elem_of_In, filter_In in Hi as [Hi Hp]. bools.
  by rewrite list_elem_of_In.
Qed.
End Candidates.

(** ** One attempt *)

Section ClaimOnce.
Context `{TimeLib, SerdeJson, Base64, MimeLib, FluentUri, RustDebug, Env}.

(** The transaction is gone and nothing was committed. *)
Definition aborted (w w' : World) : Prop := committed w' = committed w /\ txn w' = None.

Lemma aborted_trans w1 w2 w3 : same_tables w1 w2 -> aborted w2 w3 -> aborted w1 w3.
Proof. unfold same_tables, aborted. intuition congruence. Qed.

Lemma rollback_claim_inv {A} e w (r : Result A ClaimError.t) w' :
  rollback_claim e w = Some (r, w') -> r = Err e /\ aborted w w'.
Proof.
  unfold rollback_claim, bind, rollback, ret. by intros [= <- <-].
Qed.

Lemma fresh_token_inv fuel previous used w r w' :
  fresh_token fuel previous used w = Some (r, w') ->
  same_tables w w' /\
  match r with
  | Ok t => previous <> Some t /\ t ∉ used /\ exists n, entropy n = Ok t
  | Err e => exists n, entropy n = Err e
  end.
Proof.
  revert w. induction fuel as [|fuel IH]; intros w; simpl; [done|]. intros Hr.
  apply bind_inv in Hr as (t & w1 & Hf & Hr). unfold fill in Hf. injection Hf as <- <-.
  destruct (entropy (draws w)) as [t|e] eqn:Ee; [|apply ret_inv in Hr as [-> ->]; split; eauto; done].
  destruct (negb _ && forallb _ used) eqn:Ec.
  - apply ret_inv in Hr as [-> ->]. split; [done|]. apply andb_true_iff in Ec as [Hp Hu].
    apply negb_true_iff, bool_decide_eq_false in Hp. split_and!; [done| |eauto].
    intros Hin. rewrite forallb_forall in Hu. apply list_elem_of_In, Hu in Hin.
    by rewrite bool_decide_true in Hin.
  - apply IH in Hr as [Hs Hr]. by split.
Qed.

(** What a prepared entry records of its candidate. *)
Record prepared_from (c : DurableRow.t) (p : Prepared) : Prop := {
  pf_row_id : RowId.get (p_row_id p) = DurableRow.row_id c;
  pf_event_row_id : p_event_row_id p = DurableRow.row_id c;
  pf_tenant : TenantId.new (DurableRow.tenant_id c) = Ok (p_tenant_id p);
  pf_event : hydrate_event (event_row c) = Ok (p_event p);
  pf_attempts : exists a, DurableRow.attempts c = Some a /\
                  AttemptCount.get (p_attempts p) = a + 1 /\ a + 1 <= i64_max;
  pf_token : DurableRow.claim_token c <> Some (p_token p);
}.

Lemma prepare_candidate_inv c used w r w' :
  prepare_candidate c used w = Some (r, w') ->
  match r with
  | Ok p => same_tables w w' /\ prepared_from c p /\ p_token p ∉ used
  | Err _ => aborted w w'
  end.
Proof.
  unfold prepare_candidate.
  destruct (RowId.new (DurableRow.row_id c)) as [row_id|ve] eqn:Eid.
  2: { intros Hr. by apply rollback_claim_inv in Hr as [-> ?]. }
  destruct (DurableRow.attempts c) as [a|] eqn:Ea.
  2: { intros Hr. by apply rollback_claim_inv in Hr as [-> ?]. }
  destruct (checked_add i64_max a 1) as [a1|] eqn:Eadd.
  2: { intros Hr. by apply rollback_claim_inv in Hr as [-> ?]. }
  destruct (AttemptCount.new a1) as [attempts|ve] eqn:Eat.
  2: { intros Hr. by apply rollback_claim_inv in Hr as [-> ?]. }
  intros Hr. run_inv Hr. apply fresh_token_inv in Hm as [Hs Ht].
  destruct r0 as [token|e].
  2: { apply rollback_claim_inv in Hr as [-> ?]. by eapply aborted_trans. }
  destruct (hydrate_event (event_row c)) as [event|e] eqn:Eh.
  2: { apply rollback_claim_inv in Hr as [-> ?]. by eapply aborted_trans. }
  destruct (TenantId.new (DurableRow.tenant_id c)) as [tenant|e] eqn:Et.
  2: { apply rollback_claim_inv in Hr as [-> ?]. by eapply aborted_trans. }
  run_inv Hr. destruct Ht as (Hp & Hu & _). split_and!; [done| |done].
  apply RowId_new_Ok in Eid as [Hid _]. apply checked_add_Some in Eadd as [-> Hle].
  apply AttemptCount_new_Ok in Eat as [Hat _]. constructor; simpl; eauto.
Qed.

Lemma prepare_inv cs used w r w' :
  prepare cs used w = Some (r, w') ->
  match r with
  | Ok ps => same_tables w w' /\ Forall2 prepared_from cs ps /\
             NoDup (map p_token ps) /\ (forall p, p ∈ ps -> p_token p ∉ used)
  | Err _ => aborted w w'
  end.
Proof.
  revert used w r w'. induction cs as [|c cs IH]; simpl; intros used w r w' Hr.
  { run_inv Hr. repeat split; try constructor. intros p Hp. set_solver. }
  run_inv Hr. apply prepare_candidate_inv in Hm.
  destruct r0 as [p|e]; [|by run_inv Hr]. destruct Hm as (Hs & Hp & Hu).
  run_inv Hr. apply IH in Hm. destruct r0 as [ps|e]; run_inv Hr.
  - destruct Hm as (Hs' & Hf & Hnd & Hus). split_and!.
    + by eapply same_tables_trans.
    + by constructor.
    + constructor; [|done]. intros Hin. apply list_elem_of_fmap in Hin as (q & Hq & Hin).
      apply (Hus q Hin). rewrite <- Hq. set_solver.
    + intros q Hq. apply elem_of_cons in Hq as [->|Hq]; [done|]. specialize (Hus q Hq). set_solver.
  - by eapply aborted_trans.
Qed.

(** The claiming update of one prepared entry on one row. *)
Definition claim_row (worker : WorkerId.t) (now : string) (lease_ms : Z) (d : Deliveries.row)
    (p : Prepared) : Deliveries.row :=
  if bool_decide (Deliveries.tenant_id d = TenantId.as_str (p_tenant_id p))
     && (Deliveries.event_row_id d =? p_event_row_id p)
     && (bool_decide (Deliveries.state d = "pending")
         || bool_decide (Deliveries.state d = "claimed"))
  then set_claimed (AttemptCount.get (p_attempts p)) (p_token p) (WorkerId.as_str worker)
         (strftime now (seconds_modifier lease_ms)) d
  else d.

(** What a returned claim records of its prepared entry. *)
Record claimed_from (worker : WorkerId.t) (now : string) (lease_ms : Z) (p : Prepared)
    (ev : ClaimedEvent.t) : Prop := {
  cf_tenant : ClaimedEvent.tenant_id ev = p_tenant_id p;
  cf_row_id : ClaimedEvent.row_id ev = p_row_id p;
  cf_event : ClaimedEvent.event ev = p_event p;
  cf_attempts : ClaimedEvent.attempts ev = p_attempts p;
  cf_token : ClaimedEvent.claim_token ev = ClaimToken.from_bytes (p_token p);
  cf_worker : ClaimedEvent.claimed_by ev = worker;
  cf_expiry : exists text t, strftime now (seconds_modifier lease_ms) = Some text /\
                parse_timestamp text = Ok t /\
                canonicalize_instant "claim_expires_at" t = Ok (ClaimedEvent.claim_expires_at ev);
}.

Lemma claim_prepared_inv worker now lease_ms p w wr db r w' :
  txn w = Some (wr, db) -> claim_prepared worker now lease_ms p w = Some (r, w') ->
  match r with
  | Ok ev => committed w' = committed w /\ claimed_from worker now lease_ms p ev /\
      checks_kept (fun d => claim_row worker now lease_ms d p) (deliveries db) /\
      txn w' = Some (true, MkDb (events db)
                 (map (fun d => claim_row worker now lease_ms d p) (deliveries db)) (tables db))
  | Err _ => aborted w w'
  end.
Proof.
  intros Ht. unfold claim_prepared. intros Hr. run_inv Hr.
  apply (execute_inv _ _ _ _ _ _ Ht) in Hm as (Hc & _ & Hx).
  assert (Habort : forall e, rollback_claim e w0 = Some (r, w') ->
            match r with Ok _ => False | Err _ => aborted w w' end).
  { intros e He. apply rollback_claim_inv in He as [-> [? ?]]. split; congruence. }
  destruct r0 as [[expiry|]|e]; [|apply Habort in Hr; by destruct r..].
  destruct (parse_timestamp expiry) as [t|e] eqn:Ep; [|apply Habort in Hr; by destruct r].
  unfold ClaimedEvent.new in Hr.
  destruct (canonicalize_instant _ t) as [u|e] eqn:Eu; [|apply Habort in Hr; by destruct r].
  run_inv Hr. destruct Hx as (db' & Hu & Ht'). unfold claim_update_sql in Hu.
  destruct (update_rows _ _ _) as [[ds n]|e] eqn:Er; [|done].
  apply update_rows_map in Er as (-> & _ & Hck). simpl in Hu.
  destruct (n =? 0); [done|]. injection Hu as He <-.
  split_and!; [done| | |done].
  - constructor; try done. simpl. eauto.
  - intros d Hd Hc'. unfold claim_row. case_match eqn:Ek; [by apply Hck|done].
Qed.

(** The rows after the updates of a whole batch. *)
Definition claim_rows (worker : WorkerId.t) (now : string) (lease_ms : Z) (ps : list Prepared)
    (d : Deliveries.row) : Deliveries.row :=
  fold_left (claim_row worker now lease_ms) ps d.

Lemma claim_all_inv worker now lease_ms ps w wr db r w' :
  txn w = Some (wr, db) -> claim_all worker now lease_ms ps w = Some (r, w') ->
  match r with
  | Ok evs => committed w' = committed w /\ Forall2 (claimed_from worker now lease_ms) ps evs /\
      checks_kept (claim_rows worker now lease_ms ps) (deliveries db) /\
      exists wr', txn w' = Some (wr', MkDb (events db)
                 (map (claim_rows worker now lease_ms ps) (deliveries db)) (tables db))
  | Err _ => aborted w w'
  end.
Proof.
  revert w wr db r w'. induction ps as [|p ps IH]; simpl; intros w wr db r w' Ht Hr.
  { run_inv Hr. split_and!; [done|constructor|by intros d|]. exists wr. rewrite Ht. destruct db.
    simpl. unfold claim_rows. simpl. by rewrite map_id. }
  run_inv Hr. apply (claim_prepared_inv _ _ _ _ _ _ _ _ _ Ht) in Hm.
  destruct r0 as [ev|e]; [|by run_inv Hr]. destruct Hm as (Hc & Hcf & Hk1 & Ht1).
  run_inv Hr. apply (IH _ _ _ _ _ Ht1) in Hm. destruct r0 as [evs|e]; run_inv Hr.
  - destruct Hm as (Hc' & Hf & Hk2 & wr' & Ht2). split_and!; [congruence|by constructor| |].
    { intros d Hd Hck. apply (Hk2 (claim_row worker now lease_ms d p)); [|by apply Hk1].
      simpl. apply list_elem_of_fmap. by exists d. }
    exists wr'. rewrite Ht2. simpl. by rewrite map_map.
  - destruct Hm as [Hc' Hn]. split; congruence.
Qed.

(** A row is updated by its own entry only. *)
Lemma claim_row_keeps worker now lease_ms d p :
  let d' := claim_row worker now lease_ms d p in
  Deliveries.event_row_id d' = Deliveries.event_row_id d /\
  Deliveries.tenant_id d' = Deliveries.tenant_id d.
Proof. unfold claim_row. by case_match. Qed.

Lemma claim_rows_keeps worker now lease_ms ps d :
  let d' := claim_rows worker now lease_ms ps d in
  Deliveries.event_row_id d' = Deliveries.event_row_id d /\
  Deliveries.tenant_id d' = Deliveries.tenant_id d.
Proof.
  unfold claim_rows. revert d. induction ps as [|p ps IH]; intros d; simpl; [done|].
  destruct (claim_row_keeps worker now lease_ms d p) as [H1' H2'].
  destruct (IH (claim_row worker now lease_ms d p)). split; congruence.
Qed.

Lemma claim_rows_other worker now lease_ms ps d :
  Deliveries.event_row_id d ∉ map p_event_row_id ps ->
  claim_rows worker now lease_ms ps d = d.
Proof.
  unfold claim_rows. induction ps as [|p ps IH]; simpl; intros Hn; [done|].
  assert (claim_row worker now lease_ms d p = d) as ->.
  { unfold claim_row. rewrite (proj2 (Z.eqb_neq _ _)) by set_solver.
    by rewrite andb_false_r. }
  apply IH. set_solver.
Qed.

Lemma claim_rows_own worker now lease_ms ps d p :
  NoDup (map p_event_row_id ps) -> p ∈ ps -> Deliveries.event_row_id d = p_event_row_id p ->
  Deliveries.tenant_id d = TenantId.as_str (p_tenant_id p) ->
  Deliveries.state d = "pending" \/ Deliveries.state d = "claimed" ->
  claim_rows worker now lease_ms ps d
  = set_claimed (AttemptCount.get (p_attempts p)) (p_token p) (WorkerId.as_str worker)
      (strftime now (seconds_modifier lease_ms)) d.
Proof.
  intros Hnd Hin Hk Ht Hst. unfold claim_rows. revert Hnd Hin.
  induction ps as [|q ps IH]; simpl; intros Hnd Hin; [set_solver|].
  inversion Hnd as [|? ? Hq Hnd']; subst. apply elem_of_cons in Hin as [->|Hin].
  - assert (claim_row worker now lease_ms d q = set_claimed (AttemptCount.get (p_attempts q))
      (p_token q) (WorkerId.as_str worker) (strftime now (seconds_modifier lease_ms)) d) as Hc.
    { unfold claim_row. rewrite (bool_decide_true (Deliveries.tenant_id d = _)) by done.
      rewrite (proj2 (Z.eqb_eq _ _)) by done.
      destruct Hst as [Hst|Hst]; rewrite Hst; [|rewrite orb_comm];
        by rewrite bool_decide_true by done. }
    rewrite Hc. apply (claim_rows_other worker now lease_ms). simpl. by rewrite Hk.
  - assert (claim_row worker now lease_ms d q = d) as ->; [|by apply IH].
    unfold claim_row. rewrite (proj2 (Z.eqb_neq _ _)); [by rewrite andb_false_r|].
    intros Heq. apply Hq. rewrite <- Heq, Hk. apply list_elem_of_fmap. eauto.
Qed.
End ClaimOnce.

(** ** The whole claim *)

Section ClaimSpec.
Context `{TimeLib, SerdeJson, Base64, MimeLib, FluentUri, RustDebug, Env}.
Context (request : ClaimRequest).

Let tenant := option_map TenantId.as_str (r_tenant_id request).
Let limit := Limit.get (r_limit request).
Let worker := r_worker request.

(** A successful attempt on the tables [db]. *)
Definition claimed_on (db : Db) (evs : list ClaimedEvent.t) (db' : Db) : Prop :=
  exists n lease_ms ps,
    checked_milliseconds (Lease.get (r_lease_for request)) = Ok lease_ms /\
    Forall2 prepared_from (claim_sql tenant (clock n) limit db) ps /\
    NoDup (map p_token ps) /\
    Forall2 (claimed_from worker (clock n) lease_ms) ps evs /\
    checks_kept (claim_rows worker (clock n) lease_ms ps) (deliveries db) /\
    db' = MkDb (events db) (map (claim_rows worker (clock n) lease_ms ps) (deliveries db))
            (tables db).

Lemma claim_once_inv busy w r w' :
  txn w = None -> claim_once request busy w = Some (r, w') ->
  txn w' = None /\
  exists db, foreign_only (committed w) db /\
    match r with
    | Ok evs => claimed_on db evs (committed w')
    | Err _ => committed w' = db
    end.
Proof.
  intros Ht. unfold claim_once.
  destruct (checked_milliseconds _) as [lease_ms|] eqn:El.
  2: { intros Hr. run_inv Hr. split; [done|]. exists (committed w). split; [constructor|done]. }
  intros Hr. run_inv Hr. apply begin_immediate_inv in Hm.
  destruct r0 as [[]|e].
  2: { run_inv Hr. destruct Hm as [Hc Ht']. split; [congruence|]. exists (committed w).
       split; [constructor|done]. }
  destruct Hm as (n & Hc & Ht0).
  assert (Hf : foreign_only (committed w) (committed w0)) by (rewrite Hc; repeat constructor).
  assert (Habort : forall w1 w2, same_tables w0 w1 -> aborted w1 w2 ->
            txn w2 = None /\ committed w2 = committed w0).
  { intros w1 w2 [? ?] [? ?]. split; congruence. }
  run_inv Hr. apply call_inv in Hm as (Hs1 & _ & Hnow).
  destruct r0 as [now|e].
  2: { apply rollback_claim_inv in Hr as [-> Ha]. destruct (Habort _ _ Hs1 Ha). eauto. }
  run_inv Hr. apply query_inv in Hm as (Hs2 & _ & Hq).
  pose proof (same_tables_trans _ _ _ Hs1 Hs2) as Hs3.
  destruct r0 as [cands|e].
  2: { apply rollback_claim_inv in Hr as [-> Ha]. destruct (Habort _ _ Hs3 Ha). eauto. }
  assert (Hvis : visible w1 = committed w0).
  { unfold visible. destruct Hs1 as [_ ->]. by rewrite Ht0. }
  rewrite Hvis in Hq. run_inv Hr. apply prepare_inv in Hm.
  destruct r0 as [ps|e].
  2: { run_inv Hr. destruct (Habort _ _ Hs3 Hm). eauto. }
  destruct Hm as (Hs4 & Hps & Hnd & _). pose proof (same_tables_trans _ _ _ Hs3 Hs4) as [Hc5 Ht5].
  rewrite Ht0 in Ht5. run_inv Hr.
  apply (claim_all_inv _ _ _ _ _ _ _ _ _ Ht5) in Hm. destruct r0 as [evs|e].
  2: { run_inv Hr. destruct Hm as [Hc6 Ht6]. split; [done|]. exists (committed w0).
       split; [done|congruence]. }
  destruct Hm as (Hc6 & Hevs & Hkept & wr & Ht6). run_inv Hr.
  apply (commit_transaction_inv _ _ _ _ _ Ht6) in Hm as [Ht7 Hcom].
  destruct r0 as [[]|e]; run_inv Hr; (split; [done|]); exists (committed w0); (split; [done|]).
  - eexists _, lease_ms, ps. split_and!; done.
  - congruence.
Qed.

Lemma claim_loop_inv busy n w r w' :
  txn w = None -> claim_loop request busy n w = Some (r, w') ->
  txn w' = None /\
  exists db, foreign_only (committed w) db /\
    match r with
    | Ok evs => claimed_on db evs (committed w')
    | Err _ => committed w' = db
    end.
Proof.
  revert w. induction n as [|n IH]; intros w Ht Hr; simpl in Hr; run_inv Hr;
    apply claim_once_inv in Hm as (Ht0 & db & Hf & Hres); try done;
    destruct r0 as [evs|e]; try (run_inv Hr; eauto; fail).
  - destruct (ClaimError.busy_source e); run_inv Hr; eauto.
  - destruct (ClaimError.busy_source e); [|run_inv Hr; eauto].
    destruct (IH _ Ht0 Hr) as (Ht' & db' & Hf' & Hres'). split; [done|]. exists db'.
    split; [|done]. subst db. by eapply foreign_only_trans.
Qed.
End ClaimSpec.

(** A returned claim, its event hydrated from the SQLite columns. *)
Abbreviation claim_of := (is_claim_of hydrate_event).

Section ClaimTheorems.
Context `{TimeLib, SerdeJson, Base64, MimeLib, FluentUri, RustDebug, Env}.

Lemma Forall2_compose {A B C} (R : A -> B -> Prop) (S : B -> C -> Prop) (T : A -> C -> Prop) la lb lc :
  (forall a b c, R a b -> S b c -> T a c) -> Forall2 R la lb -> Forall2 S lb lc -> Forall2 T la lc.
Proof.
  intros HT Hab. revert lc. induction Hab; inversion 1; subst; constructor; eauto.
Qed.

Lemma eligible_state now d :
  eligible now d = true -> Deliveries.state d = "pending" \/ Deliveries.state d = "claimed".
Proof.
  unfold eligible. rewrite orb_true_iff, !andb_true_iff, !bool_decide_eq_true. naive_solver.
Qed.

(** The entry of a chosen delivery. *)
Definition entry_of (db : Db) (worker : WorkerId.t) (now : string) (lease_ms : Z)
    (d : Deliveries.row) (q : Prepared * ClaimedEvent.t) : Prop :=
  (exists c, candidate_of db d c /\ prepared_from c q.1) /\ claimed_from worker now lease_ms q.1 q.2.

Lemma entry_claim_of db worker now lease_ms d q :
  entry_of db worker now lease_ms d q -> claim_of db worker d q.2.
Proof.
  intros [(c & (e & He & Hj & ->) & Hp) Hc]. destruct Hp, Hc. simpl in *.
  pose proof Hj as Hj'. apply join_condition_spec in Hj' as [Ht Hk].
  destruct pf_attempts0 as (a & [= <-] & Ha & Hb).
  constructor.
  - congruence.
  - rewrite cf_tenant0, <- Ht. by eapply TenantId_new_as_str.
  - done.
  - congruence.
  - congruence.
  - by rewrite cf_token0.
  - exists e. split_and!; [done..|]. rewrite cf_event0. exact pf_event0.
Qed.

(** Updating by entries is updating by the returned claims. *)
Lemma claim_rows_after db worker now lease_ms ds qs d :
  db_wf db -> (forall d, d ∈ ds -> d ∈ deliveries db) ->
  StronglySorted Z.lt (map Deliveries.event_row_id ds) ->
  Forall (fun d => eligible now d = true) ds ->
  Forall2 (entry_of db worker now lease_ms) ds qs -> d ∈ deliveries db ->
  claim_rows worker now lease_ms (map fst qs) d
  = row_after_claim worker (strftime now (seconds_modifier lease_ms)) (map snd qs) d.
Proof.
  intros Hwf Hsub Hs Hel Hf Hd.
  assert (Hids : map Deliveries.event_row_id ds = map p_event_row_id (map fst qs)).
  { rewrite map_map. apply Forall2_map_eq. eapply Forall2_impl; [exact Hf|].
    intros x q [(c & (e & _ & Hj & ->) & [_ Hp _ _ _ _]) _]. simpl in *.
    apply join_condition_spec in Hj as [_ Hj]. congruence. }
  unfold row_after_claim, claim_for_row.
  destruct (find _ (map snd qs)) as [ev|] eqn:Ef.
  - apply List.find_some in Ef as [Hin Hk]. apply Z.eqb_eq in Hk.
    apply list_elem_of_In, list_elem_of_fmap in Hin as (q & -> & Hq).
    apply list_elem_of_lookup in Hq as [i Hi].
    destruct (Forall2_lookup_r _ _ _ _ _ Hf Hi) as (d' & Hd' & Hent).
    pose proof (entry_claim_of _ _ _ _ _ _ Hent) as Hco.
    assert (d' = d) as ->.
    { eapply (sorted_key_inj Deliveries.event_row_id); [apply Hwf| |done|].
      - eapply Hsub, list_elem_of_lookup_2, Hd'.
      - destruct Hco. congruence. }
    destruct Hent as [(c & _ & Hp) Hc].
    rewrite (claim_rows_own _ _ _ _ _ q.1).
    + destruct Hc. by rewrite cf_attempts0, cf_token0.
    + rewrite <- Hids. by apply sorted_lt_NoDup.
    + apply list_elem_of_fmap. exists q. split; [done|]. by eapply list_elem_of_lookup_2.
    + destruct Hco, Hp, Hc. congruence.
    + destruct Hco, Hc. congruence.
    + eapply eligible_state. rewrite Forall_lookup in Hel. by eapply Hel.
  - apply claim_rows_other. rewrite <- Hids. intros Hin.
    apply list_elem_of_fmap in Hin as (d' & Hk & Hd').
    apply list_elem_of_lookup in Hd' as [i Hi].
    destruct (Forall2_lookup_l _ _ _ _ _ Hf Hi) as (q & Hq & Hent).
    apply entry_claim_of in Hent as [Hid _ _ _ _ _ _].
    assert (Hin : In q.2 (map snd qs)).
    { apply list_elem_of_In, list_elem_of_fmap. exists q. split; [done|].
      by eapply list_elem_of_lookup_2. }
    pose proof (List.find_none _ _ Ef _ Hin) as Hne. cbv beta in Hne.
    apply Z.eqb_neq in Hne. congruence.
Qed.

(** A claim that fails. *)
Lemma claim_error_inv tenant_id worker lease_for limit busy w e w' :
  txn w = None ->
  claim_for_scope tenant_id worker lease_for limit busy w = Some (Err e, w') ->
  txn w' = None /\ foreign_only (committed w) (committed w').
Proof.
  intros Ht. unfold claim_for_scope. case_match; [|intros Hr; run_inv Hr; split; [done|constructor]].
  intros Hr. apply claim_loop_inv in Hr as (Ht' & db & Hf & ->); done.
Qed.

(** A claim that returns an error leaves no trace: no transaction stays
    open and the committed tables differ from those before the call only by
    what other connections committed, whichever of its statements failed, on
    whichever retry. *)
Theorem claim_error_leaves_no_trace tenant_id worker lease_for limit busy w e w' :
  txn w = None ->
  claim_for_scope tenant_id worker lease_for limit busy w = Some (Err e, w') ->
  txn w' = None /\ foreign_only (committed w) (committed w').
Proof. by apply claim_error_inv. Qed.

(** A claim that succeeds. *)
Lemma claim_success_inv tenant_id worker lease_for limit busy w evs w' :
  txn w = None -> foreign_wf -> db_wf (committed w) ->
  claim_for_scope tenant_id worker lease_for limit busy w = Some (Ok evs, w') ->
  txn w' = None /\
  exists db n lease_ms,
    foreign_only (committed w) db /\ db_wf db /\
    checked_milliseconds (Lease.get lease_for) = Ok lease_ms /\
    Forall2 (claim_of db worker)
      (chosen (option_map TenantId.as_str tenant_id) (clock n) (Limit.get limit) db) evs /\
    NoDup (map (fun ev => ClaimToken.as_bytes (ClaimedEvent.claim_token ev)) evs) /\
    db_wf (committed w') /\
    committed w'
    = MkDb (events db)
        (map (row_after_claim worker (strftime (clock n) (seconds_modifier lease_ms)) evs)
           (deliveries db)) (tables db).
Proof.
  intros Ht Hfw Hwf. unfold claim_for_scope. case_match; [|intros Hr; by run_inv Hr].
  intros Hr. apply claim_loop_inv in Hr as (Ht' & db & Hf & Hc); [|done]. split; [done|].
  pose proof (foreign_only_wf _ _ Hfw Hwf Hf) as Hwf'.
  destruct Hc as (n & lease_ms & ps & Hl & Hps & Hnd & Hevs & Hkept & Hdb). simpl in *.
  exists db, n, lease_ms.
  set (now := clock n) in *. set (tenant := option_map TenantId.as_str tenant_id) in *.
  pose proof (claim_sql_chosen tenant now (Limit.get limit) db Hwf') as Hcand.
  set (ds := chosen tenant now (Limit.get limit) db) in *.
  assert (Hent : Forall2 (entry_of db worker now lease_ms) ds (zip ps evs)).
  { clear Hdb Hnd Hkept. revert ps evs Hps Hevs. induction Hcand as [|d c ds cs Hdc Hcand IH];
      intros ps evs Hps Hevs; inversion Hps; subst; inversion Hevs; subst; simpl; constructor.
    - split; [|done]. by exists c.
    - by apply IH. }
  assert (Hz1 : map fst (zip ps evs) = ps) by
    (clear -Hevs; induction Hevs; simpl; congruence).
  assert (Hz2 : map snd (zip ps evs) = evs) by
    (clear -Hevs; induction Hevs; simpl; congruence).
  split_and!; [done..| | | |].
  - rewrite <- Hz2. apply Forall2_fmap_r. eapply Forall2_impl; [exact Hent|].
    intros d q Hq. by eapply entry_claim_of.
  - replace (map _ evs) with (map p_token ps); [done|]. apply Forall2_map_eq.
    eapply Forall2_impl; [exact Hevs|]. intros p ev [_ _ _ _ Hto _ _]. by rewrite Hto.
  - rewrite Hdb. apply (map_deliveries_wf _ _ Hwf' Hkept). intros d.
    apply claim_rows_keeps.
  - rewrite Hdb. f_equal. apply map_ext_in. intros d Hd. apply list_elem_of_In in Hd.
    assert (Hrow : claim_rows worker now lease_ms (map fst (zip ps evs)) d
      = row_after_claim worker (strftime now (seconds_modifier lease_ms)) (map snd (zip ps evs)) d);
      [|by rewrite Hz1, Hz2 in Hrow].
    eapply (claim_rows_after db worker now lease_ms ds); try done.
    + intros x Hx. by apply sqlite_chosen_spec in Hx as (? & _).
    + by apply sqlite_chosen_sorted.
    + apply Forall_forall. intros x Hx. by apply sqlite_chosen_spec in Hx as (_ & ? & _).
Qed.

(** C2: a successful claim takes exactly the first [limit] eligible deliveries
    of its scope in row order, on the tables [db] it saw when its transaction
    began: those pending and due, or claimed and expired, at one database
    time. It returns them in that order, each with its hydrated event, its
    attempt count increased by one and a token that differs from the row's
    previous one and from every other token of the batch; it writes exactly
    those claims into exactly those rows, changes no other row and no event,
    and commits once. *)
Theorem claim_success tenant_id worker lease_for limit busy w evs w' :
  txn w = None -> foreign_wf -> db_wf (committed w) ->
  claim_for_scope tenant_id worker lease_for limit busy w = Some (Ok evs, w') ->
  txn w' = None /\
  exists db n lease_ms,
    foreign_only (committed w) db /\ db_wf db /\
    checked_milliseconds (Lease.get lease_for) = Ok lease_ms /\
    Forall2 (claim_of db worker)
      (chosen (option_map TenantId.as_str tenant_id) (clock n) (Limit.get limit) db) evs /\
    NoDup (map (fun ev => ClaimToken.as_bytes (ClaimedEvent.claim_token ev)) evs) /\
    db_wf (committed w') /\
    committed w'
    = MkDb (events db)
        (map (row_after_claim worker (strftime (clock n) (seconds_modifier lease_ms)) evs)
           (deliveries db)) (tables db).
Proof. by apply claim_success_inv. Qed.
End ClaimTheorems.

(** ** Termination *)

Section Termination.
Context `{TimeLib, SerdeJson, Base64, MimeLib, FluentUri, RustDebug, Env}.

Lemma fresh_token_search fuel previous used w (t : nat -> bytes) k :
  (forall i, entropy i = Ok (t i)) -> (k < fuel)%nat ->
  acceptable previous used (t (draws w + k)%nat) = true ->
  exists tok w', fresh_token fuel previous used w = Some (Ok tok, w') /\
    acceptable previous used tok = true.
Proof.
  intros Ht. revert fuel w. induction k as [|k IH]; intros [|fuel] w Hk Ha; try lia; simpl.
  - erewrite bind_run by (unfold fill; rewrite Ht; reflexivity). cbv beta iota.
    rewrite Nat.add_0_r in Ha. fold (acceptable previous used (t (draws w))). rewrite Ha.
    eexists _, _. split; [reflexivity|done].
  - erewrite bind_run by (unfold fill; rewrite Ht; reflexivity). cbv beta iota.
    fold (acceptable previous used (t (draws w))).
    destruct (acceptable previous used (t (draws w))) eqn:Ew.
    + eexists _, _. split; [reflexivity|done].
    + apply IH; [lia|]. simpl. by replace (S (draws w + k)) with (draws w + S k)%nat by lia.
Qed.

(** Among more distinct draws than tokens to avoid, one is acceptable. *)
Lemma fresh_token_finds fuel previous used w (t : nat -> bytes) :
  (forall i, entropy i = Ok (t i)) ->
  (forall i j, (i < fuel)%nat -> (j < fuel)%nat -> t (draws w + i)%nat = t (draws w + j)%nat -> i = j) ->
  (length used + 1 < fuel)%nat ->
  exists tok w', fresh_token fuel previous used w = Some (Ok tok, w') /\
    previous <> Some tok /\ tok ∉ used.
Proof.
  intros Ht Hinj Hfuel.
  destruct (acceptable_among previous used (fun k => t (draws w + k)%nat) fuel Hinj Hfuel)
    as (k & Hk & Ha).
  destruct (fresh_token_search fuel previous used w t k Ht Hk Ha) as (tok & w' & Hr & Ha').
  apply acceptable_spec in Ha'. eauto.
Qed.

(** The unbounded loop of [fresh_token] ends: when the source of entropy
    yields pairwise distinct tokens within the fuel, it returns an acceptable token after at
    most one draw more than there are tokens to avoid, so any larger fuel
    suffices. *)
Theorem fresh_token_terminates fuel previous used w (t : nat -> bytes) :
  (forall i, entropy i = Ok (t i)) ->
  (forall i j, (i < fuel)%nat -> (j < fuel)%nat -> t (draws w + i)%nat = t (draws w + j)%nat -> i = j) ->
  (length used + 1 < fuel)%nat ->
  exists tok w', fresh_token fuel previous used w = Some (Ok tok, w') /\
    previous <> Some tok /\ tok ∉ used.
Proof. by apply fresh_token_finds. Qed.

(** [k] consecutive attempts that all ended busy. *)
Inductive busy_attempts (request : ClaimRequest) (busy : BusyConfig.t) :
    nat -> World -> World -> Prop :=
  | busy_none w : busy_attempts request busy 0 w w
  | busy_one k w e w1 w2 s :
      claim_once request busy w = Some (Err e, w1) -> ClaimError.busy_source e = Some s ->
      busy_attempts request busy k w1 w2 -> busy_attempts request busy (S k) w w2.

End Termination.
