(* ===== verification/Mutation.v ===== *)
(** * Token-fenced mutations (crates/dovecote-sqlx-sqlite/src/lifecycle_mutation.rs)

    Renew, acknowledge, retry, release and quarantine: one conditional UPDATE
    fenced by the claim token and its expiry, and the classification of a row
    the update did not match. *)

From S2P Require Import Prelude Step Utf8 BTree Errors Limits Validation Bounds Values Extension Serialization Event State External SqliteError Tables Queries Sqlite Migration RowHydration Hydrate Enqueue Lifecycle.

Module Mutation.
Inductive t : Type :=
  | Renew (lease_for : Lease.t)
  | Ack
  | Retry (failure : Failure.t) (backoff : Delay.t)
  | Release (delay : Delay.t)
  | Quarantine (reason : QuarantineReason.t).
End Mutation.

Module PreparedMutation.
Inductive t : Type :=
  | Renew (duration_ms : Z)
  | Ack
  | Retry (failure : Failure.t) (duration_ms : Z)
  | Release (duration_ms : Z)
  | Quarantine (reason : QuarantineReason.t).
End PreparedMutation.

(** ** The SQL statements *)

(** [... AND state = 'claimed' AND claim_token = ? AND claim_expires_at > ?] *)
Definition fenced (tenant : option string) (row_id : Z) (token : bytes) (now : string)
    (d : Deliveries.row) : bool :=
  row_in_scope tenant row_id d
  && bool_decide (Deliveries.state d = "claimed")
  && bool_decide (Deliveries.claim_token d = Some token)
  && is_some_and (Deliveries.claim_expires_at d) (fun expiry => negb (String.leb expiry now)).

Section Assignments.
Context `{Env}.

(** [strftime(?, printf(...))] into a NOT NULL column *)
Definition due (now : string) (duration_ms : Z) : Result string SqlxError.t :=
  ok_or (strftime now (seconds_modifier duration_ms)) not_null_failed.

(** The SET clause of each mutation. *)
Definition assign (mutation : PreparedMutation.t) (now : string) (d : Deliveries.row) :
    Result Deliveries.row SqlxError.t :=
  match mutation with
  | PreparedMutation.Renew duration_ms =>
      Ok (Deliveries.Row (Deliveries.event_row_id d) (Deliveries.tenant_id d)
            (Deliveries.state d) (Deliveries.available_at d) (Deliveries.attempts d)
            (Deliveries.claim_token d) (Deliveries.claimed_by d)
            (strftime now (seconds_modifier duration_ms))
            (Deliveries.last_failure_code d) (Deliveries.last_failure_detail d)
            (Deliveries.delivered_at d) (Deliveries.quarantined_at d)
            (Deliveries.quarantine_reason d))
  | PreparedMutation.Ack =>
      Ok (unclaimed d "delivered" (Deliveries.available_at d) None (Some now)
            (Deliveries.quarantined_at d) (Deliveries.quarantine_reason d))
  | PreparedMutation.Retry failure duration_ms =>
      let? available_at := due now duration_ms in
      Ok (unclaimed d "pending" available_at (Some (Failure.code failure, Failure.detail failure))
            (Deliveries.delivered_at d) (Deliveries.quarantined_at d)
            (Deliveries.quarantine_reason d))
  | PreparedMutation.Release duration_ms =>
      let? available_at := due now duration_ms in
      Ok (unclaimed d "pending" available_at None (Deliveries.delivered_at d)
            (Deliveries.quarantined_at d) (Deliveries.quarantine_reason d))
  | PreparedMutation.Quarantine reason =>
      Ok (unclaimed d "quarantined" (Deliveries.available_at d) None (Deliveries.delivered_at d)
            (Some now) (Some (QuarantineReason.as_str reason)))
  end.

(** The conditional UPDATE and its [rows_affected]. *)
Definition mutation_sql (mutation : PreparedMutation.t) (tenant : option string) (row_id : Z)
    (token : bytes) (now : string) (db : Db) : Result (Z * Db) SqlxError.t :=
  let? updated :=
    update_rows (fenced tenant row_id token now) (assign mutation now) (deliveries db) in
  Ok (updated.2, MkDb (events db) updated.1 (tables db)).
End Assignments.

Module DeliveryForMutation.
Record t : Type := Make {
  state : string;
  claim_token : option bytes;
  claim_expires_at : option string;
}.
End DeliveryForMutation.

(** [SELECT state, claim_token, claim_expires_at FROM dovecote_deliveries WHERE
    event_row_id = ? AND (? IS NULL OR tenant_id = ?)], first row *)
Definition select_for_mutation_sql (tenant : option string) (row_id : Z) (db : Db) :
    option DeliveryForMutation.t :=
  option_map (fun d => DeliveryForMutation.Make (Deliveries.state d) (Deliveries.claim_token d)
                         (Deliveries.claim_expires_at d))
    (find (row_in_scope tenant row_id) (deliveries db)).

(** ** The operation *)

Section Mutate.
Context `{TimeLib, RustDebug, Env}.

Definition parse_state (value : string) : Result DeliveryState.t MutationError.t :=
  if bool_decide (value = "pending") then Ok DeliveryState.Pending
  else if bool_decide (value = "claimed") then Ok DeliveryState.Claimed
  else if bool_decide (value = "delivered") then Ok DeliveryState.Delivered
  else if bool_decide (value = "quarantined") then Ok DeliveryState.Quarantined
  else Err (MutationError.serialization ("unknown delivery state " +:+ debug_str value)).

Definition classify_delivery (delivery : DeliveryForMutation.t) (token : ClaimToken.t)
    (operation_time : string) : Result unit MutationError.t :=
  let? state := parse_state (DeliveryForMutation.state delivery) in
  if negb (bool_decide (state = DeliveryState.Claimed))
  then Err (MutationError.IllegalTransition state)
  else
    let? stored := ok_or (DeliveryForMutation.claim_token delivery)
                     (MutationError.serialization "claimed delivery has no claim token") in
    if negb (len stored =? 16)
    then Err (MutationError.serialization "claimed delivery has an invalid claim token width")
    else
      let? expiry := ok_or (DeliveryForMutation.claim_expires_at delivery)
                       (MutationError.serialization "claimed delivery has no claim expiry") in
      let? expiry := map_err MutationError.serialization (parse_timestamp expiry) in
      let? operation_time := map_err MutationError.serialization
                               (parse_timestamp operation_time) in
      if negb (bool_decide (stored = ClaimToken.as_bytes token))
         || instant_leb expiry operation_time
      then Err MutationError.LostClaim
      else Ok tt.

(** The durations of a mutation, converted before the transaction begins. *)
Definition prepare_mutation (mutation : Mutation.t) :
    Result PreparedMutation.t MutationError.t :=
  match mutation with
  | Mutation.Renew lease_for =>
      let? duration_ms := map_err MutationError.serialization
                            (checked_milliseconds (Lease.get lease_for)) in
      Ok (PreparedMutation.Renew duration_ms)
  | Mutation.Ack => Ok PreparedMutation.Ack
  | Mutation.Retry failure backoff =>
      let? duration_ms := map_err MutationError.serialization
                            (checked_milliseconds (Delay.get backoff)) in
      Ok (PreparedMutation.Retry failure duration_ms)
  | Mutation.Release delay =>
      let? duration_ms := map_err MutationError.serialization
                            (checked_milliseconds (Delay.get delay)) in
      Ok (PreparedMutation.Release duration_ms)
  | Mutation.Quarantine reason => Ok (PreparedMutation.Quarantine reason)
  end.

Definition rollback_mutation {A} (error : MutationError.t) : M (Result A MutationError.t) :=
  let* _ := rollback in ret (Err error).

(** The branch [changed.rows_affected() != 1]. *)
Definition classify_unmatched (tenant : option string) (row_id : RowId.t) (token : ClaimToken.t)
    (operation_time : string) : M (Result unit MutationError.t) :=
  let* delivery := query (fun _ => select_for_mutation_sql tenant (RowId.get row_id)) in
  match delivery with
  | Ok None => rollback_mutation MutationError.NotFound
  | Err source => rollback_mutation (MutationError.sql "classify delivery mutation" source)
  | Ok (Some delivery) =>
      match classify_delivery delivery token operation_time with
      | Err error => rollback_mutation error
      | Ok _ => rollback_mutation (MutationError.sql "conditional delivery mutation"
                  (SqlxError.Protocol "claimed delivery did not satisfy mutation"))
      end
  end.

Definition mutate_once (tenant : option TenantId.t) (row_id : RowId.t)
    (claim_token : ClaimToken.t) (mutation : Mutation.t) (busy : BusyConfig.t) :
    M (Result unit MutationError.t) :=
  match prepare_mutation mutation with
  | Err error => ret (Err error)
  | Ok mutation =>
      try* _ := begin_immediate busy
           else MutationError.sql "begin immediate mutation transaction" in
      let* operation_time := database_time in
      match operation_time with
      | Err source =>
          rollback_mutation (MutationError.sql "read mutation operation time" source)
      | Ok operation_time =>
          let* changed := execute (fun _ =>
              mutation_sql mutation (option_map TenantId.as_str tenant) (RowId.get row_id)
                (ClaimToken.as_bytes claim_token) operation_time) in
          match changed with
          | Err source =>
              rollback_mutation (MutationError.sql "execute conditional delivery mutation" source)
          | Ok rows_affected =>
              if negb (rows_affected =? 1)
              then classify_unmatched (option_map TenantId.as_str tenant) row_id claim_token
                     operation_time
              else
                try* _ := commit_transaction
                     else MutationError.sql "commit mutation transaction" in
                ret (Ok tt)
          end
      end
  end.

(** The retry loop of [mutate_with_config] with [n] retries left. *)
Fixpoint mutate_loop (tenant : option TenantId.t) (row_id : RowId.t)
    (claim_token : ClaimToken.t) (mutation : Mutation.t) (busy : BusyConfig.t) (n : nat) :
    M (Result unit MutationError.t) :=
  let* result := mutate_once tenant row_id claim_token mutation busy in
  match result with
  | Err error =>
      match MutationError.is_busy error, n with
      | true, S n => mutate_loop tenant row_id claim_token mutation busy n
      | true, O => ret (Err (MutationError.into_busy_exhausted error))
      | false, _ => ret (Err error)
      end
  | Ok value => ret (Ok value)
  end.

Definition mutate_with_config (tenant : option TenantId.t) (row_id : RowId.t)
    (claim_token : ClaimToken.t) (mutation : Mutation.t) (busy : BusyConfig.t) :
    M (Result unit MutationError.t) :=
  match validate_busy_config busy with
  | Err detail => ret (Err (MutationError.Configuration detail))
  | Ok _ => mutate_loop tenant row_id claim_token mutation busy (BusyConfig.retries busy)
  end.

Definition renew_for_scope tenant row_id token lease busy :=
  mutate_with_config tenant row_id token (Mutation.Renew lease) busy.
Definition ack_for_scope tenant row_id token busy :=
  mutate_with_config tenant row_id token Mutation.Ack busy.
Definition retry_for_scope tenant row_id token failure delay busy :=
  mutate_with_config tenant row_id token (Mutation.Retry failure delay) busy.
Definition release_for_scope tenant row_id token delay busy :=
  mutate_with_config tenant row_id token (Mutation.Release delay) busy.
Definition quarantine_for_scope tenant row_id token reason busy :=
  mutate_with_config tenant row_id token (Mutation.Quarantine reason) busy.
End Mutate.

(** Every SET clause keeps the row's key. *)
Lemma assign_keeps `{Env} mutation now d d' :
  assign mutation now d = Ok d' ->
  Deliveries.event_row_id d' = Deliveries.event_row_id d /\
  Deliveries.tenant_id d' = Deliveries.tenant_id d.
Proof.
  destruct mutation; simpl; try (by intros [= <-]);
    unfold due; destruct (strftime _ _); simpl; try done; by intros [= <-].
Qed.

(** ** What a mutation does *)

Section MutationSpec.
Context `{TimeLib, RustDebug, Env}.

Lemma rollback_mutation_inv {A} e w (r : Result A MutationError.t) w' :
  rollback_mutation e w = Some (r, w') -> r = Err e /\ aborted w w'.
Proof. unfold rollback_mutation, bind, rollback, ret. by intros [= <- <-]. Qed.

Context (tenant_id : option TenantId.t) (row_id : RowId.t) (token : ClaimToken.t).

Let tenant := option_map TenantId.as_str tenant_id.
Let is_fenced := fenced tenant (RowId.get row_id) (ClaimToken.as_bytes token).

(** The mutation applied to the tables [db] at [now]: its one fenced row gets
    the columns of the SET clause. *)
Definition mutated_on (mutation : PreparedMutation.t) (now : string) (db db' : Db) : Prop :=
  exists d d', d ∈ deliveries db /\ is_fenced now d = true /\
    assign mutation now d = Ok d' /\ Deliveries.check d' = true /\
    db' = MkDb (events db)
            (map (fun r => if Deliveries.event_row_id r =? Deliveries.event_row_id d
                           then d' else r) (deliveries db)) (tables db).

(** Why a mutation was refused on [db] at [now]. *)
Definition refusal (e : MutationError.t) (now : string) (db : Db) : Prop :=
  match e with
  | MutationError.NotFound =>
      forall d, d ∈ deliveries db -> row_in_scope tenant (RowId.get row_id) d = false
  | MutationError.IllegalTransition s =>
      exists d, d ∈ deliveries db /\ row_in_scope tenant (RowId.get row_id) d = true /\
        parse_state (Deliveries.state d) = Ok s /\ s <> DeliveryState.Claimed
  | MutationError.LostClaim =>
      exists d expiry t t_now, d ∈ deliveries db /\
        row_in_scope tenant (RowId.get row_id) d = true /\
        parse_state (Deliveries.state d) = Ok DeliveryState.Claimed /\
        Deliveries.claim_expires_at d = Some expiry /\
        parse_timestamp expiry = Ok t /\ parse_timestamp now = Ok t_now /\
        (Deliveries.claim_token d <> Some (ClaimToken.as_bytes token) \/
         unix_nanos t <= unix_nanos t_now)
  | _ => True
  end.

Lemma classify_delivery_refusal d now db e :
  d ∈ deliveries db -> row_in_scope tenant (RowId.get row_id) d = true ->
  classify_delivery (DeliveryForMutation.Make (Deliveries.state d) (Deliveries.claim_token d)
                       (Deliveries.claim_expires_at d)) token now = Err e ->
  refusal e now db.
Proof.
  intros Hd Hr. unfold classify_delivery.
  cbn [DeliveryForMutation.state DeliveryForMutation.claim_token
       DeliveryForMutation.claim_expires_at].
  destruct (parse_state (Deliveries.state d)) as [s|pe] eqn:Es.
  2: { intros [= <-]. revert Es. unfold parse_state. by repeat case_bool_decide; intros [= <-]. }
  case_bool_decide as Hs; simpl; [|intros [= <-]; exists d; done]. subst s.
  destruct (Deliveries.claim_token d) as [stored|] eqn:Et; simpl; [|by intros [= <-]].
  destruct (negb (len stored =? 16)); [by intros [= <-]|].
  destruct (Deliveries.claim_expires_at d) as [expiry|] eqn:Ee; simpl; [|by intros [= <-]].
  destruct (parse_timestamp expiry) as [t|] eqn:Ep; simpl; [|by intros [= <-]].
  destruct (parse_timestamp now) as [t_now|] eqn:En; simpl; [|by intros [= <-]].
  destruct (negb _ || instant_leb t t_now) eqn:Ec; [|done]. intros [= <-].
  exists d, expiry, t, t_now. split_and!; try done.
  rewrite Et. apply orb_true_iff in Ec as [Ec|Ec].
  - left. apply negb_true_iff, bool_decide_eq_false in Ec. congruence.
  - right. unfold instant_leb in Ec. by bools.
Qed.

Lemma classify_unmatched_inv now w r w' :
  classify_unmatched tenant row_id token now w = Some (r, w') ->
  aborted w w' /\ exists e, r = Err e /\ refusal e now (visible w).
Proof.
  unfold classify_unmatched. intros Hr. run_inv Hr. apply query_inv in Hm as (Hs & _ & Hq).
  destruct r0 as [[dm|]|e].
  - symmetry in Hq. unfold select_for_mutation_sql in Hq.
    destruct (find _ _) as [d|] eqn:Ef; [|done]. injection Hq as <-.
    apply List.find_some in Ef as [Hd Hsc]. apply list_elem_of_In in Hd.
    destruct (classify_delivery _ token now) as [[]|e] eqn:Ec;
      apply rollback_mutation_inv in Hr as [-> Ha]; (split; [by eapply aborted_trans|]);
      eexists; (split; [reflexivity|]); [done|]. by eapply classify_delivery_refusal.
  - apply rollback_mutation_inv in Hr as [-> Ha]. split; [by eapply aborted_trans|].
    eexists. split; [reflexivity|]. intros d Hd. symmetry in Hq. unfold select_for_mutation_sql in Hq.
    destruct (find _ _) as [?|] eqn:Ef; [done|].
    apply (List.find_none _ _ Ef). by apply list_elem_of_In.
  - apply rollback_mutation_inv in Hr as [-> Ha]. split; [by eapply aborted_trans|].
    by eexists.
Qed.

(** One matched row, by the row id the statement fixes. *)
Lemma mutation_sql_one mutation now db n db' :
  db_wf db -> mutation_sql mutation tenant (RowId.get row_id) (ClaimToken.as_bytes token) now db
              = Ok (n, db') ->
  (n = 1 -> mutated_on mutation now db db') /\
  (n <> 1 -> db' = db /\ forall d, d ∈ deliveries db -> is_fenced now d = false).
Proof.
  intros Hwf. unfold mutation_sql.
  destruct (update_rows _ _ _) as [[ds k]|] eqn:Eu; [|done]. simpl. intros [= <- <-].
  apply update_rows_Ok in Eu as [Hf ->]. fold (is_fenced now) in *.
  assert (Huniq : forall a b, a ∈ deliveries db -> b ∈ deliveries db ->
            is_fenced now a = true -> is_fenced now b = true -> a = b).
  { intros a b Ha Hb Hfa Hfb. eapply (sorted_key_inj Deliveries.event_row_id); eauto; [apply Hwf|].
    unfold is_fenced, fenced, row_in_scope in *. bools. congruence. }
  assert (Hnd : NoDup (deliveries db)).
  { apply (NoDup_fmap_1 Deliveries.event_row_id), sorted_lt_NoDup, Hwf. }
  destruct (List.filter (is_fenced now) (deliveries db)) as [|d rest] eqn:Efl.
  - split; [done|]. intros _.
    assert (Hnone : forall d, d ∈ deliveries db -> is_fenced now d = false).
    { intros d Hd. apply not_true_iff_false. intros Hfd.
      assert (In d (List.filter (is_fenced now) (deliveries db))) as Hin
        by (apply filter_In; split; [by apply list_elem_of_In|done]).
      by rewrite Efl in Hin. }
    split; [|done]. destruct db as [es dl ts]. simpl in *. f_equal.
    clear -Hf Hnone. induction Hf as [|r r' l l' Hr Hf IH]; [done|].
    rewrite Hnone in Hr by left. subst r'. f_equal. apply IH. intros d Hd. apply Hnone. by right.
  - assert (Hd : d ∈ deliveries db /\ is_fenced now d = true).
    { rewrite list_elem_of_In. apply filter_In. rewrite Efl. by left. }
    destruct Hd as [Hd Hfd].
    pose proof (filter_unique (is_fenced now) _ d Hnd Hd Hfd) as Hone.
    rewrite Hone in Efl by (intros y Hy Hfy; by apply Huniq). injection Efl as <-.
    split; [|done]. intros _.
    pose proof (proj1 (list_elem_of_lookup _ _) Hd) as [i Hi].
    destruct (Forall2_lookup_l _ _ _ _ _ Hf Hi) as (d' & Hd' & Hrow). rewrite Hfd in Hrow.
    destruct Hrow as [Has Hck]. exists d, d'. split_and!; [done..|].
    f_equal.
    assert (Hall : Forall (fun x => x ∈ deliveries db) (deliveries db)) by by apply Forall_forall.
    clear Hi Hd' Hone Hnd. revert Hf Hall.
    match goal with |- Forall2 ?R ?k ds -> Forall ?P ?k -> _ =>
      enough (Hg : forall l l', Forall2 R l l' -> Forall P l ->
        l' = map (fun r => if Deliveries.event_row_id r =? Deliveries.event_row_id d
                           then d' else r) l) by (intros; by apply Hg) end.
    induction 1 as [|r r' l l' Hr Hf' IH]; intros Hall; simpl; [done|].
    apply Forall_cons in Hall as [Hin Hall]. f_equal; [|by apply IH].
    destruct (Z.eqb_spec (Deliveries.event_row_id r) (Deliveries.event_row_id d)) as [He|He].
    + assert (r = d) as -> by (eapply (sorted_key_inj Deliveries.event_row_id); eauto; apply Hwf).
      rewrite Hfd in Hr. destruct Hr as [Hr _]. congruence.
    + destruct (is_fenced now r) eqn:Efr; [|done].
      assert (r = d) as -> by by apply Huniq. done.
Qed.
End MutationSpec.

Section MutationTheorems.
Context `{TimeLib, RustDebug, Env}.
Context (tenant_id : option TenantId.t) (row_id : RowId.t) (token : ClaimToken.t).

Let tenant := option_map TenantId.as_str tenant_id.

(** The result [r] of a mutation that saw the tables [db] and left [db']. *)
Definition mutation_effect (mutation : Mutation.t) (r : Result unit MutationError.t)
    (db db' : Db) : Prop :=
  match r with
  | Ok _ => exists p n, prepare_mutation mutation = Ok p /\
              mutated_on tenant_id row_id token p (clock n) db db'
  | Err e => db' = db /\
      (* refused after the update found no fenced row, or a failure before *)
      ((exists n, refusal tenant_id row_id token e (clock n) db /\
          forall d, d ∈ deliveries db ->
            fenced tenant (RowId.get row_id) (ClaimToken.as_bytes token) (clock n) d = false) \/
       match e with
       | MutationError.NotFound | MutationError.IllegalTransition _
       | MutationError.LostClaim => False
       | _ => True
       end)
  end.

Lemma prepare_mutation_error mutation e :
  prepare_mutation mutation = Err e -> exists detail, e = MutationError.Serialization detail.
Proof.
  destruct mutation; simpl; try done; destruct (checked_milliseconds _); simpl; try done;
    intros [= <-]; by eexists.
Qed.

Lemma mutate_once_inv mutation busy w r w' :
  txn w = None -> foreign_wf -> db_wf (committed w) ->
  mutate_once tenant_id row_id token mutation busy w = Some (r, w') ->
  txn w' = None /\
  exists db, foreign_only (committed w) db /\ mutation_effect mutation r db (committed w').
Proof.
  intros Ht Hfw Hwf. unfold mutate_once.
  destruct (prepare_mutation mutation) as [p|e] eqn:Ep.
  2: { intros Hr. run_inv Hr. split; [done|]. exists (committed w). split; [constructor|].
       split; [done|]. right. by apply prepare_mutation_error in Ep as [? ->]. }
  intros Hr. run_inv Hr. apply begin_immediate_inv in Hm. destruct r0 as [[]|e].
  2: { run_inv Hr. destruct Hm as [Hc Ht']. split; [congruence|]. exists (committed w).
       split; [constructor|]. split; [done|by right]. }
  destruct Hm as (n & Hc & Ht0).
  assert (Hf : foreign_only (committed w) (committed w0)) by (rewrite Hc; repeat constructor).
  pose proof (foreign_only_wf _ _ Hfw Hwf Hf) as Hwf0.
  assert (Habort : forall op e w1 w2, committed w1 = committed w0 -> aborted w1 w2 ->
            txn w2 = None /\ exists db, foreign_only (committed w) db /\
              mutation_effect mutation (Err (MutationError.sql op e)) db (committed w2)).
  { intros op e w1 w2 Hc1 [Hc2 Ht2]. split; [done|]. exists (committed w0). split; [done|].
    split; [congruence|by right]. }
  run_inv Hr. apply call_inv in Hm as ([Hc1 Ht1] & _ & Hnow).
  destruct r0 as [now|e].
  2: { apply rollback_mutation_inv in Hr as [-> Ha]. by eapply Habort. }
  rewrite Ht0 in Ht1. run_inv Hr.
  apply (execute_inv _ _ _ _ _ _ Ht1) in Hm as (Hc2 & _ & Hx).
  destruct r0 as [k|e].
  2: { apply rollback_mutation_inv in Hr as [-> Ha]. eapply Habort; [|done]. congruence. }
  destruct Hx as (db' & Hsql & Ht2).
  apply mutation_sql_one in Hsql as [Hone Hnone]; [|done].
  destruct (Z.eqb_spec k 1) as [->|Hk]; cbn [negb] in Hr.
  - run_inv Hr. apply (commit_transaction_inv _ _ _ _ _ Ht2) in Hm as [Ht3 Hcom].
    destruct r0 as [[]|e]; run_inv Hr; (split; [done|]); exists (committed w0); (split; [done|]).
    + eexists _, _. split; [done|]. by apply Hone.
    + split; [congruence|by right].
  - destruct (Hnone Hk) as [-> Hunf].
    apply classify_unmatched_inv in Hr as ([Hc3 Ht3] & e & -> & Href).
    split; [done|]. exists (committed w0). split; [done|]. split; [congruence|].
    left. exists (tick w0). rewrite <- Hnow. split; [|exact Hunf].
    unfold visible in Href. by rewrite Ht2 in Href.
Qed.

Lemma into_busy_exhausted_effect mutation e db db' :
  MutationError.is_busy e = true -> mutation_effect mutation (Err e) db db' ->
  mutation_effect mutation (Err (MutationError.into_busy_exhausted e)) db db'.
Proof. by destruct e. Qed.

Lemma mutate_loop_inv mutation busy n w r w' :
  txn w = None -> foreign_wf -> db_wf (committed w) ->
  mutate_loop tenant_id row_id token mutation busy n w = Some (r, w') ->
  txn w' = None /\
  exists db, foreign_only (committed w) db /\ mutation_effect mutation r db (committed w').
Proof.
  intros Ht Hfw. revert w Ht. induction n as [|n IH]; intros w Ht Hwf Hr; simpl in Hr; run_inv Hr;
    apply mutate_once_inv in Hm as (Ht0 & db & Hf & Hres); try done;
    (destruct r0 as [[]|e]; [run_inv Hr; by eauto|]);
    destruct (MutationError.is_busy e) eqn:Eb; try (run_inv Hr; by eauto).
  - run_inv Hr. eauto using into_busy_exhausted_effect.
  - assert (committed w0 = db) as Hc by apply Hres.
    destruct (IH w0 Ht0) as (Ht' & db' & Hf' & Hres'); [|done|].
    + rewrite Hc. by eapply foreign_only_wf.
    + split; [done|]. exists db'. split; [|done]. rewrite Hc in Hf'. by eapply foreign_only_trans.
Qed.

(** A run of a mutation. *)
Lemma mutate_inv mutation busy w r w' :
  txn w = None -> foreign_wf -> db_wf (committed w) ->
  mutate_with_config tenant_id row_id token mutation busy w = Some (r, w') ->
  txn w' = None /\
  exists db, foreign_only (committed w) db /\ mutation_effect mutation r db (committed w').
Proof.
  intros Ht Hfw Hwf. unfold mutate_with_config. case_match.
  - intros Hr. by eapply mutate_loop_inv.
  - intros Hr. run_inv Hr. split; [done|]. exists (committed w). split; [constructor|].
    split; [done|by right].
Qed.

End MutationTheorems.
