(* ===== verification/Outbox.v ===== *)
(** * The outbox as a state machine

    The commits the adapter's operations make on the tables, as steps of the
    specification of one delivery and as actions of the contract; fencing and
    time at the level of instants. *)

From S2P Require Import Prelude Step Utf8 BTree Errors Limits Validation Bounds Values Extension Serialization Event State External SqliteError Tables Queries Contract Sqlite Migration Schema RowHydration Hydrate Canonical Enqueue Finalize Import Claims Lifecycle Mutation.

(** ** Commits *)

Section Commits.
Context `{TimeLib, SerdeJson, Base64, MimeLib, FluentUri, RustDebug, Env}.

(** What a successful operation does to the tables. *)
Inductive commit : Db -> Db -> Prop :=
  | commit_enqueue tenant_id event n db :
      identity tenant_id event ∉ map event_identity (events db) ->
      Events.check (new_row tenant_id event n db) = true ->
      commit db (with_delivery (pending_row (TenantId.as_str tenant_id) (new_row_id n db) (clock n))
                   (with_event (new_row tenant_id event n db) db))
  | commit_claim request evs db db' : claimed_on request db evs db' -> commit db db'
  | commit_mutation tenant_id row_id token mutation n db db' :
      mutated_on tenant_id row_id token mutation (clock n) db db' -> commit db db'
  | commit_import tenant_id event state n m t db :
      identity tenant_id event ∉ map event_identity (events db) ->
      parse_timestamp (clock n) = Ok t ->
      Events.check (imported_event tenant_id event (new_row_id m db) (adapter_format_timestamp t)) = true ->
      commit db (imported_db tenant_id event state (new_row_id m db) (adapter_format_timestamp t) db)
  | commit_finalize tenant_id row_id delivered_at e db :
      e ∈ events db -> event_at (TenantId.as_str tenant_id) (RowId.get row_id) e = true ->
      imported_delivery tenant_id row_id (Events.enqueued_at e) "pending" None ∈ deliveries db ->
      commit db (finalized_db tenant_id row_id delivered_at (Events.enqueued_at e) db).

(** The row map of a mutation. *)
Lemma mutated_on_map tenant_id row_id token mutation now db db' :
  db_wf db -> mutated_on tenant_id row_id token mutation now db db' ->
  exists d d' f, d ∈ deliveries db /\
    fenced (option_map TenantId.as_str tenant_id) (RowId.get row_id)
      (ClaimToken.as_bytes token) now d = true /\
    assign mutation now d = Ok d' /\ Deliveries.check d' = true /\
    db' = MkDb (events db) (map f (deliveries db)) (tables db) /\
    (forall r, r ∈ deliveries db -> f r = if decide (r = d) then d' else r) /\
    (forall r, f r = r \/ f r = d' /\ Deliveries.event_row_id r = Deliveries.event_row_id d).
Proof.
  intros Hwf (d & d' & Hd & Hf & Ha & Hc & ->).
  exists d, d', (fun r => if Deliveries.event_row_id r =? Deliveries.event_row_id d then d' else r).
  split_and!; try done.
  - intros r Hr. case_decide as Heq; [subst; by rewrite Z.eqb_refl|].
    destruct (Z.eqb_spec (Deliveries.event_row_id r) (Deliveries.event_row_id d)) as [He|]; [|done].
    destruct Heq. eapply (sorted_key_inj Deliveries.event_row_id); eauto; apply Hwf.
  - intros r. destruct (Z.eqb_spec (Deliveries.event_row_id r) (Deliveries.event_row_id d)); auto.
Qed.

Lemma mutated_on_wf tenant_id row_id token mutation now db db' :
  db_wf db -> mutated_on tenant_id row_id token mutation now db db' -> db_wf db'.
Proof.
  intros Hwf Hm. pose proof Hwf as (He & Hd' & Hce & Hcd & Hid & Hfk).
  apply mutated_on_map in Hm as (d & d' & f & Hd & _ & Ha & Hc & -> & Hfr & _); [|done].
  apply assign_keeps in Ha as [Hk Ht].
  assert (Hmap : map f (deliveries db) = map (fun r => if decide (r = d) then d' else r) (deliveries db)).
  { apply map_ext_in. intros r Hr. apply Hfr. by apply list_elem_of_In. }
  rewrite Hmap. apply map_deliveries_wf; [done| |].
  - intros r Hr Hcr. by case_decide.
  - intros r. case_decide; subst; auto.
Qed.

(** Finalization rewrites one row within the CHECKs. *)
Lemma finalized_wf tenant_id row_id delivered_at enqueued_at db :
  db_wf db -> db_wf (finalized_db tenant_id row_id delivered_at enqueued_at db).
Proof.
  intros Hwf. apply map_deliveries_wf; [done| |].
  - intros d _ Hck. destruct (delivery_of _ _ d) eqn:Ed; [|done].
    apply delivery_of_spec in Ed as [Ht _]. unfold imported_delivery. rewrite <- Ht.
    unfold Deliveries.check in *. rewrite !andb_true_iff in Hck. destruct_and!.
    unfold untouched_row. simpl. by repeat (apply andb_true_intro; split).
  - intros d. destruct (delivery_of _ _ d) eqn:Ed; [|done].
    apply delivery_of_spec in Ed as [-> ->]. done.
Qed.

(** One commit and the constraints. *)
Lemma commit_wf `{!SqliteTime} {QL : SqliteLaws} db db' :
  commit db db' -> db_wf db -> db_wf db'.
Proof.
  intros Hc Hwf. destruct Hc as [tenant_id event n db Hnew Hck|request evs db db' Hc|
    tenant_id row_id token mutation n db db' Hm|tenant_id event state n m t db Hnew _ Hck|
    tenant_id row_id delivered_at e db _ _ _].
  - apply insert_pair_wf; try done; [apply new_row_id_fresh|].
    apply (untouched_row_check (new_row tenant_id event n db)); auto.
  - destruct Hc as (n & lease_ms & ps & _ & _ & _ & _ & Hk & ->).
    apply map_deliveries_wf; [done..|]. intros d. apply claim_rows_keeps.
  - by eapply mutated_on_wf.
  - apply insert_pair_wf; try done; [apply new_row_id_fresh|].
    apply (untouched_row_check (imported_event tenant_id event (new_row_id m db)
             (adapter_format_timestamp t))); [done|]. destruct state; simpl; eauto.
  - by apply finalized_wf.
Qed.

(** Every constraint of the migration is an invariant: an enqueue, an import, a
    finalization, a claim or a mutation on well-formed tables leaves them well formed. *)
Theorem commit_keeps_constraints `{!SqliteTime} {QL : SqliteLaws} db db' :
  commit db db' -> db_wf db -> db_wf db'.
Proof. by apply commit_wf. Qed.
End Commits.

(** ** Refinement *)

Section Refinement.
Context `{TimeLib, SerdeJson, Base64, MimeLib, FluentUri, RustDebug, Env}.

(** The prepared claims of a batch, by their deliveries. *)
Lemma prepared_chosen db tenant now limit ps :
  db_wf db -> Forall2 prepared_from (claim_sql tenant now limit db) ps ->
  Forall2 (fun d p => exists c, candidate_of db d c /\ prepared_from c p)
    (chosen tenant now limit db) ps.
Proof.
  intros Hwf Hps. pose proof (claim_sql_chosen tenant now limit db Hwf) as Hcand.
  eapply Forall2_compose; [|exact Hcand|exact Hps]; eauto.
Qed.

Lemma prepared_ids db tenant now limit ps :
  db_wf db -> Forall2 prepared_from (claim_sql tenant now limit db) ps ->
  map Deliveries.event_row_id (chosen tenant now limit db) = map p_event_row_id ps.
Proof.
  intros Hwf Hps. apply Forall2_map_eq. eapply Forall2_impl; [by apply prepared_chosen|].
  intros x p (c & (e & _ & Hj & ->) & [_ Hp _ _ _ _]). simpl in *.
  apply join_condition_spec in Hj as [_ Hj]. congruence.
Qed.

(** One row of a successful claim. *)
Lemma claim_rows_step db tenant now limit ps worker lease_ms d :
  db_wf db -> Forall2 prepared_from (claim_sql tenant now limit db) ps -> d ∈ deliveries db ->
  (Deliveries.event_row_id d ∉ map p_event_row_id ps /\ claim_rows worker now lease_ms ps d = d) \/
  (exists p, p ∈ ps /\ Deliveries.event_row_id d = p_event_row_id p /\ eligible now d = true /\
     Deliveries.claim_token d <> Some (p_token p) /\
     claim_rows worker now lease_ms ps d
     = set_claimed (Deliveries.attempts d + 1) (p_token p) (WorkerId.as_str worker)
         (strftime now (seconds_modifier lease_ms)) d).
Proof.
  intros Hwf Hps Hd. pose proof (sqlite_chosen_sorted tenant now limit db Hwf) as Hsorted.
  pose proof (prepared_chosen _ _ _ _ _ Hwf Hps) as Hent.
  pose proof (prepared_ids _ _ _ _ _ Hwf Hps) as Hids.
  destruct (decide (Deliveries.event_row_id d ∈ map p_event_row_id ps)) as [Hin|Hin];
    [right|left; split; [done|by apply claim_rows_other]].
  apply list_elem_of_fmap in Hin as (p & Hk & Hp). exists p. split; [done|].
  pose proof Hp as Hp'. apply list_elem_of_lookup in Hp' as [i Hi].
  destruct (Forall2_lookup_r _ _ _ _ _ Hent Hi) as (d0 & Hd0 & c & (e & _ & Hj & ->) & Hpf).
  apply list_elem_of_lookup_2, sqlite_chosen_spec in Hd0 as (Hd0 & Hel & _).
  apply join_condition_spec in Hj as [Hjt Hjk]. destruct Hpf as [_ Hpk Hpt _ Hpa Hptok].
  simpl in *. assert (d0 = d) as ->.
  { eapply (sorted_key_inj Deliveries.event_row_id); [apply Hwf|done..|congruence]. }
  split_and!; [done..|]. destruct Hpa as (a & [= <-] & Ha & _). rewrite <- Ha.
  apply claim_rows_own; try done.
  - rewrite <- Hids. by apply sorted_lt_NoDup.
  - apply TenantId_new_as_str in Hpt. congruence.
  - by eapply eligible_state.
Qed.

(** The abstract step of a mutation on its fenced row. *)
Lemma assign_step tenant row_id token mutation now d d' :
  fenced tenant row_id token now d = true -> assign mutation now d = Ok d' ->
  exists s, abstracts d (DeliveryState.Claimed, Deliveries.attempts d) /\
    abstracts d' (s, Deliveries.attempts d) /\
    spec_step (DeliveryState.Claimed, Deliveries.attempts d) (s, Deliveries.attempts d).
Proof.
  unfold fenced. intros Hf. bools.
  match goal with H : bool_decide (Deliveries.state d = _) = true |- _ =>
    apply bool_decide_eq_true in H as Hst end.
  destruct mutation; simpl; unfold due; try (destruct (strftime _ _); simpl; [|done]);
    intros [= <-]; unfold abstracts; simpl.
  - exists DeliveryState.Claimed. repeat split; done || constructor.
  - exists DeliveryState.Delivered. repeat split; done || constructor.
  - exists DeliveryState.Pending. repeat split; done || constructor.
  - exists DeliveryState.Pending. repeat split; done || constructor.
  - exists DeliveryState.Quarantined. repeat split; done || constructor.
Qed.

Lemma set_claimed_refines now d token worker expiry :
  eligible now d = true ->
  row_refines d (set_claimed (Deliveries.attempts d + 1) token worker expiry d).
Proof.
  intros Hel. apply eligible_state in Hel. constructor; try done.
  - intros x Hx. exists (DeliveryState.Claimed, Deliveries.attempts d + 1).
    split; [by split|]. destruct x as [s n], Hx as [Hs Hn]. simpl in *. subst n.
    rewrite Hs in Hel. destruct Hel, s; try done; constructor.
  - intros [Ht|Ht]; rewrite Ht in Hel; by destruct Hel.
Qed.

(** A finalized row was pending and never claimed. *)
Lemma finalized_refines tenant_id row_id enqueued_at text :
  row_refines (imported_delivery tenant_id row_id enqueued_at "pending" None)
    (imported_delivery tenant_id row_id enqueued_at "delivered" (Some text)).
Proof.
  constructor; try done.
  - intros x Hx. exists (DeliveryState.Delivered, 0). split; [done|].
    rewrite (abstracts_fun _ _ (DeliveryState.Pending, 0) Hx) by done. constructor.
  - by intros [].
Qed.

(** One commit and one row. *)
Lemma commit_row_refines db db' d :
  commit db db' -> db_wf db -> d ∈ deliveries db ->
  exists d', d' ∈ deliveries db' /\ row_refines d d'.
Proof.
  intros Hc Hwf Hd. destruct Hc as [tenant_id event n db _ _|request evs db db' Hc|
    tenant_id row_id token mutation n db db' Hm|tenant_id event state n m t db _ _ _|
    tenant_id row_id delivered_at e db _ _ Hin].
  - exists d. split; [apply elem_of_insert_row; by right|apply row_refines_refl].
  - destruct Hc as (n & lease_ms & ps & _ & Hps & _ & _ & _ & ->).
    exists (claim_rows (r_worker request) (clock n) lease_ms ps d).
    split; [apply list_elem_of_fmap; by exists d|].
    destruct (claim_rows_step _ _ _ _ _ (r_worker request) lease_ms _ Hwf Hps Hd)
      as [[_ ->]|(p & _ & _ & Hel & _ & ->)]; [apply row_refines_refl|].
    by eapply set_claimed_refines.
  - apply mutated_on_map in Hm as (d0 & d' & f & Hd0 & Hf & Ha & _ & -> & Hmap & _); [|done].
    exists (f d). split; [apply list_elem_of_fmap; by exists d|].
    rewrite Hmap by done. case_decide; [subst d0|apply row_refines_refl].
    destruct (assign_step _ _ _ _ _ _ _ Hf Ha) as (s & Habs & Habs' & Hstep).
    destruct (assign_keeps _ _ _ _ Ha). constructor; try done.
    + intros x Hx. rewrite (abstracts_fun _ _ _ Hx Habs). eauto.
    + destruct Habs as [Hst _]. simpl in Hst. rewrite Hst. by intros [].
  - exists d. split; [apply elem_of_insert_row; by right|apply row_refines_refl].
  - eexists. split; [apply list_elem_of_fmap; exists d; by split|]. cbv beta.
    destruct (delivery_of _ _ d) eqn:Ed; [|apply row_refines_refl].
    rewrite (delivery_of_unique db _ _ _ _ Hwf Hd Hin Ed) by by apply delivery_of_spec.
    apply finalized_refines.
Qed.

(** The operations refine the specification: across any commit every
    delivery row stays, with the same id and tenant, its state and attempt
    count take at most one step of the specification, and a delivered or
    quarantined row is not touched in any column. *)
Theorem commit_refines_spec db db' d :
  commit db db' -> db_wf db -> d ∈ deliveries db ->
  exists d', d' ∈ deliveries db' /\ row_refines d d'.
Proof. by apply commit_row_refines. Qed.

(** Any sequence of commits. *)
Inductive commits : Db -> Db -> Prop :=
  | commits_nil db : commits db db
  | commits_cons db1 db2 db3 : commit db1 db2 -> commits db2 db3 -> commits db1 db3.

Lemma commit_events db db' e : commit db db' -> e ∈ events db -> e ∈ events db'.
Proof.
  intros Hc He. destruct Hc as [| ? ? ? ? Hc | ? ? ? ? ? ? ? Hm | |].
  - apply elem_of_insert_row. by right.
  - by destruct Hc as (? & ? & ? & _ & _ & _ & _ & _ & ->).
  - by destruct Hm as (? & ? & _ & _ & _ & _ & ->).
  - apply elem_of_insert_row. by right.
  - done.
Qed.

(** Over any sequence of operations events are immutable, no delivery is
    lost, attempt counts never decrease and a delivery that reached a terminal
    state keeps its exact row for ever. *)
Theorem history_is_monotone `{!SqliteTime} {QL : SqliteLaws} db db' :
  commits db db' -> db_wf db ->
  db_wf db' /\
  (forall e, e ∈ events db -> e ∈ events db') /\
  (forall d, d ∈ deliveries db -> exists d', d' ∈ deliveries db' /\
     Deliveries.event_row_id d' = Deliveries.event_row_id d /\
     Deliveries.tenant_id d' = Deliveries.tenant_id d /\
     Deliveries.attempts d <= Deliveries.attempts d' /\
     (Deliveries.state d = "delivered" \/ Deliveries.state d = "quarantined" -> d' = d)).
Proof.
  induction 1 as [db|db1 db2 db3 Hc Hcs IH]; intros Hwf.
  - split_and!; [done..|]. intros d Hd. exists d. split_and!; done || lia.
  - pose proof (commit_wf _ _ Hc Hwf) as Hwf2.
    destruct (IH Hwf2) as (Hwf3 & Hev & Hdel). split_and!; [done| |].
    + intros e He. apply Hev. by eapply commit_events.
    + intros d Hd. destruct (commit_row_refines _ _ _ Hc Hwf Hd) as (d2 & Hd2 & [Hk Ht Hs Hterm]).
      destruct (Hdel _ Hd2) as (d3 & Hd3 & Hk3 & Ht3 & Ha3 & Hterm3).
      exists d3. split_and!; [done|congruence|congruence| |].
      * destruct (check_abstracts d) as [x Hx].
        { destruct Hwf as (_ & _ & _ & Hcd & _). rewrite Forall_forall in Hcd. by apply Hcd. }
        destruct (Hs _ Hx) as (y & Hy & Hstep). apply spec_attempts_monotone in Hstep.
        destruct Hx, Hy. lia.
      * intros Htd. rewrite (Hterm Htd) in *. by apply Hterm3.
Qed.
End Refinement.

(** ** The commits are actions of the contract *)

Section Contracted.
Context `{TimeLib, SerdeJson, Base64, MimeLib, FluentUri, RustDebug, Env, !SqliteTime}.
Context {QL : SqliteLaws}.

Lemma new_key_free n db : new_row_id n db ∉ event_keys db.
Proof.
  intros Hin. destruct (new_row_id_fresh n db) as [_ Hf]. rewrite Forall_forall in Hf.
  specialize (Hf _ Hin). lia.
Qed.

(** Inserting a new event with its delivery. *)
Lemma insert_action e delivered (db : Db) :
  db_wf db -> Events.row_id e ∉ event_keys db -> event_identity e ∉ map event_identity (events db) ->
  Events.check e = true -> exists a, enabled a db = true /\ perform (Insert e delivered) db = perform a db.
Proof. intros Hwf. eexists. split; [by apply enabled_insert; split_and!; [..|apply Hwf]|done]. Qed.

Lemma claim_action request evs db db' :
  db_wf db -> claimed_on request db evs db' -> exists a, enabled a db = true /\ db' = perform a db.
Proof.
  intros Hwf (n & lease_ms & ps & _ & Hps & Hnd & _ & Hk & ->).
  assert (Hids : map fst (map (fun p => (p_event_row_id p, p_token p)) ps) = map p_event_row_id ps)
    by (rewrite map_map; by apply map_ext).
  exists (Claim (WorkerId.as_str (r_worker request)) (clock n)
            (strftime (clock n) (seconds_modifier lease_ms))
            (map (fun p => (p_event_row_id p, p_token p)) ps)).
  apply perform_update; [done| | |apply map_deliveries_wf; [done..|]; intros d; apply claim_rows_keeps].
  - unfold guard. rewrite map_map, bool_decide_true by done. apply forallb_forall.
    intros g (p & <- & Hp)%in_map_iff. apply bool_decide_eq_true. simpl.
    assert (Hin : p_event_row_id p ∈ map p_event_row_id ps)
      by by apply list_elem_of_fmap_2, list_elem_of_In.
    rewrite <- (prepared_ids _ _ _ _ _ Hwf Hps) in Hin. apply list_elem_of_fmap in Hin as (d & -> & Hd).
    apply list_elem_of_fmap_2. by apply sqlite_chosen_spec in Hd as [? _].
  - intros d Hd. cbn [row_after row_guard].
    destruct (claim_rows_step _ _ _ _ _ (r_worker request) lease_ms _ Hwf Hps Hd)
      as [[Hno ->]|(p & Hp & Hkey & Hel & Hne & ->)].
    + by rewrite grant_None by by rewrite Hids.
    + rewrite (grant_Some _ _ (p_token p)).
      * by rewrite bool_decide_false, andb_true_r.
      * rewrite Hids, <- (prepared_ids _ _ _ _ _ Hwf Hps). by apply sorted_lt_NoDup, sqlite_chosen_sorted.
      * rewrite Hkey. apply list_elem_of_fmap. by exists p.
Qed.

Lemma assign_update mutation now d d' :
  assign mutation now d = Ok d' -> exists u, d' = apply_update u d.
Proof.
  destruct mutation; simpl; try (destruct (due now _) as [t|]; simpl; [|done]); intros [= <-].
  - by eexists (Renew _).
  - by eexists (Ack _).
  - by eexists (Retry _ _ _).
  - by eexists (Release _).
  - by eexists (Quarantine _ _).
Qed.

Lemma mutation_action tenant_id row_id token mutation now db db' :
  db_wf db -> mutated_on tenant_id row_id token mutation now db db' ->
  exists a, enabled a db = true /\ db' = perform a db.
Proof.
  intros Hwf Hm. pose proof (mutated_on_wf _ _ _ _ _ _ _ Hwf Hm) as Hwf'.
  destruct Hm as (d & d' & Hd & Hf & Ha & _ & ->). destruct (assign_update _ _ _ _ Ha) as [u ->].
  exists (Mutate (Deliveries.event_row_id d) (ClaimToken.as_bytes token) now u).
  apply perform_update; [done| | |done].
  - apply bool_decide_eq_true. by apply list_elem_of_fmap_2.
  - intros r Hr. simpl.
    destruct (Z.eqb_spec (Deliveries.event_row_id r) (Deliveries.event_row_id d)) as [Hk|]; [|done].
    assert (r = d) as -> by by (eapply (sorted_key_inj Deliveries.event_row_id); [apply Hwf|..]).
    split; [done|]. unfold fenced in Hf. unfold held_under. simpl in *.
    rewrite !andb_true_iff in Hf. destruct Hf as [[[_ ->] ->] ->]. done.
Qed.

Lemma finalize_action tenant_id row_id delivered_at e (db : Db) :
  db_wf db -> e ∈ events db -> event_at (TenantId.as_str tenant_id) (RowId.get row_id) e = true ->
  imported_delivery tenant_id row_id (Events.enqueued_at e) "pending" None ∈ deliveries db ->
  exists a, enabled a db = true /\
    finalized_db tenant_id row_id delivered_at (Events.enqueued_at e) db = perform a db.
Proof.
  intros Hwf He Hat Hin.
  exists (Finalize (RowId.get row_id) (adapter_format_timestamp delivered_at)).
  apply perform_update; [done| | |by apply finalized_wf].
  - apply bool_decide_eq_true. by apply (list_elem_of_fmap_2 Deliveries.event_row_id) in Hin.
  - unfold event_at in Hat. rewrite andb_true_iff, bool_decide_eq_true, Z.eqb_eq in Hat.
    destruct Hat as [Ht Hk]. intros d Hd. simpl. unfold delivery_of.
    destruct (Z.eqb_spec (Deliveries.event_row_id d) (RowId.get row_id)) as [Hkd|];
      [|by rewrite andb_false_r].
    assert (d = imported_delivery tenant_id row_id (Events.enqueued_at e) "pending" None) as ->.
    { eapply (sorted_key_inj Deliveries.event_row_id); [apply Hwf|exact Hd|exact Hin|exact Hkd]. }
    simpl. rewrite bool_decide_true by done. split; [done|]. apply existsb_exists. exists e.
    split; [by apply list_elem_of_In|]. apply bool_decide_eq_true.
    unfold imported_delivery, first_delivery. by rewrite Ht, Hk.
Qed.

End Contracted.

(** ** The operations are commits *)

Section Operations.
Context `{TimeLib, SerdeJson, Base64, MimeLib, FluentUri, RustDebug, Env, CatalogEnv}.

Lemma claim_for_scope_commit tenant_id worker lease_for limit busy w evs w' :
  txn w = None ->
  claim_for_scope tenant_id worker lease_for limit busy w = Some (Ok evs, w') ->
  exists db, foreign_only (committed w) db /\
    claimed_on (MkClaimRequest tenant_id worker lease_for limit) db evs (committed w').
Proof.
  intros Ht. unfold claim_for_scope. case_match; [|intros Hr; by run_inv Hr].
  intros Hr. apply claim_loop_inv in Hr as (_ & db & Hf & Hc); eauto.
Qed.

End Operations.

(** ** Fencing *)

Section Fencing.
Context `{TimeLib, SerdeJson, Base64, MimeLib, FluentUri, RustDebug, Env}.

(** At one database time a delivery is never both open to a claim and open to
    its holder's mutations. *)
Lemma eligible_not_fenced tenant row_id token now d :
  eligible now d = true -> fenced tenant row_id token now d = false.
Proof.
  unfold eligible, fenced. intros He. apply not_true_iff_false. intros Hf. bools.
  apply orb_true_iff in He as [He|He]; bools;
    repeat match goal with H : bool_decide _ = true |- _ => apply bool_decide_eq_true in H end;
    [congruence|].
  destruct (Deliveries.claim_expires_at d) as [x|]; simpl in *; [|done]. bools. congruence.
Qed.

Lemma foreign_only_none db db' :
  (forall n db, foreign_writes n db = db) -> foreign_only db db' -> db' = db.
Proof. intros Hn. induction 1; [done|]. by rewrite Hn. Qed.

(** After a batch, the row of a returned claim holds that claim's token. *)
Lemma row_after_claim_token db tenant now limit worker (expiry : option string) evs ev d :
  db_wf db -> Forall2 (claim_of db worker) (chosen tenant now limit db) evs -> ev ∈ evs ->
  Deliveries.event_row_id (row_after_claim worker expiry evs d)
  = RowId.get (ClaimedEvent.row_id ev) ->
  Deliveries.claim_token (row_after_claim worker expiry evs d)
  = Some (ClaimToken.as_bytes (ClaimedEvent.claim_token ev)).
Proof.
  intros Hwf Hco Hev. unfold row_after_claim.
  destruct (claim_for_row evs d) as [ev2|] eqn:Ef; simpl; intros Hk.
  - apply List.find_some in Ef as [Hin2 Hk2]. apply Z.eqb_eq in Hk2. apply list_elem_of_In in Hin2.
    apply list_elem_of_lookup in Hin2 as [i2 Hi2]. apply list_elem_of_lookup in Hev as [i Hi].
    destruct (Forall2_lookup_r _ _ _ _ _ Hco Hi) as (a & Ha & [Hka _ _ _ _ _ _]).
    destruct (Forall2_lookup_r _ _ _ _ _ Hco Hi2) as (b & Hb & [Hkb _ _ _ _ _ _]).
    assert (i2 = i) as ->; [|congruence].
    pose proof (sorted_lt_NoDup _ (sqlite_chosen_sorted tenant now limit db Hwf)) as Hnd.
    eapply NoDup_lookup; [exact Hnd|rewrite list_lookup_fmap, Hb; reflexivity|].
    rewrite list_lookup_fmap, Ha. simpl. congruence.
  - pose proof (List.find_none _ _ Ef ev) as Hne. rewrite Hk, Z.eqb_refl in Hne.
    by discriminate Hne; apply list_elem_of_In.
Qed.

(** The delivery of this id holds this claim token. *)
Definition holds_token (db : Db) (row_id : Z) (token : bytes) : Prop :=
  exists d, d ∈ deliveries db /\ Deliveries.event_row_id d = row_id /\
    Deliveries.claim_token d = Some token.

(** C1: a claim fences out the previous holder. When nobody else writes, after
    a successful claim every mutation of a claimed row with any token other
    than the returned one fails and changes nothing; in particular the token
    the row had before the claim is one of these. *)
Theorem claim_fences_out scope worker lease_for limit busy w evs w' ev token mutation busy' r w'' scope' :
  txn w = None -> db_wf (committed w) -> (forall n db, foreign_writes n db = db) ->
  claim_for_scope scope worker lease_for limit busy w = Some (Ok evs, w') ->
  ev ∈ evs ->
  ClaimToken.as_bytes token <> ClaimToken.as_bytes (ClaimedEvent.claim_token ev) ->
  mutate_with_config scope' (ClaimedEvent.row_id ev) token mutation busy' w' = Some (r, w'') ->
  (exists e, r = Err e) /\ committed w'' = committed w' /\
  ~ holds_token (committed w) (RowId.get (ClaimedEvent.row_id ev))
      (ClaimToken.as_bytes (ClaimedEvent.claim_token ev)).
Proof.
  intros Ht Hwf Hnf Hclaim Hev Htok Hmut.
  assert (Hfw : foreign_wf) by (intros n db; by rewrite Hnf).
  apply claim_success_inv in Hclaim as (Ht' & db & n & lease_ms & Hf & _ & _ & Hco & _ & Hwf' & Hdb);
    [|done..].
  apply foreign_only_none in Hf as ->; [|done].
  apply list_elem_of_lookup in Hev as [i Hi].
  destruct (Forall2_lookup_r _ _ _ _ _ Hco Hi) as (d & Hd & Hcd).
  apply list_elem_of_lookup_2, sqlite_chosen_spec in Hd as (Hd & _ & _).
  apply mutate_inv in Hmut as (_ & db2 & Hf2 & Heff); [|done..].
  apply foreign_only_none in Hf2 as ->; [|done].
  destruct r as [[]|e].
  - exfalso. destruct Heff as (p & k & _ & d2 & d3 & Hd2 & Hfen & _).
    rewrite Hdb in Hd2. simpl in Hd2. apply list_elem_of_fmap in Hd2 as (d0 & -> & _).
    unfold fenced, row_in_scope in Hfen. bools.
    assert (Hev : ev ∈ evs) by by eapply list_elem_of_lookup_2.
    match goal with Hk : Deliveries.event_row_id _ = _,
                    Htk : bool_decide (Deliveries.claim_token _ = _) = true |- _ =>
      apply bool_decide_eq_true in Htk;
      rewrite (row_after_claim_token _ _ _ _ _ _ _ _ _ Hwf Hco Hev Hk) in Htk end.
    congruence.
  - split_and!; [eauto|apply Heff|]. intros (d' & Hd' & Hid & Htok'). destruct Hcd.
    destruct Hwf as (_ & Hs & _).
    assert (d' = d) as -> by (eapply (sorted_key_inj Deliveries.event_row_id); eauto; congruence).
    congruence.
Qed.
End Fencing.

(** ** Time *)

Section Time.
Context `{TimeLib, SerdeJson, Base64, MimeLib, FluentUri, RustDebug, Env, SqliteTime}.
Context {TL : TimeLaws} {QL : SqliteLaws}.

(** A claimed row as the adapter writes it: a sixteen-byte token and an expiry
    in the adapter's format. *)
Definition claimed_at (d : Deliveries.row) (expiry_ms : Z) : Prop :=
  Deliveries.state d = "claimed" /\ Deliveries.claim_expires_at d = Some (millis_text expiry_ms) /\
  0 <= expiry_ms <= max_millis /\
  exists stored, Deliveries.claim_token d = Some stored /\ len stored = 16.

Lemma parse_millis_text ms :
  0 <= ms <= max_millis ->
  exists t, parse_timestamp (millis_text ms) = Ok t /\ unix_nanos t = ms * 1000000.
Proof.
  intros Hms. destruct (parse_millis ms Hms) as (t & Ht & Hn). exists (to_utc t).
  unfold parse_timestamp. rewrite Ht. simpl. by rewrite to_utc_nanos.
Qed.

(** C36: the two fences agree. The SQL fence compares time texts byte by byte,
    the classification parses them and compares instants; on a row in scope,
    classification finds nothing wrong exactly when the UPDATE would match. So
    the last error of the mutation, a claimed delivery that did not satisfy
    it, cannot be reached. *)
Theorem fences_agree tenant row_id token d expiry_ms now_ms :
  claimed_at d expiry_ms -> 0 <= now_ms <= max_millis ->
  row_in_scope tenant row_id d = true ->
  (classify_delivery (DeliveryForMutation.Make (Deliveries.state d) (Deliveries.claim_token d)
     (Deliveries.claim_expires_at d)) token (millis_text now_ms) = Ok tt <->
   fenced tenant row_id (ClaimToken.as_bytes token) (millis_text now_ms) d = true) /\
  (fenced tenant row_id (ClaimToken.as_bytes token) (millis_text now_ms) d = true <->
   Deliveries.claim_token d = Some (ClaimToken.as_bytes token) /\ now_ms < expiry_ms).
Proof.
  intros (Hst & Hexp & Hr & stored & Htok & Hlen) Hnow Hsc.
  assert (Hfen : fenced tenant row_id (ClaimToken.as_bytes token) (millis_text now_ms) d = true <->
    stored = ClaimToken.as_bytes token /\ now_ms < expiry_ms).
  { unfold fenced. rewrite Hsc, Hst, Htok, Hexp, bool_decide_true by done. simpl.
    rewrite andb_true_iff, bool_decide_eq_true, millis_text_leb, negb_true_iff, Z.leb_gt by done.
    naive_solver. }
  destruct (parse_millis_text expiry_ms Hr) as (t & Ht & Htn).
  destruct (parse_millis_text now_ms Hnow) as (u & Hu & Hun).
  rewrite Hfen, Htok. split; [|naive_solver].
  unfold classify_delivery, parse_state. cbn [DeliveryForMutation.state
    DeliveryForMutation.claim_token DeliveryForMutation.claim_expires_at].
  rewrite Hst, Hexp. change (bool_decide ("claimed" = "pending")) with false.
  change (bool_decide ("claimed" = "claimed")) with true. cbv beta iota.
  rewrite bool_decide_true by done. cbn [negb ok_or]. rewrite Hlen. cbn [Z.eqb Pos.eqb negb].
  rewrite Ht, Hu. cbn [map_err]. unfold instant_leb. rewrite Htn, Hun.
  case_bool_decide as Hb; simpl.
  - destruct (Z.leb_spec (expiry_ms * 1000000) (now_ms * 1000000)); split; try done;
      [intros [_ ?]; lia|intros _; split; [done|lia]].
  - split; [done|]. by intros [? _].
Qed.

(** A claim lasts exactly its lease: the stored expiry and the returned one
    are the database time of the claim plus the lease, to the millisecond, and
    until then the row is not eligible again. *)
Theorem claim_expiry_exact n lease_ms p worker ev :
  0 <= lease_ms -> claimed_from worker (clock n) lease_ms p ev ->
  exists now_ms, 0 <= now_ms <= max_millis /\ clock n = millis_text now_ms /\
    (now_ms + lease_ms <= max_millis ->
     strftime (clock n) (seconds_modifier lease_ms) = Some (millis_text (now_ms + lease_ms)) /\
     unix_nanos (ClaimedEvent.claim_expires_at ev) = (now_ms + lease_ms) * 1000000 /\
     forall d attempts token,
       let d' := set_claimed attempts token (WorkerId.as_str worker)
                   (strftime (clock n) (seconds_modifier lease_ms)) d in
       (len token = CLAIM_TOKEN_BYTES -> claimed_at d' (now_ms + lease_ms)) /\
       forall at_ms, 0 <= at_ms < now_ms + lease_ms -> eligible (millis_text at_ms) d' = false).
Proof.
  intros Hl Hc. destruct (clock_text n) as (now_ms & Hr & Hnow). exists now_ms. do 2 (split; [done|]).
  intros Hmax. destruct Hc as [_ _ _ _ _ _ (text & t & Hs & Hp & Hcan)].
  pose proof (strftime_add now_ms lease_ms (proj1 Hr) Hl Hmax) as Hst. rewrite Hnow in *.
  rewrite Hst in Hs |- *. injection Hs as <-.
  destruct (parse_millis_text (now_ms + lease_ms)) as (u & Hu & Hun); [lia|].
  rewrite Hp in Hu. injection Hu as ->.
  apply canonicalize_instant_Ok in Hcan as [_ ->]. rewrite to_utc_nanos.
  split_and!; [done..|]. intros d attempts token. cbv zeta.
  split; [intros Hlen; split_and!; [done..|lia|lia|by exists token]|].
  intros at_ms Hat. unfold eligible.
  cbn [set_claimed Deliveries.state Deliveries.claim_expires_at Deliveries.available_at].
  change (bool_decide ("claimed" = "pending")) with false.
  change (bool_decide ("claimed" = "claimed")) with true. cbn [andb orb is_some_and].
  rewrite millis_text_leb by lia. apply Z.leb_gt. lia.
Qed.
End Time.
