(* ===== verification/Page.v ===== *)
(** * Paging (crates/dovecote-sqlx-sqlite/src/page.rs)

    Live pages after a cursor, and the finite snapshot pager that reads one
    transaction up to the row id seen when it began. *)

From S2P Require Import Prelude Step Utf8 BTree Errors Limits Validation Bounds Values Extension Serialization Event State External SqliteError Tables Queries Paging Sqlite Migration RowHydration Hydrate Enqueue Claims Lifecycle.

(** ** The SQL statements *)

(** ** The operations *)

Module SnapshotPager.
Record t : Type := Make {
  (** whether [transaction] is still [Some] *)
  transaction : bool;
  upper_bound : option RowId.t;
  cursor : option RowId.t;
  exhausted : bool;
  tenant_id : option TenantId.t;
}.
End SnapshotPager.

Section Page.
Context `{TimeLib, SerdeJson, Base64, MimeLib, FluentUri, RustDebug, Env}.

Definition read_page_scoped (tenant_id : option TenantId.t) (after_row_id : Z)
    (upper_bound : option Z) (limit : Limit.t) : M (Result (list PagedEvent.t) PageError.t) :=
  try* rows := query (fun _ => page_sql (option_map TenantId.as_str tenant_id) after_row_id
                                 upper_bound (Limit.get limit))
       else PageError.sql "read event page" in
  ret (map_err PageError.serialization (collect hydrate_page rows)).

Definition page_for_scope (tenant_id : option TenantId.t) (after_row_id : option RowId.t)
    (limit : Limit.t) : M (Result (list PagedEvent.t) PageError.t) :=
  try* _ := call (fun _ => tt) else PageError.sql "acquire live page connection" in
  try* _ := install_foreign_keys else PageError.sql "enable live-page foreign keys" in
  read_page_scoped tenant_id
    (match after_row_id with Some id => RowId.get id | None => 0 end) None limit.

Definition begin_snapshot_for_scope (tenant_id : option TenantId.t) :
    M (Result SnapshotPager.t PageError.t) :=
  try* _ := begin_read else PageError.sql "begin snapshot transaction" in
  let* upper_bound := query (fun _ => max_row_id_sql (option_map TenantId.as_str tenant_id)) in
  match upper_bound with
  | Err source =>
      let* _ := rollback in
      ret (Err (PageError.sql "read snapshot upper row ID" source))
  | Ok upper_bound =>
      match (match upper_bound with
             | Some value => map_ok Some (RowId.new value)
             | None => Ok None
             end) with
      | Err error =>
          let* _ := rollback in
          ret (Err (PageError.serialization (ValidationError.to_string error)))
      | Ok upper_bound =>
          ret (Ok (SnapshotPager.Make true upper_bound None
                     (match upper_bound with None => true | Some _ => false end) tenant_id))
      end
  end.

(** The pager is passed and returned where the code borrows it mutably. The
    [expect] on the upper bound of a pager that is not exhausted is the [None]
    branch. *)
Definition next_page (self : SnapshotPager.t) (limit : Limit.t) :
    M (Result (list PagedEvent.t) PageError.t * SnapshotPager.t) :=
  if SnapshotPager.exhausted self then ret (Ok [], self)
  else if negb (SnapshotPager.transaction self) then ret (Err PageError.Closed, self)
  else
    match SnapshotPager.upper_bound self with
    | None => fun _ => None
    | Some upper =>
        let* result := read_page_scoped (SnapshotPager.tenant_id self)
            (match SnapshotPager.cursor self with Some id => RowId.get id | None => 0 end)
            (Some (RowId.get upper)) limit in
        match result with
        | Err error =>
            let* _ := rollback in
            ret (Err error, SnapshotPager.Make false (SnapshotPager.upper_bound self)
                              (SnapshotPager.cursor self) (SnapshotPager.exhausted self)
                              (SnapshotPager.tenant_id self))
        | Ok rows =>
            match last rows with
            | Some event =>
                let cursor := Some (PagedEvent.row_id event) in
                let exhausted :=
                  (Z.of_nat (length rows) <? Limit.get limit)
                  || bool_decide (cursor = SnapshotPager.upper_bound self) in
                ret (Ok rows, SnapshotPager.Make true (SnapshotPager.upper_bound self) cursor
                                exhausted (SnapshotPager.tenant_id self))
            | None =>
                ret (Ok rows, SnapshotPager.Make true (SnapshotPager.upper_bound self)
                                (SnapshotPager.cursor self) true (SnapshotPager.tenant_id self))
            end
        end
    end.

Definition finish (self : SnapshotPager.t) : M (Result unit PageError.t) :=
  if negb (SnapshotPager.transaction self) then ret (Ok tt)
  else
    try* _ := commit_transaction else PageError.sql "finish snapshot transaction" in
    ret (Ok tt).

(** [rollback] and [close]: the error of the statement is reported *)
Definition close (self : SnapshotPager.t) : M (Result unit PageError.t) :=
  if negb (SnapshotPager.transaction self) then ret (Ok tt)
  else
    let* result := call (fun _ => tt) in
    let* _ := rollback in
    ret (map_err (PageError.sql "rollback snapshot transaction") result).
End Page.

(** ** Pages *)

Section PageSpec.
Context `{TimeLib, SerdeJson, Base64, MimeLib, FluentUri, RustDebug, Env}.

Lemma hydrate_page_row_id c p :
  hydrate_page c = Ok p ->
  RowId.get (PagedEvent.row_id p) = DurableRow.row_id c /\
  TenantId.new (DurableRow.tenant_id c) = Ok (PagedEvent.tenant_id p).
Proof.
  unfold hydrate_page, text.
  destruct (TenantId.new _) as [tenant|] eqn:Et; simpl; [|done].
  destruct (RowId.new _) as [row_id|] eqn:Er; simpl; [|done].
  apply RowId_new_Ok in Er as [Hr _]. intros Hp.
  repeat match type of Hp with
    (match ?x with _ => _ end) = _ => destruct x eqn:?; try done end.
  unfold PagedEvent.new in Hp.
  destruct (canonicalize_instant _ _); simpl in Hp; [|done]. by injection Hp as <-.
Qed.

Lemma read_page_inv tenant_id after upper limit w r w' :
  db_wf (visible w) -> read_page_scoped tenant_id after upper limit w = Some (r, w') ->
  same_tables w w' /\
  match r with
  | Ok pages => Forall2 (fun e p => hydrate_page (durable_of (visible w) e) = Ok p)
                  (page_events tenant_id after upper limit (visible w)) pages
  | Err _ => True
  end.
Proof.
  intros Hwf. unfold read_page_scoped. intros Hr. run_inv Hr.
  apply query_inv in Hm as (Hs & _ & Hq). destruct r0 as [rows|e]; run_inv Hr; (split; [done|]); [|done].
  rewrite page_sql_rows by done. fold (page_events tenant_id after upper limit (visible w)).
  destruct (collect hydrate_page _) as [pages|e] eqn:Ec; simpl; [|done].
  apply collect_Ok_Forall2 in Ec. by apply Forall2_fmap_l in Ec.
Qed.

(** The hydrated row of an event keeps its id. *)
Definition hydrated (db : Db) (e : Events.row) (p : PagedEvent.t) : Prop :=
  e ∈ events db /\ hydrate_page (durable_of db e) = Ok p.

Lemma hydrated_id db e p :
  db_wf db -> hydrated db e p -> RowId.get (PagedEvent.row_id p) = Events.row_id e.
Proof.
  intros Hwf [He Hp]. apply hydrate_page_row_id in Hp as [-> _]. by apply durable_of_row_id.
Qed.

Lemma hydrated_all db es pages :
  (forall e, e ∈ es -> e ∈ events db) ->
  Forall2 (fun e p => hydrate_page (durable_of db e) = Ok p) es pages ->
  Forall2 (hydrated db) es pages.
Proof.
  intros Hin Hf. induction Hf as [|e p es pages Hp Hf IH]; constructor.
  - split; [apply Hin; left|done].
  - apply IH. intros x Hx. apply Hin. by right.
Qed.

(** A live page is the first [limit] events of the scope after the cursor,
    in strictly ascending row order, each hydrated with its delivery, and
    reading it changes nothing. No event of the scope is skipped: one that
    lies after the cursor is on the page, unless the page is full and the
    event lies beyond its last row. *)
Theorem live_page tenant_id after limit w pages w' :
  txn w = None -> db_wf (committed w) -> 0 <= Limit.get limit ->
  page_for_scope tenant_id after limit w = Some (Ok pages, w') ->
  let cursor := match after with Some id => RowId.get id | None => 0 end in
  let es := page_events tenant_id cursor None limit (committed w) in
  same_tables w w' /\
  Forall2 (fun e p => hydrate_page (durable_of (committed w) e) = Ok p) es pages /\
  StronglySorted Z.lt (map (fun p => RowId.get (PagedEvent.row_id p)) pages) /\
  Z.of_nat (length pages) <= Limit.get limit /\
  (forall e, e ∈ events (committed w) ->
     in_page (option_map TenantId.as_str tenant_id) cursor None e = true ->
     e ∈ es \/ (Z.of_nat (length pages) = Limit.get limit /\
                forall p, p ∈ pages -> RowId.get (PagedEvent.row_id p) < Events.row_id e)).
Proof.
  intros Ht Hwf Hl Hr. cbv zeta. set (cursor := match after with Some _ => _ | None => _ end).
  set (es := page_events tenant_id cursor None limit (committed w)).
  unfold page_for_scope in Hr. fold cursor in Hr. run_inv Hr.
  apply call_inv in Hm as (Hs1 & _ & _). destruct r as [[]|]; [|by run_inv Hr]. run_inv Hr.
  apply install_foreign_keys_inv in Hm. pose proof (same_tables_trans _ _ _ Hs1 Hm) as Hs2.
  destruct r as [[]|]; [|by run_inv Hr].
  assert (Hv : visible w1 = committed w) by (unfold visible; destruct Hs2 as [-> ->]; by rewrite Ht).
  apply read_page_inv in Hr as [Hs3 Hp]; [|by rewrite Hv]. rewrite Hv in Hp.
  fold cursor es in Hp.
  assert (Hsub : forall e, e ∈ es -> e ∈ events (committed w)).
  { intros e He. by apply page_row in He as [? _]. }
  pose proof (pages_of_events _ (fun e p => hydrated_id _ e p Hwf) _ _ (hydrated_all _ _ _ Hsub Hp)) as Hids.
  pose proof (Forall2_length _ _ _ Hp) as Hlen.
  split_and!; [by eapply same_tables_trans|done|rewrite Hids; by apply page_events_sorted| |].
  - rewrite <- Hlen. by apply page_events_length.
  - intros e He Hin. rewrite <- Hlen.
    destruct (page_events_complete tenant_id cursor None limit _ e Hwf Hl He Hin) as [?|[Hfull Hlt]];
      [by left|right]. split; [done|]. intros p Hpin.
    assert (Hk : RowId.get (PagedEvent.row_id p) ∈ map Events.row_id es).
    { rewrite <- Hids. apply list_elem_of_fmap. by exists p. }
    apply list_elem_of_fmap in Hk as (e0 & -> & He0). by apply Hlt.
Qed.
End PageSpec.

(** ** Snapshots *)

Section Snapshots.
Context `{TimeLib, SerdeJson, Base64, MimeLib, FluentUri, RustDebug, Env}.

(** What the pager knows, and that it holds its transaction. *)
Definition pager_at (db : Db) (self : SnapshotPager.t) (before rest : list Events.row) : Prop :=
  SnapshotPager.transaction self = true /\
  window_at (scope (option_map TenantId.as_str (SnapshotPager.tenant_id self)) db)
    (SnapshotPager.upper_bound self) (SnapshotPager.cursor self) (SnapshotPager.exhausted self)
    before rest.

Lemma read_page_total tenant_id after upper limit w :
  exists r w', read_page_scoped tenant_id after upper limit w = Some (r, w').
Proof. unfold read_page_scoped, bind, query, ret. destruct (sql_fault (tick w)); eauto. Qed.

(** One page: the pager advances past exactly the rows it returns, or fails
    and lets its transaction go. *)
Lemma next_page_step db self before rest limit w wr :
  db_wf db -> txn w = Some (wr, db) -> pager_at db self before rest -> 0 < Limit.get limit ->
  let n := Z.to_nat (Limit.get limit) in
  exists r self' w', next_page self limit w = Some ((r, self'), w') /\
    committed w' = committed w /\ SnapshotPager.tenant_id self' = SnapshotPager.tenant_id self /\
    match r with
    | Err _ => txn w' = None /\ SnapshotPager.transaction self' = false
    | Ok rows => txn w' = txn w /\ pager_at db self' (before ++ take n rest) (drop n rest) /\
        Forall2 (fun e p => hydrate_page (durable_of db e) = Ok p) (take n rest) rows
    end.
Proof.
  intros Hwf Ht [Htr Hat] Hlim n. unfold next_page.
  destruct (SnapshotPager.exhausted self) eqn:Hex.
  { pose proof (proj1 (at_exhausted _ _ _ _ _ _ Hat) eq_refl) as ->.
    exists (Ok []), self, w. rewrite take_nil, drop_nil, app_nil_r.
    split_and!; [done..| |constructor]. split; [done|]. by rewrite Hex. }
  assert (Hne : rest <> []) by (intros Hnil; by pose proof (proj2 (at_exhausted _ _ _ _ _ _ Hat) Hnil)).
  rewrite Htr. cbn [negb].
  destruct (at_upper _ _ _ _ _ _ Hat Hne) as (u & Hub & _). rewrite Hub.
  match goal with |- context [read_page_scoped ?a ?b ?c ?d] =>
    destruct (read_page_total a b c d w) as (r & w1 & Er) end.
  rewrite (bind_run _ _ _ _ _ Er). cbv beta.
  assert (Hv : visible w = db) by (unfold visible; by rewrite Ht).
  apply read_page_inv in Er as [[Hc1 Ht1] Hr]; [|by rewrite Hv].
  destruct r as [rows|e].
  2:{ do 3 eexists. split; [reflexivity|]. by repeat split. }
  unfold page_events in Hr. rewrite Hv in Hr.
  pose proof (window_page _ _ _ _ _ _ _ _ n Hwf Hat Hub Hne) as Hpage. unfold cursor_id in Hpage.
  fold n in Hr. rewrite Hpage in Hr.
  set (tenant := option_map TenantId.as_str (SnapshotPager.tenant_id self)) in *.
  assert (Hin : forall e, e ∈ take n rest -> e ∈ events db).
  { intros e He. assert (He2 : e ∈ scope tenant db).
    { rewrite (at_scope _ _ _ _ _ _ Hat), <- (take_drop n rest). set_solver. }
    apply list_elem_of_In, filter_In in He2 as [He2 _]. by apply list_elem_of_In. }
  destruct (advance (SnapshotPager.upper_bound self) (SnapshotPager.cursor self) limit rows)
    as [cursor' exhausted'] eqn:Eadv.
  pose proof (window_advance _ (fun e p => hydrated_id _ e p Hwf) _ _ _ _ _ _ _ _ _
    (scope_sorted _ _ Hwf) Hlim Hne Hat (hydrated_all _ _ _ Hin Hr) Eadv) as Hwin.
  unfold advance in Eadv. destruct (last rows) as [p|]; injection Eadv as <- <-;
    (rewrite Hub in Hwin; do 3 eexists; split; [reflexivity|]; do 3 (split; [done|]); split; [by split|done]).
Qed.

(** Beginning a snapshot. *)
Lemma begin_snapshot_inv tenant_id w pager w0 :
  begin_snapshot_for_scope tenant_id w = Some (Ok pager, w0) ->
  exists db, txn w0 = Some (false, db) /\ foreign_only (committed w) db /\
    SnapshotPager.tenant_id pager = tenant_id /\
    pager_at db pager [] (scope (option_map TenantId.as_str tenant_id) db).
Proof.
  unfold begin_snapshot_for_scope. intros Hr. run_inv Hr.
  destruct r as [[]|e]; [|by run_inv Hr]. apply begin_read_inv in Hm as (db & Hf & Ht).
  run_inv Hr. apply query_inv in Hm as ([_ Hs] & _ & Hq). rewrite Ht in Hs.
  destruct r as [u|e]; [|run_inv Hr; by run_inv Hr].
  unfold visible in Hq. rewrite Ht in Hq. symmetry in Hq.
  exists db. destruct u as [u|].
  - destruct (RowId.new u) as [id|e] eqn:Eid; simpl in Hr; [|run_inv Hr; by run_inv Hr].
    apply RowId_new_Ok in Eid as [Hid Hpos]. apply ret_inv in Hr as [[= ->] <-].
    split_and!; [done..|]. split; [done|]. simpl. apply (window_start _ _ (Some id)); rewrite Hq; [|done].
    intros ? [= <-]. by exists id.
  - apply ret_inv in Hr as [[= ->] <-]. split_and!; [done..|]. split; [done|]. simpl.
    by apply (window_start _ _ None); rewrite Hq.
Qed.

(** C27: a snapshot pager gives every event of the scope exactly once. However
    many pages of whatever sizes the caller asks for, the call returns (the
    pager's [expect] is unreachable), and as long as no statement fails the
    pages read one after the other are a prefix of the scope's events, as of
    the instant the snapshot began, each hydrated with its delivery; commits
    by other connections do not disturb them. The pager reports itself
    exhausted exactly when all were given, which is so after at most as many
    pages as there are events. After a failure the transaction is released. *)
Theorem snapshot_pages tenant_id limits w pager w0 :
  db_wf (committed w) -> foreign_wf -> Forall (fun l => 0 < Limit.get l) limits ->
  begin_snapshot_for_scope tenant_id w = Some (Ok pager, w0) ->
  exists db r pager' w1,
    foreign_only (committed w) db /\ drain next_page limits pager w0 = Some ((r, pager'), w1) /\
    committed w1 = committed w0 /\
    let all := scope (option_map TenantId.as_str tenant_id) db in
    match r with
    | Err _ => txn w1 = None /\ SnapshotPager.transaction pager' = false
    | Ok rows =>
        txn w1 = Some (false, db) /\
        Forall2 (fun e p => hydrate_page (durable_of db e) = Ok p) (take (length rows) all) rows /\
        (SnapshotPager.exhausted pager' = true <-> length rows = length all) /\
        (length all <= length limits -> SnapshotPager.exhausted pager' = true)%nat
    end.
Proof.
  intros Hwf Hforeign Hlim Hb.
  destruct (begin_snapshot_inv _ _ _ _ Hb) as (db & Ht & Hf & _ & Hat).
  pose proof (foreign_only_wf _ _ Hforeign Hwf Hf) as Hdb.
  set (all := scope _ db) in *.
  destruct (drain_all next_page (fun e p => hydrate_page (durable_of db e) = Ok p)
    (fun w self before rest => txn w = Some (false, db) /\ pager_at db self before rest)
    (fun w self => txn w = None /\ SnapshotPager.transaction self = false)
    (fun w w' => committed w' = committed w) SnapshotPager.exhausted) with
    (limits := limits) (self := pager) (all := all) (w := w0)
    as (r & pager' & w1 & Hr & Hc & Hm).
  - done.
  - intros w1 w2 w3 H1' H2'. congruence.
  - intros w1 self before rest [_ Hp]. apply (at_exhausted _ _ _ _ _ _ (proj2 Hp)).
  - intros self before rest limit w1 [Ht1 Hp] Hl n.
    destruct (next_page_step _ _ _ _ _ _ _ Hdb Ht1 Hp Hl) as (r & self1 & w2 & Hr & Hc1 & _ & Hm).
    exists r, self1, w2. do 2 (split; [done|]). destruct r; [|done].
    destruct Hm as (Ht2 & Hp2 & Hf2). rewrite Ht1 in Ht2. done.
  - done.
  - done.
  - exists db, r, pager', w1. do 3 (split; [done|]). cbv zeta. fold all.
    destruct r as [rows|e]; [|done]. destruct Hm as ((before & rest & Ht1 & _) & Hm). done.
Qed.
End Snapshots.
