(* ===== verification/Scope.v ===== *)
(** * Handles (crates/dovecote-sqlx-sqlite/src/scope.rs and lib.rs)

    The adapter's three public handles: the adapter itself, a handle bound to
    one tenant, and the administrative handle. The pool is the world the steps
    run on, so a handle keeps its tenant and its busy policy. *)

From S2P Require Import Prelude Step Utf8 BTree Errors Limits Validation Bounds Values Extension Serialization Event State External SqliteError Tables Queries Paging Sqlite Migration Schema RowHydration Hydrate Canonical Enqueue Finalize Import Claims Lifecycle Mutation Page.

Module TenantDovecote.
Record t : Type := Make { tenant_id : TenantId.t; busy : BusyConfig.t }.

Section Ops.
Context `{TimeLib, SerdeJson, Base64, MimeLib, FluentUri, RustDebug, Env, CatalogEnv}.
Context (tenant_baseline_sql : string).

Definition new (tenant_id : TenantId.t) (busy : BusyConfig.t) : t := Make tenant_id busy.
Definition busy_config (self : t) : BusyConfig.t := busy self.

Definition check_schema (_ : t) : M (Result unit SchemaError.t) :=
  Schema.check_schema tenant_baseline_sql.
Definition begin_write (self : t) : M (Result unit EnqueueError.t) :=
  begin_write_with_config (busy self).
Definition begin_enqueue (self : t) : M (Result unit EnqueueError.t) := begin_write self.

Definition enqueue (self : t) (event : NewEvent.t) : M (Result EnqueueOutcome.t EnqueueError.t) :=
  enqueue_for_scope tenant_baseline_sql (tenant_id self) event.
Definition import_for_migration (self : t) (event : NewEvent.t) (state : ImportedDeliveryState.t) :
    M (Result ImportOutcome.t ImportError.t) :=
  import_for_scope tenant_baseline_sql (tenant_id self) event state.
Definition finalize_pending_delivery_for_migration (self : t) (row_id : RowId.t)
    (delivered_at : OffsetDateTime) : M (Result FinalizeOutcome.t FinalizeError.t) :=
  finalize_for_scope tenant_baseline_sql (tenant_id self) row_id delivered_at.

Definition page (self : t) (after : option RowId.t) (limit : Limit.t) :
    M (Result (list PagedEvent.t) PageError.t) :=
  page_for_scope (Some (tenant_id self)) after limit.
Definition begin_snapshot (self : t) : M (Result SnapshotPager.t PageError.t) :=
  begin_snapshot_for_scope (Some (tenant_id self)).

Definition claim (self : t) (worker : WorkerId.t) (lease : Lease.t) (limit : Limit.t) :
    M (Result (list ClaimedEvent.t) ClaimError.t) :=
  claim_for_scope (Some (tenant_id self)) worker lease limit (busy self).
Definition renew (self : t) (row_id : RowId.t) (token : ClaimToken.t) (lease : Lease.t) :
    M (Result unit MutationError.t) :=
  renew_for_scope (Some (tenant_id self)) row_id token lease (busy self).
Definition ack (self : t) (row_id : RowId.t) (token : ClaimToken.t) :
    M (Result unit MutationError.t) :=
  ack_for_scope (Some (tenant_id self)) row_id token (busy self).
Definition retry (self : t) (row_id : RowId.t) (token : ClaimToken.t) (failure : Failure.t)
    (delay : Delay.t) : M (Result unit MutationError.t) :=
  retry_for_scope (Some (tenant_id self)) row_id token failure delay (busy self).
Definition release (self : t) (row_id : RowId.t) (token : ClaimToken.t) (delay : Delay.t) :
    M (Result unit MutationError.t) :=
  release_for_scope (Some (tenant_id self)) row_id token delay (busy self).
Definition quarantine (self : t) (row_id : RowId.t) (token : ClaimToken.t)
    (reason : QuarantineReason.t) : M (Result unit MutationError.t) :=
  quarantine_for_scope (Some (tenant_id self)) row_id token reason (busy self).
End Ops.
End TenantDovecote.

Module AdminDovecote.
Record t : Type := Make { busy : BusyConfig.t }.

Section Ops.
Context `{TimeLib, SerdeJson, Base64, MimeLib, FluentUri, RustDebug, Env, CatalogEnv}.
Context (tenant_baseline_sql : string).

Definition new (busy : BusyConfig.t) : t := Make busy.

Definition page (_ : t) (after : option RowId.t) (limit : Limit.t) :
    M (Result (list PagedEvent.t) PageError.t) := page_for_scope None after limit.
Definition begin_snapshot (_ : t) : M (Result SnapshotPager.t PageError.t) :=
  begin_snapshot_for_scope None.
Definition claim (self : t) (worker : WorkerId.t) (lease : Lease.t) (limit : Limit.t) :
    M (Result (list ClaimedEvent.t) ClaimError.t) :=
  claim_for_scope None worker lease limit (busy self).

Definition enqueue (_ : t) (tenant : TenantId.t) (event : NewEvent.t) :
    M (Result EnqueueOutcome.t EnqueueError.t) := enqueue_for_scope tenant_baseline_sql tenant event.
Definition import_for_migration (_ : t) (tenant : TenantId.t) (event : NewEvent.t)
    (state : ImportedDeliveryState.t) : M (Result ImportOutcome.t ImportError.t) :=
  import_for_scope tenant_baseline_sql tenant event state.
Definition finalize_pending_delivery_for_migration (_ : t) (tenant : TenantId.t)
    (row_id : RowId.t) (delivered_at : OffsetDateTime) :
    M (Result FinalizeOutcome.t FinalizeError.t) :=
  finalize_for_scope tenant_baseline_sql tenant row_id delivered_at.

Definition renew (self : t) (tenant : TenantId.t) (row_id : RowId.t) (token : ClaimToken.t)
    (lease : Lease.t) : M (Result unit MutationError.t) :=
  renew_for_scope (Some tenant) row_id token lease (busy self).
Definition ack (self : t) (tenant : TenantId.t) (row_id : RowId.t) (token : ClaimToken.t) :
    M (Result unit MutationError.t) := ack_for_scope (Some tenant) row_id token (busy self).
Definition retry (self : t) (tenant : TenantId.t) (row_id : RowId.t) (token : ClaimToken.t)
    (failure : Failure.t) (delay : Delay.t) : M (Result unit MutationError.t) :=
  retry_for_scope (Some tenant) row_id token failure delay (busy self).
Definition release (self : t) (tenant : TenantId.t) (row_id : RowId.t) (token : ClaimToken.t)
    (delay : Delay.t) : M (Result unit MutationError.t) :=
  release_for_scope (Some tenant) row_id token delay (busy self).
Definition quarantine (self : t) (tenant : TenantId.t) (row_id : RowId.t) (token : ClaimToken.t)
    (reason : QuarantineReason.t) : M (Result unit MutationError.t) :=
  quarantine_for_scope (Some tenant) row_id token reason (busy self).
End Ops.
End AdminDovecote.

Module SqliteDovecote.
Record t : Type := Make { busy : BusyConfig.t }.

Section Ops.
Context `{Env, CatalogEnv}.
Context (tenant_baseline_sql : string).

Definition new : t := Make BusyConfig.default.
Definition with_busy_config (busy : BusyConfig.t) : t := Make busy.
Definition busy_config (self : t) : BusyConfig.t := busy self.
Definition begin_write (self : t) : M (Result unit EnqueueError.t) :=
  begin_write_with_config (busy self).
Definition begin_enqueue (self : t) : M (Result unit EnqueueError.t) := begin_write self.
Definition for_tenant (self : t) (tenant_id : TenantId.t) : TenantDovecote.t :=
  TenantDovecote.new tenant_id (busy self).
Definition admin (self : t) : AdminDovecote.t := AdminDovecote.new (busy self).
Definition check_schema (_ : t) : M (Result unit SchemaError.t) :=
  Schema.check_schema tenant_baseline_sql.
End Ops.
End SqliteDovecote.

(** ** Tenant isolation *)

(** The mutations of a tenant's handle. *)
Inductive tenant_mutation `{TimeLib, RustDebug, Env} (self : TenantDovecote.t) :
    M (Result unit MutationError.t) -> Prop :=
  | mutation_renew row_id token lease :
      tenant_mutation self (TenantDovecote.renew self row_id token lease)
  | mutation_ack row_id token : tenant_mutation self (TenantDovecote.ack self row_id token)
  | mutation_retry row_id token failure delay :
      tenant_mutation self (TenantDovecote.retry self row_id token failure delay)
  | mutation_release row_id token delay :
      tenant_mutation self (TenantDovecote.release self row_id token delay)
  | mutation_quarantine row_id token reason :
      tenant_mutation self (TenantDovecote.quarantine self row_id token reason).

Section Isolation.
Context `{TimeLib, SerdeJson, Base64, MimeLib, FluentUri, RustDebug, Env, CatalogEnv}.
Context (sql : string) (self : TenantDovecote.t).

Let tenant := TenantId.as_str (TenantDovecote.tenant_id self).

(** [db'] keeps every row of the other tenants as it is in some state of the
    tables that other connections committed after [db]. *)
Definition confined (db db' : Db) : Prop :=
  exists seen, foreign_only db seen /\ others tenant db' = others tenant seen.

Lemma claim_confined worker lease limit w r w' :
  txn w = None -> foreign_wf -> db_wf (committed w) ->
  TenantDovecote.claim self worker lease limit w = Some (r, w') ->
  confined (committed w) (committed w') /\
  match r with Ok evs => Forall (fun ev => TenantId.as_str (ClaimedEvent.tenant_id ev) = tenant) evs
             | Err _ => True end.
Proof.
  intros Ht Hfw Hwf Hr. destruct r as [evs|e].
  2: { apply claim_error_inv in Hr as [_ Hf]; [|done]. split; [|done]. by eexists. }
  apply claim_success_inv in Hr as (_ & db & n & lease_ms & Hf & Hwf' & _ & Hco & _ & _ & Hdb); [|done..].
  assert (Hown : forall ev, ev ∈ evs -> exists d, d ∈ deliveries db /\ claim_of db worker d ev /\
            Deliveries.tenant_id d = tenant).
  { intros ev Hev. apply list_elem_of_lookup in Hev as [i Hi].
    destruct (Forall2_lookup_r _ _ _ _ _ Hco Hi) as (d & Hd & Hc). exists d.
    apply list_elem_of_lookup_2, sqlite_chosen_spec in Hd as (Hd & _ & Hsc). split_and!; [done..|].
    unfold in_scope in Hsc. cbn in Hsc. by apply bool_decide_eq_true in Hsc. }
  split.
  - exists db. split; [done|]. rewrite Hdb. apply others_map. intros d Hd.
    unfold row_after_claim. destruct (claim_for_row evs d) as [ev|] eqn:Ef; [|by left]. right.
    apply List.find_some in Ef as [Hin Hk]. apply Z.eqb_eq in Hk. apply list_elem_of_In in Hin.
    destruct (Hown ev Hin) as (d' & Hd' & [Hrow _ _ _ _ _ _] & Htn).
    assert (d = d') as ->; [|done].
    eapply (sorted_key_inj Deliveries.event_row_id); [apply Hwf'|done..|congruence].
  - apply Forall_forall. intros ev Hev. destruct (Hown ev Hev) as (d & _ & [_ Hct _ _ _ _ _] & Htn).
    congruence.
Qed.

Lemma mutation_confined m w r w' :
  txn w = None -> foreign_wf -> db_wf (committed w) -> tenant_mutation self m ->
  m w = Some (r, w') -> confined (committed w) (committed w').
Proof.
  intros Ht Hfw Hwf Hm Hr.
  assert (Hx : exists row_id token mutation, mutate_with_config (Some (TenantDovecote.tenant_id self))
            row_id token mutation (TenantDovecote.busy self) w = Some (r, w'))
    by (destruct Hm; eauto).
  destruct Hx as (row_id & token & mutation & Hx).
  apply mutate_inv in Hx as (_ & db & Hf & He); [|done..]. exists db. split; [done|].
  destruct r as [[]|e]; [|by destruct He as [-> _]].
  destruct He as (p & n & _ & d & d' & Hd & Hfen & Ha & _ & ->).
  assert (Hdt : Deliveries.tenant_id d = tenant).
  { unfold fenced, row_in_scope, in_scope in Hfen. bools.
    match goal with Hs : is_none_or _ _ = true |- _ => cbn in Hs; by apply bool_decide_eq_true in Hs end. }
  apply others_map. intros x Hx.
  destruct (Z.eqb_spec (Deliveries.event_row_id x) (Deliveries.event_row_id d)) as [Hk|]; [right|by left].
  pose proof (foreign_only_wf _ _ Hfw Hwf Hf) as Hwf'.
  assert (x = d) as -> by (eapply (sorted_key_inj Deliveries.event_row_id); [apply Hwf'|done..]).
  split; [done|]. rewrite <- Hdt. by apply assign_keeps in Ha as [_ ?].
Qed.

(** The statements of a caller's transaction. *)
Lemma transaction_confined event state row_id delivered_at w wr db w' :
  db_wf db -> txn w = Some (wr, db) ->
  (exists r, TenantDovecote.enqueue sql self event w = Some (r, w')) \/
  (exists r, TenantDovecote.import_for_migration sql self event state w = Some (r, w')) \/
  (exists r, TenantDovecote.finalize_pending_delivery_for_migration sql self row_id delivered_at w
             = Some (r, w')) ->
  committed w' = committed w /\ others tenant (visible w') = others tenant db.
Proof.
  intros Hwf Ht Hr.
  assert (Hsame : txn w' = txn w -> others tenant (visible w') = others tenant db)
    by (intros Ht'; unfold visible; by rewrite Ht', Ht).
  assert (Hev : forall e, txn w' = Some (true, with_event e db) -> Events.tenant_id e = tenant ->
            others tenant (visible w') = others tenant db)
    by (intros e Ht' He; unfold visible; rewrite Ht'; by apply others_insert_event).
  assert (Hboth : forall e d, txn w' = Some (true, with_delivery d (with_event e db)) ->
            Events.tenant_id e = tenant -> Deliveries.tenant_id d = tenant ->
            others tenant (visible w') = others tenant db).
  { intros e d Ht' He Hd. unfold visible. rewrite Ht', others_insert_delivery by done.
    by apply others_insert_event. }
  destruct Hr as [[r Hr]|[[r Hr]|[r Hr]]].
  - apply (enqueue_run_effect _ _ _ _ _ _ _ _ Ht) in Hr as [Hc He]. split; [done|].
    destruct r as [[id|id]|[]]; try (by apply Hsame, He);
      try (destruct He as [He|[n He]]; [by apply Hsame|by eapply Hev]).
    destruct He as (_ & _ & n & _ & _ & He). by eapply Hboth.
  - apply (import_run_effect _ _ _ _ _ _ _ _ _ Ht) in Hr as [Hc He]. split; [done|].
    destruct r as [[id|id]|[]]; try (by apply Hsame, He);
      try (destruct He as [He|(n & m & t & _ & He)]; [by apply Hsame|by eapply Hev]).
    + destruct He as (_ & _ & n & m & t & _ & _ & _ & He). by eapply Hboth.
    + destruct He as [-> _]. by apply Hsame.
  - apply (finalize_run_effect _ _ _ _ _ _ _ _ _ Hwf Ht) in Hr as [Hc He]. split; [done|].
    destruct r as [[id|id]|[]]; try (by apply Hsame, He);
      try (by apply Hsame); try (by destruct He as (_ & He & _); apply Hsame).
    + destruct He as (_ & _ & e & _ & _ & _ & He). unfold visible. rewrite He.
      apply others_map. intros d _. destruct (delivery_of _ _ d) eqn:Ed; [right|by left].
      by apply delivery_of_spec in Ed as [? _].
    + destruct He as [-> _]. by apply Hsame.
Qed.

Lemma page_confined after limit w r w' :
  txn w = None -> db_wf (committed w) ->
  TenantDovecote.page self after limit w = Some (r, w') ->
  same_tables w w' /\
  match r with Ok pages => Forall (fun p => TenantId.as_str (PagedEvent.tenant_id p) = tenant) pages
             | Err _ => True end.
Proof.
  intros Ht Hwf Hr. unfold TenantDovecote.page, page_for_scope in Hr. run_inv Hr.
  apply call_inv in Hm as (Hs1 & _ & _). destruct r0 as [[]|]; [|by run_inv Hr]. run_inv Hr.
  apply install_foreign_keys_inv in Hm. pose proof (same_tables_trans _ _ _ Hs1 Hm) as Hs2.
  destruct r0 as [[]|]; [|by run_inv Hr].
  assert (Hv : visible w1 = committed w) by (unfold visible; destruct Hs2 as [-> ->]; by rewrite Ht).
  apply read_page_inv in Hr as [Hs3 Hp]; [|by rewrite Hv]. rewrite Hv in Hp.
  split; [by eapply same_tables_trans|]. destruct r as [pages|]; [|done].
  apply Forall_forall. intros p Hpin. apply list_elem_of_lookup in Hpin as [i Hi].
  destruct (Forall2_lookup_r _ _ _ _ _ Hp Hi) as (e & He & Hh).
  apply list_elem_of_lookup_2, page_row in He as [He Hin].
  apply hydrate_page_row_id in Hh as [_ Hh]. apply TenantId_new_as_str in Hh as ->.
  rewrite durable_of_tenant by done. unfold in_page in Hin. bools.
  match goal with H : is_none_or (option_map _ _) _ = true |- _ =>
    cbn in H; by apply bool_decide_eq_true in H end.
Qed.

(** C13: a tenant's handle never touches another tenant. Whatever a claim, a
    mutation or a transaction of the handle does, and however it fails, the
    rows of every other tenant stay exactly what other connections made them;
    a transaction's statements commit nothing; and every claim and every page
    the handle returns belongs to its tenant. *)
Theorem tenant_isolation w :
  foreign_wf -> db_wf (visible w) ->
  (txn w = None ->
     (forall worker lease limit r w', TenantDovecote.claim self worker lease limit w = Some (r, w') ->
        confined (committed w) (committed w') /\
        match r with
        | Ok evs => Forall (fun ev => TenantId.as_str (ClaimedEvent.tenant_id ev) = tenant) evs
        | Err _ => True
        end) /\
     (forall m r w', tenant_mutation self m -> m w = Some (r, w') ->
        confined (committed w) (committed w')) /\
     (forall after limit r w', TenantDovecote.page self after limit w = Some (r, w') ->
        same_tables w w' /\
        match r with
        | Ok pages => Forall (fun p => TenantId.as_str (PagedEvent.tenant_id p) = tenant) pages
        | Err _ => True
        end)) /\
  (forall wr db event state row_id delivered_at w', txn w = Some (wr, db) ->
     (exists r, TenantDovecote.enqueue sql self event w = Some (r, w')) \/
     (exists r, TenantDovecote.import_for_migration sql self event state w = Some (r, w')) \/
     (exists r, TenantDovecote.finalize_pending_delivery_for_migration sql self row_id delivered_at w
                = Some (r, w')) ->
     committed w' = committed w /\ others tenant (visible w') = others tenant db).
Proof.
  intros Hfw Hwf. split.
  - intros Ht. unfold visible in Hwf. rewrite Ht in Hwf. split_and!; intros.
    + by eapply claim_confined.
    + by eapply mutation_confined.
    + by eapply page_confined.
  - intros wr db event state row_id delivered_at w' Ht Hr.
    unfold visible in Hwf. rewrite Ht in Hwf. by eapply transaction_confined.
Qed.
End Isolation.
