(* ===== verification/Progress.v ===== *)
(** * Progress: an outbox drains

    On an engine that answers every statement and a source of entropy that
    yields tokens, claims do not fail: they take every eligible delivery up to
    their limit, acknowledgements succeed within the lease, and rounds of one
    claim and the acknowledgement of its deliveries empty the backlog. *)

From S2P Require Import Prelude Step Utf8 BTree Errors Limits Validation Bounds Values Extension Serialization Event State External SqliteError Tables Queries Sqlite Migration RowHydration Hydrate Canonical Enqueue Claims Lifecycle Mutation Outbox.

(** ** An engine that answers *)

Record answering `{Env} : Prop := {
  an_fault n : sql_fault n = None;
  an_foreign_keys n : foreign_keys_pragma n = 1;
  an_timeout n ms : busy_timeout_pragma n ms = ms;
  (** no other connection commits meanwhile *)
  an_alone n db : foreign_writes n db = db;
}.

(** Tokens of sixteen bytes, distinct over every stretch of draws that the loop
    of [fresh_token] may make. *)
Record tokens `{Env} (t : nat -> bytes) : Prop := {
  tok_entropy i : entropy i = Ok (t i);
  tok_len i : len (t i) = CLAIM_TOKEN_BYTES;
  tok_distinct d i j :
    (i < entropy_fuel)%nat -> (j < entropy_fuel)%nat -> t (d + i)%nat = t (d + j)%nat -> i = j;
}.

Section Begin.
Context `{Env}.
Context (Han : answering).

Lemma begin_immediate_run busy ms w :
  checked_busy_timeout (BusyConfig.timeout busy) = Ok ms ->
  exists w', begin_immediate busy w = Some (Ok tt, w') /\ committed w' = committed w /\
    txn w' = Some (true, committed w) /\ draws w' = draws w.
Proof.
  intros Hb. unfold begin_immediate, install_foreign_keys, install_busy_timeout. rewrite Hb.
  pose proof (an_fault Han) as Hok.
  erewrite bind_run by by apply call_run. cbv beta iota.
  erewrite bind_run.
  2: { erewrite bind_run by by apply call_run. cbv beta iota.
       erewrite bind_run by by apply call_run. cbv beta iota. rewrite an_foreign_keys by done.
       reflexivity. }
  cbv beta iota. erewrite bind_run.
  2: { erewrite bind_run by by apply call_run. cbv beta iota.
       erewrite bind_run by by apply call_run. cbv beta iota. rewrite an_timeout, Z.eqb_refl by done.
       reflexivity. }
  cbv beta iota. rewrite begin_statement_run by done. rewrite an_alone by done.
  eexists. split; [reflexivity|done].
Qed.

Lemma commit_transaction_run w wr db :
  txn w = Some (wr, db) ->
  exists w', commit_transaction w = Some (Ok tt, w') /\ committed w' = db /\ txn w' = None /\
    draws w' = draws w.
Proof.
  intros Ht. unfold commit_transaction. erewrite bind_run by apply commit_statement_run, (an_fault Han).
  cbv beta iota. eexists. split; [reflexivity|]. unfold visible. cbn. by rewrite Ht.
Qed.
End Begin.

(** ** Preparation *)

Section Prepare.
Context `{TimeLib, SerdeJson, Base64, MimeLib, FluentUri, RustDebug, Env}.
Context (Han : answering) (t : nat -> bytes) (Htok : tokens t).

(** A candidate the preparation accepts. *)
Definition preparable (c : DurableRow.t) : Prop :=
  0 < DurableRow.row_id c /\
  (exists a, DurableRow.attempts c = Some a /\ 0 <= a < i64_max) /\
  (exists ev, hydrate_event (event_row c) = Ok ev) /\
  (exists tenant, TenantId.new (DurableRow.tenant_id c) = Ok tenant).

Lemma prepare_candidate_run c used w :
  preparable c -> (length used + 1 < entropy_fuel)%nat ->
  exists p w', prepare_candidate c used w = Some (Ok p, w') /\ len (p_token p) = CLAIM_TOKEN_BYTES.
Proof.
  intros (Hid & (a & Ha & Hb) & (ev & He) & (tenant & Ht)) Hfuel. unfold prepare_candidate.
  destruct (RowId.new (DurableRow.row_id c)) as [id|] eqn:Eid.
  2: { by rewrite (proj2 (RowId_new_Ok _ (RowId.Make (DurableRow.row_id c)))) in Eid. }
  rewrite Ha. assert (Hadd : checked_add i64_max a 1 = Some (a + 1)) by (apply checked_add_Some; lia).
  rewrite Hadd. rewrite (proj2 (AttemptCount_new_Ok _ (AttemptCount.Make (a + 1)))) by (split; [done|lia]).
  destruct (fresh_token_finds entropy_fuel (DurableRow.claim_token c) used w t) as (tok & w1 & Hr & _ & _).
  { apply Htok. } { intros i j. apply (tok_distinct t Htok). } { done. }
  rewrite (bind_run _ _ _ _ _ Hr). cbv beta iota. rewrite He, Ht.
  eexists _, w1. split; [reflexivity|]. cbn.
  apply fresh_token_inv in Hr as (_ & _ & _ & n & Hn). rewrite (tok_entropy t Htok) in Hn.
  injection Hn as <-. apply (tok_len t Htok).
Qed.

Lemma prepare_run cs used w :
  Forall preparable cs -> (length used + length cs < entropy_fuel)%nat ->
  exists ps w', prepare cs used w = Some (Ok ps, w') /\
    Forall (fun p => len (p_token p) = CLAIM_TOKEN_BYTES) ps.
Proof.
  intros Hcs. revert used w. induction Hcs as [|c cs Hc Hcs IH]; intros used w Hfuel; simpl.
  - exists [], w. split; [done|constructor].
  - simpl in Hfuel. destruct (prepare_candidate_run c used w Hc) as (p & w1 & Hp & Hlen); [lia|].
    rewrite (bind_run _ _ _ _ _ Hp). cbv beta iota.
    destruct (IH (used ++ [p_token p]) w1) as (ps & w2 & Hps & Hall).
    { rewrite length_app. simpl. lia. }
    rewrite (bind_run _ _ _ _ _ Hps). cbv beta iota.
    exists (p :: ps), w2. split; [done|]. by constructor.
Qed.
End Prepare.

(** ** Claiming *)

Section Claim.
Context `{TimeLib, SerdeJson, Base64, MimeLib, FluentUri, RustDebug, Env, SqliteTime}.
Context {TL : TimeLaws} {QL : SqliteLaws}.
Context (Han : answering) (t : nat -> bytes) (Htok : tokens t).
Context (worker : WorkerId.t) (lease_ms : Z).
Context (Hworker : len (WorkerId.as_str worker) <= 255).

(** A database time after which a lease still ends in the supported range. *)
Definition lease_fits (now : string) : Prop :=
  exists m, now = millis_text m /\ 0 <= m /\ 0 <= lease_ms /\ m + lease_ms <= max_millis.

(** The row of a prepared entry, still open. *)
Definition open_state (d : Deliveries.row) : bool :=
  bool_decide (Deliveries.state d = "pending") || bool_decide (Deliveries.state d = "claimed").
Definition entry_row (db : Db) (p : Prepared) : Prop :=
  exists d, d ∈ deliveries db /\ Deliveries.tenant_id d = TenantId.as_str (p_tenant_id p) /\
    Deliveries.event_row_id d = p_event_row_id p /\ open_state d = true.
Definition entry_ok (p : Prepared) : Prop :=
  len (p_token p) = CLAIM_TOKEN_BYTES /\ 0 <= AttemptCount.get (p_attempts p).

(** What the state CHECK says of an open row. *)
Lemma open_shape d :
  Deliveries.shape d = true -> open_state d = true ->
  Deliveries.delivered_at d = None /\ Deliveries.quarantined_at d = None /\
  Deliveries.quarantine_reason d = None.
Proof.
  unfold Deliveries.shape, open_state, Deliveries.no_quarantine.
  rewrite !orb_true_iff, !andb_true_iff, !bool_decide_eq_true. intros Hs Ho.
  destruct_or!; destruct_and!; try done; congruence.
Qed.

(** A claimed row passes the CHECKs when the open row did. *)
Lemma set_claimed_check attempts token expiry d :
  Deliveries.check d = true -> open_state d = true -> len token = CLAIM_TOKEN_BYTES ->
  0 <= attempts ->
  Deliveries.check (set_claimed attempts token (WorkerId.as_str worker) (Some expiry) d) = true.
Proof.
  unfold Deliveries.check. rewrite !andb_true_iff. intros Hck Hopen Hlen Hatt. destruct_and!.
  destruct (open_shape d) as (Hd & Hqa & Hqr); [done..|].
  unfold set_claimed. cbn. split_and!; try done.
  - by apply Z.leb_le.
  - unfold CLAIM_TOKEN_BYTES in Hlen. by rewrite Hlen.
  - by apply Z.leb_le.
  - unfold Deliveries.shape, Deliveries.no_quarantine. cbn. by rewrite Hd, Hqa, Hqr.
Qed.

Lemma claim_row_ok now d p :
  lease_fits now -> entry_ok p -> Deliveries.check d = true ->
  Deliveries.check (claim_row worker now lease_ms d p) = true /\
  (open_state d = true -> open_state (claim_row worker now lease_ms d p) = true).
Proof.
  intros (m & -> & Hm & Hl & Hmax) [Hlen Hatt] Hck. unfold claim_row.
  destruct (_ && _ && _) eqn:Ec; [|by split]. apply andb_true_iff in Ec as [_ Ho].
  rewrite strftime_add by done. split; [|done]. by apply set_claimed_check.
Qed.

Lemma claim_prepared_run now p w wr db :
  lease_fits now -> txn w = Some (wr, db) -> entry_ok p -> entry_row db p ->
  Forall (fun d => Deliveries.check d = true) (deliveries db) ->
  exists ev w', claim_prepared worker now lease_ms p w = Some (Ok ev, w').
Proof.
  intros Hfit Ht Hp (d & Hd & Htn & Hk & Ho) Hck. pose proof Hfit as (m & Hnow & Hm & Hl & Hmax).
  unfold claim_prepared. rewrite Forall_forall in Hck.
  assert (Hst : strftime now (seconds_modifier lease_ms) = Some (millis_text (m + lease_ms)))
    by (rewrite Hnow; by apply strftime_add).
  erewrite bind_run.
  2: { eapply (execute_run (an_fault Han) _ _ wr db); [exact Ht|]. unfold claim_update_sql.
       rewrite Hst. erewrite update_rows_run.
       - cbn [fst snd]. replace (Z.of_nat _ =? 0) with false; [reflexivity|]. symmetry. apply Z.eqb_neq.
         assert (Hin : d ∈ List.filter (fun r => bool_decide (Deliveries.tenant_id r = TenantId.as_str (p_tenant_id p))
           && (Deliveries.event_row_id r =? p_event_row_id p)
           && (bool_decide (Deliveries.state r = "pending") || bool_decide (Deliveries.state r = "claimed")))
           (deliveries db)).
         { apply list_elem_of_In, filter_In. split; [by apply list_elem_of_In|].
           rewrite Htn, Hk, bool_decide_true, Z.eqb_refl by done. exact Ho. }
         destruct (List.filter _ _); [by apply elem_of_nil in Hin|]. simpl. lia.
       - intros r Hr Hsel. split; [reflexivity|]. apply andb_true_iff in Hsel as [_ Hor].
         destruct Hp. apply set_claimed_check; auto. }
  cbv beta iota. destruct (parse_millis (m + lease_ms)) as (u & Hu & Hun); [lia|].
  unfold parse_timestamp. rewrite Hu. cbn [map_ok map_err]. unfold ClaimedEvent.new.
  rewrite (proj2 (canonicalize_instant_Ok _ (to_utc u) (to_utc (to_utc u)))).
  - eexists _, _. reflexivity.
  - split; [|done]. rewrite portable_to_utc. unfold portable_instant. rewrite Hun.
    unfold year_9999_end_nanos, max_millis in *. split; [lia|]. euclid.
Qed.

Lemma claim_all_run now ps w wr db :
  lease_fits now -> txn w = Some (wr, db) -> Forall entry_ok ps -> Forall (entry_row db) ps ->
  Forall (fun d => Deliveries.check d = true) (deliveries db) ->
  exists evs w', claim_all worker now lease_ms ps w = Some (Ok evs, w').
Proof.
  intros Hfit Ht Hps. revert w wr db Ht. induction Hps as [|p ps Hp Hps IH]; intros w wr db Ht Hrows Hck;
    simpl; [by exists [], w|]. apply Forall_cons in Hrows as [Hrow Hrows].
  destruct (claim_prepared_run now p w wr db) as (ev & w1 & Hr); [done..|].
  rewrite (bind_run _ _ _ _ _ Hr). cbv beta iota.
  apply (claim_prepared_inv _ _ _ _ _ _ _ _ _ Ht) in Hr as (_ & _ & Hk & Ht1).
  edestruct (IH w1 _ _ Ht1) as (evs & w2 & Hr2).
  - cbn. eapply Forall_impl; [exact Hrows|]. intros q (d & Hd & Htn & Hkey & Ho).
    exists (claim_row worker now lease_ms d p). cbn. destruct (claim_row_keeps worker now lease_ms d p) as [-> ->].
    split; [apply list_elem_of_fmap; by exists d|]. split_and!; [done..|].
    rewrite Forall_forall in Hck. by apply claim_row_ok; auto.
  - cbn. apply Forall_map, Forall_forall. intros d Hd. rewrite Forall_forall in Hck.
    apply claim_row_ok; auto.
  - rewrite (bind_run _ _ _ _ _ Hr2). by eexists _, _.
Qed.

(** Every event reads back into a core event, under a valid tenant. *)
Definition hydratable (db : Db) : Prop :=
  Forall (fun e => (exists ev, hydrate_event (row_columns e) = Ok ev) /\
                   exists tenant, TenantId.new (Events.tenant_id e) = Ok tenant) (events db).

(** No open delivery has its attempt counter at the bound. *)
Definition counters_fit (db : Db) : Prop :=
  Forall (fun d => open_state d = true -> Deliveries.attempts d < i64_max) (deliveries db).

Lemma eligible_open now d : eligible now d = true -> open_state d = true.
Proof.
  unfold eligible, open_state. intros He. apply orb_true_iff in He as [He|He];
    apply andb_true_iff in He as [-> _]; [done|apply orb_true_r].
Qed.

(** What the claim needs of the rows it chose. *)
Lemma chosen_preparable tenant now limit db d c :
  db_wf db -> hydratable db -> counters_fit db ->
  d ∈ chosen tenant now limit db -> candidate_of db d c -> preparable c.
Proof.
  intros (_ & _ & Hce & Hcd & _) Hh Hf Hd (e & He & Hj & ->).
  apply sqlite_chosen_spec in Hd as (Hd & Hel & _). apply eligible_open in Hel.
  unfold hydratable, counters_fit in *. rewrite Forall_forall in Hce. rewrite Forall_forall in Hcd.
  rewrite Forall_forall in Hh. rewrite Forall_forall in Hf.
  specialize (Hce _ He). specialize (Hcd _ Hd). specialize (Hf _ Hd Hel).
  destruct (Hh _ He) as [Hev Htn]. unfold Events.check in Hce. unfold Deliveries.check in Hcd. bools.
  split_and!; [done| |exact Hev|exact Htn]. exists (Deliveries.attempts d). by split_and!.
Qed.

Lemma chosen_entry tenant now limit db d c p :
  db_wf db -> d ∈ chosen tenant now limit db -> candidate_of db d c -> prepared_from c p ->
  entry_row db p /\ 0 <= AttemptCount.get (p_attempts p).
Proof.
  intros (_ & _ & _ & Hcd & _) Hd (e & He & Hj & ->) [_ Hk Htn _ (a & [= <-] & Ha & _) _].
  apply sqlite_chosen_spec in Hd as (Hd & Hel & _). apply join_condition_spec in Hj as [Hjt Hjk].
  apply TenantId_new_as_str in Htn. cbn in *. rewrite Forall_forall in Hcd. specialize (Hcd _ Hd).
  unfold Deliveries.check in Hcd. bools. split; [|lia]. exists d.
  split_and!; [done|congruence|congruence|by eapply eligible_open].
Qed.

Lemma claim_once_run request busy ms w :
  checked_busy_timeout (BusyConfig.timeout busy) = Ok ms ->
  checked_milliseconds (Lease.get (r_lease_for request)) = Ok lease_ms ->
  r_worker request = worker ->
  (Z.to_nat (Limit.get (r_limit request)) < entropy_fuel)%nat ->
  (forall n, lease_fits (clock n)) ->
  db_wf (committed w) -> hydratable (committed w) -> counters_fit (committed w) ->
  exists evs w', claim_once request busy w = Some (Ok evs, w').
Proof.
  intros Hbusy Hlease Hw Hfuel Hclock Hwf Hh Hcf. unfold claim_once. rewrite Hlease.
  destruct (begin_immediate_run Han busy ms w Hbusy) as (w1 & Hr1 & Hc1 & Ht1 & _).
  rewrite (bind_run _ _ _ _ _ Hr1). cbv beta iota.
  unfold database_time. erewrite bind_run by apply call_run, (an_fault Han). cbv beta iota.
  set (now := clock (tick w1)).
  erewrite bind_run by apply query_run, (an_fault Han). cbv beta iota.
  assert (Hv : visible (next_tick w1) = committed w) by (unfold visible; cbn; by rewrite Ht1).
  rewrite Hv. set (db := committed w) in *.
  set (tenant := option_map TenantId.as_str (r_tenant_id request)).
  pose proof (claim_sql_chosen tenant now (Limit.get (r_limit request)) db Hwf) as Hcand.
  set (cs := claim_sql tenant now (Limit.get (r_limit request)) db) in *.
  destruct (prepare_run t Htok cs [] (next_tick (next_tick w1))) as (ps & w2 & Hr2 & Hlens).
  { apply Forall_forall. intros c Hc. apply list_elem_of_lookup in Hc as [i Hi].
    destruct (Forall2_lookup_r _ _ _ _ _ Hcand Hi) as (d & Hd & Hdc).
    eapply chosen_preparable; [done..| |exact Hdc]. by eapply list_elem_of_lookup_2. }
  { cbn. unfold cs, claim_sql. rewrite length_take. lia. }
  rewrite (bind_run _ _ _ _ _ Hr2). cbv beta iota.
  apply prepare_inv in Hr2 as ([_ Ht2] & Hpf & _ & _). cbn in Ht2. rewrite Ht1 in Ht2.
  assert (Hentries : forall p, p ∈ ps -> entry_row db p /\ entry_ok p).
  { intros p Hp. rewrite Forall_forall in Hlens. specialize (Hlens _ Hp).
    apply list_elem_of_lookup in Hp as [i Hi].
    destruct (Forall2_lookup_r _ _ _ _ _ Hpf Hi) as (c & Hc & Hcp).
    destruct (Forall2_lookup_r _ _ _ _ _ Hcand Hc) as (d & Hd & Hdc).
    apply list_elem_of_lookup_2 in Hd.
    destruct (chosen_entry _ _ _ _ _ _ _ Hwf Hd Hdc Hcp). by split. }
  destruct (claim_all_run now ps w2 true db) as (evs & w3 & Hr3); try done.
  { apply Hclock. } { apply Forall_forall. by apply Hentries. } { apply Forall_forall. by apply Hentries. }
  { apply Hwf. }
  rewrite Hw, (bind_run _ _ _ _ _ Hr3). cbv beta iota.
  apply (claim_all_inv _ _ _ _ _ _ _ _ _ Ht2) in Hr3 as (_ & _ & _ & wr' & Ht3).
  destruct (commit_transaction_run Han w3 _ _ Ht3) as (w4 & Hr4 & _).
  rewrite (bind_run _ _ _ _ _ Hr4). by eexists _, _.
Qed.

(** A claim on an answering engine succeeds. *)
Lemma claim_run tenant_id lease limit busy ms w :
  checked_busy_timeout (BusyConfig.timeout busy) = Ok ms ->
  checked_milliseconds (Lease.get lease) = Ok lease_ms ->
  (Z.to_nat (Limit.get limit) < entropy_fuel)%nat ->
  (forall n, lease_fits (clock n)) ->
  db_wf (committed w) -> hydratable (committed w) -> counters_fit (committed w) ->
  exists evs w', claim_for_scope tenant_id worker lease limit busy w = Some (Ok evs, w').
Proof.
  intros Hbusy Hlease Hfuel Hclock Hwf Hh Hcf. unfold claim_for_scope, validate_busy_config.
  rewrite Hbusy. cbn [map_ok].
  destruct (claim_once_run (MkClaimRequest tenant_id worker lease limit) busy ms w)
    as (evs & w' & Hr); [done..|]. exists evs, w'.
  by destruct (BusyConfig.retries busy); simpl; rewrite (bind_run _ _ _ _ _ Hr).
Qed.
End Claim.

(** ** Acknowledging *)

Section Ack.
Context `{TimeLib, SerdeJson, Base64, MimeLib, FluentUri, RustDebug, Env, SqliteTime}.
Context {QL : SqliteLaws}.
Context (Han : answering).
Context (scope : option TenantId.t) (busy : BusyConfig.t) (busy_ms : Z).
Context (Hbusy : checked_busy_timeout (BusyConfig.timeout busy) = Ok busy_ms).

Let tenant := option_map TenantId.as_str scope.

Lemma alone_wf : foreign_wf.
Proof. intros n db. by rewrite an_alone. Qed.

Lemma acked_check d now :
  Deliveries.check d = true -> open_state d = true ->
  Deliveries.check (unclaimed d "delivered" (Deliveries.available_at d) None (Some now)
    (Deliveries.quarantined_at d) (Deliveries.quarantine_reason d)) = true.
Proof.
  unfold Deliveries.check. rewrite !andb_true_iff. intros Hck Hopen. destruct_and!.
  destruct (open_shape d) as (Hd & Hqa & Hqr); [done..|].
  unfold unclaimed. cbn. rewrite Hqa, Hqr. by split_and!.
Qed.

(** The holder of a claim in force, acting on its delivery. *)
Definition held (d : Deliveries.row) (row_id : RowId.t) (token : ClaimToken.t) : Prop :=
  forall n, fenced tenant (RowId.get row_id) (ClaimToken.as_bytes token) (clock n) d = true.

(** [db'] is [db] with the deliveries [ids] delivered and all else as it was. *)
Definition delivers (ids : list Z) (db db' : Db) : Prop :=
  exists h, db' = MkDb (events db) (map h (deliveries db)) (tables db) /\
    forall d, d ∈ deliveries db ->
      Deliveries.event_row_id (h d) = Deliveries.event_row_id d /\
      Deliveries.tenant_id (h d) = Deliveries.tenant_id d /\
      if decide (Deliveries.event_row_id d ∈ ids) then Deliveries.state (h d) = "delivered" else h d = d.

Lemma delivers_nil db : delivers [] db db.
Proof.
  exists (fun d => d). rewrite map_id. split; [by destruct db|]. intros d _.
  rewrite decide_False by apply not_elem_of_nil. done.
Qed.

Lemma delivers_app ids1 ids2 db1 db2 db3 :
  delivers ids1 db1 db2 -> delivers ids2 db2 db3 -> delivers (ids1 ++ ids2) db1 db3.
Proof.
  intros (h1 & -> & Hh1) (h2 & -> & Hh2). exists (fun d => h2 (h1 d)). cbn in *.
  split; [by rewrite map_map|]. intros d Hd. destruct (Hh1 d Hd) as (Hk1 & Ht1 & Hs1).
  destruct (Hh2 (h1 d)) as (Hk2 & Ht2 & Hs2); [by apply list_elem_of_fmap_2|].
  rewrite Hk1 in *. rewrite Ht1 in *. split_and!; [done..|].
  repeat case_decide; try done; rewrite elem_of_app in *; try tauto; congruence.
Qed.

(** At most one delivery is fenced by a token. *)
Lemma fenced_unique db row_id token now a b :
  db_wf db -> a ∈ deliveries db -> b ∈ deliveries db ->
  fenced tenant row_id token now a = true -> fenced tenant row_id token now b = true -> a = b.
Proof.
  intros Hwf Ha Hb Hfa Hfb. unfold fenced, row_in_scope in *. bools.
  eapply (sorted_key_inj Deliveries.event_row_id); [apply Hwf|done..|congruence].
Qed.

Lemma held_check w d row_id token :
  db_wf (committed w) -> d ∈ deliveries (committed w) -> held d row_id token ->
  Deliveries.check d = true /\ open_state d = true.
Proof.
  intros (_ & _ & _ & Hcd & _) Hd Hheld. split; [rewrite Forall_forall in Hcd; by apply Hcd|].
  specialize (Hheld 0%nat). unfold fenced in Hheld. bools. unfold open_state.
  match goal with Hs : bool_decide (Deliveries.state d = _) = true |- _ => rewrite Hs end. apply orb_true_r.
Qed.

Lemma ack_sql_run db d row_id token now :
  db_wf db -> d ∈ deliveries db ->
  Deliveries.check d = true -> open_state d = true ->
  fenced tenant (RowId.get row_id) (ClaimToken.as_bytes token) now d = true ->
  exists db', mutation_sql PreparedMutation.Ack tenant (RowId.get row_id) (ClaimToken.as_bytes token)
                now db = Ok (1, db').
Proof.
  intros Hwf Hd Hck Hopen Hf. unfold mutation_sql.
  rewrite (update_rows_run _ _ (fun d => unclaimed d "delivered" (Deliveries.available_at d) None
    (Some now) (Deliveries.quarantined_at d) (Deliveries.quarantine_reason d))).
  - cbn [fst snd]. rewrite (filter_unique _ _ d); [by eexists|by apply deliveries_NoDup|done|done|].
    intros y Hy Hfy. by eapply fenced_unique.
  - intros r Hr Hfr. split; [done|]. rewrite (fenced_unique db _ _ now r d) by done.
    by apply acked_check.
Qed.

Lemma ack_returns w d row_id token :
  db_wf (committed w) -> d ∈ deliveries (committed w) -> held d row_id token ->
  exists w', mutate_with_config scope row_id token Mutation.Ack busy w = Some (Ok tt, w').
Proof.
  intros Hwf Hd Hheld. destruct (held_check _ _ _ _ Hwf Hd Hheld) as [Hck Hopen].
  unfold mutate_with_config, validate_busy_config. rewrite Hbusy. cbn [map_ok].
  enough (Honce : exists w', mutate_once scope row_id token Mutation.Ack busy w = Some (Ok tt, w')).
  { destruct Honce as [w' Hr]. exists w'.
    by destruct (BusyConfig.retries busy); simpl; rewrite (bind_run _ _ _ _ _ Hr). }
  unfold mutate_once. cbn [prepare_mutation].
  destruct (begin_immediate_run Han busy busy_ms w Hbusy) as (w1 & Hr1 & _ & Ht1 & _).
  rewrite (bind_run _ _ _ _ _ Hr1). cbv beta iota.
  unfold database_time. erewrite bind_run by apply call_run, (an_fault Han). cbv beta iota.
  destruct (ack_sql_run _ _ row_id token (clock (tick w1)) Hwf Hd Hck Hopen (Hheld _)) as [db' Hsql].
  erewrite bind_run by by apply (execute_run (an_fault Han) _ _ true (committed w)).
  cbn [Z.eqb Pos.eqb negb].
  match goal with |- exists w', bind commit_transaction _ ?x = _ =>
    destruct (commit_transaction_run Han x true db' eq_refl) as (w2 & Hr2 & _) end.
  rewrite (bind_run _ _ _ _ _ Hr2). by eexists.
Qed.

(** The acknowledgement of a held delivery succeeds and changes that row alone. *)
Lemma ack_run w d row_id token :
  txn w = None -> db_wf (committed w) -> d ∈ deliveries (committed w) -> held d row_id token ->
  exists w', mutate_with_config scope row_id token Mutation.Ack busy w = Some (Ok tt, w') /\
    txn w' = None /\ db_wf (committed w') /\
    delivers [Deliveries.event_row_id d] (committed w) (committed w').
Proof.
  intros Ht Hwf Hd Hheld. destruct (ack_returns w d row_id token) as [w' Hrun]; [done..|].
  exists w'. split; [exact Hrun|].
  apply mutate_inv in Hrun as (Ht' & db2 & Hf & He); [|done|apply alone_wf|done].
  apply (foreign_only_none _ _ (an_alone Han)) in Hf as ->.
  destruct He as (p & n & [= <-] & Hm). split; [done|]. split; [by eapply mutated_on_wf|].
  destruct Hm as (d0 & d' & Hd0 & Hf0 & Ha & _ & Hdb).
  assert (d0 = d) as -> by (eapply fenced_unique; [exact Hwf|done..|exact Hf0|apply Hheld]).
  eexists. split; [exact Hdb|]. intros r Hr. cbn beta.
  destruct (Z.eqb_spec (Deliveries.event_row_id r) (Deliveries.event_row_id d)) as [Hk|Hk].
  - assert (r = d) as -> by (eapply (sorted_key_inj Deliveries.event_row_id); [apply Hwf|done..]).
    destruct (assign_keeps _ _ _ _ Ha) as [Hk' Ht2]. rewrite decide_True by set_solver.
    split_and!; [done..|]. injection Ha as <-. done.
  - rewrite decide_False by set_solver. done.
Qed.
End Ack.

(** ** Draining *)

(** A consumer: claim a batch and acknowledge each of its deliveries, some
    number of times. *)
Section Consumer.
Context `{TimeLib, SerdeJson, Base64, MimeLib, FluentUri, RustDebug, Env}.
Context (scope : option TenantId.t) (worker : WorkerId.t) (lease : Lease.t) (limit : Limit.t)
  (busy : BusyConfig.t).

Fixpoint ack_all (evs : list ClaimedEvent.t) : M unit :=
  match evs with
  | [] => ret tt
  | ev :: evs =>
      let* _ := ack_for_scope scope (ClaimedEvent.row_id ev) (ClaimedEvent.claim_token ev) busy in
      ack_all evs
  end.

Definition consume_round : M unit :=
  let* claimed := claim_for_scope scope worker lease limit busy in
  match claimed with
  | Ok evs => ack_all evs
  | Err _ => ret tt
  end.

Fixpoint consume (rounds : nat) : M unit :=
  match rounds with
  | O => ret tt
  | S rounds => let* _ := consume_round in consume rounds
  end.
End Consumer.

(** The deliveries of a scope that are still to be made. *)
Definition backlog (tenant : option string) (db : Db) : list Deliveries.row :=
  List.filter (fun d => open_state d && in_scope tenant d) (deliveries db).

Section Drain.
Context `{TimeLib, SerdeJson, Base64, MimeLib, FluentUri, RustDebug, Env, SqliteTime}.
Context {TL : TimeLaws} {QL : SqliteLaws}.
Context (Han : answering) (t : nat -> bytes) (Htok : tokens t).
Context (scope : option TenantId.t) (worker : WorkerId.t) (lease : Lease.t) (limit : Limit.t)
  (busy : BusyConfig.t) (busy_ms lease_ms start : Z).
Context (Hbusy : checked_busy_timeout (BusyConfig.timeout busy) = Ok busy_ms).
Context (Hlease : checked_milliseconds (Lease.get lease) = Ok lease_ms).
Context (Hworker : len (WorkerId.as_str worker) <= 255).
Context (Hfuel : (Z.to_nat (Limit.get limit) < entropy_fuel)%nat).

(** The whole drain takes less than one lease. *)
Definition within_lease : Prop :=
  0 <= start /\ start + 2 * lease_ms <= max_millis /\
  forall n, exists m, clock n = millis_text m /\ start <= m < start + lease_ms.
Context (Hwithin : within_lease).

Let tenant := option_map TenantId.as_str scope.
Let take_limit {A} : list A -> list A := take (Z.to_nat (Limit.get limit)).
Let key (ev : ClaimedEvent.t) : Z := RowId.get (ClaimedEvent.row_id ev).

(** Tables whose backlog can be claimed at any time of the drain. *)
Record drainable (db : Db) : Prop := {
  dr_wf : db_wf db;
  dr_hydratable : hydratable db;
  dr_counters : counters_fit db;
  dr_due d n : d ∈ backlog tenant db -> eligible (clock n) d = true;
}.

Lemma within_fits n : lease_fits lease_ms (clock n).
Proof.
  destruct Hwithin as (Hst & Hmax & Hck). destruct (Hck n) as (m & Hm & Hr). exists m. split; [done|]. lia.
Qed.

Lemma chosen_backlog db n :
  drainable db -> chosen tenant (clock n) (Limit.get limit) db = take_limit (backlog tenant db).
Proof.
  intros Hd. rewrite chosen_eligible. unfold take_limit, backlog. f_equal. apply filter_ext_in. intros d Hin.
  destruct (open_state d) eqn:Eo, (in_scope tenant d) eqn:Es; rewrite ?andb_false_r; try done.
  - rewrite (dr_due db Hd); [done|]. apply list_elem_of_In, filter_In. by rewrite Eo, Es.
  - destruct (eligible _ d) eqn:Ee; [|done]. apply eligible_open in Ee. congruence.
Qed.

(** Every claim of a batch is held on the tables the claim left. *)
Definition all_held (evs : list ClaimedEvent.t) (db : Db) : Prop :=
  forall ev, ev ∈ evs -> exists d, d ∈ deliveries db /\ Deliveries.event_row_id d = key ev /\
    held scope d (ClaimedEvent.row_id ev) (ClaimedEvent.claim_token ev).

Lemma ack_all_run evs w :
  txn w = None -> db_wf (committed w) -> all_held evs (committed w) -> NoDup (map key evs) ->
  exists w', ack_all scope busy evs w = Some (tt, w') /\ txn w' = None /\ db_wf (committed w') /\
    delivers (map key evs) (committed w) (committed w').
Proof.
  revert w. induction evs as [|ev evs IH]; intros w Ht Hwf Hheld Hnd; simpl.
  { exists w. split_and!; [done..|apply delivers_nil]. }
  inversion Hnd as [|? ? Hn Hnd']; subst.
  destruct (Hheld ev) as (d & Hd & Hk & Hh); [left|].
  destruct (ack_run Han scope busy busy_ms Hbusy w d _ _ Ht Hwf Hd Hh) as (w1 & Hr1 & Ht1 & Hwf1 & Hdel).
  unfold ack_for_scope. rewrite (bind_run _ _ _ _ _ Hr1).
  destruct (IH w1 Ht1 Hwf1) as (w2 & Hr2 & Ht2 & Hwf2 & Hdel2); [|done|].
  - intros ev' Hev'. destruct (Hheld ev') as (d' & Hd' & Hk' & Hh'); [by right|].
    exists d'. split; [|done]. destruct Hdel as (h & -> & Hrows). cbn.
    destruct (Hrows d' Hd') as (_ & _ & Hrow). rewrite decide_False in Hrow.
    + apply list_elem_of_fmap. by exists d'.
    + rewrite list_elem_of_singleton, Hk, Hk'. intros Heq. apply Hn. rewrite <- Heq.
      by apply list_elem_of_fmap_2.
  - exists w2. split_and!; [done..|]. rewrite Hk in Hdel. by apply (delivers_app [key ev] (map key evs) _ _ _ Hdel).
Qed.

(** A claim's rows, then their delivery. *)
Lemma claim_delivers db f ids db' :
  (forall d, Deliveries.event_row_id (f d) = Deliveries.event_row_id d /\
             Deliveries.tenant_id (f d) = Deliveries.tenant_id d) ->
  (forall d, Deliveries.event_row_id d ∉ ids -> f d = d) ->
  delivers ids (MkDb (events db) (map f (deliveries db)) (tables db)) db' -> delivers ids db db'.
Proof.
  intros Hf Hid (h & -> & Hh). exists (fun d => h (f d)). cbn in *. split; [by rewrite map_map|].
  intros d Hd. destruct (Hh (f d)) as (Hk & Htn & Hs); [by apply list_elem_of_fmap_2|].
  destruct (Hf d) as [Hfk Hft]. rewrite Hfk in *. rewrite Hft in *. split_and!; [done..|].
  case_decide; [done|]. by rewrite Hs, Hid.
Qed.

Lemma claimed_row (expiry : option string) evs ev d :
  ev ∈ evs -> Deliveries.event_row_id d = key ev ->
  exists attempts token,
    row_after_claim worker expiry evs d
    = set_claimed attempts token (WorkerId.as_str worker) expiry d.
Proof.
  intros Hev Hk. unfold row_after_claim.
  destruct (claim_for_row evs d) as [ev'|] eqn:Ef; [by eexists _, _|]. exfalso.
  apply list_elem_of_In in Hev. pose proof (List.find_none _ _ Ef ev Hev) as Hne. cbv beta in Hne.
  rewrite Hk in Hne. unfold key in Hne. by rewrite Z.eqb_refl in Hne.
Qed.

(** The claims of a batch are in force until the drain ends. *)
Lemma claim_held db n evs :
  db_wf db -> Forall2 (claim_of db worker) (chosen tenant (clock n) (Limit.get limit) db) evs ->
  all_held evs (MkDb (events db)
    (map (row_after_claim worker (strftime (clock n) (seconds_modifier lease_ms)) evs) (deliveries db))
    (tables db)).
Proof.
  intros Hwf Hco ev Hev. pose proof Hev as Hlk. apply list_elem_of_lookup in Hlk as [i Hi].
  destruct (Forall2_lookup_r _ _ _ _ _ Hco Hi) as (d & Hd & Hcd).
  apply list_elem_of_lookup_2, sqlite_chosen_spec in Hd as (Hd & _ & Hsc).
  destruct Hcd as [Hkd _ _ _ _ _ _]. fold (key ev) in Hkd.
  destruct Hwithin as (Hst & Hmax & Hck). destruct (Hck n) as (m & Hm & Hr).
  set (expiry := strftime (clock n) (seconds_modifier lease_ms)).
  assert (Hexp : expiry = Some (millis_text (m + lease_ms)))
    by (unfold expiry; rewrite Hm; apply strftime_add; lia).
  exists (row_after_claim worker expiry evs d).
  destruct (claimed_row expiry evs ev d Hev (eq_sym Hkd)) as (a & tok & Hrow).
  split; [by apply list_elem_of_fmap_2|].
  assert (Hkey : Deliveries.event_row_id (row_after_claim worker expiry evs d) = key ev) by by rewrite Hrow.
  split; [exact Hkey|]. intros k.
  pose proof (row_after_claim_token _ _ _ _ worker expiry evs ev d Hwf Hco Hev Hkey) as Htk.
  unfold fenced, row_in_scope. rewrite Htk, Hkey, Z.eqb_refl.
  rewrite Hrow. unfold set_claimed, in_scope. cbn -[String.leb]. unfold in_scope in Hsc. fold tenant.
  rewrite Hsc, Hexp, bool_decide_true by done. cbn -[String.leb].
  destruct (Hck k) as (m' & -> & Hr'). rewrite millis_text_leb by lia.
  rewrite (proj2 (Z.leb_gt _ _)) by lia. by rewrite bool_decide_true.
Qed.

Lemma round_run w :
  txn w = None -> drainable (committed w) ->
  exists w', consume_round scope worker lease limit busy w = Some (tt, w') /\ txn w' = None /\
    db_wf (committed w') /\
    delivers (map Deliveries.event_row_id (take_limit (backlog tenant (committed w))))
      (committed w) (committed w').
Proof.
  intros Ht Hdr. pose proof Hdr as [Hwf Hh Hcf _].
  destruct (claim_run Han t Htok worker lease_ms Hworker scope lease limit busy busy_ms w)
    as (evs & w1 & Hr); try done; [apply within_fits|].
  unfold consume_round. rewrite (bind_run _ _ _ _ _ Hr). cbv beta iota.
  apply claim_success_inv in Hr as (Ht1 & db & n & ms & Hf & _ & Hms & Hco & _ & Hwf1 & Hdb);
    [|done|by apply alone_wf|done].
  apply (foreign_only_none _ _ (an_alone Han)) in Hf as ->.
  assert (ms = lease_ms) as -> by congruence. fold tenant in Hco.
  assert (Hids : map key evs = map Deliveries.event_row_id (take_limit (backlog tenant (committed w)))).
  { rewrite <- (chosen_backlog _ n Hdr). symmetry. apply Forall2_map_eq.
    eapply Forall2_impl; [exact Hco|]. by intros d ev [Hk _ _ _ _ _ _]. }
  destruct (ack_all_run evs w1 Ht1 Hwf1) as (w2 & Hr2 & Ht2 & Hwf2 & Hdel).
  { rewrite Hdb. by apply claim_held. }
  { rewrite Hids. apply sorted_lt_NoDup. apply sorted_take, sorted_filter, Hwf. }
  exists w2. split; [exact Hr2|]. split; [exact Ht2|]. split; [exact Hwf2|]. rewrite <- Hids.
  rewrite Hdb in Hdel. refine (claim_delivers _ _ _ _ _ _ Hdel).
  - intros d. unfold row_after_claim. by destruct (claim_for_row evs d).
  - intros d Hn. unfold row_after_claim, claim_for_row.
    destruct (find _ evs) as [ev|] eqn:Ef; [|done]. exfalso. apply Hn.
    apply List.find_some in Ef as [Hin Hk]. apply Z.eqb_eq in Hk. rewrite <- Hk.
    apply list_elem_of_In in Hin. by apply (list_elem_of_fmap_2 key).
Qed.

(** The rows a round leaves open are rows of the old backlog. *)
Lemma delivers_open ids db db' d :
  delivers ids db db' -> d ∈ deliveries db' -> open_state d = true ->
  d ∈ deliveries db /\ Deliveries.event_row_id d ∉ ids.
Proof.
  intros (h & -> & Hh) Hd Ho. cbn in Hd. apply list_elem_of_fmap in Hd as (x & -> & Hx).
  destruct (Hh x Hx) as (Hk & _ & Hs). rewrite Hk. case_decide as Hin.
  - exfalso. revert Ho. unfold open_state. by rewrite Hs.
  - by rewrite Hs.
Qed.

Lemma delivers_backlog ids db db' :
  delivers ids db db' ->
  backlog tenant db'
  = List.filter (fun d => negb (bool_decide (Deliveries.event_row_id d ∈ ids))) (backlog tenant db).
Proof.
  intros (h & -> & Hh). unfold backlog. cbn [deliveries]. induction (deliveries db) as [|d l IH]; [done|].
  cbn [map List.filter]. rewrite IH by (intros; apply Hh; by right).
  destruct (Hh d) as (Hk & _ & Hs); [left|]. case_decide as Hin.
  - replace (open_state (h d)) with false by (unfold open_state; by rewrite Hs). cbn [andb].
    destruct (open_state d && in_scope tenant d); [|done]. cbn [List.filter].
    by rewrite bool_decide_true.
  - rewrite Hs. destruct (open_state d && in_scope tenant d); [|done]. cbn [List.filter].
    by rewrite bool_decide_false.
Qed.

(** Taking the keys of a prefix out of a list with distinct keys. *)
Lemma filter_take_out {A} (f : A -> Z) (l : list A) n :
  NoDup (map f l) ->
  List.filter (fun x => negb (bool_decide (f x ∈ map f (take n l)))) l = drop n l.
Proof.
  revert n. induction l as [|x l IH]; intros [|n] Hnd; cbn [take drop map List.filter]; [done..| |].
  - rewrite bool_decide_false by apply not_elem_of_nil. cbn [negb]. f_equal.
    inversion Hnd; subst. by rewrite <- (IH 0%nat) at 2.
  - inversion Hnd as [|? ? Hn Hnd']; subst. rewrite bool_decide_true by left. cbn [negb].
    rewrite <- (IH n Hnd'). apply filter_ext_in. intros y Hy. do 2 f_equal.
    apply bool_decide_ext. rewrite elem_of_cons. split; [|by right]. intros [Heq|]; [|done].
    exfalso. apply Hn. rewrite <- Heq. apply list_elem_of_fmap_2. by apply list_elem_of_In.
Qed.

Lemma round_drainable db db' :
  drainable db -> db_wf db' ->
  delivers (map Deliveries.event_row_id (take_limit (backlog tenant db))) db db' ->
  drainable db' /\ backlog tenant db' = drop (Z.to_nat (Limit.get limit)) (backlog tenant db).
Proof.
  intros [Hwf Hh Hcf Hdue] Hwf' Hdel.
  assert (Hb : backlog tenant db' = drop (Z.to_nat (Limit.get limit)) (backlog tenant db)).
  { rewrite (delivers_backlog _ _ _ Hdel). apply filter_take_out.
    apply sorted_lt_NoDup, sorted_filter, Hwf. }
  split; [|exact Hb]. constructor; [done| | |].
  - by destruct Hdel as (h & -> & _).
  - unfold counters_fit in *. rewrite Forall_forall in Hcf. apply Forall_forall. intros d Hd Ho.
    destruct (delivers_open _ _ _ _ Hdel Hd Ho). by apply Hcf.
  - intros d n Hd. apply Hdue. rewrite Hb in Hd.
    rewrite <- (take_drop (Z.to_nat (Limit.get limit)) (backlog tenant db)). apply elem_of_app. by right.
Qed.

Lemma consume_run rounds w :
  txn w = None -> drainable (committed w) ->
  (length (backlog tenant (committed w)) <= rounds * Z.to_nat (Limit.get limit))%nat ->
  exists w', consume scope worker lease limit busy rounds w = Some (tt, w') /\ txn w' = None /\
    backlog tenant (committed w') = [] /\
    delivers (map Deliveries.event_row_id (backlog tenant (committed w))) (committed w) (committed w').
Proof.
  revert w. induction rounds as [|rounds IH]; intros w Ht Hdr Hlen; simpl.
  { destruct (backlog tenant (committed w)) eqn:Eb; [|simpl in Hlen; lia].
    exists w. split_and!; [done..|apply delivers_nil]. }
  destruct (round_run w Ht Hdr) as (w1 & Hr1 & Ht1 & Hwf1 & Hdel1).
  rewrite (bind_run _ _ _ _ _ Hr1).
  destruct (round_drainable _ _ Hdr Hwf1 Hdel1) as [Hdr1 Hb1].
  destruct (IH w1 Ht1 Hdr1) as (w2 & Hr2 & Ht2 & Hb2 & Hdel2).
  { rewrite Hb1, length_drop. lia. }
  exists w2. split_and!; [done..|]. rewrite Hb1 in Hdel2.
  pose proof (delivers_app _ _ _ _ _ Hdel1 Hdel2) as Hdel. rewrite <- map_app in Hdel.
  unfold take_limit in Hdel. by rewrite take_drop in Hdel.
Qed.

(** C16: the outbox drains. On an engine that answers and a source of distinct
    tokens, a consumer that claims batches of [limit] and acknowledges what it
    claimed, all within one lease, makes every due delivery of its scope after
    as many rounds as the backlog has batches: each of them is delivered, the
    consumer always returns, and no other row changes. *)
Theorem backlog_drains rounds w :
  txn w = None -> drainable (committed w) ->
  (length (backlog tenant (committed w)) <= rounds * Z.to_nat (Limit.get limit))%nat ->
  exists w', consume scope worker lease limit busy rounds w = Some (tt, w') /\ txn w' = None /\
    backlog tenant (committed w') = [] /\
    delivers (map Deliveries.event_row_id (backlog tenant (committed w))) (committed w) (committed w').
Proof. by apply consume_run. Qed.
End Drain.
