(* ===== verification/Instants.v ===== *)
(** * Instants in a column of microseconds

    PostgreSQL's [timestamptz] and MySQL's [DATETIME(6)] hold microseconds. A
    column is the number of microseconds since the Unix epoch; the driver
    converts it from and to the core's instants. *)

From S2P Require Import Prelude External BTree Errors Limits Validation Bounds Values Extension Serialization Event Tables Queries RowHydration.

Class InstantColumn `{TimeLib} := {
  (** an instant bound as a column, and a column read *)
  encode_instant : OffsetDateTime -> Z;
  decode_instant : Z -> OffsetDateTime;
}.

(** Documented behaviour of the drivers: a column is read in UTC, and an instant
    without a finer part than the microsecond is stored as it is. *)
Class InstantColumnLaws `{InstantColumn} : Prop := {
  decode_offset z : utc_offset (decode_instant z) = 0;
  decode_nanos z : unix_nanos (decode_instant z) = 1000 * z;
  encode_nanos t : portable_instant t -> 1000 * encode_instant t = unix_nanos t;
  encode_decode z : encode_instant (decode_instant z) = z;
}.

Section Columns.
Context `{InstantColumn, SerdeJson, Base64}.

(** [==] of an [Option<OffsetDateTime>] and a column *)
Definition same_instant (a : option OffsetDateTime) (b : option Z) : bool :=
  match a, b with
  | Some a, Some b => instant_eqb a (decode_instant b)
  | None, None => true
  | _, _ => false
  end.

(** The event columns that enqueue and import bind. *)
Definition event_columns (c : EventContent.t) : EventRow.t_of Z :=
  event_columns_with encode_instant c.
End Columns.

Section Facts.
Context `{InstantColumn} {TL : TimeLaws} {IL : InstantColumnLaws}.

Lemma decode_encode t : portable_instant t -> decode_instant (encode_instant t) = to_utc t.
Proof.
  intros Hp. apply utc_unique; [by rewrite decode_offset, to_utc_offset|].
  by rewrite decode_nanos, encode_nanos, to_utc_nanos.
Qed.

Lemma encode_inj t u :
  portable_instant t -> portable_instant u -> encode_instant t = encode_instant u ->
  unix_nanos t = unix_nanos u.
Proof. intros Ht Hu He. rewrite <- !encode_nanos by done. by rewrite He. Qed.

(** Comparing instants read from the database is comparing the columns. *)
Lemma decode_eqb a b : instant_eqb (decode_instant a) (decode_instant b) = (a =? b).
Proof. unfold instant_eqb. rewrite !decode_nanos. lia. Qed.

Lemma decode_leb a b : instant_leb (decode_instant a) (decode_instant b) = (a <=? b).
Proof. unfold instant_leb. rewrite !decode_nanos. lia. Qed.

Lemma encode_eqb t b :
  portable_instant t -> instant_eqb t (decode_instant b) = (encode_instant t =? b).
Proof. intros Ht. unfold instant_eqb. rewrite decode_nanos, <- encode_nanos by done. lia. Qed.

Lemma same_instant_encoded a b :
  option_all portable_instant a ->
  same_instant a b = true <-> option_map encode_instant a = b.
Proof.
  intros Ha. destruct a as [a|], b as [b|]; simpl; try done.
  rewrite encode_eqb by done. rewrite Z.eqb_eq. naive_solver.
Qed.
End Facts.
