(* ===== verification/Leases.v ===== *)
(** * Statements on deliveries, and leases

    [UPDATE] and [SELECT ... FOR UPDATE] on [dovecote_deliveries] in PostgreSQL and
    MySQL: the row versions and locks they add to the transaction. The deliveries
    these servers may claim at an instant and the row versions a batch of claims
    writes; the condition under which they mutate a delivery: the claim token the
    caller holds and a lease that has not expired. *)

From S2P Require Import Prelude External Bounds Values State Tables Queries Claims Contract Overlay Others.

(** [UPDATE dovecote_deliveries SET ... WHERE ...]: the new row versions, their
    keys locked, and [rows_affected]; a row that fails a CHECK fails the
    statement with the engine's [check_failed]. *)
Definition update_sql {check_failed : SqlxError.t} (selected : Deliveries.row_of Z -> bool)
    (set : Deliveries.row_of Z -> Deliveries.row_of Z) (db : Db_of Z) :
    Result (list (Deliveries.row_of Z) * Own Z) SqlxError.t :=
  let rows := map set (List.filter selected (deliveries db)) in
  if forallb Deliveries.check rows
  then Ok (rows, MkOwn [] rows (map Deliveries.event_row_id rows))
  else Err check_failed.

(** [SELECT ... FROM dovecote_deliveries WHERE ... FOR UPDATE] of one row *)
Definition lock_row_sql (selected : Deliveries.row_of Z -> bool) (db : Db_of Z) :
    option (Deliveries.row_of Z) * Own Z :=
  match find selected (deliveries db) with
  | Some d => (Some d, MkOwn [] [] [Deliveries.event_row_id d])
  | None => (None, nothing)
  end.

Section Facts.
Context {check_failed : SqlxError.t}.
#[local] Abbreviation update_sql := (@update_sql check_failed).

(** The rows of a table after some of them were set. *)
Definition updated (selected : Deliveries.row_of Z -> bool)
    (set : Deliveries.row_of Z -> Deliveries.row_of Z) (d : Deliveries.row_of Z) :
    Deliveries.row_of Z :=
  if selected d then set d else d.

Definition keeps_key (set : Deliveries.row_of Z -> Deliveries.row_of Z) : Prop :=
  forall d, Deliveries.event_row_id (set d) = Deliveries.event_row_id d /\
            Deliveries.tenant_id (set d) = Deliveries.tenant_id d.

Lemma set_finalized_keeps (at_ : Z) : keeps_key (set_finalized at_).
Proof. done. Qed.

Lemma version_updated selected set (db : Db_of Z) d :
  db_wf db -> keeps_key set -> d ∈ deliveries db ->
  version Deliveries.event_row_id (map set (List.filter selected (deliveries db))) d
  = updated selected set d.
Proof.
  intros Hwf Hk Hd. unfold version, updated.
  assert (Hrow : forall r, r ∈ rev (map set (List.filter selected (deliveries db))) ->
            Deliveries.event_row_id r = Deliveries.event_row_id d ->
            r = set d /\ selected d = true).
  { intros r Hr Hkey. apply list_elem_of_In, in_rev, in_map_iff in Hr as (x & <- & Hx).
    apply filter_In in Hx as [Hx Hs]. apply list_elem_of_In in Hx.
    rewrite (proj1 (Hk x)) in Hkey.
    assert (x = d) as -> by (eapply (sorted_key_inj Deliveries.event_row_id); eauto; apply Hwf). done. }
  destruct (row_at _ _ _) as [r|] eqn:E.
  - apply row_at_Some in E as [Hr Hkey]. by destruct (Hrow r Hr Hkey) as [-> ->].
  - destruct (selected d) eqn:Es; [|done]. apply row_at_None in E. destruct E.
    apply list_elem_of_fmap. exists (set d). split; [by rewrite (proj1 (Hk d))|].
    apply list_elem_of_In, in_rev. rewrite rev_involutive. apply in_map, filter_In.
    by rewrite <- list_elem_of_In.
Qed.

(** What an update leaves. *)
Lemma update_sql_Ok selected set (db : Db_of Z) rows o :
  db_wf db -> keeps_key set -> update_sql selected set db = Ok (rows, o) ->
  rows = map set (List.filter selected (deliveries db)) /\
  o = MkOwn [] rows (map Deliveries.event_row_id rows) /\
  Forall (fun r => Deliveries.check r = true) rows /\
  overlay o db = MkDb (events db) (map (updated selected set) (deliveries db)) (tables db) /\
  db_wf (overlay o db).
Proof.
  intros Hwf Hk. unfold update_sql. destruct (forallb _ _) eqn:Ec; [|done]. intros [= <- <-].
  set (rows := map set _) in *.
  assert (Hck : Forall (fun r => Deliveries.check r = true) rows).
  { apply Forall_forall. intros r Hr. rewrite forallb_forall in Ec. by apply Ec, list_elem_of_In. }
  assert (Hover : overlay (MkOwn [] rows (map Deliveries.event_row_id rows)) db
                  = MkDb (events db) (map (updated selected set) (deliveries db)) (tables db)).
  { rewrite overlay_deliveries; [|done|].
    - f_equal. apply map_ext_in. intros d Hd. apply version_updated; [done..|].
      by apply list_elem_of_In.
    - intros r Hr. apply list_elem_of_fmap in Hr as (x & -> & Hx). rewrite (proj1 (Hk x)).
      apply list_elem_of_In, filter_In in Hx as [Hx _]. apply list_elem_of_In in Hx.
      by apply list_elem_of_fmap_2. }
  split_and!; [done..|]. rewrite Hover. apply map_deliveries_wf; [done| |].
  - intros d Hd Hcd. unfold updated. destruct (selected d) eqn:Es; [|done].
    rewrite Forall_forall in Hck. apply Hck. apply list_elem_of_fmap. exists d. split; [done|].
    apply list_elem_of_In, filter_In. by rewrite <- list_elem_of_In.
  - intros d. unfold updated. destruct (selected d); auto.
Qed.

Lemma update_sql_wf selected set (db : Db_of Z) rows o :
  keeps_key set -> update_sql selected set db = Ok (rows, o) -> db_wf db -> db_wf (overlay o db).
Proof. intros Hk Hu Hwf. by apply (update_sql_Ok _ _ _ _ _ Hwf Hk Hu). Qed.

(** An update that selects one row. *)
Lemma update_sql_one selected set (db : Db_of Z) d :
  db_wf db -> d ∈ deliveries db -> selected d = true ->
  (forall y, y ∈ deliveries db -> selected y = true -> y = d) ->
  update_sql selected set db
  = if Deliveries.check (set d)
    then Ok ([set d], MkOwn [] [set d] [Deliveries.event_row_id (set d)])
    else Err check_failed.
Proof.
  intros Hwf Hd Hs Hu. unfold update_sql.
  rewrite (filter_unique selected _ d (deliveries_NoDup _ Hwf) Hd Hs Hu). simpl.
  by rewrite andb_true_r.
Qed.

Lemma update_sql_none selected set (db : Db_of Z) :
  (forall y, y ∈ deliveries db -> selected y = false) -> update_sql selected set db = Ok ([], nothing).
Proof.
  intros Hn. unfold update_sql. replace (List.filter selected (deliveries db)) with (@nil (Deliveries.row_of Z)).
  - done.
  - induction (deliveries db) as [|d ds IH]; simpl; [done|]. rewrite Hn by left.
    apply IH. intros y Hy. apply Hn. by right.
Qed.

(** Locking changes no row. *)
Lemma lock_row_Some selected (db : Db_of Z) d o :
  lock_row_sql selected db = (Some d, o) ->
  d ∈ deliveries db /\ selected d = true /\ o = MkOwn [] [] [Deliveries.event_row_id d].
Proof.
  unfold lock_row_sql. destruct (find _ _) as [x|] eqn:E; intros [= <- <-].
  apply List.find_some in E as [Hin Hs]. by rewrite list_elem_of_In.
Qed.

Lemma lock_row_None selected (db : Db_of Z) o :
  lock_row_sql selected db = (None, o) ->
  o = nothing /\ forall d, d ∈ deliveries db -> selected d = false.
Proof.
  unfold lock_row_sql. destruct (find _ _) as [x|] eqn:E; intros [= <-]. split; [done|].
  intros d Hd. apply (List.find_none _ _ E). by apply list_elem_of_In.
Qed.

Lemma lock_row_overlay selected (db : Db_of Z) : overlay (lock_row_sql selected db).2 db = db.
Proof. unfold lock_row_sql. by destruct (find _ _), db. Qed.
End Facts.

(** ** Leases on deliveries *)

(** [(d.state = 'pending' AND d.available_at <= now) OR (d.state = 'claimed' AND
    d.claim_expires_at <= now)] *)
Definition eligible (now : Z) (d : Deliveries.row_of Z) : bool :=
  (bool_decide (Deliveries.state d = "pending") && (Deliveries.available_at d <=? now))
  || (bool_decide (Deliveries.state d = "claimed")
      && is_some_and (Deliveries.claim_expires_at d) (fun expiry => expiry <=? now)).

(** The rows a claim query selects and locks: eligible, in scope, and not locked by
    another connection. *)
Definition claimable (tenant : option string) (now : Z) (held : list Z)
    (d : Deliveries.row_of Z) : bool :=
  in_scope tenant d && eligible now d
  && negb (bool_decide (Deliveries.event_row_id d ∈ held)).

(** ** Eligible deliveries *)

(** The deliveries a claim takes: the first [limit] that are due, in ascending
    row order. *)
Definition chosen (tenant : option string) (now : Z) (limit : Z) (held : list Z) (db : Db) :
    list (Deliveries.row_of Z) :=
  take (Z.to_nat limit)
    (List.filter (fun d => bool_decide (due Z.le tenant now held d)) (deliveries db)).

Lemma claimable_due tenant now held d :
  claimable tenant now held d = bool_decide (due Z.le tenant now held d).
Proof.
  apply eq_bool_prop_intro. rewrite !Is_true_true, bool_decide_eq_true.
  unfold claimable, due, in_scope, eligible.
  rewrite !andb_true_iff, orb_true_iff, !andb_true_iff, negb_true_iff, bool_decide_eq_false,
    !bool_decide_eq_true, Z.leb_le.
  destruct tenant, (Deliveries.claim_expires_at d); simpl;
    rewrite ?bool_decide_eq_true, ?Z.leb_le; intuition congruence.
Qed.

Lemma chosen_claimable tenant now limit held db :
  chosen tenant now limit held db
  = take (Z.to_nat limit) (List.filter (claimable tenant now held) (deliveries db)).
Proof. unfold chosen. f_equal. apply filter_ext. intros d. symmetry. apply claimable_due. Qed.

Lemma chosen_sorted tenant now limit held db :
  db_wf db -> StronglySorted Z.lt (map Deliveries.event_row_id (chosen tenant now limit held db)).
Proof. intros Hwf. apply sorted_take, sorted_filter, Hwf. Qed.

Lemma chosen_spec tenant now limit held db d :
  d ∈ chosen tenant now limit held db -> d ∈ deliveries db /\ claimable tenant now held d = true.
Proof.
  rewrite chosen_claimable. intros Hd. apply elem_of_take in Hd as (i & Hi & _).
  apply list_elem_of_lookup_2, list_elem_of_In, filter_In in Hi. by rewrite list_elem_of_In.
Qed.

Lemma claimable_state tenant now held d :
  claimable tenant now held d = true ->
  Deliveries.state d = "pending" \/ Deliveries.state d = "claimed".
Proof.
  unfold claimable, eligible. rewrite !andb_true_iff, orb_true_iff, !andb_true_iff, !bool_decide_eq_true.
  naive_solver.
Qed.

(** ** What a batch writes *)

(** The row versions a batch of claims writes. *)
Definition claimed_rows `{TimeLib} (worker : WorkerId.t) (expiry : Z)
    (ds : list (Deliveries.row_of Z)) (evs : list ClaimedEvent.t) : list (Deliveries.row_of Z) :=
  zip_with (fun d ev => set_claimed (AttemptCount.get (ClaimedEvent.attempts ev))
    (ClaimToken.as_bytes (ClaimedEvent.claim_token ev)) (WorkerId.as_str worker) (Some expiry) d)
    ds evs.

Lemma claimed_rows_keys `{TimeLib} worker expiry ds evs :
  length ds = length evs ->
  map Deliveries.event_row_id (claimed_rows worker expiry ds evs) = map Deliveries.event_row_id ds.
Proof.
  unfold claimed_rows. revert evs. induction ds as [|d ds IH]; intros [|ev evs] Hl; try done.
  simpl in *. f_equal. apply IH. lia.
Qed.

(** A row and its version after a batch. *)
Lemma version_claims `{TimeLib} worker expiry ds evs d :
  NoDup (map Deliveries.event_row_id ds) ->
  Forall2 (fun d ev => RowId.get (ClaimedEvent.row_id ev) = Deliveries.event_row_id d) ds evs ->
  (Deliveries.event_row_id d ∈ map Deliveries.event_row_id ds -> d ∈ ds) ->
  version Deliveries.event_row_id (claimed_rows worker expiry ds evs) d
  = row_after_claim worker (Some expiry) evs d.
Proof.
  intros Hnd Hf Hd. unfold version, row_after_claim, claim_for_row.
  rewrite row_at_rev by (rewrite claimed_rows_keys; [done|by eapply Forall2_length]).
  induction Hf as [|d' ev ds evs Hk Hf IH]; [done|]. unfold row_at. simpl. rewrite Hk.
  inversion Hnd as [|? ? Hnew Hnd']; subst.
  destruct (Z.eqb_spec (Deliveries.event_row_id d') (Deliveries.event_row_id d)) as [He|He].
  - assert (d' = d) as ->; [|done].
    assert (Hin : d ∈ d' :: ds) by (apply Hd; rewrite <- He; left).
    apply elem_of_cons in Hin as [->|Hin]; [done|]. destruct Hnew. rewrite He.
    by apply list_elem_of_fmap_2.
  - apply IH; [done|]. intros Hin.
    assert (Hin' : d ∈ d' :: ds) by (apply Hd; by right).
    apply elem_of_cons in Hin' as [->|Hin']; [congruence|done].
Qed.

(** Claims of a tenant's deliveries leave the other tenants' rows as they are. *)
Lemma confined_claims `{Others, TimeLib} tenant worker (expiry : option Z) evs db0 db :
  during [] db0 db -> db_wf db ->
  (forall ev, ev ∈ evs -> exists d, d ∈ deliveries db /\
     RowId.get (ClaimedEvent.row_id ev) = Deliveries.event_row_id d /\ Deliveries.tenant_id d = tenant) ->
  confined tenant db0
    (MkDb (events db) (map (row_after_claim worker expiry evs) (deliveries db)) (tables db)).
Proof.
  intros Hd Hwf Hown. exists db. split; [done|]. apply others_map. intros d Hin. unfold row_after_claim.
  destruct (claim_for_row evs d) as [ev|] eqn:Ef; [|by left]. right.
  apply List.find_some in Ef as [Hev Hk]. apply Z.eqb_eq in Hk. apply list_elem_of_In in Hev.
  destruct (Hown ev Hev) as (d' & Hd' & Hrow & Htn). assert (d = d') as ->; [|done].
  eapply (sorted_key_inj Deliveries.event_row_id); [apply Hwf|done..|congruence].
Qed.

(** ** The fence of a claim *)

(** [... AND state = 'claimed' AND claim_token = token AND claim_expires_at > now] *)
Definition fenced (tenant : option string) (row_id : Z) (token : bytes) (now : Z)
    (d : Deliveries.row_of Z) : bool :=
  row_in_scope tenant row_id d
  && bool_decide (Deliveries.state d = "claimed")
  && bool_decide (Deliveries.claim_token d = Some token)
  && is_some_and (Deliveries.claim_expires_at d) (fun expiry => now <? expiry).

(** The delivery is claimed and expires at some time. *)
Definition claim_expiry (d : Deliveries.row_of Z) (expiry : Z) : Prop :=
  Deliveries.state d = "claimed" /\ Deliveries.claim_expires_at d = Some expiry.

Section Facts.
Context {tenant : option string} {key : Z}.

(** At most one delivery has the row id. *)
Lemma row_in_scope_unique (db : Db_of Z) a b :
  db_wf db -> a ∈ deliveries db -> b ∈ deliveries db ->
  row_in_scope tenant key a = true -> row_in_scope tenant key b = true -> a = b.
Proof.
  intros Hwf Ha Hb Hsa Hsb. eapply (sorted_key_inj Deliveries.event_row_id); eauto; [apply Hwf|].
  unfold row_in_scope in *. bools. congruence.
Qed.

Lemma row_in_scope_key (d : Deliveries.row_of Z) :
  row_in_scope tenant key d = true -> Deliveries.event_row_id d = key.
Proof. unfold row_in_scope. rewrite andb_true_iff, Z.eqb_eq. tauto. Qed.

Lemma fenced_in_scope token now d :
  fenced tenant key token now d = true -> row_in_scope tenant key d = true.
Proof. unfold fenced. rewrite !andb_true_iff. tauto. Qed.

Lemma fenced_claim token now d :
  fenced tenant key token now d = true <->
  row_in_scope tenant key d = true /\ Deliveries.claim_token d = Some token /\
  exists expiry, claim_expiry d expiry /\ now < expiry.
Proof.
  unfold fenced, claim_expiry. rewrite !andb_true_iff, !bool_decide_eq_true.
  destruct (Deliveries.claim_expires_at d) as [expiry|]; simpl.
  - rewrite Z.ltb_lt. split; [intros [[[? ?] ?] ?]; eauto 10|].
    by intros (? & ? & x & [? [= <-]] & ?).
  - split; [by intros [_ ?]|]. by intros (_ & _ & x & [_ ?] & _).
Qed.

(** What the CHECKs say of the state of a delivery. *)
Lemma check_claim (d : Deliveries.row_of Z) :
  Deliveries.check d = true ->
  (Deliveries.state d = "pending" \/ Deliveries.state d = "delivered" \/
   Deliveries.state d = "quarantined") \/
  (exists stored expiry, Deliveries.claim_token d = Some stored /\ len stored = 16 /\
     claim_expiry d expiry).
Proof.
  unfold Deliveries.check, Deliveries.shape. rewrite !andb_true_iff, !orb_true_iff, !andb_true_iff.
  intros [[[[[[[[[_ _] _] Hw] _] _] _] _] _] Hs]. unfold claim_expiry.
  rewrite !bool_decide_eq_true in Hs.
  destruct Hs as [[[(((Hs & _) & _) & _)|(((Hs & Hf) & _) & _)]|(((Hs & _) & _) & _)]|(((Hs & _) & _) & _)];
    rewrite Hs; [tauto| |tauto..].
  right. unfold Deliveries.full_claim in Hf.
  destruct (Deliveries.claim_token d) as [stored|]; [|done].
  destruct (Deliveries.claim_expires_at d) as [expiry|]; [|by rewrite !andb_true_iff in Hf; destruct Hf].
  exists stored, expiry. simpl in Hw. apply Z.eqb_eq in Hw. done.
Qed.
End Facts.

(** An update of fenced deliveries matches the one with the row id, or nothing. *)
Lemma update_fenced {check_failed} tenant key token now set (db : Db_of Z) rows o :
  db_wf db -> keeps_key set ->
  @update_sql check_failed (fenced tenant key token now) set db = Ok (rows, o) ->
  (exists d, d ∈ deliveries db /\ fenced tenant key token now d = true /\
     Deliveries.check (set d) = true /\ rows = [set d] /\ o = Overlay.MkOwn [] [set d] [key]) \/
  (rows = [] /\ o = Overlay.nothing /\
   forall d, d ∈ deliveries db -> fenced tenant key token now d = false).
Proof.
  intros Hwf Hk Hu. destruct (find (fenced tenant key token now) (deliveries db)) as [d|] eqn:Ef.
  - left. apply List.find_some in Ef as [Hd Hf]. apply list_elem_of_In in Hd.
    rewrite (update_sql_one _ _ _ d) in Hu; [|done..|].
    2: { intros y Hy Hfy. eapply row_in_scope_unique; eauto using fenced_in_scope. }
    destruct (Deliveries.check (set d)) eqn:Ec; [|done]. injection Hu as <- <-. exists d.
    pose proof (row_in_scope_key _ (fenced_in_scope _ _ _ Hf)) as Hkey.
    by rewrite (proj1 (Hk d)), Hkey.
  - right. assert (Hn : forall d, d ∈ deliveries db -> fenced tenant key token now d = false).
    { intros d Hd. apply (List.find_none _ _ Ef). by apply list_elem_of_In. }
    rewrite update_sql_none in Hu by done. by injection Hu as <- <-.
Qed.

(** ** Claims and mutations as actions of the contract *)

(** What a batch of claims grants. *)
Definition grants_of `{TimeLib} (evs : list ClaimedEvent.t) : list (Z * bytes) :=
  map (fun ev => (RowId.get (ClaimedEvent.row_id ev), ClaimToken.as_bytes (ClaimedEvent.claim_token ev)))
    evs.

(** The action of a batch of claims. *)
Definition claim_of `{TimeLib} (worker : WorkerId.t) (now expiry : Z) (evs : list ClaimedEvent.t) :
    action Z :=
  Claim (WorkerId.as_str worker) now (Some expiry) (grants_of evs).

(** The delivery was open and the claim counts it under a new token. *)
Record granted `{TimeLib} (now : Z) (d : Deliveries.row_of Z) (ev : ClaimedEvent.t) : Prop := {
  gr_key : RowId.get (ClaimedEvent.row_id ev) = Deliveries.event_row_id d;
  gr_attempts : AttemptCount.get (ClaimedEvent.attempts ev) = Deliveries.attempts d + 1;
  gr_token : Deliveries.claim_token d <> Some (ClaimToken.as_bytes (ClaimedEvent.claim_token ev));
  gr_open : open_to_claim now d = true;
}.

Lemma due_open tenant now held d : due Z.le tenant now held d -> open_to_claim now d = true.
Proof.
  rewrite <- (bool_decide_eq_true (due Z.le tenant now held d)), <- claimable_due.
  unfold claimable. rewrite !andb_true_iff. by intros [[_ Ho] _].
Qed.

Section ClaimAction.
Context `{TimeLib} {db : Db} {worker : WorkerId.t} {expiry now : Z}.
Context {ds : list (Deliveries.row_of Z)} {evs : list ClaimedEvent.t}.
Context (Hwf : db_wf db) (Hds : forall d, d ∈ ds -> d ∈ deliveries db).
Context (Hgr : Forall2 (granted now) ds evs).

Lemma grants_keys : map fst (grants_of evs) = map Deliveries.event_row_id ds.
Proof.
  unfold grants_of. rewrite map_map. symmetry. apply Forall2_map_eq.
  eapply Forall2_impl; [exact Hgr|]. by intros d ev [].
Qed.

(** A row and the claim of the batch that is its own, or none. *)
Lemma claim_for_row_granted d :
  d ∈ deliveries db ->
  match claim_for_row evs d with
  | Some ev => granted now d ev /\ (RowId.get (ClaimedEvent.row_id ev),
                 ClaimToken.as_bytes (ClaimedEvent.claim_token ev)) ∈ grants_of evs
  | None => Deliveries.event_row_id d ∉ map fst (grants_of evs)
  end.
Proof.
  intros Hd. unfold claim_for_row. destruct (find _ evs) as [ev|] eqn:Ef.
  - apply List.find_some in Ef as [Hin Hk%Z.eqb_eq]. apply list_elem_of_In in Hin.
    split; [|unfold grants_of; by apply (list_elem_of_fmap_2 (fun ev => (RowId.get (ClaimedEvent.row_id ev), ClaimToken.as_bytes (ClaimedEvent.claim_token ev))))].
    apply list_elem_of_lookup in Hin as [i Hi].
    destruct (Forall2_lookup_r _ _ _ _ _ Hgr Hi) as (d' & Hd' & Hg).
    apply list_elem_of_lookup_2, Hds in Hd'. assert (d' = d) as <-; [|done].
    eapply (sorted_key_inj Deliveries.event_row_id); [apply Hwf|done..|]. destruct Hg. congruence.
  - unfold grants_of. rewrite map_map. simpl. intros (ev & Hk & Hin)%list_elem_of_fmap.
    apply list_elem_of_In in Hin. pose proof (List.find_none _ _ Ef ev Hin) as Hn. simpl in Hn. lia.
Qed.

(** A batch of claims is one action. *)
Lemma claims_action :
  NoDup (map Deliveries.event_row_id ds) ->
  NoDup (map (fun ev => ClaimToken.as_bytes (ClaimedEvent.claim_token ev)) evs) ->
  db_wf (MkDb (events db) (map (row_after_claim worker (Some expiry) evs) (deliveries db)) (tables db)) ->
  let a := claim_of worker now expiry evs in
  enabled a db = true /\
  MkDb (events db) (map (row_after_claim worker (Some expiry) evs) (deliveries db)) (tables db)
  = perform a db.
Proof.
  intros Hnd Htok Hwf' a. apply perform_update; [done| | |done].
  - unfold a, guard. apply andb_true_iff. split.
    + apply bool_decide_eq_true. unfold grants_of. by rewrite map_map.
    + apply forallb_forall. intros g Hg. apply bool_decide_eq_true.
      apply (in_map fst), list_elem_of_In in Hg. rewrite grants_keys in Hg.
      apply list_elem_of_fmap in Hg as (d & -> & Hd). by apply list_elem_of_fmap_2, Hds.
  - intros d Hd. unfold a, claim_of. cbn [row_after row_guard]. unfold row_after_claim.
    pose proof (claim_for_row_granted d Hd) as Hc. destruct (claim_for_row evs d) as [ev|].
    + destruct Hc as [[Hk Ha Ht Ho] Hin]. rewrite Hk in Hin.
      rewrite (grant_Some _ _ _ ltac:(by rewrite grants_keys) Hin).
      rewrite Ha, Ho, bool_decide_false by done. done.
    + by rewrite grant_None.
Qed.
End ClaimAction.

(** A mutation of a fenced delivery is one action. *)
Lemma mutation_performed tenant key token now u (db : Db) d :
  db_wf db -> d ∈ deliveries db -> fenced tenant key token now d = true ->
  db_wf (MkDb (events db)
    (map (fun r => if Deliveries.event_row_id r =? key then apply_update u d else r) (deliveries db))
    (tables db)) ->
  let a := Mutate key token now u in
  enabled a db = true /\
  MkDb (events db)
    (map (fun r => if Deliveries.event_row_id r =? key then apply_update u d else r) (deliveries db))
    (tables db) = perform a db.
Proof.
  intros Hwf Hd Hf Hwf' a. pose proof (row_in_scope_key d (fenced_in_scope _ _ _ Hf)) as Hkey.
  apply fenced_claim in Hf as (_ & Htok & expiry & [Hst Hexp] & Hlt).
  apply perform_update; [done| | |done].
  - apply bool_decide_eq_true. rewrite <- Hkey. by apply list_elem_of_fmap_2.
  - intros r Hr. unfold a. cbn [row_after row_guard].
    destruct (Z.eqb_spec (Deliveries.event_row_id r) key) as [Hk|]; [|done].
    assert (r = d) as ->.
    { eapply (sorted_key_inj Deliveries.event_row_id); [apply Hwf|done..|congruence]. }
    split; [done|]. simpl. apply held_under_spec. split_and!; [done..|]. exists expiry.
    split; [done|]. apply Z.leb_gt. lia.
Qed.
