(* ===== verification/Calls.v ===== *)
(** * Callers' transactions

    Enqueue, import and finalization run in a transaction of the caller, any
    number of them in any order. What a server promises of one call that
    answers, as a class; and what follows for a whole transaction: its COMMIT is
    exactly the actions of its answers, one after the other. *)

From S2P Require Import Prelude Utf8 External BTree Errors Limits Validation Bounds Values Extension Serialization Event State Tables Queries Contract RowHydration Overlay Others Instants.

Section Calls.
Context `{SerdeJson, Base64, InstantColumn, Others}.

Inductive call : Type :=
  | CallEnqueue (tenant_id : TenantId.t) (event : NewEvent.t)
  | CallImport (tenant_id : TenantId.t) (event : NewEvent.t) (state : ImportedDeliveryState.t)
  | CallFinalize (tenant_id : TenantId.t) (row_id : RowId.t) (delivered_at : OffsetDateTime).

Inductive answer : Type :=
  | AnswerEnqueue (outcome : EnqueueOutcome.t)
  | AnswerImport (outcome : ImportOutcome.t)
  | AnswerFinalize (outcome : FinalizeOutcome.t).

(** The row of an event enqueued or imported under a row id. *)
Definition stored_row (tenant_id : TenantId.t) (event : NewEvent.t) (id : RowId.t) (at_ : Z) :
    Events.row_of Z :=
  new_event_row (RowId.get id) (TenantId.as_str tenant_id) (event_columns (NewEvent.content event)) at_.

Definition imported_at (state : ImportedDeliveryState.t) : option Z :=
  match state with
  | ImportedDeliveryState.Pending => None
  | ImportedDeliveryState.Delivered delivered_at => Some (encode_instant delivered_at)
  end.

(** The time of the event, if any, is one the columns can hold: so the builder
    leaves it. *)
Definition portable_call (c : call) : Prop :=
  match c with
  | CallEnqueue _ event | CallImport _ event _ =>
      option_all portable_instant (EventContent.time (NewEvent.content event))
  | CallFinalize _ _ _ => True
  end.

(** The actions an answer stands for. *)
Inductive amounts_to : call -> answer -> list (action Z) -> Prop :=
  | at_enqueued tenant_id event id at_ :
      amounts_to (CallEnqueue tenant_id event) (AnswerEnqueue (EnqueueOutcome.Enqueued id))
        [Insert (stored_row tenant_id event id at_) None]
  | at_already_enqueued tenant_id event id :
      amounts_to (CallEnqueue tenant_id event) (AnswerEnqueue (EnqueueOutcome.AlreadyEnqueued id)) []
  | at_imported tenant_id event state id at_ :
      amounts_to (CallImport tenant_id event state) (AnswerImport (ImportOutcome.Imported id))
        [Insert (stored_row tenant_id event id at_) (imported_at state)]
  | at_already_imported tenant_id event state id :
      amounts_to (CallImport tenant_id event state) (AnswerImport (ImportOutcome.AlreadyImported id)) []
  | at_finalized tenant_id row_id delivered_at :
      amounts_to (CallFinalize tenant_id row_id delivered_at)
        (AnswerFinalize (FinalizeOutcome.Finalized row_id))
        [Finalize (RowId.get row_id) (encode_instant delivered_at)]
  | at_already_finalized tenant_id row_id delivered_at :
      amounts_to (CallFinalize tenant_id row_id delivered_at)
        (AnswerFinalize (FinalizeOutcome.AlreadyFinalized row_id)) [].

(** How a transaction ends: its COMMIT reports success or an error, after which
    the server may have committed or not, or ROLLBACK runs. *)
Inductive ending : Type := Committed | CommitFailed | RolledBack.

Definition ended (how : ending) (done_ undone : Prop) : Prop :=
  match how with
  | Committed => done_
  | CommitFailed => done_ \/ undone
  | RolledBack => undone
  end.

Lemma ended_impl how (A B A' B' : Prop) : (A -> A') -> (B -> B') -> ended how A B -> ended how A' B'.
Proof. destruct how; simpl; tauto. Qed.

(** A server as its callers see it. *)
Class Server (W : Type) := {
  srv_tables : W -> Db;
  (** no transaction is open *)
  srv_idle : W -> Prop;
  (** a transaction is open, with what it wrote and locked *)
  srv_open : W -> Own Z -> Prop;
  (** BEGIN succeeded; the call returned [Ok]; the transaction ended *)
  srv_begins : W -> W -> Prop;
  srv_answers : call -> answer -> W -> W -> Prop;
  srv_ends : ending -> W -> W -> Prop;
}.

(** What a call does between [db], where the transaction had written [o], and
    [db']: it adds the actions. *)
Definition extends (db : Db) (o : Own Z) (acts : list (action Z)) (db' : Db) (o' : Own Z) : Prop :=
  forall db0 o0 acts0, session db0 o0 acts0 db o -> session db0 o0 (acts0 ++ acts) db' o'.

(** What one answer did to the transaction that had written [o]. *)
Definition answered `{Server W} (w : W) (o : Own Z) (c : call) (a : answer) (w' : W) : Prop :=
  exists o' acts, srv_open w' o' /\ amounts_to c a acts /\
    extends (srv_tables w) o acts (srv_tables w') o'.

Class ServerLaws (W : Type) `{Server W} : Prop := {
  idle_wf w : srv_idle w -> db_wf (srv_tables w);
  begins_open w w' : srv_idle w -> srv_begins w w' ->
    during [] (srv_tables w) (srv_tables w') /\ srv_open w' nothing;
  answers_extend w o c a w' : srv_open w o -> srv_answers c a w w' -> answered w o c a w';
  ends_merge w o how w' : srv_open w o -> srv_ends how w w' ->
    exists db, during (own_locks o) (srv_tables w) db /\ db_wf db /\ db_wf (overlay o db) /\
      ended how (srv_tables w' = overlay o db) (srv_tables w' = db);
}.

Lemma extends_nothing db o db' o' :
  during (own_locks o) db db' -> own_locks o ⊆ own_locks o' -> own_events o' = own_events o ->
  own_deliveries o' = own_deliveries o -> extends db o [] db' o'.
Proof.
  intros Hd Hl He Hdl db0 o0 acts0 Hs. rewrite app_nil_r.
  exact (session_reads db0 o0 acts0 db o db' o' Hs Hd Hl He Hdl).
Qed.

Lemma extends_one db o db' o' a :
  during (own_locks o) db db' -> own_locks o ⊆ own_locks o' -> adds db' o o' a ->
  extends db o [a] db' o'.
Proof. intros Hd Hl Ha db0 o0 acts0 Hs. exact (session_adds db0 o0 acts0 db o db' o' a Hs Hd Hl Ha). Qed.

(** The transaction goes on with what it wrote, and maybe more locks. *)
Lemma answered_nothing `{Server W} w o c a w' o' :
  srv_open w' o' -> during (own_locks o) (srv_tables w) (srv_tables w') ->
  own_locks o ⊆ own_locks o' -> own_events o' = own_events o ->
  own_deliveries o' = own_deliveries o -> amounts_to c a [] -> answered w o c a w'.
Proof. intros Ho Hd Hl He Hdl Ha. exists o', []. do 2 (split; [done|]). by apply extends_nothing. Qed.

(** It wrote a new event and its delivery, under a key that was free. *)
Lemma answered_insert `{Server W} (Hkeep : keep_contract) w o c a w' e delivered db :
  during (own_locks o) (srv_tables w) (srv_tables w') -> Events.check e = true ->
  during (own_locks o ++ [Events.row_id e]) db (srv_tables w') ->
  db_wf db -> db_wf (overlay o db) -> Events.row_id e ∉ event_keys (overlay o db) ->
  srv_open w' (own_app o (MkOwn [e] [first_delivery e delivered] [Events.row_id e])) ->
  amounts_to c a [Insert e delivered] -> answered w o c a w'.
Proof.
  intros Hd Hck Hb Hwf Hv Hk Ho Ha. eexists _, _. split; [exact Ho|]. split; [exact Ha|].
  apply extends_one; [done|simpl; set_solver|].
  by eapply (adds_insert Hkeep db); [..|set_solver|done|done|].
Qed.

(** It finalized the delivery of an event, which it locked. *)
Lemma answered_finalize `{Server W} (Hkeep : keep_contract) w o c a w' e at_ keys :
  during (own_locks o) (srv_tables w) (srv_tables w') -> db_wf (srv_tables w') ->
  e ∈ events (overlay o (srv_tables w')) ->
  first_delivery e None ∈ deliveries (overlay o (srv_tables w')) -> Events.row_id e ∈ keys ->
  srv_open w' (own_app o (MkOwn [] [set_finalized at_ (first_delivery e None)] keys)) ->
  amounts_to c a [Finalize (Events.row_id e) at_] -> answered w o c a w'.
Proof.
  intros Hd Hwf He Hdel Hk Ho Ha. eexists _, _. split; [exact Ho|]. split; [exact Ha|].
  apply extends_one; [done|simpl; set_solver|].
  apply adds_finalize; [by apply contract_isolated|by apply contract_append_only|done..].
Qed.

(** The calls of a transaction and their answers, all successful. *)
Inductive conversation `{Server W} : W -> list (call * answer) -> W -> Prop :=
  | conversation_nil w : conversation w [] w
  | conversation_cons w w1 w' c a cs :
      srv_answers c a w w1 -> conversation w1 cs w' -> conversation w ((c, a) :: cs) w'.

Lemma conversation_session `{ServerLaws W} db0 o0 acts0 w o cs w' :
  srv_open w o -> session db0 o0 acts0 (srv_tables w) o -> conversation w cs w' ->
  exists o' actss, srv_open w' o' /\ Forall2 (fun ca acts => amounts_to ca.1 ca.2 acts) cs actss /\
    session db0 o0 (acts0 ++ concat actss) (srv_tables w') o'.
Proof.
  intros Ho Hs Hc. revert acts0 o Ho Hs.
  induction Hc as [w|w w1 w' c a cs Ha Hc IH]; intros acts0 o Ho Hs.
  - exists o, []. split; [done|]. split; [constructor|]. by rewrite app_nil_r.
  - destruct (answers_extend _ _ _ _ _ Ho Ha) as (o1 & acts & Ho1 & Hat & Hext).
    destruct (IH _ _ Ho1 (Hext _ _ _ Hs)) as (o' & actss & Ho' & Hf & Hs').
    exists o', (acts :: actss). split; [done|]. split; [by constructor|]. simpl. by rewrite app_assoc.
Qed.

(** A transaction of calls that all answered, and its end: the tables are those
    before it, changed by what others committed meanwhile and then by the
    actions of its answers, in their order and with nothing in between, or by
    none of them. *)
Lemma transaction_atomic `{ServerLaws W} (Hkeep : keep_contract) w0 w1 cs w2 how w3 :
  srv_idle w0 -> srv_begins w0 w1 -> conversation w1 cs w2 -> srv_ends how w2 w3 ->
  exists actss, Forall2 (fun ca acts => amounts_to ca.1 ca.2 acts) cs actss /\
    ended how (performed (srv_tables w0) (srv_tables w3) (concat actss))
      (performed (srv_tables w0) (srv_tables w3) []).
Proof.
  intros Hi Hb Hc Hm. pose proof (idle_wf _ Hi) as Hwf.
  destruct (begins_open _ _ Hi Hb) as [Hd Ho].
  pose proof (during_wf (contract_isolated Hkeep) _ _ _ Hwf Hd) as Hwf1.
  destruct (conversation_session (srv_tables w1) nothing [] w1 nothing cs w2) as (o2 & actss & Ho2 & Hf & Hs);
    [done|constructor|done|].
  destruct (ends_merge _ _ _ _ Ho2 Hm) as (db & Hd2 & Hwf2 & Hv & Hend).
  destruct (session_commit _ _ _ _ _ _ Hs Hd2 Hwf2 Hv) as [_ Hr]. rewrite overlay_nothing in Hr.
  assert (Hdb : during [] (srv_tables w0) db).
  { eapply during_trans; [exact Hd|]. eapply during_trans; [by eapply session_during|].
    by eapply during_nil. }
  exists actss. split; [done|]. eapply ended_impl; [..|exact Hend]; intros ->.
  - by apply (performed_all _ db).
  - by apply performed_none.
Qed.
End Calls.
