(* ===== verification/PgError.v ===== *)
(** * Errors of the PostgreSQL adapter (crates/dovecote-sqlx-postgres/src/error.rs)

    The SQLSTATE categories a caller may retry, and one error type per operation
    with the constructors the code uses. *)

From S2P Require Import Prelude Errors Bounds State External.

Module TransientKind.
Inductive t : Type := SerializationFailure | DeadlockDetected | StatementOrLockTimeout.

#[global] Instance eq_dec : EqDecision t.
Proof. solve_decision. Defined.

Definition from_sqlstate (code : string) : option t :=
  if bool_decide (code = "40001") then Some SerializationFailure
  else if bool_decide (code = "40P01") then Some DeadlockDetected
  else if bool_decide (code = "57014") || bool_decide (code = "55P03")
  then Some StatementOrLockTimeout
  else None.

(** [source.as_database_error()?.code()?] *)
Definition from_sqlx (source : SqlxError.t) : option t :=
  match source with
  | SqlxError.Database (Some code) => from_sqlstate code
  | _ => None
  end.
End TransientKind.

Module EnqueueError.
Inductive t : Type :=
  | IdempotencyConflict (existing_row_id : RowId.t)
  | MigrationMismatch (detail : string)
  | Serialization (detail : string)
  | Sql (operation : string) (source : SqlxError.t)
  | Transient (operation : string) (kind : TransientKind.t) (source : SqlxError.t).

Definition sql (operation : string) (source : SqlxError.t) : t :=
  match TransientKind.from_sqlx source with
  | Some kind => Transient operation kind source
  | None => Sql operation source
  end.

Definition serialization (detail : string) : t := Serialization detail.
End EnqueueError.

Module ImportError.
Inductive t : Type :=
  | IdentityConflict (existing_row_id : RowId.t)
  | ImportConflict (existing_row_id : RowId.t)
  | InvalidState (source : ValidationError.t)
  | MigrationMismatch (detail : string)
  | Serialization (detail : string)
  | Sql (operation : string) (source : SqlxError.t)
  | Transient (operation : string) (kind : TransientKind.t) (source : SqlxError.t).

Definition sql (operation : string) (source : SqlxError.t) : t :=
  match TransientKind.from_sqlx source with
  | Some kind => Transient operation kind source
  | None => Sql operation source
  end.

Definition serialization (detail : string) : t := Serialization detail.
End ImportError.

Module FinalizeError.
Inductive t : Type :=
  | NotFound
  | StateConflict (row_id : RowId.t)
  | InvalidTimestamp (source : ValidationError.t)
  | MigrationMismatch (detail : string)
  | Serialization (detail : string)
  | Sql (operation : string) (source : SqlxError.t)
  | Transient (operation : string) (kind : TransientKind.t) (source : SqlxError.t).

Definition sql (operation : string) (source : SqlxError.t) : t :=
  match TransientKind.from_sqlx source with
  | Some kind => Transient operation kind source
  | None => Sql operation source
  end.
End FinalizeError.

Module ClaimError.
Inductive t : Type :=
  | CounterOverflow (row_id : RowId.t)
  | EntropyUnavailable (source : EntropyError)
  | Serialization (detail : string)
  | MigrationMismatch (detail : string)
  | Sql (operation : string) (source : SqlxError.t)
  | Transient (operation : string) (kind : TransientKind.t) (source : SqlxError.t).

Definition sql (operation : string) (source : SqlxError.t) : t :=
  match TransientKind.from_sqlx source with
  | Some kind => Transient operation kind source
  | None => Sql operation source
  end.

Definition serialization (detail : string) : t := Serialization detail.
End ClaimError.

Module MutationError.
Inductive t : Type :=
  | NotFound
  | IllegalTransition (state : DeliveryState.t)
  | LostClaim
  | MigrationMismatch (detail : string)
  | Serialization (detail : string)
  | Sql (operation : string) (source : SqlxError.t)
  | Transient (operation : string) (kind : TransientKind.t) (source : SqlxError.t).

Definition sql (operation : string) (source : SqlxError.t) : t :=
  match TransientKind.from_sqlx source with
  | Some kind => Transient operation kind source
  | None => Sql operation source
  end.

Definition serialization (detail : string) : t := Serialization detail.
End MutationError.

Module PageError.
Inductive t : Type :=
  | Serialization (detail : string)
  | Sql (operation : string) (source : SqlxError.t)
  | Transient (operation : string) (kind : TransientKind.t) (source : SqlxError.t).

Definition sql (operation : string) (source : SqlxError.t) : t :=
  match TransientKind.from_sqlx source with
  | Some kind => Transient operation kind source
  | None => Sql operation source
  end.

Definition serialization (detail : string) : t := Serialization detail.
End PageError.

Module SchemaError.
Inductive t : Type :=
  | MigrationMismatch (detail : string)
  | Sql (operation : string) (source : SqlxError.t)
  | Transient (operation : string) (kind : TransientKind.t) (source : SqlxError.t).

Definition sql (operation : string) (source : SqlxError.t) : t :=
  match TransientKind.from_sqlx source with
  | Some kind => Transient operation kind source
  | None => Sql operation source
  end.
End SchemaError.
