(* ===== verification/PgMigration.v ===== *)
(** * The schema marker of the PostgreSQL adapter (crates/dovecote-sqlx-postgres/src/migration.rs)

    The marker row of [dovecote_schema] and its comparison with the migration
    the adapter ships. The version numbers, ranges and migrations of that file
    are those of [Migration]. *)

From S2P Require Import Prelude Migration.

Module SchemaMarker.
Record t : Type := Make {
  schema_version : Z;
  minimum_crate_major : Z;
  minimum_crate_minor : Z;
  minimum_crate_patch : Z;
  rolling_compatible : bool;
}.
End SchemaMarker.

(** [u16::try_from] of an [i16] and [u32::try_from] of an [i32]: the value when it
    is not negative *)
Definition try_unsigned (value : Z) (message : string) : Result Z string :=
  if 0 <=? value then Ok value else Err message.

Definition marker_compatibility (marker : SchemaMarker.t) :
    Result MigrationCompatibility.t string :=
  let? major := try_unsigned (SchemaMarker.minimum_crate_major marker)
                  "schema marker minimum major version is negative" in
  let? minor := try_unsigned (SchemaMarker.minimum_crate_minor marker)
                  "schema marker minimum minor version is negative" in
  let? patch := try_unsigned (SchemaMarker.minimum_crate_patch marker)
                  "schema marker minimum patch version is negative" in
  map_err (fun _ => "schema marker compatibility is invalid: "
                    +:+ "migration compatibility maximum precedes minimum")
    (MigrationCompatibility.try_new (CrateVersion.new major minor patch) None).

Definition marker_matches_migration (marker : SchemaMarker.t) (migration : Migration.t) :
    Result unit string :=
  let? marker_version := try_unsigned (SchemaMarker.schema_version marker)
                           "schema marker version is negative" in
  let? compatibility := marker_compatibility marker in
  if negb (marker_version =? Migration.version migration)
  then Err ("schema marker version " +:+ pretty marker_version
            +:+ " does not match installed version " +:+ pretty (Migration.version migration))
  else if negb (bool_decide (compatibility = Migration.compatibility migration))
  then Err "schema marker compatibility range is incompatible"
  else if negb (Bool.eqb (SchemaMarker.rolling_compatible marker)
                  (Migration.rolling_compatible migration))
  then Err "schema marker rolling compatibility is incompatible"
  else if negb (MigrationCompatibility.contains (Migration.compatibility migration)
                  current_crate_version)
  then Err "current crate is outside the migration compatibility range"
  else Ok tt.

(** ** What the comparison accepts *)

(** The marker of the shipped migration is the only one that matches it. *)
Lemma marker_matches_Ok marker migration :
  marker_matches_migration marker migration = Ok tt <->
  let v := MigrationCompatibility.minimum (Migration.compatibility migration) in
  0 <= CrateVersion.major v /\ 0 <= CrateVersion.minor v /\ 0 <= CrateVersion.patch v /\
  0 <= Migration.version migration /\
  MigrationCompatibility.maximum (Migration.compatibility migration) = None /\
  MigrationCompatibility.contains (Migration.compatibility migration) current_crate_version = true /\
  marker = SchemaMarker.Make (Migration.version migration) (CrateVersion.major v)
             (CrateVersion.minor v) (CrateVersion.patch v) (Migration.rolling_compatible migration).
Proof.
  destruct marker as [ver ma mi pa ro], migration as [mv sql [[a b c] mx] mro].
  unfold marker_matches_migration, marker_compatibility, try_unsigned,
    MigrationCompatibility.try_new, MigrationCompatibility.new, CrateVersion.new.
  cbn -[MigrationCompatibility.contains].
  destruct (Z.leb_spec 0 ver), (Z.leb_spec 0 ma), (Z.leb_spec 0 mi), (Z.leb_spec 0 pa);
    simpl; try (split; [done|intros; destruct_and!; simplify_eq; lia]).
  destruct (Z.eqb_spec ver mv) as [->|]; simpl;
    [|split; [done|intros; destruct_and!; by simplify_eq]].
  case_bool_decide as Hc; simpl; [|split; [done|intros; destruct_and!; by simplify_eq]].
  destruct (Bool.eqb ro mro) eqn:Er; simpl.
  - apply Bool.eqb_prop in Er as ->. simplify_eq.
    destruct (MigrationCompatibility.contains _ _) eqn:Ec; simpl; split; try done.
    intros; destruct_and!; congruence.
  - split; [done|]. intros; destruct_and!; simplify_eq. by rewrite Bool.eqb_reflx in Er.
Qed.
