(* ===== verification/Pg.v ===== *)
(** * The PostgreSQL connection

    Statements of a READ COMMITTED or REPEATABLE READ transaction as steps over
    an explicit world: the committed tables that every connection shares, the
    rows this connection wrote and locked and did not commit, and a counter
    that indexes what the environment does at each statement. Other connections
    commit between any two statements; they cannot change a row this connection
    holds locked. The adapter's own part is [bind_tenant] of rls.rs. *)

From S2P Require Import Prelude Step Utf8 Errors Limits Validation Bounds Values Extension Serialization Event State Tables Queries External Overlay Instants Others Leases.

(** ** Environment and world *)

(** What the code does not decide, per statement number: failures, the outcome
    of a COMMIT whose answer is lost, the database clock, interval arithmetic,
    identity values and entropy. *)
Class PgEnv `{InstantColumn, Others} := {
  sql_fault : nat -> option SqlxError.t;
  (** the error of a COMMIT, and whether the server committed all the same *)
  commit_fault : nat -> option (SqlxError.t * bool);
  (** [clock_timestamp()] *)
  clock_timestamp : nat -> Z;
  (** [timestamptz + interval] *)
  timestamp_add : Z -> Duration.t -> Z;
  (** the next value of the identity column of [dovecote_events] *)
  identity_value : nat -> Db -> Z;
  (** [getrandom::fill] of sixteen bytes, by the number of the draw *)
  entropy : nat -> Result bytes EntropyError;
  (** how many draws [fresh_token] may make before the model gives up *)
  entropy_fuel : nat;
}.

(** Documented behaviour of interval arithmetic: an interval of whole
    microseconds adds its length. *)
Class PgTimeLaws `{PgEnv, !InstantColumnLaws} : Prop := {
  timestamp_add_micros z d :
    Duration.as_nanos d mod 1000 = 0 -> timestamp_add z d = z + Duration.as_nanos d / 1000;
}.

(** The open transaction. *)
Record Txn `{TimeLib} : Type := MkTxn {
  (** [CURRENT_TIMESTAMP] *)
  started_at : Z;
  (** REPEATABLE READ, with its snapshot once the first statement took it *)
  snapshot : option (option Db);
  (** the transaction-local setting [dovecote.tenant_id] *)
  bound_tenant : option string;
  own : Own Z;
  (** a statement failed: only ROLLBACK is accepted *)
  failed : bool;
}.

Record World `{TimeLib} : Type := MkWorld {
  committed : Db;
  txn : option Txn;
  tick : nat;
  draws : nat;
}.

Arguments MkTxn {_}.
Arguments MkWorld {_}.

(** The errors the engine itself answers. *)
Definition check_failed : SqlxError.t := SqlxError.Database (Some "23514").
Definition foreign_key_failed : SqlxError.t := SqlxError.Database (Some "23503").
Definition unique_failed : SqlxError.t := SqlxError.Database (Some "23505").
Definition in_failed_transaction : SqlxError.t := SqlxError.Database (Some "25P02").

Section Statements.
Context `{PgEnv}.

Definition M (A : Type) : Type := Step World A.

Definition fail_txn (t : Txn) : Txn :=
  MkTxn (started_at t) (snapshot t) (bound_tenant t) (own t) true.
Definition with_own (o : Own Z) (t : Txn) : Txn :=
  MkTxn (started_at t) (snapshot t) (bound_tenant t) o (failed t).
Definition with_tenant (tenant : string) (t : Txn) : Txn :=
  MkTxn (started_at t) (snapshot t) (Some tenant) (own t) (failed t).

(** REPEATABLE READ takes its snapshot at the first statement. *)
Definition take_snapshot (db : Db) (t : Txn) : Txn :=
  match snapshot t with
  | Some None => MkTxn (started_at t) (Some (Some db)) (bound_tenant t) (own t) (failed t)
  | _ => t
  end.

(** The tables a statement of the transaction sees, [db] being committed. *)
Definition view (t : Txn) (db : Db) : Db :=
  overlay (own t) (match snapshot t with Some (Some s) => s | _ => db end).

(** What is committed when statement [tick w] runs. *)
Definition latest (w : World) : Db :=
  others_commit (tick w) (match txn w with Some t => own t | None => nothing end) (committed w).

(** One statement: it sees the tables, answers and adds to what the transaction
    wrote and locked. A failure fails the transaction; outside a transaction
    the statement commits at once. *)
Definition statement {A} (f : nat -> Db -> Result (A * Own Z) SqlxError.t) :
    M (Result A SqlxError.t) :=
  fun w =>
    let db := latest w in
    let after d t := MkWorld d t (S (tick w)) (draws w) in
    match txn w with
    | None =>
        match sql_fault (tick w) with
        | Some e => Some (Err e, after db None)
        | None => match f (tick w) db with
                  | Err e => Some (Err e, after db None)
                  | Ok (a, o) => Some (Ok a, after (overlay o db) None)
                  end
        end
    | Some t =>
        if failed t then Some (Err in_failed_transaction, after db (Some t))
        else
          match sql_fault (tick w) with
          | Some e => Some (Err e, after db (Some (fail_txn t)))
          | None =>
              let t := take_snapshot db t in
              match f (tick w) (view t db) with
              | Err e => Some (Err e, after db (Some (fail_txn t)))
              | Ok (a, o) => Some (Ok a, after db (Some (with_own (own_app (own t) o) t)))
              end
          end
    end.

(** A statement that reads. *)
Definition query {A} (f : nat -> Db -> A) : M (Result A SqlxError.t) :=
  statement (fun n db => Ok (f n db, nothing)).

(** [BEGIN], in the default isolation level or in REPEATABLE READ READ ONLY *)
Definition begin_statement (repeatable_read : bool) : M (Result unit SqlxError.t) :=
  fun w =>
    let db := latest w in
    match sql_fault (tick w) with
    | Some e => Some (Err e, MkWorld db (txn w) (S (tick w)) (draws w))
    | None =>
        let t := MkTxn (clock_timestamp (tick w)) (if repeatable_read then Some None else None) None
                   nothing false in
        Some (Ok tt, MkWorld db (Some t) (S (tick w)) (draws w))
    end.

(** [ROLLBACK], also that of a transaction the code drops *)
Definition rollback : M (Result unit SqlxError.t) :=
  fun w => Some (match sql_fault (tick w) with Some e => Err e | None => Ok tt end,
                 MkWorld (latest w) None (S (tick w)) (draws w)).

(** [COMMIT]: of a failed transaction it rolls back and reports success; when
    its answer is lost the server may have committed or not. *)
Definition commit : M (Result unit SqlxError.t) :=
  fun w =>
    let db := latest w in
    let merged := match txn w with
                  | Some t => if failed t then db else overlay (own t) db
                  | None => db
                  end in
    match commit_fault (tick w) with
    | None => Some (Ok tt, MkWorld merged None (S (tick w)) (draws w))
    | Some (e, applied) =>
        Some (Err e, MkWorld (if applied then merged else db) None (S (tick w)) (draws w))
    end.

(** A function that owns its transaction: when it returns early the transaction
    is dropped, which rolls it back. *)
Definition owned {A E} (body : M (Result A E)) : M (Result A E) :=
  let* result := body in
  match result with
  | Ok a => ret (Ok a)
  | Err e => let* _ := rollback in ret (Err e)
  end.

(** ** rls.rs *)

(** [SELECT set_config('dovecote.tenant_id', $1, true)] *)
Definition bind_tenant (tenant_id : TenantId.t) : M (Result unit SqlxError.t) :=
  fun w =>
    match query (fun _ _ => tt) w with
    | Some (Ok _, w) =>
        Some (Ok tt, MkWorld (committed w)
                       (option_map (with_tenant (TenantId.as_str tenant_id)) (txn w))
                       (tick w) (draws w))
    | other => other
    end.
End Statements.

#[global] Arguments statement : simpl never.
#[global] Arguments query : simpl never.
#[global] Arguments begin_statement : simpl never.
#[global] Arguments rollback : simpl never.
#[global] Arguments commit : simpl never.
#[global] Arguments bind_tenant : simpl never.
#[global] Arguments owned : simpl never.

(** ** Running a statement *)

Section Runs.
Context `{PgEnv}.

(** A transaction is open, and the tables are well formed with and without its
    rows. *)
Definition settled (w : World) (t : Txn) : Prop :=
  txn w = Some t /\ db_wf (committed w) /\ db_wf (overlay (own t) (committed w)).

(** It is a READ COMMITTED transaction whose statements succeeded so far. *)
Definition open_at (w : World) (t : Txn) : Prop :=
  settled w t /\ snapshot t = None /\ failed t = false.

(** ... and no transaction is open. *)
Definition closed (w : World) : Prop := txn w = None /\ db_wf (committed w).

Context (Hisolated : isolated).

Lemma with_own_id t : with_own (own t) t = t.
Proof. by destruct t. Qed.

(** Writing twice. *)
Lemma with_own_app a b t :
  with_own (own_app (own (with_own (own_app (own t) a) t)) b) (with_own (own_app (own t) a) t)
  = with_own (own_app (own t) (own_app a b)) t.
Proof. unfold with_own. simpl. by rewrite own_app_assoc. Qed.

Lemma latest_open w t :
  settled w t ->
  during (own_locks (own t)) (committed w) (latest w) /\
  db_wf (latest w) /\ db_wf (overlay (own t) (latest w)).
Proof.
  intros (Ht & Hw & Hv). unfold latest. rewrite Ht.
  destruct (Hisolated (tick w) (own t) _ Hw Hv). split_and!; [|done..]. by apply during_one.
Qed.

Lemma latest_closed w : closed w -> during [] (committed w) (latest w) /\ db_wf (latest w).
Proof.
  intros [Ht Hw]. unfold latest. rewrite Ht. pose proof Hw as Hv. rewrite <- overlay_nothing in Hv.
  destruct (Hisolated (tick w) nothing _ Hw Hv). split; [|done].
  eapply during_nil. by apply during_one.
Qed.

(** The result of a statement of an open transaction: on failure it is still
    there, with what it wrote before. *)
Lemma statement_open {A} (f : nat -> Db -> Result (A * Own Z) SqlxError.t) w t r w' :
  open_at w t -> statement f w = Some (r, w') ->
  during (own_locks (own t)) (committed w) (committed w') /\
  db_wf (committed w') /\ db_wf (overlay (own t) (committed w')) /\
  match r with
  | Ok a => exists o, f (tick w) (overlay (own t) (committed w')) = Ok (a, o) /\
              txn w' = Some (with_own (own_app (own t) o) t)
  | Err e => exists t', settled w' t' /\ own t' = own t /\ failed t' = true
  end.
Proof.
  intros (Hset & Hs & Hf). pose proof (latest_open _ _ Hset) as (Hd & Hw & Hv).
  destruct Hset as (Ht & _ & _). unfold statement. rewrite Ht, Hf.
  assert (Hts : take_snapshot (latest w) t = t) by (unfold take_snapshot; by rewrite Hs).
  rewrite Hts. unfold view. rewrite Hs.
  destruct (sql_fault (tick w)).
  { intros [= <- <-]. split_and!; [done..|]. exists (fail_txn t). by split_and!. }
  destruct (f (tick w) _) as [[a o]|e] eqn:E; intros [= <- <-]; (split_and!; [done..|]).
  - exists o. by split.
  - exists (fail_txn t). by split_and!.
Qed.

(** A statement that succeeds answers what it found in some tables. *)
Lemma statement_answer {A} (f : nat -> Db -> Result (A * Own Z) SqlxError.t) w a w' :
  statement f w = Some (Ok a, w') -> exists n db o, f n db = Ok (a, o).
Proof.
  unfold statement. destruct (txn w) as [t|]; [destruct (failed t); [done|]|];
    (destruct (sql_fault (tick w)); [done|]);
    destruct (f _ _) as [[a' o]|] eqn:E; intros [= <- _]; eauto.
Qed.

Lemma statement_tick {A} (f : nat -> Db -> Result (A * Own Z) SqlxError.t) w r w' :
  statement f w = Some (r, w') -> tick w' = S (tick w).
Proof.
  unfold statement. destruct (txn w) as [t|]; [destruct (failed t); [by intros [= _ <-]|]|];
    (destruct (sql_fault (tick w)); [by intros [= _ <-]|]);
    destruct (f _ _) as [[a' o]|]; by intros [= _ <-].
Qed.

(** Only [fresh_token] draws entropy. *)
Lemma statement_draws {A} (f : nat -> Db -> Result (A * Own Z) SqlxError.t) w r w' :
  statement f w = Some (r, w') -> draws w' = draws w.
Proof.
  unfold statement. destruct (txn w) as [t|]; [destruct (failed t); [by intros [= _ <-]|]|];
    (destruct (sql_fault (tick w)); [by intros [= _ <-]|]);
    destruct (f _ _) as [[a' o]|]; by intros [= _ <-].
Qed.
Lemma begin_draws b w r w' : begin_statement b w = Some (r, w') -> draws w' = draws w.
Proof. unfold begin_statement. destruct (sql_fault _); by intros [= _ <-]. Qed.
Lemma bind_tenant_draws tenant w r w' : bind_tenant tenant w = Some (r, w') -> draws w' = draws w.
Proof.
  unfold bind_tenant, query. destruct (statement _ w) as [[r1 w1]|] eqn:E; [|done].
  apply statement_draws in E. destruct r1; by intros [= _ <-].
Qed.

(** A statement that reads. *)
Lemma query_open {A} (f : nat -> Db -> A) w t r w' :
  open_at w t -> query f w = Some (r, w') ->
  during (own_locks (own t)) (committed w) (committed w') /\
  match r with
  | Ok a => a = f (tick w) (overlay (own t) (committed w')) /\ open_at w' t
  | Err e => exists t', settled w' t' /\ own t' = own t
  end.
Proof.
  intros Ho Hr. apply (statement_open _ _ _ _ _ Ho) in Hr as (Hd & Hw & Hv & Hr).
  split; [done|]. destruct r as [a|e]; [|destruct Hr as (t' & Hs & Hw' & _); by exists t']. destruct Hr as (o & [= <- <-] & Hr).
  rewrite own_app_nothing_r, with_own_id in Hr. destruct Ho as (_ & Hs & Hf). by split_and!.
Qed.

(** A statement that writes. *)
Lemma write_open {A} (f : nat -> Db -> Result (A * Own Z) SqlxError.t) w t r w' :
  open_at w t -> statement f w = Some (r, w') ->
  (forall a o, f (tick w) (overlay (own t) (committed w')) = Ok (a, o) ->
     db_wf (overlay (own t) (committed w')) -> db_wf (overlay o (overlay (own t) (committed w')))) ->
  during (own_locks (own t)) (committed w) (committed w') /\
  match r with
  | Ok a => exists o, f (tick w) (overlay (own t) (committed w')) = Ok (a, o) /\
              db_wf (overlay (own t) (committed w')) /\ open_at w' (with_own (own_app (own t) o) t)
  | Err e => exists t', settled w' t' /\ own t' = own t /\ failed t' = true
  end.
Proof.
  intros Ho Hr Hwrite. apply (statement_open _ _ _ _ _ Ho) in Hr as (Hd & Hw & Hv & Hr).
  split; [done|]. destruct r as [a|e]; [|done]. destruct Hr as (o & Hfo & Hr).
  exists o. split; [done|]. split; [done|]. destruct Ho as (_ & Hs & Hf). split; [|by split].
  split_and!; [done..|]. simpl. rewrite overlay_app. by eapply Hwrite.
Qed.

Lemma begin_closed w r w' :
  closed w -> begin_statement false w = Some (r, w') ->
  during [] (committed w) (committed w') /\
  match r with
  | Ok _ => exists t, open_at w' t /\ own t = nothing
  | Err _ => closed w'
  end.
Proof.
  intros Hc. pose proof (latest_closed _ Hc) as [Hd Hw]. destruct Hc as [Ht _].
  unfold begin_statement. rewrite Ht.
  destruct (sql_fault (tick w)); intros [= <- <-]; (split; [done|]); [done|].
  eexists. split; [by split_and!|done].
Qed.

Lemma bind_tenant_open tenant w t r w' :
  open_at w t -> bind_tenant tenant w = Some (r, w') ->
  during (own_locks (own t)) (committed w) (committed w') /\
  match r with
  | Ok _ => open_at w' (with_tenant (TenantId.as_str tenant) t)
  | Err _ => exists t', settled w' t' /\ own t' = own t
  end.
Proof.
  intros Ho. unfold bind_tenant. destruct (query _ w) as [[r1 w1]|] eqn:E; [|done].
  apply (query_open _ _ _ _ _ Ho) in E as (Hd & Hr).
  destruct r1 as [[]|e]; intros [= <- <-]; (split; [done|]); [|done].
  destruct Hr as (_ & (Ht & Hw & Hv) & Hs & Hf).
  split; [|by split]. split; [simpl; by rewrite Ht|by split].
Qed.

Lemma rollback_settled w t r w' :
  settled w t -> rollback w = Some (r, w') ->
  closed w' /\ during [] (committed w) (committed w').
Proof.
  intros Hs. pose proof (latest_open _ _ Hs) as (Hd & Hw & _). intros [= _ <-].
  split; [done|]. by eapply during_nil.
Qed.

Lemma rollback_closed w r w' :
  closed w -> rollback w = Some (r, w') -> closed w' /\ during [] (committed w) (committed w').
Proof. intros Hc. pose proof (latest_closed _ Hc) as (Hd & Hw). by intros [= _ <-]. Qed.

Lemma commit_open w t r w' :
  open_at w t -> commit w = Some (r, w') ->
  closed w' /\ exists db, during (own_locks (own t)) (committed w) db /\ db_wf db /\
    db_wf (overlay (own t) db) /\
    match r with
    | Ok _ => committed w' = overlay (own t) db
    | Err _ => committed w' = overlay (own t) db \/ committed w' = db
    end.
Proof.
  intros (Hset & _ & Hf). pose proof (latest_open _ _ Hset) as (Hd & Hw & Hv).
  destruct Hset as (Ht & _ & _). unfold commit. rewrite Ht, Hf.
  destruct (commit_fault (tick w)) as [[e []]|]; intros [= <- <-];
    (split; [done|]); exists (latest w); auto.
Qed.

Lemma owned_inv {A E} (body : M (Result A E)) w r w' :
  owned body w = Some (r, w') ->
  exists w1, body w = Some (r, w1) /\
    match r with
    | Ok _ => w' = w1
    | Err _ => exists r', rollback w1 = Some (r', w')
    end.
Proof.
  unfold owned. intros Hr. run_inv Hr. destruct r0 as [a|e]; [run_inv Hr; eauto|].
  run_inv Hr. run_inv Hr. eauto.
Qed.

Lemma statement_returns {A} (f : nat -> Db -> Result (A * Own Z) SqlxError.t) :
  returns (statement f).
Proof.
  intros w. unfold statement. destruct (txn w) as [t|].
  - destruct (failed t); [by eexists|]. destruct (sql_fault _); [by eexists|].
    destruct (f _ _) as [[]|]; by eexists.
  - destruct (sql_fault _); [by eexists|]. destruct (f _ _) as [[]|]; by eexists.
Qed.
Lemma query_returns {A} (f : nat -> Db -> A) : returns (query f).
Proof. apply statement_returns. Qed.
Lemma begin_returns b : returns (begin_statement b).
Proof. intros w. unfold begin_statement. destruct (sql_fault _); by eexists. Qed.
Lemma rollback_returns : returns rollback.
Proof. intros w. by eexists. Qed.
Lemma commit_returns : returns commit.
Proof. intros w. unfold commit. destruct (commit_fault _) as [[]|]; by eexists. Qed.
Lemma bind_tenant_returns tenant : returns (bind_tenant tenant).
Proof.
  intros w. unfold bind_tenant. destruct (query_returns (fun _ _ => tt) w) as [[[[]|e] w'] ->];
    by eexists.
Qed.
Lemma owned_returns {A E} (body : M (Result A E)) : returns body -> returns (owned body).
Proof. intros Hb. unfold owned. apply returns_bind; [done|]. intros [a|e]; [apply returns_ret|].
  apply returns_bind; [apply rollback_returns|]. intros _. apply returns_ret. Qed.
End Runs.

#[export] Hint Resolve statement_returns query_returns begin_returns rollback_returns
  commit_returns bind_tenant_returns owned_returns : dovecote.

(** ** Steps that read *)

Section Reads.
Context `{PgEnv}.

(** A step that always returns, and writes and locks nothing in an open
    transaction. *)
Definition reads {A E} (m : M (Result A E)) : Prop :=
  forall w, exists r w', m w = Some (r, w') /\
    forall t, open_at w t ->
      during (own_locks (own t)) (committed w) (committed w') /\
      match r with
      | Ok _ => open_at w' t
      | Err _ => exists t', settled w' t' /\ own t' = own t
      end.

Lemma pg_reads_ret {A E} (r : Result A E) : reads (ret r).
Proof.
  intros w. exists r, w. split; [done|]. intros t Ho. split; [constructor|].
  destruct r; [done|]. exists t. split; [apply Ho|done].
Qed.

Lemma pg_reads_query (Hisolated : isolated) {A} (f : nat -> Db -> A) : reads (query f).
Proof.
  intros w. destruct (query_returns f w) as [[r w'] Hr]. exists r, w'. split; [done|].
  intros t Ho. destruct (query_open Hisolated _ _ _ _ _ Ho Hr) as (Hd & Hres). split; [done|].
  destruct r; [apply Hres|done].
Qed.

Lemma reads_try {A B E F} (m : M (Result A E)) (f : E -> F) (k : A -> M (Result B F)) :
  reads m -> (forall a, reads (k a)) -> reads (try* a := m else f in k a).
Proof.
  intros Hm Hk w. destruct (Hm w) as (r & w1 & Hr & Hs). rewrite (bind_run _ _ _ _ _ Hr).
  destruct r as [a|e].
  - destruct (Hk a w1) as (r & w2 & Hr2 & Hs2). exists r, w2. split; [done|]. intros t Ho.
    destruct (Hs t Ho) as [Hd Ho1]. destruct (Hs2 t Ho1) as [Hd2 Hr']. split; [|done].
    by eapply during_trans.
  - exists (Err (f e)), w1. split; [done|]. intros t Ho. by destruct (Hs t Ho).
Qed.

Lemma pg_reads_returns {A E} (m : M (Result A E)) : reads m -> returns m.
Proof. intros Hm w. destruct (Hm w) as (r & w' & -> & _). by eexists. Qed.

Lemma reads_open {A E} (m : M (Result A E)) w t r w' :
  reads m -> open_at w t -> m w = Some (r, w') ->
  during (own_locks (own t)) (committed w) (committed w') /\
  match r with
  | Ok _ => open_at w' t
  | Err _ => exists t', settled w' t' /\ own t' = own t
  end.
Proof. intros Hm Ho Hr. destruct (Hm w) as (r1 & w1 & Hr1 & Hs). simplify_eq. by apply Hs. Qed.
End Reads.

(** ** What a transaction saw *)

Section Seen.
Context `{PgEnv}.

(** Between [w] and [w'] the transaction saw tables of which [P] holds. *)
Definition sometime (t : Txn) (w w' : World) (P : Db -> Prop) : Prop :=
  exists db, during (own_locks (own t)) (committed w) db /\
    during (own_locks (own t)) db (committed w') /\
    db_wf (overlay (own t) db) /\ P (overlay (own t) db).

(** It saw such tables and held [keys] locked from then on. *)
Definition since (keys : list Z) (t : Txn) (w w' : World) (P : Db -> Prop) : Prop :=
  exists db, during (own_locks (own t)) (committed w) db /\
    during (own_locks (own t) ++ keys) db (committed w') /\
    db_wf db /\ db_wf (overlay (own t) db) /\ P (overlay (own t) db).

Lemma since_sometime keys t w w' P : since keys t w w' P -> sometime t w w' P.
Proof.
  intros (db & Hb1 & Hb2 & _ & Hb3). exists db. split; [done|]. split; [|done].
  eapply during_mono; [|exact Hb2]. set_solver.
Qed.

Lemma sometime_now t w w' P :
  open_at w' t -> during (own_locks (own t)) (committed w) (committed w') ->
  P (overlay (own t) (committed w')) -> sometime t w w' P.
Proof. intros ((_ & _ & Hv) & _) Hd HP. exists (committed w'). split_and!; [done|constructor|done..]. Qed.

Lemma sometime_before t w1 w2 w3 P :
  during (own_locks (own t)) (committed w1) (committed w2) ->
  sometime t w2 w3 P -> sometime t w1 w3 P.
Proof. intros Hd (db & Hb1 & Hb2). exists db. split; [by eapply during_trans|done]. Qed.

Lemma sometime_after t w1 w2 w3 P :
  during (own_locks (own t)) (committed w2) (committed w3) ->
  sometime t w1 w2 P -> sometime t w1 w3 P.
Proof.
  intros Hd (db & Hb1 & Hb2 & Hb3). exists db. split; [done|]. split; [by eapply during_trans|done].
Qed.

Lemma sometime_impl t w w' (P Q : Db -> Prop) :
  (forall db, db_wf db -> P db -> Q db) -> sometime t w w' P -> sometime t w w' Q.
Proof. intros HPQ (db & Hb1 & Hb2 & Hb3 & Hb4). exists db. split_and!; auto. Qed.

(** A query answers of the tables it saw. *)
Lemma query_seen (Hisolated : isolated) {A} (f : nat -> Db -> A) w t a w' :
  open_at w t -> query f w = Some (Ok a, w') ->
  open_at w' t /\ during (own_locks (own t)) (committed w) (committed w') /\
  sometime t w w' (fun db => exists n, a = f n db).
Proof.
  intros Ho Hr. destruct (query_open Hisolated _ _ _ _ _ Ho Hr) as (Hd & Ha & Ho').
  split_and!; [done..|]. apply sometime_now; eauto.
Qed.

Lemma query_failed (Hisolated : isolated) {A} (f : nat -> Db -> A) w t e w' :
  open_at w t -> query f w = Some (Err e, w') ->
  during (own_locks (own t)) (committed w) (committed w') /\ exists t', settled w' t' /\ own t' = own t.
Proof. intros Ho Hr. by destruct (query_open Hisolated _ _ _ _ _ Ho Hr). Qed.
End Seen.

#[export] Hint Resolve pg_reads_ret pg_reads_query : dovecote.

Ltac reads_step :=
  repeat first
    [ apply pg_reads_ret | progress eauto with dovecote
    | apply reads_try; [|intros ?]
    | match goal with |- reads (match ?x with _ => _ end) => destruct x end ].

(** ** Statements on deliveries: the error of a failed CHECK, and locks on one delivery *)

Abbreviation update_sql := (@Leases.update_sql check_failed).

(** ** Locking steps *)

Section Locking.
Context `{PgEnv}.

Definition lock_row (selected : Deliveries.row_of Z -> bool) :
    M (Result (option (Deliveries.row_of Z)) SqlxError.t) :=
  statement (fun _ db => Ok (lock_row_sql selected db)).

Lemma lock_row_returns selected : returns (lock_row selected).
Proof. apply statement_returns. Qed.

(** The transaction after it locked [k]. *)
Definition locked (k : Z) (t : Txn) : Txn := with_own (own_app (own t) (MkOwn [] [] [k])) t.

Lemma overlay_locked k t (db : Db) : overlay (own (locked k t)) db = overlay (own t) db.
Proof.
  unfold locked, with_own. cbn [own]. by rewrite overlay_app, overlay_locks.
Qed.

Lemma lock_row_open (Hisolated : isolated) selected w t r w' :
  open_at w t -> lock_row selected w = Some (r, w') ->
  during (own_locks (own t)) (committed w) (committed w') /\
  match r with
  | Ok (Some d) => open_at w' (locked (Deliveries.event_row_id d) t) /\ selected d = true /\
      db_wf (overlay (own t) (committed w')) /\ d ∈ deliveries (overlay (own t) (committed w'))
  | Ok None => open_at w' t /\ db_wf (overlay (own t) (committed w')) /\
      forall d, d ∈ deliveries (overlay (own t) (committed w')) -> selected d = false
  | Err _ => exists t', settled w' t' /\ own t' = own t
  end.
Proof.
  intros Ho Hr. apply (write_open Hisolated _ _ _ _ _ Ho) in Hr as [Hd Hr].
  2: { intros a o [= Hl] Hwf. apply (f_equal snd) in Hl. simpl in Hl. subst o.
       by rewrite lock_row_overlay. }
  split; [done|]. destruct r as [[d|]|e].
  - destruct Hr as (o & [= Hl] & Hv & Ho'). apply lock_row_Some in Hl as (Hin & Hs & ->). done.
  - destruct Hr as (o & [= Hl] & Hv & Ho'). apply lock_row_None in Hl as [-> Hn].
    by rewrite own_app_nothing_r, with_own_id in Ho'.
  - destruct Hr as (t' & Hs & Hown & _). eauto.
Qed.

(** A row locked stays in the transaction's view as it is. *)
Lemma locked_row (Hisolated : isolated) t db db' d :
  db_wf (overlay (own t) db) -> db_wf db -> during (own_locks (own t)) db db' ->
  db_wf (overlay (own t) db') ->
  Deliveries.event_row_id d ∈ own_locks (own t) -> d ∈ deliveries (overlay (own t) db) ->
  d ∈ deliveries (overlay (own t) db').
Proof. intros _ Hwf Hd _. by apply (locked_own_row Hisolated). Qed.
End Locking.

#[export] Hint Resolve lock_row_returns : dovecote.
