(* ===== verification/PgHydrate.v ===== *)
(** * Row hydration of the PostgreSQL adapter (crates/dovecote-sqlx-postgres/src/hydrate.rs, page.rs)

    Durable columns back into the core's values. A [timestamptz] column needs no
    parsing: the driver reads it as an instant. *)

From S2P Require Import Prelude Step Utf8 BTree Errors Limits Validation Bounds Values Extension Serialization Event State Tables Queries RowHydration Instants External.

Section Hydrate.
Context `{SerdeJson, Base64, MimeLib, FluentUri, RustDebug, InstantColumn}.

Definition hydrate_event (row : EventRow.t_of Z) : Result StoredEvent.t string :=
  hydrate_event_with (fun value => Ok (decode_instant value)) row.

(** The match on [state.as_str()]. *)
Definition hydrate_delivery (row : DurableRow.t_of Z) (state : string)
    (available_at : OffsetDateTime) (attempts : AttemptCount.t) (failure : option Failure.t) :
    Result DeliverySnapshot.t string :=
  if bool_decide (state = "pending") then
    let? _ := require_absent "pending claim token" (DurableRow.claim_token row) in
    let? _ := require_absent "pending claimed worker" (DurableRow.claimed_by row) in
    let? _ := require_absent "pending claim expiry" (DurableRow.claim_expires_at row) in
    let? _ := require_absent "pending delivered time" (DurableRow.delivered_at row) in
    let? _ := require_absent "pending quarantine time" (DurableRow.quarantined_at row) in
    let? _ := require_absent "pending quarantine reason" (DurableRow.quarantine_reason row) in
    text (DeliverySnapshot.pending available_at attempts failure)
  else if bool_decide (state = "claimed") then
    let? _ := require_token_width (DurableRow.claim_token row) in
    let? worker := ok_or (DurableRow.claimed_by row) "claimed delivery has no worker" in
    let? expires_at := ok_or (DurableRow.claim_expires_at row)
                         "claimed delivery has no claim expiry" in
    let? _ := require_absent "claimed delivered time" (DurableRow.delivered_at row) in
    let? _ := require_absent "claimed quarantine time" (DurableRow.quarantined_at row) in
    let? _ := require_absent "claimed quarantine reason" (DurableRow.quarantine_reason row) in
    let? worker := text (WorkerId.new worker) in
    text (DeliverySnapshot.claimed available_at worker (decode_instant expires_at) attempts failure)
  else if bool_decide (state = "delivered") then
    let? _ := require_absent "delivered claim token" (DurableRow.claim_token row) in
    let? _ := require_absent "delivered claimed worker" (DurableRow.claimed_by row) in
    let? _ := require_absent "delivered claim expiry" (DurableRow.claim_expires_at row) in
    let? delivered_at := ok_or (DurableRow.delivered_at row)
                           "delivered delivery has no delivered time" in
    let? _ := require_absent "delivered quarantine time" (DurableRow.quarantined_at row) in
    let? _ := require_absent "delivered quarantine reason" (DurableRow.quarantine_reason row) in
    text (DeliverySnapshot.delivered available_at (decode_instant delivered_at) attempts failure)
  else if bool_decide (state = "quarantined") then
    let? _ := require_absent "quarantined claim token" (DurableRow.claim_token row) in
    let? _ := require_absent "quarantined claimed worker" (DurableRow.claimed_by row) in
    let? _ := require_absent "quarantined claim expiry" (DurableRow.claim_expires_at row) in
    let? _ := require_absent "quarantined delivered time" (DurableRow.delivered_at row) in
    let? quarantined_at := ok_or (DurableRow.quarantined_at row)
                             "quarantined delivery has no quarantine time" in
    let? reason := ok_or (DurableRow.quarantine_reason row)
                     "quarantined delivery has no quarantine reason" in
    let? reason := text (QuarantineReason.new reason) in
    text (DeliverySnapshot.quarantined available_at (decode_instant quarantined_at) attempts failure
            reason)
  else Err ("unknown delivery state " +:+ debug_str state).

Definition hydrate_page (row : DurableRow.t_of Z) : Result PagedEvent.t string :=
  let? row_id := text (RowId.new (DurableRow.row_id row)) in
  let? tenant_id := text (TenantId.new (DurableRow.tenant_id row)) in
  let? event := hydrate_event (event_row row) in
  let? state := ok_or (DurableRow.state row)
                  ("event row " +:+ pretty (DurableRow.row_id row)
                   +:+ " has no required delivery row") in
  let? available_at := ok_or (DurableRow.available_at row) "delivery row has no available_at" in
  let? attempts := ok_or (DurableRow.attempts row) "delivery row has no attempts" in
  let? attempts := text (AttemptCount.new attempts) in
  let? failure := parse_failure (DurableRow.last_failure_code row)
                    (DurableRow.last_failure_detail row) in
  let? delivery := hydrate_delivery row state (decode_instant available_at) attempts failure in
  text (PagedEvent.new tenant_id row_id event (decode_instant (DurableRow.enqueued_at row)) delivery).
End Hydrate.

Section Facts.
Context `{SerdeJson, Base64, MimeLib, FluentUri, RustDebug, InstantColumn}.

Lemma pg_hydrate_page_row_id c p :
  hydrate_page c = Ok p ->
  RowId.get (PagedEvent.row_id p) = DurableRow.row_id c /\
  TenantId.new (DurableRow.tenant_id c) = Ok (PagedEvent.tenant_id p).
Proof.
  unfold hydrate_page, text.
  destruct (RowId.new _) as [row_id|] eqn:Er; simpl; [|done].
  destruct (TenantId.new _) as [tenant|] eqn:Et; simpl; [|done].
  apply RowId_new_Ok in Er as [Hr _]. intros Hp.
  repeat match type of Hp with
    (match ?x with _ => _ end) = _ => destruct x eqn:?; try done end.
  unfold PagedEvent.new in Hp.
  destruct (canonicalize_instant _ _); simpl in Hp; [|done]. by injection Hp as <-.
Qed.

Context {TL : TimeLaws} {TT : TimeTextLaws} {NL : JsonNumberLaws}
  {SL : SerdeJsonLaws} {BL : Base64Laws} {IL : InstantColumnLaws}.

(** The columns of an accepted event hydrate. *)
Lemma pg_hydrate_written_columns c limit :
  content_wf c -> validate_content c limit = Ok tt ->
  EventSizeLimit.get limit <= usize_max ->
  hydrate_event (event_columns c) = Ok (StoredEvent.Make _ c).
Proof.
  apply hydrate_with_columns. intros t Hp Hu. rewrite decode_encode by done. by rewrite to_utc_id.
Qed.
End Facts.
