(* ===== verification/PgSchema.v ===== *)
(** * The schema check of the PostgreSQL adapter (crates/dovecote-sqlx-postgres/src/schema/)

    The catalog of the connection as its queries report it, the check of every
    column, constraint and index against the contracts of the shipped schema,
    and what the check accepts. *)

From S2P Require Import Prelude Step Utf8 Text Errors Limits Validation Bounds Values Extension Serialization Event State Tables Queries Overlay Others Instants External Migration PgError PgMigration Pg.

(** ** catalog.rs *)

Module NamespaceInfo.
Record t : Type := Make { oid : Z; name : string }.
End NamespaceInfo.

Module ColumnSpec.
Record t : Type := Make {
  name : string;
  data_type : string;
  maximum_length : option Z;
  nullable : bool;
  identity : bool;
  default_fragment : option string;
}.

Definition required (name data_type : string) (maximum_length : option Z) : t :=
  Make name data_type maximum_length false false None.
Definition required_identity (name data_type : string) (maximum_length : option Z) : t :=
  Make name data_type maximum_length false true None.
Definition optional (name data_type : string) (maximum_length : option Z) : t :=
  Make name data_type maximum_length true false None.
Definition required_with_default (name data_type : string) (maximum_length : option Z)
    (default_fragment : string) : t :=
  Make name data_type maximum_length false false (Some default_fragment).
End ColumnSpec.

Module ColumnInfo.
Record t : Type := Make {
  column_name : string;
  data_type : string;
  character_maximum_length : option Z;
  is_nullable : string;
  column_default : option string;
  is_identity : string;
  identity_generation : option string;
}.
End ColumnInfo.

(** ** contracts.rs *)

Module ConstraintInfo.
Record t : Type := Make {
  table_name : string;
  name : string;
  kind : string;
  columns : list string;
  referenced_table : option string;
  referenced_columns : list string;
  delete_action : option string;
  validated : bool;
  deferrable : bool;
  deferred : bool;
  definition : string;
}.
End ConstraintInfo.

Module ConstraintContract.
Record t : Type := Make {
  name : string;
  table_name : string;
  kind : string;
  columns : list string;
  referenced_table : option string;
  referenced_columns : list string;
  delete_action : option string;
  definition_variants : list string;
}.

Definition check (name table_name : string) (definition_variants : list string) : t :=
  Make name table_name "c" [] None [] None definition_variants.
Definition primary_key (name table_name : string) (columns definition_variants : list string) : t :=
  Make name table_name "p" columns None [] None definition_variants.
Definition unique (name table_name : string) (columns definition_variants : list string) : t :=
  Make name table_name "u" columns None [] None definition_variants.
Definition foreign_key (name table_name : string) (columns : list string)
    (referenced_table : string) (referenced_columns : list string) (delete_action : string)
    (definition_variants : list string) : t :=
  Make name table_name "f" columns (Some referenced_table) referenced_columns (Some delete_action)
    definition_variants.
End ConstraintContract.

Module IndexInfo.
Record t : Type := Make {
  table_name : string;
  name : string;
  access_method : string;
  is_unique : bool;
  is_valid : bool;
  is_ready : bool;
  has_predicate : bool;
  key_columns : Z;
  total_columns : Z;
  options : list Z;
  columns : list string;
  collations : list string;
}.
End IndexInfo.

Module IndexContract.
Record t : Type := Make {
  name : string;
  table_name : string;
  is_unique : bool;
  columns : list string;
  collations : option (list string);
}.
End IndexContract.

(** ** normalization.rs *)

Definition casts : list string :=
  ["::character varying[]"; "::character varying"; "::timestamp with time zone";
   "::timestamp without time zone"; "::double precision"; "::numeric"; "::bigint"; "::integer";
   "::smallint"; "::boolean"; "::text[]"; "::text"].

Fixpoint without_whitespace (value : string) : string :=
  match value with
  | EmptyString => EmptyString
  | String a value =>
      if is_ascii_whitespace (byte_val a) then without_whitespace value
      else String a (without_whitespace value)
  end.

Definition normalize_sql (value : string) : string :=
  without_whitespace
    (fold_left (fun value cast => replace cast EmptyString value) casts (to_ascii_lowercase value)).

(** ** Matching *)

Definition constraint_matches (self : ConstraintInfo.t) (expected : ConstraintContract.t) : bool :=
  let definition := normalize_sql (ConstraintInfo.definition self) in
  let columns_match :=
    bool_decide (ConstraintInfo.kind self = "c")
    || bool_decide (ConstraintInfo.columns self = ConstraintContract.columns expected) in
  bool_decide (ConstraintInfo.table_name self = ConstraintContract.table_name expected)
  && bool_decide (ConstraintInfo.kind self = ConstraintContract.kind expected)
  && columns_match
  && bool_decide (ConstraintInfo.referenced_table self
                  = ConstraintContract.referenced_table expected)
  && bool_decide (ConstraintInfo.referenced_columns self
                  = ConstraintContract.referenced_columns expected)
  && bool_decide (ConstraintInfo.delete_action self = ConstraintContract.delete_action expected)
  && ConstraintInfo.validated self
  && negb (ConstraintInfo.deferrable self)
  && negb (ConstraintInfo.deferred self)
  && existsb (fun variant => bool_decide (definition = normalize_sql variant))
       (ConstraintContract.definition_variants expected).

(** [i16::try_from(length).unwrap_or(i16::MAX)] *)
Definition i16_of_length (length : nat) : Z := Z.min (Z.of_nat length) (2 ^ 15 - 1).

Definition index_matches (self : IndexInfo.t) (expected : IndexContract.t) : bool :=
  bool_decide (IndexInfo.table_name self = IndexContract.table_name expected)
  && bool_decide (IndexInfo.access_method self = "btree")
  && Bool.eqb (IndexInfo.is_unique self) (IndexContract.is_unique expected)
  && IndexInfo.is_valid self
  && IndexInfo.is_ready self
  && negb (IndexInfo.has_predicate self)
  && (IndexInfo.key_columns self =? i16_of_length (length (IndexContract.columns expected)))
  && (IndexInfo.total_columns self =? IndexInfo.key_columns self)
  && bool_decide (IndexInfo.options self = repeat 0 (length (IndexContract.columns expected)))
  && bool_decide (IndexInfo.columns self = IndexContract.columns expected)
  && is_none_or (IndexContract.collations expected)
       (fun collations => bool_decide (IndexInfo.collations self = collations)).

Definition expected_constraints : list ConstraintContract.t :=
  [
   ConstraintContract.check "dovecote_schema_version_supported" "dovecote_schema"
     ["CHECK ((schema_version = 2))"];
   ConstraintContract.check "dovecote_schema_minimum_nonnegative" "dovecote_schema"
     ["CHECK (((minimum_crate_major >= 0) AND (minimum_crate_minor >= 0) AND (minimum_crate_patch >= 0)))"];
   ConstraintContract.primary_key "dovecote_schema_pkey" "dovecote_schema"
     ["schema_version"]
     ["PRIMARY KEY (schema_version)"];
   ConstraintContract.check "dovecote_events_row_id_positive" "dovecote_events"
     ["CHECK ((row_id > 0))"];
   ConstraintContract.check "dovecote_events_tenant_size" "dovecote_events"
     ["CHECK ((octet_length((tenant_id)) <= 255))"];
   ConstraintContract.check "dovecote_events_tenant_nonempty" "dovecote_events"
     ["CHECK ((octet_length((tenant_id)) > 0))"];
   ConstraintContract.primary_key "dovecote_events_pkey" "dovecote_events"
     ["row_id"]
     ["PRIMARY KEY (row_id)"];
   ConstraintContract.unique "dovecote_events_tenant_row_unique" "dovecote_events"
     ["tenant_id"; "row_id"]
     ["UNIQUE (tenant_id, row_id)"];
   ConstraintContract.check "dovecote_events_specversion" "dovecote_events"
     ["CHECK (((specversion) = '1.0'))"];
   ConstraintContract.check "dovecote_events_stream_size" "dovecote_events"
     ["CHECK ((octet_length((stream)) <= 255))"];
   ConstraintContract.check "dovecote_events_event_id_size" "dovecote_events"
     ["CHECK ((octet_length((event_id)) <= 1024))"];
   ConstraintContract.check "dovecote_events_source_size" "dovecote_events"
     ["CHECK ((octet_length((source)) <= 2048))"];
   ConstraintContract.check "dovecote_events_event_type_size" "dovecote_events"
     ["CHECK ((octet_length((event_type)) <= 1024))"];
   ConstraintContract.check "dovecote_events_subject_size" "dovecote_events"
     ["CHECK (((subject IS NULL) OR (octet_length((subject)) <= 2048)))"];
   ConstraintContract.check "dovecote_events_content_type_size" "dovecote_events"
     ["CHECK (((datacontenttype IS NULL) OR (octet_length((datacontenttype)) <= 255)))"];
   ConstraintContract.check "dovecote_events_schema_size" "dovecote_events"
     ["CHECK (((dataschema IS NULL) OR (octet_length((dataschema)) <= 2048)))"];
   ConstraintContract.check "dovecote_events_partition_size" "dovecote_events"
     ["CHECK (((partitionkey IS NULL) OR (octet_length((partitionkey)) <= 255)))"];
   ConstraintContract.check "dovecote_events_identity_size" "dovecote_events"
     ["CHECK (((octet_length((source)) + octet_length((event_id))) <= 2048))"];
   ConstraintContract.check "dovecote_events_data_kind" "dovecote_events"
     ["CHECK (((data_kind IS NULL) OR ((data_kind) = ANY ((ARRAY['json', 'binary'])))))"];
   ConstraintContract.check "dovecote_events_data_pair" "dovecote_events"
     ["CHECK (((data_kind IS NULL) = (data IS NULL)))"];
   ConstraintContract.check "dovecote_events_content_type" "dovecote_events"
     ["CHECK (((data IS NULL) OR (octet_length(data) = 0) OR (datacontenttype IS NOT NULL)))"];
   ConstraintContract.check "dovecote_deliveries_state" "dovecote_deliveries"
     ["CHECK (((state) = ANY ((ARRAY['pending', 'claimed', 'delivered', 'quarantined']))))"];
   ConstraintContract.check "dovecote_deliveries_tenant_size" "dovecote_deliveries"
     ["CHECK ((octet_length((tenant_id)) <= 255))"];
   ConstraintContract.check "dovecote_deliveries_tenant_nonempty" "dovecote_deliveries"
     ["CHECK ((octet_length((tenant_id)) > 0))"];
   ConstraintContract.primary_key "dovecote_deliveries_pkey" "dovecote_deliveries"
     ["event_row_id"]
     ["PRIMARY KEY (event_row_id)"];
   ConstraintContract.check "dovecote_deliveries_attempts" "dovecote_deliveries"
     ["CHECK ((attempts >= 0))"];
   ConstraintContract.check "dovecote_deliveries_token_size" "dovecote_deliveries"
     ["CHECK (((claim_token IS NULL) OR (octet_length(claim_token) = 16)))"];
   ConstraintContract.check "dovecote_deliveries_worker_size" "dovecote_deliveries"
     ["CHECK (((claimed_by IS NULL) OR (octet_length((claimed_by)) <= 255)))"];
   ConstraintContract.check "dovecote_deliveries_failure_code_size" "dovecote_deliveries"
     ["CHECK (((last_failure_code IS NULL) OR (octet_length((last_failure_code)) <= 128)))"];
   ConstraintContract.check "dovecote_deliveries_failure_detail_size" "dovecote_deliveries"
     ["CHECK (((last_failure_detail IS NULL) OR (octet_length((last_failure_detail)) <= 2048)))"];
   ConstraintContract.check "dovecote_deliveries_quarantine_size" "dovecote_deliveries"
     ["CHECK (((quarantine_reason IS NULL) OR (octet_length((quarantine_reason)) <= 2048)))"];
   ConstraintContract.check "dovecote_deliveries_failure_pair" "dovecote_deliveries"
     ["CHECK (((last_failure_code IS NULL) = (last_failure_detail IS NULL)))"];
   ConstraintContract.check "dovecote_deliveries_state_shape" "dovecote_deliveries"
     ["CHECK (((((state) = 'pending') AND (claim_token IS NULL) AND (claimed_by IS NULL) AND (claim_expires_at IS NULL) AND (delivered_at IS NULL) AND (quarantined_at IS NULL) AND (quarantine_reason IS NULL)) OR (((state) = 'claimed') AND (claim_token IS NOT NULL) AND (claimed_by IS NOT NULL) AND (claim_expires_at IS NOT NULL) AND (delivered_at IS NULL) AND (quarantined_at IS NULL) AND (quarantine_reason IS NULL)) OR (((state) = 'delivered') AND (claim_token IS NULL) AND (claimed_by IS NULL) AND (claim_expires_at IS NULL) AND (delivered_at IS NOT NULL) AND (quarantined_at IS NULL) AND (quarantine_reason IS NULL)) OR (((state) = 'quarantined') AND (claim_token IS NULL) AND (claimed_by IS NULL) AND (claim_expires_at IS NULL) AND (delivered_at IS NULL) AND (quarantined_at IS NOT NULL) AND (quarantine_reason IS NOT NULL))))"];
   ConstraintContract.foreign_key "dovecote_deliveries_event_fk" "dovecote_deliveries"
     ["tenant_id"; "event_row_id"]
     "dovecote_events"
     ["tenant_id"; "row_id"]
     "r"
     ["FOREIGN KEY (tenant_id, event_row_id) REFERENCES dovecote_events (tenant_id, row_id) ON DELETE RESTRICT"]
  ].

Definition expected_indexes : list IndexContract.t :=
  [IndexContract.Make "dovecote_events_tenant_source_event_id" "dovecote_events" true
     ["tenant_id"; "source"; "event_id"] (Some ["C"; "C"; "C"]);
   IndexContract.Make "dovecote_deliveries_claimable" "dovecote_deliveries" false
     ["tenant_id"; "state"; "available_at"; "event_row_id"]
     (Some ["C"; "default"; "default"; "default"]);
   IndexContract.Make "dovecote_deliveries_expired_claims" "dovecote_deliveries" false
     ["tenant_id"; "state"; "claim_expires_at"; "event_row_id"]
     (Some ["C"; "default"; "default"; "default"])].

(** ** mod.rs *)

(** What the catalog queries answer: the current schema, the names of the
    ordinary and partitioned tables in it, [information_schema.columns] by
    schema and table, the rows of [dovecote_schema] with the newest version
    first, and the constraints and indexes of the three tables by the schema. *)
Record Catalog : Type := MkCatalog {
  current_schema : option NamespaceInfo.t;
  relations : list string;
  columns_of : string -> string -> list ColumnInfo.t;
  markers : list SchemaMarker.t;
  constraints_of : Z -> list ConstraintInfo.t;
  indexes_of : Z -> list IndexInfo.t;
}.

(** The catalog at each statement. *)
Class PgCatalogEnv := { catalog : nat -> Catalog }.

Definition mismatch (detail : string) : SchemaError.t := SchemaError.MigrationMismatch detail.

Definition default_matches (specification : ColumnSpec.t) (column : ColumnInfo.t) : bool :=
  is_none_or (ColumnSpec.default_fragment specification) (fun fragment =>
    is_some_and (ColumnInfo.column_default column) (fun default =>
      bool_decide (normalize_sql default = normalize_sql fragment))).

Definition identity_matches (specification : ColumnSpec.t) (column : ColumnInfo.t) : bool :=
  if ColumnSpec.identity specification
  then bool_decide (ColumnInfo.is_identity column = "YES")
       && bool_decide (ColumnInfo.identity_generation column = Some "ALWAYS")
  else bool_decide (ColumnInfo.is_identity column = "NO").

(** the body of the loop over the specifications *)
Definition check_column (table : string) (columns : list ColumnInfo.t)
    (specification : ColumnSpec.t) : Result unit SchemaError.t :=
  match find (fun column => bool_decide (ColumnInfo.column_name column
                                         = ColumnSpec.name specification)) columns with
  | None => Err (mismatch ("required column " +:+ table +:+ "." +:+ ColumnSpec.name specification
                           +:+ " is missing"))
  | Some column =>
      if negb (bool_decide (ColumnInfo.data_type column = ColumnSpec.data_type specification))
         || negb (bool_decide (ColumnInfo.character_maximum_length column
                               = ColumnSpec.maximum_length specification))
         || negb (Bool.eqb (bool_decide (ColumnInfo.is_nullable column = "YES"))
                    (ColumnSpec.nullable specification))
         || negb (default_matches specification column)
         || negb (identity_matches specification column)
      then Err (mismatch ("column " +:+ table +:+ "." +:+ ColumnSpec.name specification
                          +:+ " is incompatible"))
      else Ok tt
  end.

(** the columns found against those expected *)
Definition check_column_rows (table : string) (expected : list ColumnSpec.t)
    (columns : list ColumnInfo.t) : Result unit SchemaError.t :=
  match find (fun column =>
          negb (existsb (fun specification =>
                  bool_decide (ColumnSpec.name specification = ColumnInfo.column_name column))
                  expected)) columns with
  | Some column =>
      Err (mismatch ("unexpected column " +:+ table +:+ "." +:+ ColumnInfo.column_name column))
  | None => all_ok (check_column table columns) expected
  end.

Definition marker_columns : list ColumnSpec.t :=
  [ColumnSpec.required "schema_version" "integer" None;
   ColumnSpec.required "minimum_crate_major" "smallint" None;
   ColumnSpec.required "minimum_crate_minor" "smallint" None;
   ColumnSpec.required "minimum_crate_patch" "smallint" None;
   ColumnSpec.required "rolling_compatible" "boolean" None].

Definition events_columns : list ColumnSpec.t :=
  [ColumnSpec.required_identity "row_id" "bigint" None;
   ColumnSpec.required "tenant_id" "character varying" (Some 255);
   ColumnSpec.required "stream" "character varying" (Some 255);
   ColumnSpec.required "specversion" "character varying" (Some 8);
   ColumnSpec.required "event_id" "character varying" (Some 1024);
   ColumnSpec.required "source" "character varying" (Some 2048);
   ColumnSpec.required "event_type" "character varying" (Some 1024);
   ColumnSpec.optional "subject" "character varying" (Some 2048);
   ColumnSpec.optional "occurred_at" "timestamp with time zone" None;
   ColumnSpec.optional "datacontenttype" "character varying" (Some 255);
   ColumnSpec.optional "dataschema" "character varying" (Some 2048);
   ColumnSpec.optional "partitionkey" "character varying" (Some 255);
   ColumnSpec.required_with_default "extensions" "text" None "'{}'::text";
   ColumnSpec.optional "data_kind" "character varying" (Some 6);
   ColumnSpec.optional "data" "bytea" None;
   ColumnSpec.required_with_default "enqueued_at" "timestamp with time zone" None
     "current_timestamp"].

Definition deliveries_columns : list ColumnSpec.t :=
  [ColumnSpec.required "event_row_id" "bigint" None;
   ColumnSpec.required "tenant_id" "character varying" (Some 255);
   ColumnSpec.required "state" "character varying" (Some 12);
   ColumnSpec.required_with_default "available_at" "timestamp with time zone" None
     "current_timestamp";
   ColumnSpec.required_with_default "attempts" "bigint" None "0";
   ColumnSpec.optional "claim_token" "bytea" None;
   ColumnSpec.optional "claimed_by" "character varying" (Some 255);
   ColumnSpec.optional "claim_expires_at" "timestamp with time zone" None;
   ColumnSpec.optional "last_failure_code" "character varying" (Some 128);
   ColumnSpec.optional "last_failure_detail" "character varying" (Some 2048);
   ColumnSpec.optional "delivered_at" "timestamp with time zone" None;
   ColumnSpec.optional "quarantined_at" "timestamp with time zone" None;
   ColumnSpec.optional "quarantine_reason" "character varying" (Some 2048)].

Definition check_constraint (constraints : list ConstraintInfo.t)
    (expected : ConstraintContract.t) : Result unit SchemaError.t :=
  match find (fun constraint => bool_decide (ConstraintInfo.name constraint
                                             = ConstraintContract.name expected)) constraints with
  | None => Err (mismatch ("required constraint " +:+ ConstraintContract.name expected
                           +:+ " is missing"))
  | Some actual =>
      if negb (constraint_matches actual expected)
      then Err (mismatch ("required constraint " +:+ ConstraintContract.name expected
                          +:+ " is incompatible"))
      else Ok tt
  end.

Definition is_expected_name (name : string) (expected : list string) : bool :=
  existsb (fun e => bool_decide (e = name)) expected.

(** the constraints found against those expected *)
Definition check_constraints (constraints : list ConstraintInfo.t) : Result unit SchemaError.t :=
  let? _ := all_ok (check_constraint constraints) expected_constraints in
  match find (fun actual => negb (is_expected_name (ConstraintInfo.name actual)
                                    (map ConstraintContract.name expected_constraints)))
          constraints with
  | Some unexpected => Err (mismatch ("unexpected constraint " +:+ ConstraintInfo.name unexpected))
  | None => Ok tt
  end.

Definition check_index (indexes : list IndexInfo.t) (expected : IndexContract.t) :
    Result unit SchemaError.t :=
  match find (fun index => bool_decide (IndexInfo.name index = IndexContract.name expected))
          indexes with
  | None => Err (mismatch ("required index " +:+ IndexContract.name expected +:+ " is missing"))
  | Some actual =>
      if negb (index_matches actual expected)
      then Err (mismatch ("required index " +:+ IndexContract.name expected
                          +:+ " is incompatible"))
      else Ok tt
  end.

(** the indexes found against those expected *)
Definition check_indexes (indexes : list IndexInfo.t) : Result unit SchemaError.t :=
  let? _ := all_ok (check_index indexes) expected_indexes in
  match find (fun actual => negb (is_expected_name (IndexInfo.name actual)
                                    (map IndexContract.name expected_indexes))) indexes with
  | Some unexpected => Err (mismatch ("unexpected index " +:+ IndexInfo.name unexpected))
  | None => Ok tt
  end.

Section Check.
Context `{PgEnv, PgCatalogEnv}.
(** the text of migrations/0002_dovecote_tenant_baseline.sql *)
Context (tenant_baseline_sql : string).

Definition catalog_query {A} (operation : string) (f : Catalog -> A) :
    M (Result A SchemaError.t) :=
  try* rows := query (fun n _ => f (catalog n)) else SchemaError.sql operation in
  ret (Ok rows).

Definition resolve_namespace : M (Result NamespaceInfo.t SchemaError.t) :=
  try* namespace := catalog_query "resolve current schema" current_schema else (fun e => e) in
  ret (ok_or namespace (mismatch "the transaction has no resolvable current schema")).

Definition check_columns (schema_name table : string) (expected : list ColumnSpec.t) :
    M (Result unit SchemaError.t) :=
  try* columns := catalog_query "check columns" (fun c => columns_of c schema_name table)
       else (fun e => e) in
  ret (check_column_rows table expected columns).

(** the marker rows against the shipped migration *)
Definition check_markers (markers : list SchemaMarker.t) : Result unit SchemaError.t :=
  match markers with
  | [marker] =>
      let? migration := map_err mismatch (current_migration tenant_baseline_sql) in
      map_err mismatch (marker_matches_migration marker migration)
  | _ => Err (mismatch ("expected exactly one schema marker row, found "
                        +:+ pretty (Z.of_nat (length markers))))
  end.

Definition check_schema_connection : M (Result unit SchemaError.t) :=
  try* namespace := resolve_namespace else (fun e => e) in
  let name := NamespaceInfo.name namespace in
  let oid := NamespaceInfo.oid namespace in
  try* _ := check_columns name "dovecote_schema" marker_columns else (fun e => e) in
  try* rows := catalog_query "check schema marker" markers else (fun e => e) in
  match check_markers rows with
  | Err e => ret (Err e)
  | Ok _ =>
      try* _ := check_columns name "dovecote_events" events_columns else (fun e => e) in
      try* _ := check_columns name "dovecote_deliveries" deliveries_columns else (fun e => e) in
      try* constraints := catalog_query "check constraints" (fun c => constraints_of c oid)
           else (fun e => e) in
      match check_constraints constraints with
      | Err e => ret (Err e)
      | Ok _ =>
          try* indexes := catalog_query "check indexes" (fun c => indexes_of c oid)
               else (fun e => e) in
          ret (check_indexes indexes)
      end
  end.

(** [pool.acquire()] is a step that may fail. *)
Definition check_schema : M (Result unit SchemaError.t) :=
  try* _ := query (fun _ _ => tt) else SchemaError.sql "acquire schema-check connection" in
  check_schema_connection.
End Check.

(** ** What the check accepts *)

(** [found] has, by name, exactly the [expected] objects, and each fits. *)
Definition exactly {A B} (name : A -> string) (name' : B -> string) (fits : B -> A -> Prop)
    (found : list A) (expected : list B) : Prop :=
  (forall b, b ∈ expected -> exists a, a ∈ found /\ name a = name' b /\ fits b a) /\
  (forall a, a ∈ found -> exists b, b ∈ expected /\ name' b = name a).

Definition column_fits (specification : ColumnSpec.t) (column : ColumnInfo.t) : Prop :=
  ColumnInfo.data_type column = ColumnSpec.data_type specification /\
  ColumnInfo.character_maximum_length column = ColumnSpec.maximum_length specification /\
  (ColumnInfo.is_nullable column = "YES" <-> ColumnSpec.nullable specification = true) /\
  (forall fragment, ColumnSpec.default_fragment specification = Some fragment ->
     exists default, ColumnInfo.column_default column = Some default /\
       normalize_sql default = normalize_sql fragment) /\
  (if ColumnSpec.identity specification
   then ColumnInfo.is_identity column = "YES" /\ ColumnInfo.identity_generation column = Some "ALWAYS"
   else ColumnInfo.is_identity column = "NO").

Definition constraint_fits (expected : ConstraintContract.t) (actual : ConstraintInfo.t) : Prop :=
  ConstraintInfo.table_name actual = ConstraintContract.table_name expected /\
  ConstraintInfo.kind actual = ConstraintContract.kind expected /\
  (ConstraintInfo.kind actual = "c" \/
   ConstraintInfo.columns actual = ConstraintContract.columns expected) /\
  ConstraintInfo.referenced_table actual = ConstraintContract.referenced_table expected /\
  ConstraintInfo.referenced_columns actual = ConstraintContract.referenced_columns expected /\
  ConstraintInfo.delete_action actual = ConstraintContract.delete_action expected /\
  ConstraintInfo.validated actual = true /\
  ConstraintInfo.deferrable actual = false /\ ConstraintInfo.deferred actual = false /\
  exists variant, variant ∈ ConstraintContract.definition_variants expected /\
    normalize_sql (ConstraintInfo.definition actual) = normalize_sql variant.

Definition index_fits (expected : IndexContract.t) (actual : IndexInfo.t) : Prop :=
  IndexInfo.table_name actual = IndexContract.table_name expected /\
  IndexInfo.access_method actual = "btree" /\
  IndexInfo.is_unique actual = IndexContract.is_unique expected /\
  IndexInfo.is_valid actual = true /\ IndexInfo.is_ready actual = true /\
  IndexInfo.has_predicate actual = false /\
  IndexInfo.key_columns actual = i16_of_length (length (IndexContract.columns expected)) /\
  IndexInfo.total_columns actual = IndexInfo.key_columns actual /\
  IndexInfo.options actual = repeat 0 (length (IndexContract.columns expected)) /\
  IndexInfo.columns actual = IndexContract.columns expected /\
  (forall collations, IndexContract.collations expected = Some collations ->
     IndexInfo.collations actual = collations).

(** the marker row of the shipped migration *)
Definition shipped_marker : SchemaMarker.t := SchemaMarker.Make 2 0 2 0 false.

Definition table_fits (c : Catalog) (schema table : string) (expected : list ColumnSpec.t) : Prop :=
  exactly ColumnInfo.column_name ColumnSpec.name column_fits (columns_of c schema table) expected.

(** The catalog of the shipped schema. *)
Record schema_ok (c : Catalog) (namespace : NamespaceInfo.t) : Prop := {
  ok_namespace : current_schema c = Some namespace;
  ok_marker_columns :
    table_fits c (NamespaceInfo.name namespace) "dovecote_schema" marker_columns;
  ok_marker : markers c = [shipped_marker];
  ok_event_columns :
    table_fits c (NamespaceInfo.name namespace) "dovecote_events" events_columns;
  ok_delivery_columns :
    table_fits c (NamespaceInfo.name namespace) "dovecote_deliveries" deliveries_columns;
  ok_constraints :
    exactly ConstraintInfo.name ConstraintContract.name constraint_fits
      (constraints_of c (NamespaceInfo.oid namespace)) expected_constraints;
  ok_indexes :
    exactly IndexInfo.name IndexContract.name index_fits
      (indexes_of c (NamespaceInfo.oid namespace)) expected_indexes;
}.

(** Names are unique: columns in a table, and constraints and indexes in the
    three tables. *)
Record unique_names (c : Catalog) : Prop := {
  un_columns schema table : NoDup (map ColumnInfo.column_name (columns_of c schema table));
  un_constraints oid : NoDup (map ConstraintInfo.name (constraints_of c oid));
  un_indexes oid : NoDup (map IndexInfo.name (indexes_of c oid));
}.

Section Accepts.

Lemma find_named {A} (name : A -> string) (k : string) (P : A -> Prop) l :
  NoDup (map name l) ->
  (exists a, find (fun a => bool_decide (name a = k)) l = Some a /\ P a) <->
  exists a, a ∈ l /\ name a = k /\ P a.
Proof.
  intros Hnd. split.
  - intros (a & Hf & HP). apply List.find_some in Hf as [Hin Hk]. exists a.
    rewrite list_elem_of_In. by apply bool_decide_eq_true in Hk.
  - intros (a & Hin & Hk & HP). exists a. split; [|done].
    induction l as [|x l IH]; [set_solver|]. simpl in *. inversion Hnd as [|? ? Hn Hnd']; subst.
    apply elem_of_cons in Hin as [->|Hin]; [by rewrite bool_decide_true|].
    rewrite bool_decide_false; [by apply IH|].
    intros He. apply Hn. rewrite He. by apply list_elem_of_fmap_2.
Qed.

(** Every expected object found, and nothing else. *)
Lemma exactly_iff {A B} (name : A -> string) (name' : B -> string) (fits : B -> A -> Prop)
    (missing : A -> bool) (found : list A) (expected : list B) :
  NoDup (map name found) ->
  (forall a, missing a = true <-> ~ exists b, b ∈ expected /\ name' b = name a) ->
  (Forall (fun b => exists a, find (fun a => bool_decide (name a = name' b)) found = Some a /\
                              fits b a) expected /\ find missing found = None) <->
  exactly name name' fits found expected.
Proof.
  intros Hnd Hm. unfold exactly. rewrite Forall_forall. split.
  - intros [Hall Hnone]. split.
    + intros b Hb. apply (find_named name); [done|]. by apply Hall.
    + intros a Ha. apply list_elem_of_In in Ha. pose proof (List.find_none _ _ Hnone a Ha) as Hf.
      destruct (decide (Exists (fun b => name' b = name a) expected)) as [He|He].
      * by apply Exists_exists in He.
      * assert (missing a = true) by (apply Hm; by rewrite Exists_exists in He). congruence.
  - intros [Hall Hno]. split.
    + intros b Hb. apply (find_named name); [done|]. by apply Hall.
    + destruct (find missing found) as [a|] eqn:E; [|done]. exfalso.
      apply List.find_some in E as [Ha Hma]. apply list_elem_of_In in Ha.
      apply Hm in Hma. apply Hma. by apply Hno.
Qed.

Lemma is_expected_name_spec name l : is_expected_name name l = true <-> name ∈ l.
Proof.
  unfold is_expected_name. rewrite existsb_exists. split.
  - intros (x & Hx & He). apply bool_decide_eq_true in He as ->. by apply list_elem_of_In.
  - intros Hin. exists name. rewrite bool_decide_true by done. by rewrite <- list_elem_of_In.
Qed.

Lemma unexpected_name {A B} (name : A -> string) (name' : B -> string) (expected : list B) a :
  negb (is_expected_name (name a) (map name' expected)) = true <->
  ~ exists b, b ∈ expected /\ name' b = name a.
Proof.
  rewrite negb_true_iff, <- not_true_iff_false, is_expected_name_spec, list_elem_of_fmap.
  split; intros Hn (b & H1 & H2); apply Hn; exists b; done.
Qed.

Lemma column_fits_true s column :
  negb (bool_decide (ColumnInfo.data_type column = ColumnSpec.data_type s))
  || negb (bool_decide (ColumnInfo.character_maximum_length column = ColumnSpec.maximum_length s))
  || negb (Bool.eqb (bool_decide (ColumnInfo.is_nullable column = "YES")) (ColumnSpec.nullable s))
  || negb (default_matches s column) || negb (identity_matches s column) = false <->
  column_fits s column.
Proof.
  unfold column_fits. rewrite !orb_false_iff, !negb_false_iff, !bool_decide_eq_true.
  assert (Hn : Bool.eqb (bool_decide (ColumnInfo.is_nullable column = "YES")) (ColumnSpec.nullable s)
               = true <-> (ColumnInfo.is_nullable column = "YES" <-> ColumnSpec.nullable s = true)).
  { rewrite Bool.eqb_true_iff. case_bool_decide; destruct (ColumnSpec.nullable s); naive_solver. }
  assert (Hd : default_matches s column = true <->
    (forall fragment, ColumnSpec.default_fragment s = Some fragment ->
       exists default, ColumnInfo.column_default column = Some default /\
         normalize_sql default = normalize_sql fragment)).
  { unfold default_matches, is_none_or, is_some_and.
    destruct (ColumnSpec.default_fragment s) as [f|]; [|naive_solver].
    destruct (ColumnInfo.column_default column) as [d|]; [|naive_solver].
    rewrite bool_decide_eq_true. naive_solver. }
  assert (Hi : identity_matches s column = true <->
    if ColumnSpec.identity s
    then ColumnInfo.is_identity column = "YES" /\ ColumnInfo.identity_generation column = Some "ALWAYS"
    else ColumnInfo.is_identity column = "NO").
  { unfold identity_matches. destruct (ColumnSpec.identity s);
      by rewrite ?andb_true_iff, !bool_decide_eq_true. }
  rewrite Hn, Hd, Hi. tauto.
Qed.

Lemma check_column_rows_Ok table expected columns :
  NoDup (map ColumnInfo.column_name columns) ->
  check_column_rows table expected columns = Ok tt <->
  exactly ColumnInfo.column_name ColumnSpec.name column_fits columns expected.
Proof.
  intros Hnd. unfold check_column_rows.
  match goal with |- context [find ?m columns] => set (missing := m) end.
  rewrite <- (exactly_iff _ _ _ missing); [|done|].
  - assert (Hall : all_ok (check_column table columns) expected = Ok tt <->
      Forall (fun b => exists a, find (fun a => bool_decide (ColumnInfo.column_name a
                = ColumnSpec.name b)) columns = Some a /\ column_fits b a) expected).
    { rewrite all_ok_Ok. apply Forall_iff. intros s. unfold check_column.
      destruct (find _ columns) as [a|]; [|naive_solver]. pose proof (column_fits_true s a) as Hf.
      destruct (_ || _ || _ || _ || _); naive_solver. }
    rewrite <- Hall. destruct (find missing columns); naive_solver.
  - intros a. unfold missing. rewrite negb_true_iff, <- not_true_iff_false, existsb_exists.
    split; intros Hn (b & H1 & H2); apply Hn; exists b;
      rewrite ?list_elem_of_In, ?bool_decide_eq_true in *; done.
Qed.

Lemma constraint_fits_true e a : constraint_matches a e = true <-> constraint_fits e a.
Proof.
  unfold constraint_matches, constraint_fits. cbv zeta.
  rewrite !andb_true_iff, orb_true_iff, !negb_true_iff, !bool_decide_eq_true, existsb_exists.
  assert (Hv : (exists x, In x (ConstraintContract.definition_variants e) /\
      bool_decide (normalize_sql (ConstraintInfo.definition a) = normalize_sql x) = true) <->
    exists x, x ∈ ConstraintContract.definition_variants e /\
      normalize_sql (ConstraintInfo.definition a) = normalize_sql x).
  { split; intros (x & H1 & H2); exists x; rewrite ?list_elem_of_In, ?bool_decide_eq_true in *; done. }
  rewrite Hv. tauto.
Qed.

Lemma check_constraints_Ok constraints :
  NoDup (map ConstraintInfo.name constraints) ->
  check_constraints constraints = Ok tt <->
  exactly ConstraintInfo.name ConstraintContract.name constraint_fits constraints
    expected_constraints.
Proof.
  intros Hnd. unfold check_constraints. generalize expected_constraints. intros expected.
  match goal with |- context [find ?m constraints] => set (missing := m) end.
  rewrite <- (exactly_iff _ _ _ missing); [|done|intros a; apply unexpected_name].
  rewrite bind_Ok, all_ok_Ok.
  assert (Hall : Forall (fun b => check_constraint constraints b = Ok tt) expected <->
    Forall (fun b => exists a, find (fun a => bool_decide (ConstraintInfo.name a
              = ConstraintContract.name b)) constraints = Some a /\ constraint_fits b a) expected).
  { apply Forall_iff. intros e. unfold check_constraint.
    destruct (find _ constraints) as [a|]; [|naive_solver]. pose proof (constraint_fits_true e a).
    destruct (constraint_matches a e); naive_solver. }
  rewrite Hall. destruct (find missing constraints); naive_solver.
Qed.

Lemma index_fits_true e a : index_matches a e = true <-> index_fits e a.
Proof.
  unfold index_matches, index_fits.
  rewrite !andb_true_iff, !negb_true_iff, Bool.eqb_true_iff, !bool_decide_eq_true, !Z.eqb_eq.
  assert (Hc : is_none_or (IndexContract.collations e)
      (fun collations => bool_decide (IndexInfo.collations a = collations)) = true <->
    forall collations, IndexContract.collations e = Some collations ->
      IndexInfo.collations a = collations).
  { unfold is_none_or. destruct (IndexContract.collations e); [|naive_solver].
    rewrite bool_decide_eq_true. naive_solver. }
  rewrite Hc. tauto.
Qed.

Lemma check_indexes_Ok indexes :
  NoDup (map IndexInfo.name indexes) ->
  check_indexes indexes = Ok tt <->
  exactly IndexInfo.name IndexContract.name index_fits indexes expected_indexes.
Proof.
  intros Hnd. unfold check_indexes. generalize expected_indexes. intros expected.
  match goal with |- context [find ?m indexes] => set (missing := m) end.
  rewrite <- (exactly_iff _ _ _ missing); [|done|intros a; apply unexpected_name].
  rewrite bind_Ok, all_ok_Ok.
  assert (Hall : Forall (fun b => check_index indexes b = Ok tt) expected <->
    Forall (fun b => exists a, find (fun a => bool_decide (IndexInfo.name a
              = IndexContract.name b)) indexes = Some a /\ index_fits b a) expected).
  { apply Forall_iff. intros e. unfold check_index.
    destruct (find _ indexes) as [a|]; [|naive_solver]. pose proof (index_fits_true e a).
    destruct (index_matches a e); naive_solver. }
  rewrite Hall. destruct (find missing indexes); naive_solver.
Qed.

Lemma check_markers_Ok sql rows : check_markers sql rows = Ok tt <-> rows = [shipped_marker].
Proof.
  unfold check_markers. destruct rows as [|marker [|m rows]]; [done| |done].
  change (current_migration sql) with (Ok (A := Migration.t) (E := string)
    (Migration.Make 2 sql (MigrationCompatibility.new (CrateVersion.new 0 2 0) None) false)).
  cbn [map_err].
  match goal with |- context [marker_matches_migration marker ?m] =>
    pose proof (marker_matches_Ok marker m) as Hm end.
  cbv zeta in Hm. cbn -[marker_matches_migration MigrationCompatibility.contains] in Hm.
  destruct (marker_matches_migration _ _) as [[]|e]; cbn [map_err].
  - split; [intros _|done]. by destruct (proj1 Hm eq_refl) as (_ & _ & _ & _ & _ & _ & ->).
  - split; [done|]. intros [= ->]. enough (Err e = Ok (A := unit) tt) by done. apply Hm. by vm_compute.
Qed.

Context `{PgEnv, PgCatalogEnv} (sql : string).

(** The verdict on a catalog. *)
Definition schema_verdict (c : Catalog) : Result unit SchemaError.t :=
  let? namespace := ok_or (current_schema c)
                      (mismatch "the transaction has no resolvable current schema") in
  let name := NamespaceInfo.name namespace in
  let oid := NamespaceInfo.oid namespace in
  let? _ := check_column_rows "dovecote_schema" marker_columns
              (columns_of c name "dovecote_schema") in
  let? _ := check_markers sql (markers c) in
  let? _ := check_column_rows "dovecote_events" events_columns
              (columns_of c name "dovecote_events") in
  let? _ := check_column_rows "dovecote_deliveries" deliveries_columns
              (columns_of c name "dovecote_deliveries") in
  let? _ := check_constraints (constraints_of c oid) in
  check_indexes (indexes_of c oid).

Lemma pg_schema_verdict_Ok c :
  unique_names c -> schema_verdict c = Ok tt <-> exists namespace, schema_ok c namespace.
Proof.
  intros [Hc Hk Hi]. unfold schema_verdict. destruct (current_schema c) as [ns|] eqn:En; simpl.
  2: { split; [done|]. intros (ns' & [Hn _ _ _ _ _ _]). congruence. }
  rewrite !bind_Ok, !check_column_rows_Ok, check_markers_Ok, check_constraints_Ok, check_indexes_Ok
    by done.
  split.
  - intros H'. destruct_and!. exists ns. by constructor.
  - intros (ns' & [Hn ? ? ? ? ? ?]). rewrite En in Hn. injection Hn as <-. done.
Qed.

(** The check writes nothing, whatever the engine answers. *)
Lemma pg_catalog_query_reads (Hisolated : isolated) {A} op (f : Catalog -> A) :
  reads (catalog_query op f).
Proof. unfold catalog_query. reads_step. Qed.

Lemma pg_check_schema_reads (Hisolated : isolated) : reads (check_schema_connection sql).
Proof.
  pose proof @pg_catalog_query_reads.
  unfold check_schema_connection, resolve_namespace, check_columns. reads_step.
Qed.

(** ** On an engine that answers *)

Section Verdict.
Context (c : Catalog) (Hok : forall n, sql_fault n = None) (Hcat : forall n, catalog n = c).

(** A connection that accepts statements. *)
Definition ready (w : World) : Prop := forall t, txn w = Some t -> failed t = false.

(** A step that answers [v]. *)
Definition yields {A} (m : M A) (v : A) : Prop :=
  forall w, ready w -> exists w', m w = Some (v, w') /\ ready w'.

Lemma pg_yields_ret {A} (a : A) : yields (ret a) a.
Proof. intros w Hw. by exists w. Qed.

Lemma pg_yields_try {A B E} (m : M (Result A E)) (k : A -> M (Result B E)) v (r : A -> Result B E) :
  yields m v -> (forall a, v = Ok a -> yields (k a) (r a)) ->
  yields (try* a := m else (fun e => e) in k a) (let? a := v in r a).
Proof.
  intros Hm Hk w Hw. destruct (Hm w Hw) as (w1 & Hr & Hw1). rewrite (bind_run _ _ _ _ _ Hr).
  destruct v as [a|e]; [by apply Hk|]. by exists w1.
Qed.

Lemma pg_catalog_query_yields {A} op (f : Catalog -> A) : yields (catalog_query op f) (Ok (f c)).
Proof.
  intros w Hw. unfold catalog_query, query, statement, bind, ret. rewrite Hok, Hcat.
  destruct (txn w) as [t|] eqn:Et.
  - pose proof (Hw t Et) as Hf. rewrite Hf. eexists. split; [reflexivity|]. intros t' [= <-]. simpl.
    unfold take_snapshot. by destruct (snapshot t) as [[]|].
  - eexists. split; [reflexivity|]. done.
Qed.

(** One query and a check of its rows. *)
Lemma pg_checked_query_yields {A B} op (f : Catalog -> A) (check : A -> Result B SchemaError.t) :
  yields (try* rows := catalog_query op f else (fun e => e) in ret (check rows)) (check (f c)).
Proof.
  eapply (pg_yields_try _ _ (Ok (f c)) check); [apply pg_catalog_query_yields|].
  intros rows _. apply pg_yields_ret.
Qed.

Lemma pg_check_schema_yields : yields (check_schema_connection sql) (schema_verdict c).
Proof.
  unfold check_schema_connection, schema_verdict.
  eapply pg_yields_try; [apply pg_checked_query_yields|]. intros ns _.
  eapply pg_yields_try; [apply pg_checked_query_yields|]. intros [] _.
  eapply (pg_yields_try _ _ (Ok (markers c)) (fun rows => let? _ := check_markers sql rows in _));
    [apply pg_catalog_query_yields|]. intros rows [= <-].
  destruct (check_markers sql (markers c)) as [[]|]; [|apply pg_yields_ret].
  eapply pg_yields_try; [apply pg_checked_query_yields|]. intros [] _.
  eapply pg_yields_try; [apply pg_checked_query_yields|]. intros [] _.
  eapply (pg_yields_try _ _ (Ok (constraints_of c _)) (fun rows => let? _ := check_constraints rows in _));
    [apply pg_catalog_query_yields|]. intros rows [= <-].
  destruct (check_constraints _) as [[]|]; [|apply pg_yields_ret].
  apply pg_checked_query_yields.
Qed.

End Verdict.
End Accepts.
