(* ===== verification/PgEnqueue.v ===== *)
(** * Enqueue of the PostgreSQL adapter (crates/dovecote-sqlx-postgres/src/enqueue.rs)

    Insertion of an event and its delivery in the caller's transaction, with
    idempotency on the identity of tenant, source and event id. *)

From S2P Require Import Prelude Step Utf8 BTree Errors Limits Validation Bounds Values Extension Serialization Event State Tables Queries RowHydration External Overlay Others Instants Migration PgError PgMigration Pg PgHydrate PgSchema.

(** ** The SQL statements *)

(** [INSERT INTO dovecote_events ... ON CONFLICT (tenant_id, source, event_id) DO
    NOTHING RETURNING row_id, enqueued_at]: CHECK, the arbiter index, then the
    primary key *)
Definition insert_event_sql `{PgEnv} (tenant : string) (columns : EventRow.t_of Z) (enqueued_at : Z)
    (n : nat) (db : Db) : Result (option (Z * Z) * Own Z) SqlxError.t :=
  let r := new_event_row (identity_value n db) tenant columns enqueued_at in
  if negb (Events.check r) then Err check_failed
  else if existsb (Events.has_identity tenant (EventRow.source columns)
                     (EventRow.event_id columns)) (events db)
  then Ok (None, nothing)
  else if existsb (fun e => Events.row_id e =? Events.row_id r) (events db) then Err unique_failed
  else Ok (Some (Events.row_id r, Events.enqueued_at r), MkOwn [r] [] [Events.row_id r]).

(** An [INSERT] into [dovecote_deliveries]: CHECK, primary key and foreign key *)
Definition insert_delivery_row (r : Deliveries.row_of Z) (db : Db) :
    Result (unit * Own Z) SqlxError.t :=
  if negb (Deliveries.check r) then Err check_failed
  else if existsb (fun d => Deliveries.event_row_id d =? Deliveries.event_row_id r) (deliveries db)
  then Err unique_failed
  else if negb (existsb (join_condition r) (events db)) then Err foreign_key_failed
  else Ok (tt, MkOwn [] [r] []).

(** ** The operation *)

Section Enqueue.
Context `{SerdeJson, Base64, MimeLib, FluentUri, RustDebug, PgEnv, PgCatalogEnv}.
(** the text of migrations/0002_dovecote_tenant_baseline.sql *)
Context (tenant_baseline_sql : string).

(** [CURRENT_TIMESTAMP], the default of [enqueued_at] *)
Definition current_timestamp : M Z :=
  fun w => Some (match txn w with
                 | Some t => started_at t
                 | None => clock_timestamp (tick w)
                 end, w).

Definition same_event (event : NewEvent.t) (existing : ExistingEvent.t_of Z) : bool :=
  let c := NewEvent.content event in
  bool_decide (StreamName.as_str (EventContent.stream c) = ExistingEvent.stream existing)
  && bool_decide (SPEC_VERSION = ExistingEvent.specversion existing)
  && bool_decide (EventId.as_str (EventContent.id c) = ExistingEvent.event_id existing)
  && bool_decide (EventSource.as_str (EventContent.source c) = ExistingEvent.source existing)
  && bool_decide (EventType.as_str (EventContent.event_type c)
                  = ExistingEvent.event_type existing)
  && bool_decide (option_map EventSubject.as_str (EventContent.subject c)
                  = ExistingEvent.subject existing)
  && same_instant (EventContent.time c) (ExistingEvent.occurred_at existing)
  && bool_decide (option_map ContentType.as_str (EventContent.datacontenttype c)
                  = ExistingEvent.datacontenttype existing)
  && bool_decide (option_map SchemaUri.as_str (EventContent.dataschema c)
                  = ExistingEvent.dataschema existing)
  && bool_decide (option_map PartitionKey.as_str (EventContent.partitionkey c)
                  = ExistingEvent.partitionkey existing)
  && bool_decide (Extensions.canonical_json (EventContent.extensions c)
                  = ExistingEvent.extensions existing)
  && bool_decide (data_kind_of (EventContent.data c) = ExistingEvent.data_kind existing)
  && bool_decide (option_map EventData.as_bytes (EventContent.data c)
                  = ExistingEvent.data existing).

Definition validate_existing_event (existing : ExistingEvent.t_of Z) : Result unit string :=
  map_ok (fun _ => tt) (hydrate_event (ExistingEvent.columns existing)).

(** The row of [pg_namespace] with whether the three tables are in [pg_class]. *)
Record EnqueueSchemaSelection : Type := MkSelection {
  schema_name : string;
  marker_table : bool;
  events_table : bool;
  deliveries_table : bool;
}.

Definition schema_selection (c : Catalog) : option EnqueueSchemaSelection :=
  option_map (fun namespace =>
    MkSelection (NamespaceInfo.name namespace) (bool_decide ("dovecote_schema" ∈ relations c))
      (bool_decide ("dovecote_events" ∈ relations c))
      (bool_decide ("dovecote_deliveries" ∈ relations c))) (current_schema c).

Definition validate_enqueue_schema : M (Result unit EnqueueError.t) :=
  try* selection := query (fun n _ => schema_selection (catalog n))
       else EnqueueError.sql "validate enqueue schema selection" in
  match selection with
  | None => ret (Err (EnqueueError.MigrationMismatch
                        "the caller transaction has no current schema"))
  | Some selection =>
      if negb (marker_table selection) || negb (events_table selection)
         || negb (deliveries_table selection)
      then ret (Err (EnqueueError.MigrationMismatch
                       ("current schema " +:+ schema_name selection
                        +:+ " does not contain the Dovecote tables")))
      else
        try* marker := query (fun n _ => head (markers (catalog n)))
             else EnqueueError.sql "check enqueue schema marker" in
        match marker with
        | None => ret (Err (EnqueueError.MigrationMismatch "schema marker is missing"))
        | Some marker =>
            ret (map_err EnqueueError.MigrationMismatch
                   (let? migration := current_migration tenant_baseline_sql in
                    marker_matches_migration marker migration))
        end
  end.

(** The [let Some(inserted) = inserted else] branch. *)
Definition resolve_duplicate (tenant_id : TenantId.t) (event : NewEvent.t) :
    M (Result EnqueueOutcome.t EnqueueError.t) :=
  let columns := event_columns (NewEvent.content event) in
  try* existing := query (fun _ => find_existing_sql (TenantId.as_str tenant_id)
                            (EventRow.source columns) (EventRow.event_id columns))
       else EnqueueError.sql "find duplicate event" in
  match existing with
  | None => ret (Err (EnqueueError.sql "resolve duplicate event"
              (SqlxError.Protocol "expected a row after a successful identity lookup")))
  | Some existing =>
      match RowId.new (ExistingEvent.row_id existing) with
      | Err error =>
          ret (Err (EnqueueError.serialization (ValidationError.to_string error)))
      | Ok existing_id =>
          match validate_existing_event existing with
          | Err detail => ret (Err (EnqueueError.serialization detail))
          | Ok _ =>
              if negb (same_event event existing)
              then ret (Err (EnqueueError.IdempotencyConflict existing_id))
              else
                try* delivery_exists :=
                  query (fun _ db => existsb (delivery_of (TenantId.as_str tenant_id)
                                                (ExistingEvent.row_id existing)) (deliveries db))
                  else EnqueueError.sql "check duplicate delivery" in
                if negb delivery_exists
                then ret (Err (EnqueueError.MigrationMismatch
                                 "an existing event has no delivery row"))
                else ret (Ok (EnqueueOutcome.AlreadyEnqueued existing_id))
          end
      end
  end.

Definition enqueue_for_scope (tenant_id : TenantId.t) (event : NewEvent.t) :
    M (Result EnqueueOutcome.t EnqueueError.t) :=
  try* _ := validate_enqueue_schema else (fun e => e) in
  let columns := event_columns (NewEvent.content event) in
  let* now := current_timestamp in
  try* inserted := statement (insert_event_sql (TenantId.as_str tenant_id) columns now)
       else EnqueueError.sql "insert event" in
  match inserted with
  | None => resolve_duplicate tenant_id event
  | Some (inserted_row_id, enqueued_at) =>
      match RowId.new inserted_row_id with
      | Err error =>
          ret (Err (EnqueueError.serialization (ValidationError.to_string error)))
      | Ok row_id =>
          try* _ := statement (fun _ => insert_delivery_row
                      (pending_row (TenantId.as_str tenant_id) inserted_row_id
                         (encode_instant (decode_instant enqueued_at))))
               else EnqueueError.sql "insert delivery" in
          ret (Ok (EnqueueOutcome.Enqueued row_id))
      end
  end.
End Enqueue.

(** ** What the statements do *)

Section StatementFacts.
Context `{SerdeJson, Base64, MimeLib, FluentUri, RustDebug, PgEnv}.

Lemma pg_insert_event_Ok tenant columns enqueued_at n db inserted o :
  insert_event_sql tenant columns enqueued_at n db = Ok (inserted, o) ->
  match inserted with
  | None => o = nothing /\ exists e, e ∈ events db /\
      event_identity e = (tenant, EventRow.source columns, EventRow.event_id columns)
  | Some (id, at_) =>
      let r := new_event_row id tenant columns enqueued_at in
      at_ = enqueued_at /\ 0 < id /\ Events.check r = true /\ o = MkOwn [r] [] [id] /\
      id ∉ event_keys db /\
      (tenant, EventRow.source columns, EventRow.event_id columns) ∉ map event_identity (events db)
  end.
Proof.
  unfold insert_event_sql. cbv zeta. set (id := identity_value n db).
  destruct (Events.check _) eqn:Ec; cbn [negb]; [|done].
  destruct (existsb (Events.has_identity _ _ _) _) eqn:Ei.
  - intros [= <- <-]. split; [done|]. apply existsb_exists in Ei as (e & Hin & Hid).
    apply has_identity_spec in Hid. exists e. by rewrite list_elem_of_In.
  - case_match eqn:Ek; [done|]. intros [= <- <-]. simpl.
    split; [done|]. split; [|split; [done|split; [done|split]]].
    + unfold Events.check in Ec. by bools.
    + intros Hin. apply list_elem_of_fmap in Hin as (e & He & Hin). apply not_true_iff_false in Ek.
      apply Ek, existsb_exists. exists e. rewrite <- list_elem_of_In. split; [done|]. simpl. lia.
    + intros Hin. apply list_elem_of_fmap in Hin as (e & He & Hin). apply not_true_iff_false in Ei.
      apply Ei, existsb_exists. exists e. rewrite <- list_elem_of_In. split; [done|].
      by apply has_identity_spec.
Qed.

Lemma pg_insert_event_wf tenant columns enqueued_at n db inserted o :
  insert_event_sql tenant columns enqueued_at n db = Ok (inserted, o) ->
  db_wf db -> db_wf (overlay o db).
Proof.
  intros Hi Hwf. apply pg_insert_event_Ok in Hi. destruct inserted as [[id at_]|].
  - destruct Hi as (-> & _ & Hc & -> & Hk & Hid). rewrite overlay_event by done.
    by apply with_event_wf.
  - destruct Hi as [-> _]. by rewrite overlay_nothing.
Qed.

Lemma pg_insert_delivery_Ok r db o :
  insert_delivery_row r db = Ok (tt, o) ->
  o = MkOwn [] [r] [] /\ Deliveries.check r = true /\ Deliveries.event_row_id r ∉ delivery_keys db /\
  exists e, e ∈ events db /\ join_condition r e = true.
Proof.
  unfold insert_delivery_row. destruct (Deliveries.check r) eqn:Ec; cbn [negb]; [|done].
  case_match eqn:Ek; [done|].
  destruct (existsb (join_condition r) _) eqn:Ej; cbn [negb]; [|done]. intros [= <-].
  split; [done|]. split; [done|]. split.
  - intros Hin. apply list_elem_of_fmap in Hin as (d & He & Hin). apply not_true_iff_false in Ek.
    apply Ek, existsb_exists. exists d. rewrite <- list_elem_of_In. split; [done|]. lia.
  - apply existsb_exists in Ej as (e & Hin & He). exists e. by rewrite list_elem_of_In.
Qed.

Lemma pg_insert_delivery_wf r db o :
  insert_delivery_row r db = Ok (tt, o) -> db_wf db -> db_wf (overlay o db).
Proof.
  intros Hi Hwf. apply pg_insert_delivery_Ok in Hi as (-> & Hc & Hk & e & He & Hj).
  rewrite overlay_delivery by done. apply join_condition_spec in Hj as [Ht Hi].
  by eapply with_delivery_wf.
Qed.

Context {TL : TimeLaws} {IL : InstantColumnLaws} {PL : PgTimeLaws}.

Lemma pg_same_event_columns event existing :
  option_all portable_instant (EventContent.time (NewEvent.content event)) ->
  same_event event existing = true <->
  ExistingEvent.columns existing = event_columns (NewEvent.content event).
Proof.
  intros Ht. unfold same_event, ExistingEvent.columns, event_columns, event_columns_with.
  rewrite !andb_true_iff, !bool_decide_eq_true, same_instant_encoded by done. split.
  - intros H'. by repeat match goal with H : _ /\ _ |- _ => destruct H as [? <-] end;
      match goal with H : _ = ExistingEvent.stream _ |- _ => rewrite <- H end.
  - intros [=]. by repeat split.
Qed.
End StatementFacts.

(** ** What an enqueue does *)

Section EnqueueSpec.
Context `{SerdeJson, Base64, MimeLib, FluentUri, RustDebug, PgEnv, PgCatalogEnv}.
Context {TL : TimeLaws} {IL : InstantColumnLaws} {PL : PgTimeLaws}.
Context (sql : string) (tenant_id : TenantId.t) (event : NewEvent.t).
Context (Hisolated : isolated).
Context (Htime : option_all portable_instant (EventContent.time (NewEvent.content event))).

Let tenant := TenantId.as_str tenant_id.
Let columns := event_columns (NewEvent.content event).

(** the identity of the unique index *)
Definition identity : string * string * string :=
  (tenant, EventRow.source columns, EventRow.event_id columns).

(** The event stored under the identity with row [id]. *)
Definition stored (id : RowId.t) (e : Events.row_of Z) (db : Db) : Prop :=
  e ∈ events db /\ event_identity e = identity /\ Events.row_id e = RowId.get id.

(** Errors other than the idempotency conflict. *)
Definition plain (e : EnqueueError.t) : Prop :=
  match e with EnqueueError.IdempotencyConflict _ => False | _ => True end.

Lemma pg_sql_plain op e : plain (EnqueueError.sql op e).
Proof. unfold EnqueueError.sql. by destruct (TransientKind.from_sqlx e). Qed.

Lemma pg_validate_enqueue_reads : reads (validate_enqueue_schema sql).
Proof. unfold validate_enqueue_schema. reads_step. Qed.

Lemma pg_validate_enqueue_plain w e w' :
  validate_enqueue_schema sql w = Some (Err e, w') -> plain e.
Proof.
  unfold validate_enqueue_schema. intros Hr. run_inv Hr.
  destruct r as [[s|]|e']; [|by run_inv Hr; simplify_eq|run_inv Hr; simplify_eq; apply pg_sql_plain].
  destruct (_ || _ || _); [by run_inv Hr; simplify_eq|]. run_inv Hr.
  destruct r as [[m|]|e']; [|by run_inv Hr; simplify_eq|run_inv Hr; simplify_eq; apply pg_sql_plain].
  run_inv Hr. match goal with Hx : _ = map_err _ ?x |- _ => destruct x end; simplify_eq/=. done.
Qed.

(** What the duplicate branch answers. *)
Lemma pg_resolve_duplicate_open w t r w' :
  open_at w t -> resolve_duplicate tenant_id event w = Some (r, w') ->
  during (own_locks (own t)) (committed w) (committed w') /\
  match r with
  | Ok (EnqueueOutcome.Enqueued _) => False
  | Ok (EnqueueOutcome.AlreadyEnqueued id) => open_at w' t /\
      sometime t w w' (fun db => exists e, stored id e db /\ row_columns e = columns) /\
      sometime t w w' (fun db => exists d, d ∈ deliveries db /\
                                   delivery_of tenant (RowId.get id) d = true)
  | Err (EnqueueError.IdempotencyConflict id) => open_at w' t /\
      sometime t w w' (fun db => exists e, stored id e db /\ row_columns e <> columns)
  | Err _ => exists t', settled w' t' /\ own t' = own t
  end.
Proof.
  intros Ho. unfold resolve_duplicate. intros Hr. run_inv Hr.
  destruct r0 as [existing|e].
  2: { destruct (query_failed Hisolated _ _ _ _ _ Ho Hm) as [Hd Ht]. run_inv Hr. split; [done|].
       pose proof (pg_sql_plain "find duplicate event" e). by destruct (EnqueueError.sql _ e). }
  destruct (query_seen Hisolated _ _ _ _ _ Ho Hm) as (Ho0 & Hd0 & Hs0).
  assert (Hset : forall w1, open_at w1 t -> exists t', settled w1 t' /\ own t' = own t)
    by (intros w1 Ho1; exists t; split; [apply Ho1|done]).
  destruct existing as [x|].
  2: { run_inv Hr. split; [done|]. by apply Hset. }
  destruct (RowId.new (ExistingEvent.row_id x)) as [id|ve] eqn:Eid.
  2: { run_inv Hr. split; [done|]. by apply Hset. }
  apply RowId_new_Ok in Eid as [Hget _].
  destruct (validate_existing_event x) as [[]|de].
  2: { run_inv Hr. split; [done|]. by apply Hset. }
  assert (Hsx : sometime t w w0 (fun db => exists e, stored id e db /\
            row_columns e = ExistingEvent.columns x)).
  { eapply sometime_impl; [|exact Hs0]. intros db _ (n & Hx). symmetry in Hx.
    apply find_existing_columns in Hx as (e & He & Hid & Hrow & Hcols & _).
    exists e. unfold stored. by rewrite Hget, Hrow. }
  destruct (same_event event x) eqn:Es; cbn [negb] in Hr.
  2: { run_inv Hr. split; [done|]. split; [done|]. eapply sometime_impl; [|exact Hsx].
       intros db _ (e & Hst & Hcols). exists e. split; [done|]. rewrite Hcols. intros Heq.
       apply not_true_iff_false in Es. by apply Es, pg_same_event_columns. }
  apply pg_same_event_columns in Es; [|done]. rewrite Es in Hsx. run_inv Hr.
  destruct r0 as [b|e].
  2: { destruct (query_failed Hisolated _ _ _ _ _ Ho0 Hm0) as [Hd Ht]. run_inv Hr.
       split; [by eapply during_trans|].
       pose proof (pg_sql_plain "check duplicate delivery" e). by destruct (EnqueueError.sql _ e). }
  destruct (query_seen Hisolated _ _ _ _ _ Ho0 Hm0) as (Ho1 & Hd1 & Hs1).
  destruct b; run_inv Hr; (split; [by eapply during_trans|]); [|by apply Hset].
  split; [done|]. split; [by eapply sometime_after|]. eapply sometime_before; [exact Hd0|].
  eapply sometime_impl; [|exact Hs1]. intros db _ (_ & Hb). symmetry in Hb.
  apply existsb_exists in Hb as (d & Hin & Hdel). exists d. rewrite list_elem_of_In, Hget. done.
Qed.

(** What enqueue does to the open transaction [t]. *)
Definition enqueue_effect (w : World) (t : Txn) (r : Result EnqueueOutcome.t EnqueueError.t)
    (w' : World) : Prop :=
  during (own_locks (own t)) (committed w) (committed w') /\
  match r with
  | Ok (EnqueueOutcome.Enqueued id) =>
      let row := new_event_row (RowId.get id) tenant columns (started_at t) in
      Events.check row = true /\
      since [RowId.get id] t w w' (fun db => identity ∉ map event_identity (events db) /\
                                             RowId.get id ∉ event_keys db) /\
      open_at w' (with_own (own_app (own t)
        (MkOwn [row] [pending_row tenant (RowId.get id) (started_at t)] [RowId.get id])) t)
  | Ok (EnqueueOutcome.AlreadyEnqueued id) => open_at w' t /\
      sometime t w w' (fun db => exists e, stored id e db /\ row_columns e = columns) /\
      sometime t w w' (fun db => exists d, d ∈ deliveries db /\
                                   delivery_of tenant (RowId.get id) d = true)
  | Err (EnqueueError.IdempotencyConflict id) => open_at w' t /\
      sometime t w w' (fun db => exists e, stored id e db /\ row_columns e <> columns)
  | Err _ => exists t', settled w' t' /\ (own t' = own t \/ failed t' = true)
  end.

Lemma pg_enqueue_run w t r w' :
  open_at w t -> enqueue_for_scope sql tenant_id event w = Some (r, w') -> enqueue_effect w t r w'.
Proof.
  intros Ho. unfold enqueue_for_scope. intros Hr. run_inv Hr.
  pose proof (reads_open _ _ _ _ _ pg_validate_enqueue_reads Ho Hm) as [Hd0 Hv].
  destruct r0 as [[]|e].
  2: { apply pg_validate_enqueue_plain in Hm. run_inv Hr. split; [done|].
       destruct Hv as (t' & Hs' & Hown). by destruct e; eauto. }
  clear Hm. rename Hv into Ho0. run_inv Hr. unfold current_timestamp in Hm. injection Hm as <- <-.
  assert (Htx : txn w0 = Some t) by apply Ho0. rewrite Htx in Hr. run_inv Hr.
  destruct (write_open Hisolated _ _ _ _ _ Ho0 Hm) as [Hd1 Hx];
    [intros a o Hf; by eapply pg_insert_event_wf|].
  pose proof (during_trans _ _ _ _ Hd0 Hd1) as Hd01.
  destruct r0 as [inserted|e].
  2: { run_inv Hr. split; [done|]. destruct Hx as (t' & Hs' & Hown & _).
       pose proof (pg_sql_plain "insert event" e). destruct (EnqueueError.sql _ e); eauto; done. }
  destruct Hx as (o & Hins & Hview & Ho1). apply pg_insert_event_Ok in Hins.
  destruct inserted as [[id at_]|].
  2: { destruct Hins as [-> _]. rewrite own_app_nothing_r, with_own_id in Ho1.
       apply (pg_resolve_duplicate_open _ _ _ _ Ho1) in Hr as [Hd2 Hr].
       split; [by eapply during_trans|].
       destruct r as [[id|id]|e]; [done| |destruct e; try (destruct Hr as (t' & ? & ?); by eauto)].
       - destruct Hr as (? & ? & ?). split_and!; [done| |]; by eapply sometime_before.
       - destruct Hr as (? & ?). split; [done|]. by eapply sometime_before. }
  destruct Hins as (-> & Hpos & Hck & -> & Hk & Hid).
  rewrite (proj2 (RowId_new_Ok id (RowId.Make id))) in Hr by done. run_inv Hr.
  destruct (write_open Hisolated _ _ _ _ _ Ho1 Hm0) as [Hd2 Hx];
    [intros [] o Hf; by eapply pg_insert_delivery_wf|]. simpl in Hd2.
  assert (Hfresh : since [id] t w w2 (fun db => identity ∉ map event_identity (events db) /\
                                                id ∉ event_keys db)).
  { exists (committed w1). split_and!; [done..|by apply Ho1|done|done|done]. }
  apply (during_mono _ (own_locks (own t))) in Hd2; [|set_solver].
  destruct r0 as [[]|e]; run_inv Hr; (split; [by eapply during_trans|]).
  - destruct Hx as (o & Hdel & _ & Ho2). apply pg_insert_delivery_Ok in Hdel as (-> & _).
    cbv zeta. cbn [RowId.get]. split; [done|]. split; [done|].
    rewrite with_own_app, encode_decode in Ho2. exact Ho2.
  - destruct Hx as (t' & Hs' & _ & Hfail).
    pose proof (pg_sql_plain "insert delivery" e). destruct (EnqueueError.sql _ e); eauto; done.
Qed.

(** C18: enqueue in a caller's PostgreSQL transaction, while other connections
    commit between any two of its statements. It reports [Enqueued] only after
    a statement saw neither the identity nor the row id, and then the
    transaction has written exactly the event's row, with the transaction's
    start as its time, and its pending delivery; [AlreadyEnqueued] only when it
    saw the stored event of that identity with the same columns, and a delivery
    of it; [IdempotencyConflict] only when it saw other columns. It writes
    nothing in any other case, or the transaction has failed and cannot
    commit, and it always returns. *)
Theorem pg_enqueue_outcomes w t :
  open_at w t ->
  exists r w', enqueue_for_scope sql tenant_id event w = Some (r, w') /\ enqueue_effect w t r w'.
Proof.
  intros Ho. assert (Hret : returns (enqueue_for_scope sql tenant_id event)).
  { unfold enqueue_for_scope, resolve_duplicate, current_timestamp.
    pose proof (pg_reads_returns _ pg_validate_enqueue_reads).
    returns_step; intros w1; by eexists. }
  destruct (Hret w) as [[r w'] Hr]. exists r, w'. split; [done|]. by apply pg_enqueue_run.
Qed.
End EnqueueSpec.
