(* ===== verification/PgCanonical.v ===== *)
(** * Canonical delivery rows of the PostgreSQL adapter (crates/dovecote-sqlx-postgres/src/delivery_state.rs)

    The delivery columns the migration workflows compare, and the shapes import
    writes and finalization accepts. *)

From S2P Require Import Prelude BTree Errors Limits Validation Bounds Values Extension Serialization Event State Tables Queries RowHydration External Overlay Others Instants Pg PgHydrate.

Section Canonical.
Context `{PgEnv}.

Definition canonical (row : DeliveryRow.t_of Z) (enqueued_at : OffsetDateTime) : bool :=
  (DeliveryRow.attempts row =? 0)
  && is_none (DeliveryRow.claim_token row)
  && is_none (DeliveryRow.claimed_by row)
  && is_none (DeliveryRow.claim_expires_at row)
  && is_none (DeliveryRow.last_failure_code row)
  && is_none (DeliveryRow.last_failure_detail row)
  && is_none (DeliveryRow.quarantined_at row)
  && is_none (DeliveryRow.quarantine_reason row)
  && instant_eqb (decode_instant (DeliveryRow.available_at row)) enqueued_at.

Definition canonical_pending (row : DeliveryRow.t_of Z) (enqueued_at : OffsetDateTime) : bool :=
  canonical row enqueued_at && bool_decide (DeliveryRow.state row = "pending")
  && is_none (DeliveryRow.delivered_at row).

(** The wildcard arm of the match is for states the enum does not have. *)
Definition matches_import (row : DeliveryRow.t_of Z) (state : ImportedDeliveryState.t)
    (enqueued_at : OffsetDateTime) : Result bool string :=
  let canonical := canonical row enqueued_at in
  match state with
  | ImportedDeliveryState.Pending =>
      Ok (canonical && bool_decide (DeliveryRow.state row = "pending")
          && is_none (DeliveryRow.delivered_at row))
  | ImportedDeliveryState.Delivered delivered_at =>
      Ok (canonical && bool_decide (DeliveryRow.state row = "delivered")
          && same_instant (Some delivered_at) (DeliveryRow.delivered_at row))
  end.

(** the state column and delivery time of an imported state *)
Definition imported_columns (state : ImportedDeliveryState.t) : string * option Z :=
  match state with
  | ImportedDeliveryState.Pending => ("pending", None)
  | ImportedDeliveryState.Delivered delivered_at =>
      ("delivered", Some (encode_instant delivered_at))
  end.

(** the delivery time of an imported state can be stored *)
Definition state_portable (state : ImportedDeliveryState.t) : Prop :=
  match state with
  | ImportedDeliveryState.Pending => True
  | ImportedDeliveryState.Delivered delivered_at => portable_instant delivered_at
  end.

(** ** The rows of the canonical shapes *)

Context {TL : TimeLaws} {IL : InstantColumnLaws} {PL : PgTimeLaws}.

Lemma pg_canonical_row d enqueued_at :
  canonical (DeliveryRow.of_row d) (decode_instant enqueued_at) = true <->
  d = untouched_row (Deliveries.tenant_id d) (Deliveries.event_row_id d) (Deliveries.state d)
        enqueued_at (Deliveries.delivered_at d).
Proof.
  unfold canonical, DeliveryRow.of_row, untouched_row. cbn. rewrite decode_eqb.
  rewrite !andb_true_iff, !is_none_true, !Z.eqb_eq.
  destruct d. cbn. split; [intros H'; by destruct_and!; subst|intros [=]; by subst].
Qed.

Lemma pg_canonical_pending_row d enqueued_at :
  canonical_pending (DeliveryRow.of_row d) (decode_instant enqueued_at) = true <->
  d = untouched_row (Deliveries.tenant_id d) (Deliveries.event_row_id d) "pending" enqueued_at None.
Proof.
  unfold canonical_pending. rewrite !andb_true_iff, pg_canonical_row, bool_decide_eq_true, is_none_true.
  unfold untouched_row. destruct d. cbn in *.
  split; [intros H'; destruct_and!; by simplify_eq|by intros [=]; simplify_eq].
Qed.

Lemma pg_canonical_delivered_row d enqueued_at delivered_at :
  portable_instant delivered_at ->
  canonical (DeliveryRow.of_row d) (decode_instant enqueued_at) = true /\
  DeliveryRow.state (DeliveryRow.of_row d) = "delivered" /\
  same_instant (Some delivered_at) (DeliveryRow.delivered_at (DeliveryRow.of_row d)) = true <->
  d = untouched_row (Deliveries.tenant_id d) (Deliveries.event_row_id d) "delivered" enqueued_at
        (Some (encode_instant delivered_at)).
Proof.
  intros Hp. rewrite pg_canonical_row, same_instant_encoded by done.
  unfold untouched_row. destruct d. cbn in *.
  split; [intros H'; destruct_and!; by simplify_eq|by intros [=]; simplify_eq].
Qed.

Lemma pg_matches_import_row d state enqueued_at :
  state_portable state ->
  matches_import (DeliveryRow.of_row d) state (decode_instant enqueued_at) = Ok true <->
  d = untouched_row (Deliveries.tenant_id d) (Deliveries.event_row_id d)
        (imported_columns state).1 enqueued_at (imported_columns state).2.
Proof.
  unfold matches_import. cbv zeta.
  destruct state as [|t]; cbn [imported_columns fst snd state_portable]; intros Hp; rewrite (inj_iff Ok).
  - rewrite <- pg_canonical_pending_row. done.
  - rewrite <- (pg_canonical_delivered_row d enqueued_at t Hp).
    rewrite !andb_true_iff, bool_decide_eq_true. tauto.
Qed.
End Canonical.
