(* ===== verification/PgFinalize.v ===== *)
(** * Finalization of the PostgreSQL adapter (crates/dovecote-sqlx-postgres/src/finalize.rs)

    The migration-only completion of an untouched pending delivery. The delivery
    is locked before it is inspected, so what the update finds is what was
    inspected. *)

From S2P Require Import Prelude Step Utf8 BTree Errors Limits Validation Bounds Values Extension Serialization Event State Tables Queries RowHydration External Overlay Others Instants Migration Leases PgError PgMigration Pg PgHydrate PgSchema PgCanonical.

Definition map_schema_error (error : SchemaError.t) : FinalizeError.t :=
  match error with
  | SchemaError.MigrationMismatch detail => FinalizeError.MigrationMismatch detail
  | SchemaError.Sql operation source => FinalizeError.Sql operation source
  | SchemaError.Transient operation kind source => FinalizeError.Transient operation kind source
  end.

Section Finalize.
Context `{PgEnv, PgCatalogEnv}.
Context (tenant_baseline_sql : string).

Definition finalize_for_scope (tenant_id : TenantId.t) (row_id : RowId.t)
    (delivered_at : OffsetDateTime) : M (Result FinalizeOutcome.t FinalizeError.t) :=
  match ImportedDeliveryState.delivered delivered_at with
  | Err source => ret (Err (FinalizeError.InvalidTimestamp source))
  | Ok _ =>
      try* _ := check_schema_connection tenant_baseline_sql else map_schema_error in
      try* event := query (fun _ => select_enqueued_at_sql (TenantId.as_str tenant_id)
                             (RowId.get row_id))
           else FinalizeError.sql "lock migration event" in
      match event with
      | None => ret (Err FinalizeError.NotFound)
      | Some enqueued_at =>
          let enqueued_at := decode_instant enqueued_at in
          try* delivery := lock_row (delivery_of (TenantId.as_str tenant_id) (RowId.get row_id))
               else FinalizeError.sql "lock migration delivery" in
          match delivery with
          | None => ret (Err (FinalizeError.MigrationMismatch
                                "an existing event has no delivery row"))
          | Some delivery =>
              let delivery := DeliveryRow.of_row delivery in
              if bool_decide (DeliveryRow.state delivery = "delivered")
                 && canonical delivery enqueued_at
                 && same_instant (Some delivered_at) (DeliveryRow.delivered_at delivery)
              then ret (Ok (FinalizeOutcome.AlreadyFinalized row_id))
              else if negb (canonical_pending delivery enqueued_at)
              then ret (Err (FinalizeError.StateConflict row_id))
              else
                try* updated := statement (fun _ =>
                       update_sql
                         (pending_import (TenantId.as_str tenant_id) (RowId.get row_id)
                            (encode_instant enqueued_at))
                         (set_finalized (encode_instant delivered_at)))
                     else FinalizeError.sql "finalize migration delivery" in
                if negb (Z.of_nat (length updated) =? 1)
                then ret (Err (FinalizeError.StateConflict row_id))
                else ret (Ok (FinalizeOutcome.Finalized row_id))
          end
      end
  end.
End Finalize.

(** ** What finalization does *)

Section FinalizeSpec.
Context `{PgEnv, PgCatalogEnv}.
Context {TL : TimeLaws} {IL : InstantColumnLaws} {PL : PgTimeLaws}.
Context (sql : string) (tenant_id : TenantId.t) (row_id : RowId.t) (delivered_at : OffsetDateTime).
Context (Hisolated : isolated).

Let tenant := TenantId.as_str tenant_id.
Let key := RowId.get row_id.
Let delivered := Some (encode_instant delivered_at).

(** The event's delivery in the canonical shape of a state. *)
Definition imported_delivery (enqueued_at : Z) (state : string) (at_ : option Z) :
    Deliveries.row_of Z :=
  untouched_row tenant key state enqueued_at at_.

(** The transaction saw an event of the tenant and its delivery. *)
Definition saw (t : Txn) (w w' : World) (P : Events.row_of Z -> Deliveries.row_of Z -> Prop) : Prop :=
  exists e d, event_at tenant key e = true /\ delivery_of tenant key d = true /\
    sometime t w w' (fun db => e ∈ events db) /\ sometime t w w' (fun db => d ∈ deliveries db) /\
    P e d.

(** What a call does to the open transaction [t]. *)
Definition finalize_effect (w : World) (t : Txn) (r : Result FinalizeOutcome.t FinalizeError.t)
    (w' : World) : Prop :=
  during (own_locks (own t)) (committed w) (committed w') /\
  match r with
  | Ok (FinalizeOutcome.Finalized id) => id = row_id /\
      saw t w w' (fun e d => d = imported_delivery (Events.enqueued_at e) "pending" None /\
        d ∈ deliveries (overlay (own t) (committed w')) /\
        open_at w' (with_own (own_app (own t)
          (MkOwn [] [imported_delivery (Events.enqueued_at e) "delivered" delivered] [key; key])) t))
  | Ok (FinalizeOutcome.AlreadyFinalized id) => id = row_id /\ open_at w' (locked key t) /\
      saw t w w' (fun e d => d = imported_delivery (Events.enqueued_at e) "delivered" delivered)
  | Err (FinalizeError.StateConflict id) => id = row_id /\ open_at w' (locked key t) /\
      saw t w w' (fun e d => d <> imported_delivery (Events.enqueued_at e) "pending" None /\
                             d <> imported_delivery (Events.enqueued_at e) "delivered" delivered)
  | Err FinalizeError.NotFound => open_at w' t /\
      sometime t w w' (fun db => forall e, e ∈ events db -> event_at tenant key e = false)
  | Err (FinalizeError.InvalidTimestamp source) =>
      w' = w /\ ImportedDeliveryState.delivered delivered_at = Err source
  | Err _ => exists t', settled w' t' /\ own_events (own t') = own_events (own t) /\
               own_deliveries (own t') = own_deliveries (own t)
  end.

(** Errors with no other effect. *)
Definition plain_finalize (e : FinalizeError.t) : Prop :=
  match e with
  | FinalizeError.StateConflict _ | FinalizeError.NotFound | FinalizeError.InvalidTimestamp _ => False
  | _ => True
  end.

Lemma pg_sql_plain_finalize op e : plain_finalize (FinalizeError.sql op e).
Proof. unfold FinalizeError.sql. by destruct (TransientKind.from_sqlx e). Qed.

Lemma pg_map_schema_plain e : plain_finalize (map_schema_error e).
Proof. by destruct e. Qed.

Lemma pg_plain_effect w t e w' t' :
  plain_finalize e -> during (own_locks (own t)) (committed w) (committed w') ->
  settled w' t' -> own_events (own t') = own_events (own t) ->
  own_deliveries (own t') = own_deliveries (own t) ->
  finalize_effect w t (Err e) w'.
Proof. intros He Hd Hs He' Hd'. split; [done|]. destruct e; try done; by exists t'. Qed.

(** The update of the canonical pending delivery writes that row alone. *)
Lemma pg_finalize_update db enqueued_at :
  db_wf db -> imported_delivery enqueued_at "pending" None ∈ deliveries db ->
  update_sql (pending_import tenant key enqueued_at) (set_finalized (encode_instant delivered_at)) db
  = Ok ([imported_delivery enqueued_at "delivered" delivered],
        MkOwn [] [imported_delivery enqueued_at "delivered" delivered] [key]).
Proof.
  intros Hwf Hin. rewrite (update_sql_one _ _ _ (imported_delivery enqueued_at "pending" None)).
  - change (set_finalized (encode_instant delivered_at) (imported_delivery enqueued_at "pending" None))
      with (imported_delivery enqueued_at "delivered" delivered).
    destruct Hwf as (_ & _ & _ & Hck & _). rewrite Forall_forall in Hck. apply Hck in Hin. clear Hck.
    (* the CHECKs of the two rows are the same *)
    by replace (Deliveries.check (imported_delivery enqueued_at "delivered" delivered)) with true.
  - done.
  - done.
  - by apply pending_import_row.
  - intros y _. by apply pending_import_row.
Qed.

Lemma pg_delivery_of_untouched d state (enqueued_at : Z) at_ :
  delivery_of tenant key d = true ->
  d = untouched_row (Deliveries.tenant_id d) (Deliveries.event_row_id d) state enqueued_at at_ <->
  d = imported_delivery enqueued_at state at_.
Proof. rewrite delivery_of_spec. intros [Ht Hk]. unfold imported_delivery. by rewrite Ht, Hk. Qed.

Lemma pg_finalize_run w t r w' :
  open_at w t -> finalize_for_scope sql tenant_id row_id delivered_at w = Some (r, w') ->
  finalize_effect w t r w'.
Proof.
  intros Ho. unfold finalize_for_scope. intros Hr.
  destruct (ImportedDeliveryState.delivered delivered_at) as [st|source] eqn:Ei.
  2: { run_inv Hr. split; [constructor|done]. }
  assert (Hport : portable_instant delivered_at).
  { unfold ImportedDeliveryState.delivered in Ei.
    destruct (canonicalize_instant _ delivered_at) as [u|] eqn:Eu; [|done].
    by apply canonicalize_instant_Ok in Eu as [Hp _]. }
  run_inv Hr.
  pose proof (reads_open _ _ _ _ _ (pg_check_schema_reads sql Hisolated) Ho Hm) as [Hd0 Hv].
  destruct r0 as [[]|e].
  2: { run_inv Hr. destruct Hv as (t' & Hs & Hown).
       eapply pg_plain_effect; eauto using pg_map_schema_plain; by rewrite Hown. }
  clear Hm. rename Hv into Ho0. run_inv Hr.
  destruct r0 as [event|e].
  2: { destruct (query_failed Hisolated _ _ _ _ _ Ho0 Hm) as [Hd1 (t' & Hs & Hown)]. run_inv Hr.
       eapply pg_plain_effect; [apply pg_sql_plain_finalize|by eapply during_trans|done|..];
         by rewrite Hown. }
  destruct (query_seen Hisolated _ _ _ _ _ Ho0 Hm) as (Ho1 & Hd1 & Hs1).
  pose proof (during_trans _ _ _ _ Hd0 Hd1) as Hd01.
  apply (sometime_before _ _ _ _ _ Hd0) in Hs1.
  destruct event as [enqueued_at|].
  2: { run_inv Hr. split; [done|]. split; [done|]. eapply sometime_impl; [|exact Hs1].
       intros db _ (_ & Hn) e. by apply select_enqueued_at_None. }
  assert (He : exists e, event_at tenant key e = true /\ Events.enqueued_at e = enqueued_at /\
                 sometime t w w1 (fun db => e ∈ events db)).
  { destruct Hs1 as (db & Hb1 & Hb2 & Hb3 & (_ & Hq)). symmetry in Hq.
    apply select_enqueued_at_Some in Hq as (e & He & Hat & <-). exists e.
    split; [done|]. split; [done|]. by exists db. }
  destruct He as (e & Hat & <- & Hse). clear Hs1 Hm. cbv zeta in Hr. run_inv Hr.
  destruct (lock_row_open Hisolated _ _ _ _ _ Ho1 Hm) as [Hd2 Hl].
  pose proof (during_trans _ _ _ _ Hd01 Hd2) as Hd02.
  apply (sometime_after _ _ _ _ _ Hd2) in Hse.
  destruct r0 as [[d|]|e'].
  2: { run_inv Hr. destruct Hl as ((Hs & _) & _ & _).
       by eapply pg_plain_effect; [done|exact Hd02|exact Hs|..]. }
  2: { run_inv Hr. destruct Hl as (t' & Hs & Hown).
       eapply pg_plain_effect; [apply pg_sql_plain_finalize|exact Hd02|exact Hs|by rewrite Hown..]. }
  destruct Hl as (Ho2 & Hdel & Hview & Hin).
  assert (Hkey : Deliveries.event_row_id d = key) by by apply delivery_of_spec in Hdel as [_ ?].
  rewrite Hkey in Ho2.
  assert (Hsaw : forall P, (P e d : Prop) -> saw t w w2 P).
  { intros P HP. exists e, d. do 3 (split; [done|]). split; [|done].
    exists (committed w2). split_and!; [done|constructor|done..]. }
  pose proof (pg_canonical_delivered_row d (Events.enqueued_at e) delivered_at Hport) as Hcd.
  rewrite (pg_delivery_of_untouched d _ _ _ Hdel) in Hcd.
  pose proof (pg_canonical_pending_row d (Events.enqueued_at e)) as Hcp.
  rewrite (pg_delivery_of_untouched d _ _ _ Hdel) in Hcp.
  destruct (bool_decide _ && _ && _) eqn:Ecd in Hr.
  { rewrite !andb_true_iff, bool_decide_eq_true in Ecd. destruct Ecd as [[Ec1 Ec2] Ec3].
    run_inv Hr. split; [done|]. split; [done|]. split; [done|]. by apply Hsaw, Hcd. }
  destruct (canonical_pending _ _) eqn:Ecp; cbn [negb] in Hr.
  2: { run_inv Hr. split; [done|]. split; [done|]. split; [done|]. apply Hsaw.
       split; intros Hx; [by apply Hcp in Hx|apply Hcd in Hx as (Hx1 & Hx2 & Hx3)].
       apply not_true_iff_false in Ecd. apply Ecd. rewrite !andb_true_iff, bool_decide_eq_true. done. }
  apply proj1 in Hcp. specialize (Hcp eq_refl). subst d. rewrite encode_decode in Hr. run_inv Hr.
  destruct (write_open Hisolated _ _ _ _ _ Ho2 Hm0) as [Hd3 Hx].
  { intros a o Hu Hwf. by eapply (update_sql_wf _ _ _ _ _ (set_finalized_keeps _)). }
  apply (during_mono _ (own_locks (own t))) in Hd3; [|simpl; set_solver].
  pose proof (during_trans _ _ _ _ Hd02 Hd3) as Hd03.
  destruct r0 as [rows|e'].
  2: { run_inv Hr. destruct Hx as (t' & Hs & Hown & _).
       eapply pg_plain_effect; [apply pg_sql_plain_finalize|done..| |];
         rewrite Hown; simpl; by rewrite ?app_nil_r. }
  destruct Hx as (o & Hu & Hview3 & Ho3).
  assert (Hin3 : imported_delivery (Events.enqueued_at e) "pending" None
                 ∈ deliveries (overlay (own (locked key t)) (committed w3))).
  { pose proof (during_trans _ _ _ _ Hd02 Hd3) as _.
    apply (locked_row Hisolated (locked key t) (committed w2)); try (by rewrite overlay_locked).
    - apply Ho2.
    - by destruct (write_open Hisolated _ _ _ _ _ Ho2 Hm0) as [Hd _];
        [intros a o' Hu' Hwf; by eapply (update_sql_wf _ _ _ _ _ (set_finalized_keeps _))|].
    - done.
    - simpl. set_solver. }
  rewrite pg_finalize_update in Hu by done. injection Hu as <- <-.
  match type of Hr with context [negb ?b] => change (negb b) with false in Hr end. run_inv Hr.
  split; [done|]. split; [done|]. exists e, (imported_delivery (Events.enqueued_at e) "pending" None).
  do 2 (split; [done|]). split; [eapply sometime_after; [exact Hd3|exact Hse]|]. split.
  - exists (committed w2). split_and!; [done|done|done|done].
  - split; [done|]. split; [by rewrite overlay_locked in Hin3|].
    unfold locked in Ho3. by rewrite with_own_app in Ho3.
Qed.

(** Finalization in a caller's PostgreSQL transaction, while other
    connections commit between any two of its statements: it answers
    [Finalized] only after it saw the event of the tenant and locked its
    delivery in exactly the shape a pending import leaves, and then it wrote
    that delivery alone, delivered at the supplied time, every other column as
    it was; the rows affected are one whatever other connections did.
    [AlreadyFinalized] is answered only for a delivery an earlier call with the
    same instant left, any other delivery is a [StateConflict], and [NotFound]
    means that the tenant had no such event. Nothing else is ever written, and
    the call always returns. *)
Theorem pg_finalize_outcomes w t :
  open_at w t ->
  exists r w', finalize_for_scope sql tenant_id row_id delivered_at w = Some (r, w') /\
    finalize_effect w t r w'.
Proof.
  intros Ho. assert (Hret : returns (finalize_for_scope sql tenant_id row_id delivered_at)).
  { unfold finalize_for_scope. pose proof (pg_reads_returns _ (pg_check_schema_reads sql Hisolated)).
    returns_step. }
  destruct (Hret w) as [[r w'] Hr]. exists r, w'. split; [done|]. by apply pg_finalize_run.
Qed.
End FinalizeSpec.
