(* ===== verification/PgImport.v ===== *)
(** * Import of the PostgreSQL adapter (crates/dovecote-sqlx-postgres/src/import.rs)

    Insertion of an event with a delivery that is pending or already delivered,
    at the time the database reads when the call reaches it, idempotent on the
    event's identity and on the delivery's state. *)

From S2P Require Import Prelude Step Utf8 BTree Errors Limits Validation Bounds Values Extension Serialization Event State Tables Queries RowHydration External Overlay Others Instants Migration Leases PgError PgMigration Pg PgHydrate PgSchema PgEnqueue PgCanonical.

Definition import_schema_error (error : SchemaError.t) : ImportError.t :=
  match error with
  | SchemaError.MigrationMismatch detail => ImportError.MigrationMismatch detail
  | SchemaError.Sql operation source => ImportError.Sql operation source
  | SchemaError.Transient operation kind source => ImportError.Transient operation kind source
  end.

(** the function [row_id] *)
Definition import_row_id (value : Z) : Result RowId.t ImportError.t :=
  map_err (fun error => ImportError.serialization (ValidationError.to_string error))
    (RowId.new value).

(** the row of [INSERT INTO dovecote_deliveries (tenant_id, event_row_id, state,
    available_at, attempts, delivered_at) VALUES ($1, $2, $3, $4, 0, $5)] *)
Definition imported_row (tenant : string) (event_row_id : Z) (state : string) (available_at : Z)
    (delivered_at : option Z) : Deliveries.row_of Z :=
  Deliveries.Row event_row_id tenant state available_at 0 None None None None None delivered_at None
    None.

Section ImportOps.
Context `{SerdeJson, Base64, MimeLib, FluentUri, RustDebug, PgEnv, PgCatalogEnv}.
Context (tenant_baseline_sql : string).

(** The wildcard arm of the match is for states the enum does not have. *)
Definition insert_delivery (tenant_id : TenantId.t) (event_row_id : Z)
    (operation_time : OffsetDateTime) (state : ImportedDeliveryState.t) :
    M (Result unit ImportError.t) :=
  let '(state_name, delivered_at) :=
    match state with
    | ImportedDeliveryState.Pending => ("pending", None)
    | ImportedDeliveryState.Delivered delivered_at => ("delivered", Some delivered_at)
    end in
  try* _ := statement (fun _ => insert_delivery_row
              (imported_row (TenantId.as_str tenant_id) event_row_id state_name
                 (encode_instant operation_time) (option_map encode_instant delivered_at)))
       else ImportError.sql "insert imported delivery" in
  ret (Ok tt).

(** The code after the insert that returned no row. *)
Definition resolve_import (tenant_id : TenantId.t) (event : NewEvent.t)
    (state : ImportedDeliveryState.t) : M (Result ImportOutcome.t ImportError.t) :=
  let columns := event_columns (NewEvent.content event) in
  try* existing := query (fun _ => find_existing_sql (TenantId.as_str tenant_id)
                            (EventRow.source columns) (EventRow.event_id columns))
       else ImportError.sql "find imported event" in
  match existing with
  | None => ret (Err (ImportError.sql "resolve imported event"
              (SqlxError.Protocol "identity insert returned no row")))
  | Some existing =>
      match import_row_id (ExistingEvent.row_id existing) with
      | Err error => ret (Err error)
      | Ok existing_id =>
          match validate_existing_event existing with
          | Err detail => ret (Err (ImportError.serialization detail))
          | Ok _ =>
              if negb (same_event event existing)
              then ret (Err (ImportError.IdentityConflict existing_id))
              else
                try* delivery := query (fun _ => select_delivery_sql (TenantId.as_str tenant_id)
                                          (ExistingEvent.row_id existing))
                     else ImportError.sql "find imported delivery" in
                match delivery with
                | None => ret (Err (ImportError.MigrationMismatch
                                      "an existing event has no delivery row"))
                | Some delivery =>
                    match matches_import delivery state
                            (decode_instant (ExistingEvent.enqueued_at existing)) with
                    | Err detail => ret (Err (ImportError.MigrationMismatch detail))
                    | Ok true => ret (Ok (ImportOutcome.AlreadyImported existing_id))
                    | Ok false => ret (Err (ImportError.ImportConflict existing_id))
                    end
                end
          end
      end
  end.

Definition import_for_scope (tenant_id : TenantId.t) (event : NewEvent.t)
    (state : ImportedDeliveryState.t) : M (Result ImportOutcome.t ImportError.t) :=
  match ImportedDeliveryState.validate state with
  | Err source => ret (Err (ImportError.InvalidState source))
  | Ok _ =>
      try* _ := check_schema_connection tenant_baseline_sql else import_schema_error in
      try* operation_time := query (fun n _ => clock_timestamp n)
           else ImportError.sql "read import operation time" in
      let operation_time := decode_instant operation_time in
      match ImportedDeliveryState.delivered operation_time with
      | Err source => ret (Err (ImportError.InvalidState source))
      | Ok _ =>
          let columns := event_columns (NewEvent.content event) in
          try* inserted := statement (insert_event_sql (TenantId.as_str tenant_id) columns
                                        (encode_instant operation_time))
               else ImportError.sql "insert imported event" in
          match inserted with
          | Some (inserted_row_id, _) =>
              match import_row_id inserted_row_id with
              | Err error => ret (Err error)
              | Ok row_id =>
                  try* _ := insert_delivery tenant_id inserted_row_id operation_time state
                       else (fun e => e) in
                  ret (Ok (ImportOutcome.Imported row_id))
              end
          | None => resolve_import tenant_id event state
          end
      end
  end.
End ImportOps.

(** ** What import does *)

Section ImportSpec.
Context `{SerdeJson, Base64, MimeLib, FluentUri, RustDebug, PgEnv, PgCatalogEnv}.
Context {TL : TimeLaws} {IL : InstantColumnLaws} {PL : PgTimeLaws}.
Context (sql : string) (tenant_id : TenantId.t) (event : NewEvent.t)
  (state : ImportedDeliveryState.t).
Context (Hisolated : isolated).
Context (Htime : option_all portable_instant (EventContent.time (NewEvent.content event))).

Let tenant := TenantId.as_str tenant_id.
Let columns := event_columns (NewEvent.content event).

(** The delivery of an event in exactly the imported state. *)
Definition delivery_in_state (id at_ : Z) : Deliveries.row_of Z :=
  untouched_row tenant id (imported_columns state).1 at_ (imported_columns state).2.

(** The transaction saw the event [e] stored under the identity with row [id]. *)
Definition saw_stored (t : Txn) (w w' : World) (id : RowId.t) (e : Events.row_of Z) : Prop :=
  sometime t w w' (stored tenant_id event id e).

(** What import does to the open transaction [t]. *)
Definition import_effect (w : World) (t : Txn) (r : Result ImportOutcome.t ImportError.t)
    (w' : World) : Prop :=
  during (own_locks (own t)) (committed w) (committed w') /\
  match r with
  | Ok (ImportOutcome.Imported id) => exists n,
      let row := new_event_row (RowId.get id) tenant columns (clock_timestamp n) in
      Events.check row = true /\
      since [RowId.get id] t w w' (fun db =>
        identity tenant_id event ∉ map event_identity (events db) /\ RowId.get id ∉ event_keys db) /\
      open_at w' (with_own (own_app (own t)
        (MkOwn [row] [delivery_in_state (RowId.get id) (clock_timestamp n)] [RowId.get id])) t)
  | Ok (ImportOutcome.AlreadyImported id) => open_at w' t /\
      exists e, saw_stored t w w' id e /\ row_columns e = columns /\
        sometime t w w' (fun db => delivery_in_state (RowId.get id) (Events.enqueued_at e)
                                   ∈ deliveries db)
  | Err (ImportError.IdentityConflict id) => open_at w' t /\
      exists e, saw_stored t w w' id e /\ row_columns e <> columns
  | Err (ImportError.ImportConflict id) => open_at w' t /\
      exists e d, saw_stored t w w' id e /\ row_columns e = columns /\
        sometime t w w' (fun db => d ∈ deliveries db) /\
        delivery_of tenant (RowId.get id) d = true /\
        d <> delivery_in_state (RowId.get id) (Events.enqueued_at e)
  | Err _ => exists t', settled w' t' /\ (own t' = own t \/ failed t' = true)
  end.

(** Errors that say nothing about the stored rows. *)
Definition plain_import (e : ImportError.t) : Prop :=
  match e with ImportError.IdentityConflict _ | ImportError.ImportConflict _ => False | _ => True end.

Lemma pg_sql_plain_import op e : plain_import (ImportError.sql op e).
Proof. unfold ImportError.sql. by destruct (TransientKind.from_sqlx e). Qed.

Lemma pg_import_schema_plain e : plain_import (import_schema_error e).
Proof. by destruct e. Qed.

Lemma pg_plain_import_effect w t e w' t' :
  plain_import e -> during (own_locks (own t)) (committed w) (committed w') ->
  settled w' t' -> own t' = own t \/ failed t' = true -> import_effect w t (Err e) w'.
Proof. intros He Hd Hs Ho. split; [done|]. destruct e; try done; by exists t'. Qed.

Lemma pg_import_row_id_inv id r :
  import_row_id id = r ->
  match r with Ok id' => RowId.get id' = id | Err e => plain_import e end.
Proof.
  unfold import_row_id. destruct (RowId.new id) as [id'|] eqn:E; intros <-; simpl; [|done].
  by apply RowId_new_Ok in E as [? _].
Qed.

Lemma pg_delivery_in_state d id at_ :
  state_portable state -> delivery_of tenant id d = true ->
  matches_import (DeliveryRow.of_row d) state (decode_instant at_) = Ok true <->
  d = delivery_in_state id at_.
Proof.
  intros Hp. rewrite delivery_of_spec, pg_matches_import_row by done. unfold delivery_in_state.
  by intros [-> ->].
Qed.

(** What the code answers when the identity exists. *)
Lemma pg_resolve_import_open w t r w' :
  state_portable state -> open_at w t -> resolve_import tenant_id event state w = Some (r, w') ->
  import_effect w t r w' /\ match r with Ok (ImportOutcome.Imported _) => False | _ => True end.
Proof.
  intros Hport Ho. unfold resolve_import. intros Hr. run_inv Hr.
  destruct r0 as [existing|e].
  2: { destruct (query_failed Hisolated _ _ _ _ _ Ho Hm) as [Hd (t' & Hs & Hown)]. run_inv Hr.
       split; [|done]. eapply pg_plain_import_effect; eauto using pg_sql_plain_import. }
  destruct (query_seen Hisolated _ _ _ _ _ Ho Hm) as (Ho0 & Hd0 & Hs0).
  assert (Hplain : forall e w1, plain_import e -> open_at w1 t ->
            during (own_locks (own t)) (committed w) (committed w1) ->
            import_effect w t (Err e) w1 /\ True).
  { intros e w1 He Ho1 Hd. split; [|done]. eapply pg_plain_import_effect; [done|done|apply Ho1|by left]. }
  destruct existing as [x|]; [|run_inv Hr; by apply Hplain].
  destruct (import_row_id (ExistingEvent.row_id x)) as [id|ve] eqn:Eid;
    apply pg_import_row_id_inv in Eid; [|run_inv Hr; by apply Hplain].
  destruct (validate_existing_event x) as [[]|de]; [|run_inv Hr; by apply Hplain].
  assert (Hsx : exists e, saw_stored t w w0 id e /\ row_columns e = ExistingEvent.columns x /\
            ExistingEvent.enqueued_at x = Events.enqueued_at e).
  { destruct Hs0 as (db & Hb1 & Hb2 & Hb3 & (n & Hx)). symmetry in Hx.
    apply find_existing_columns in Hx as (e & He & Hid & Hrow & Hcols & Hat).
    exists e. split; [|done]. exists db. do 3 (split; [done|]).
    split; [done|]. split; [done|]. congruence. }
  destruct Hsx as (e & Hst & Hcols & Hat).
  destruct (same_event event x) eqn:Es; cbn [negb] in Hr.
  2: { run_inv Hr. split; [|done]. split; [done|]. split; [done|]. exists e. split; [done|].
       rewrite Hcols. intros Heq. apply not_true_iff_false in Es. by apply Es, pg_same_event_columns. }
  apply pg_same_event_columns in Es; [|done]. rewrite Es in Hcols. run_inv Hr.
  destruct r0 as [row|de].
  2: { destruct (query_failed Hisolated _ _ _ _ _ Ho0 Hm0) as [Hd (t' & Hs & Hown)]. run_inv Hr.
       split; [|done]. eapply pg_plain_import_effect;
         [apply pg_sql_plain_import|by eapply during_trans|done|by left]. }
  destruct (query_seen Hisolated _ _ _ _ _ Ho0 Hm0) as (Ho1 & Hd1 & Hs1).
  pose proof (during_trans _ _ _ _ Hd0 Hd1) as Hd01.
  apply (sometime_after _ _ _ _ _ Hd1) in Hst.
  destruct row as [row|]; [|run_inv Hr; by apply Hplain].
  assert (Hdel : exists d, row = DeliveryRow.of_row d /\ delivery_of tenant (RowId.get id) d = true /\
            sometime t w w1 (fun db => d ∈ deliveries db)).
  { destruct Hs1 as (db & Hb1 & Hb2 & Hb3 & (_ & Hx)). symmetry in Hx. rewrite <- Eid in Hx.
    apply select_delivery_Some in Hx as (d & Hd & Hdel & ->). exists d. split; [done|].
    split; [done|]. exists db. split; [eapply during_trans; [exact Hd0|exact Hb1]|]. done. }
  destruct Hdel as (d & -> & Hdel & Hsd).
  rewrite Hat in Hr. pose proof (pg_delivery_in_state d (RowId.get id) (Events.enqueued_at e) Hport Hdel)
    as Hin.
  destruct (matches_import _ state _) as [[]|de] eqn:Em; run_inv Hr.
  - split; [|done]. split; [done|]. split; [done|]. exists e. split; [done|]. split; [done|].
    apply proj1 in Hin. by rewrite <- (Hin eq_refl).
  - split; [|done]. split; [done|]. split; [done|]. exists e, d. split_and!; try done.
    intros Heq. by apply Hin in Heq.
  - by apply Hplain.
Qed.

Lemma pg_import_run w t r w' :
  open_at w t -> import_for_scope sql tenant_id event state w = Some (r, w') -> import_effect w t r w'.
Proof.
  intros Ho. unfold import_for_scope. intros Hr.
  destruct (ImportedDeliveryState.validate state) as [[]|source] eqn:Ev.
  2: { run_inv Hr. eapply pg_plain_import_effect; [done|constructor|apply Ho|by left]. }
  assert (Hport : state_portable state).
  { destruct state as [|t0]; simpl in *; [done|]. by apply validate_instant_Ok in Ev. }
  run_inv Hr.
  pose proof (reads_open _ _ _ _ _ (pg_check_schema_reads sql Hisolated) Ho Hm) as [Hd0 Hv].
  destruct r0 as [[]|e].
  2: { run_inv Hr. destruct Hv as (t' & Hs & Hown).
       eapply pg_plain_import_effect; eauto using pg_import_schema_plain. }
  clear Hm. rename Hv into Ho0. run_inv Hr. destruct r0 as [op|e].
  2: { destruct (query_failed Hisolated _ _ _ _ _ Ho0 Hm) as [Hd1 (t' & Hs & Hown)]. run_inv Hr.
       eapply pg_plain_import_effect;
         [apply pg_sql_plain_import|by eapply during_trans|done|by left]. }
  destruct (query_open Hisolated _ _ _ _ _ Ho0 Hm) as (Hd1 & -> & Ho1). clear Hm.
  pose proof (during_trans _ _ _ _ Hd0 Hd1) as Hd01. cbv zeta in Hr.
  destruct (ImportedDeliveryState.delivered _) as [?|source].
  2: { run_inv Hr. eapply pg_plain_import_effect; [done|done|apply Ho1|by left]. }
  rewrite encode_decode in Hr. run_inv Hr.
  destruct (write_open Hisolated _ _ _ _ _ Ho1 Hm) as [Hd2 Hx];
    [intros a o Hf; by eapply pg_insert_event_wf|].
  pose proof (during_trans _ _ _ _ Hd01 Hd2) as Hd02.
  destruct r0 as [inserted|e].
  2: { run_inv Hr. destruct Hx as (t' & Hs & Hown & _).
       eapply pg_plain_import_effect; eauto using pg_sql_plain_import. }
  destruct Hx as (o & Hins & Hview & Ho2). apply pg_insert_event_Ok in Hins.
  destruct inserted as [[id at_]|].
  2: { destruct Hins as [-> _]. rewrite own_app_nothing_r, with_own_id in Ho2.
       apply (pg_resolve_import_open _ _ _ _ Hport Ho2) in Hr as [[Hd3 Hr] Hni].
       split; [by eapply during_trans|].
       destruct r as [[id|id]|e]; [done| |destruct e; try (destruct Hr as (t' & ? & ?); by eauto)].
       - destruct Hr as (? & e & ? & ? & ?). split; [done|]. exists e.
         split_and!; [|done|]; by eapply sometime_before.
       - destruct Hr as (? & e & ? & ?). split; [done|]. exists e. split; [|done].
         by eapply sometime_before.
       - destruct Hr as (? & e & d & ? & ? & ? & ? & ?). split; [done|]. exists e, d.
         split_and!; try done; by eapply sometime_before. }
  destruct Hins as (-> & Hpos & Hck & -> & Hk & Hid).
  unfold import_row_id in Hr. rewrite (proj2 (RowId_new_Ok id (RowId.Make id))) in Hr by done.
  cbn [map_err] in Hr. run_inv Hr. unfold insert_delivery in Hm0.
  rewrite encode_decode in Hm0.
  assert (Hm1 : exists r1, (try* _ := statement (fun _ => insert_delivery_row
              (delivery_in_state id (clock_timestamp (tick w0))))
       else ImportError.sql "insert imported delivery" in ret (Ok tt)) w2 = Some (r1, w3) /\ r0 = r1).
  { exists r0. split; [|done]. rewrite <- Hm0. unfold delivery_in_state. clear. by destruct state. }
  destruct Hm1 as (r1 & Hm1 & ->). clear Hm0. run_inv Hm1.
  destruct (write_open Hisolated _ _ _ _ _ Ho2 Hm0) as [Hd3 Hx];
    [intros [] o Hf; by eapply pg_insert_delivery_wf|]. simpl in Hd3.
  assert (Hfresh : since [id] t w w4 (fun db =>
            identity tenant_id event ∉ map event_identity (events db) /\ id ∉ event_keys db)).
  { exists (committed w2). split_and!; [done..|by apply Ho2|done|done|done]. }
  apply (during_mono _ (own_locks (own t))) in Hd3; [|set_solver].
  pose proof (during_trans _ _ _ _ Hd02 Hd3) as Hd03.
  destruct r0 as [[]|e]; run_inv Hm1; run_inv Hr.
  - destruct Hx as (o & Hdel & _ & Ho3). apply pg_insert_delivery_Ok in Hdel as (-> & _).
    split; [done|]. exists (tick w0). cbv zeta. cbn [RowId.get]. split; [done|].
    split; [done|]. rewrite with_own_app in Ho3. exact Ho3.
  - destruct Hx as (t' & Hs & _ & Hfail). eapply pg_plain_import_effect; eauto using pg_sql_plain_import.
Qed.

(** Import in a caller's PostgreSQL transaction, while other connections
    commit between any two of its statements: [Imported] only after a statement
    saw neither the identity nor the row id, having written exactly the event
    and its delivery in the imported state, both at a time the database clock
    showed during the call; [AlreadyImported] and both conflicts only for the
    stored event and delivery they describe, writing nothing. Every other error
    writes nothing or leaves a failed transaction, which cannot commit, and the
    call always returns. *)
Theorem pg_import_outcomes w t :
  open_at w t ->
  exists r w', import_for_scope sql tenant_id event state w = Some (r, w') /\
    import_effect w t r w'.
Proof.
  intros Ho. assert (Hret : returns (import_for_scope sql tenant_id event state)).
  { unfold import_for_scope, resolve_import, insert_delivery.
    pose proof (pg_reads_returns _ (pg_check_schema_reads sql Hisolated)). returns_step. }
  destruct (Hret w) as [[r w'] Hr]. exists r, w'. split; [done|]. by apply pg_import_run.
Qed.
End ImportSpec.
