(* ===== verification/PgLifecycle.v ===== *)
(** * Claims of the PostgreSQL adapter (crates/dovecote-sqlx-postgres/src/lifecycle.rs)

    One READ COMMITTED transaction that selects eligible deliveries with FOR
    UPDATE SKIP LOCKED, prepares a token and the event of each, and claims them
    one by one. Other connections commit between any two of the statements; the
    locks keep them off the selected rows. *)

From S2P Require Import Prelude Step Utf8 BTree Errors Limits Validation Bounds Values Extension Serialization Event State Tables Queries RowHydration Claims External Overlay Others Instants Leases PgError Pg PgHydrate.

Module ClaimCandidate.
Record t : Type := Make {
  event_row_id : Z;
  tenant_id : string;
  state : string;
  attempts : Z;
  claim_token : option bytes;
  stream : string;
  specversion : string;
  event_id : string;
  source : string;
  event_type : string;
  subject : option string;
  occurred_at : option Z;
  datacontenttype : option string;
  dataschema : option string;
  partitionkey : option string;
  extensions : string;
  data_kind : option string;
  data : option bytes;
}.

Definition event_row (self : t) : EventRow.t_of Z :=
  EventRow.Make (stream self) (specversion self) (event_id self) (source self) (event_type self)
    (subject self) (occurred_at self) (datacontenttype self) (dataschema self)
    (partitionkey self) (extensions self) (data_kind self) (data self).

(** the columns of the claim query *)
Definition of_rows (d : Deliveries.row_of Z) (e : Events.row_of Z) : t :=
  Make (Deliveries.event_row_id d) (Deliveries.tenant_id d) (Deliveries.state d)
    (Deliveries.attempts d) (Deliveries.claim_token d) (Events.stream e) (Events.specversion e)
    (Events.event_id e) (Events.source e) (Events.event_type e) (Events.subject e)
    (Events.occurred_at e) (Events.datacontenttype e) (Events.dataschema e)
    (Events.partitionkey e) (Events.extensions e) (Events.data_kind e) (Events.data e).
End ClaimCandidate.

(** ** The SQL statements *)

(** [SELECT ... ORDER BY d.event_row_id ASC LIMIT $3 FOR UPDATE OF d SKIP LOCKED]:
    the candidates, whose deliveries are now locked *)
Definition claim_sql (tenant : option string) (now : Z) (limit : Z) (held : list Z) (db : Db) :
    list ClaimCandidate.t * Own Z :=
  let rows :=
    take (Z.to_nat limit)
      (concat (map (fun d =>
         map (ClaimCandidate.of_rows d)
           (List.filter (fun e => join_condition d e && claimable tenant now held d)
              (events db))) (deliveries db))) in
  (rows, MkOwn [] [] (map ClaimCandidate.event_row_id rows)).

(** [UPDATE dovecote_deliveries SET state = 'claimed', ... RETURNING
    claim_expires_at], first row *)
Definition claim_update_sql (attempts : Z) (token : bytes) (worker : string) (expiry : Z)
    (tenant : string) (event_row_id : Z) (db : Db) :
    Result (option Z * Own Z) SqlxError.t :=
  let? updated :=
    update_sql
      (fun r => bool_decide (Deliveries.tenant_id r = tenant)
                && (Deliveries.event_row_id r =? event_row_id)
                && (bool_decide (Deliveries.state r = "pending")
                    || bool_decide (Deliveries.state r = "claimed")))
      (set_claimed attempts token worker (Some expiry)) db in
  Ok (match updated.1 with [] => None | _ => Some expiry end, updated.2).

(** ** The operation *)

(** a candidate ready to be claimed *)
Record Prepared `{TimeLib} : Type := MkPrepared {
  p_tenant_id : TenantId.t;
  p_row_id : RowId.t;
  p_event_row_id : Z;
  p_event : StoredEvent.t;
  p_attempts : AttemptCount.t;
  p_token : bytes;
}.

Section Claim.
Context `{SerdeJson, Base64, MimeLib, FluentUri, RustDebug, PgEnv}.

(** [SELECT clock_timestamp()] *)
Definition database_time : M (Result OffsetDateTime SqlxError.t) :=
  query (fun n _ => decode_instant (clock_timestamp n)).

Definition fill : M (Result bytes EntropyError) :=
  fun w => Some (entropy (draws w), MkWorld (committed w) (txn w) (tick w) (S (draws w))).

(** The unbounded loop of [fresh_token], with [fuel] draws. *)
Fixpoint fresh_token (fuel : nat) (previous : option bytes) (used : list bytes) :
    M (Result bytes EntropyError) :=
  match fuel with
  | O => fun _ => None
  | S fuel =>
      try* token := fill else (fun e => e) in
      if acceptable previous used token then ret (Ok token) else fresh_token fuel previous used
  end.

(** The body of the loop over the candidates. *)
Definition prepare_candidate (candidate : ClaimCandidate.t) (used_tokens : list bytes) :
    M (Result Prepared ClaimError.t) :=
  match RowId.new (ClaimCandidate.event_row_id candidate) with
  | Err error => ret (Err (ClaimError.serialization (ValidationError.to_string error)))
  | Ok row_id =>
    match checked_add i64_max (ClaimCandidate.attempts candidate) 1 with
    | None => ret (Err (ClaimError.CounterOverflow row_id))
    | Some attempts =>
      match AttemptCount.new attempts with
      | Err error => ret (Err (ClaimError.serialization (ValidationError.to_string error)))
      | Ok attempts =>
        try* token := fresh_token entropy_fuel (ClaimCandidate.claim_token candidate) used_tokens
             else ClaimError.EntropyUnavailable in
        if negb (bool_decide (ClaimCandidate.state candidate = "pending"))
           && negb (bool_decide (ClaimCandidate.state candidate = "claimed"))
        then ret (Err (ClaimError.serialization "claim candidate has an ineligible state"))
        else
          match hydrate_event (ClaimCandidate.event_row candidate) with
          | Err error => ret (Err (ClaimError.serialization error))
          | Ok event =>
            match TenantId.new (ClaimCandidate.tenant_id candidate) with
            | Err error => ret (Err (ClaimError.serialization (ValidationError.to_string error)))
            | Ok tenant_id =>
                ret (Ok (MkPrepared _ tenant_id row_id (ClaimCandidate.event_row_id candidate) event
                           attempts token))
            end
          end
      end
    end
  end.

Fixpoint prepare (candidates : list ClaimCandidate.t) (used_tokens : list bytes) :
    M (Result (list Prepared) ClaimError.t) :=
  match candidates with
  | [] => ret (Ok [])
  | candidate :: candidates =>
      try* p := prepare_candidate candidate used_tokens else (fun e => e) in
      try* rest := prepare candidates (used_tokens ++ [p_token p]) else (fun e => e) in
      ret (Ok (p :: rest))
  end.

(** The body of the loop over the prepared candidates. *)
Definition claim_prepared (worker : WorkerId.t) (operation_time : OffsetDateTime)
    (lease_for : Lease.t) (p : Prepared) : M (Result ClaimedEvent.t ClaimError.t) :=
  try* expiry := statement (fun _ =>
      claim_update_sql (AttemptCount.get (p_attempts p)) (p_token p) (WorkerId.as_str worker)
        (timestamp_add (encode_instant operation_time) (Lease.get lease_for))
        (TenantId.as_str (p_tenant_id p)) (p_event_row_id p))
       else ClaimError.sql "update claimed delivery" in
  match expiry with
  | None => ret (Err (ClaimError.sql "update claimed delivery"
              (SqlxError.Protocol "claim candidate disappeared while locked")))
  | Some expiry =>
      match ClaimedEvent.new (p_tenant_id p) (p_row_id p) (p_event p) (p_attempts p)
              (ClaimToken.from_bytes (p_token p)) worker (decode_instant expiry) with
      | Err error => ret (Err (ClaimError.serialization (ValidationError.to_string error)))
      | Ok claimed_event => ret (Ok claimed_event)
      end
  end.

Fixpoint claim_all (worker : WorkerId.t) (operation_time : OffsetDateTime) (lease_for : Lease.t)
    (prepared : list Prepared) : M (Result (list ClaimedEvent.t) ClaimError.t) :=
  match prepared with
  | [] => ret (Ok [])
  | p :: prepared =>
      try* event := claim_prepared worker operation_time lease_for p else (fun e => e) in
      try* rest := claim_all worker operation_time lease_for prepared else (fun e => e) in
      ret (Ok (event :: rest))
  end.

(** [claim_with_entropy] between its BEGIN and its COMMIT *)
Definition claim_in_transaction (tenant_id : option TenantId.t) (worker : WorkerId.t)
    (lease_for : Lease.t) (limit : Limit.t) : M (Result (list ClaimedEvent.t) ClaimError.t) :=
  try* _ := match tenant_id with
            | Some tenant_id => bind_tenant tenant_id
            | None => ret (Ok tt)
            end else ClaimError.sql "bind claim tenant" in
  try* operation_time := database_time else ClaimError.sql "read claim operation time" in
  try* candidates := statement (fun n db =>
      Ok (claim_sql (option_map TenantId.as_str tenant_id) (encode_instant operation_time)
            (Limit.get limit) (others_lock n db) db))
       else ClaimError.sql "select claim candidates" in
  try* prepared := prepare candidates [] else (fun e => e) in
  claim_all worker operation_time lease_for prepared.

Definition claim_with_entropy (tenant_id : option TenantId.t) (worker : WorkerId.t)
    (lease_for : Lease.t) (limit : Limit.t) : M (Result (list ClaimedEvent.t) ClaimError.t) :=
  try* _ := begin_statement false else ClaimError.sql "begin claim transaction" in
  try* claimed := owned (claim_in_transaction tenant_id worker lease_for limit)
       else (fun e => e) in
  try* _ := commit else ClaimError.sql "commit claim transaction" in
  ret (Ok claimed).

Definition claim_for_scope (tenant_id : option TenantId.t) (worker : WorkerId.t)
    (lease_for : Lease.t) (limit : Limit.t) : M (Result (list ClaimedEvent.t) ClaimError.t) :=
  claim_with_entropy tenant_id worker lease_for limit.
End Claim.

(** ** The candidates *)

Section Candidates.

Definition candidate_of (db : Db) (d : Deliveries.row_of Z) (c : ClaimCandidate.t) : Prop :=
  exists e, e ∈ events db /\ join_condition d e = true /\ c = ClaimCandidate.of_rows d e.

Lemma pg_claim_sql_chosen tenant now limit held db :
  db_wf db ->
  Forall2 (candidate_of db) (chosen tenant now limit held db)
    (claim_sql tenant now limit held db).1.
Proof.
  intros Hwf. rewrite chosen_claimable. unfold claim_sql. cbn [fst]. apply Forall2_take.
  match goal with |- Forall2 ?R (List.filter ?p _) (concat (map ?g _)) =>
    enough (Hg : forall ds, Forall (fun d => d ∈ deliveries db) ds ->
                   Forall2 R (List.filter p ds) (concat (map g ds)))
      by (apply Hg, Forall_forall; done) end.
  intros ds. induction ds as [|d ds IH]; intros Hin; simpl; [constructor|].
  apply Forall_cons in Hin as [Hd Hin].
  destruct (joined_events db d (claimable tenant now held d) (fun _ => true) Hwf Hd)
    as (e & He & Hj & Hf).
  rewrite (filter_ext _ (fun e => join_condition d e && claimable tenant now held d)) in Hf
    by (intros x; apply andb_true_r).
  rewrite Hf, andb_true_r. destruct (claimable tenant now held d); simpl; [|by apply IH].
  constructor; [|by apply IH]. by exists e.
Qed.

End Candidates.

(** ** Preparation *)

Section Preparation.
Context `{SerdeJson, Base64, MimeLib, FluentUri, RustDebug, PgEnv}.

(** Only draws of entropy lie between the two worlds. *)
Definition quiet (w w' : World) : Prop :=
  committed w' = committed w /\ txn w' = txn w /\ tick w' = tick w.

Lemma quiet_trans w1 w2 w3 : quiet w1 w2 -> quiet w2 w3 -> quiet w1 w3.
Proof. unfold quiet. intuition congruence. Qed.

Lemma quiet_open w w' t : quiet w w' -> open_at w t -> open_at w' t.
Proof.
  intros (Hc & Ht & _) ((Ht' & Hw & Hv) & Hs & Hf). split; [|by split]. unfold settled.
  rewrite Hc. split; [congruence|done].
Qed.

Lemma pg_fresh_token_inv fuel previous used w r w' :
  fresh_token fuel previous used w = Some (r, w') ->
  quiet w w' /\ match r with Ok t => acceptable previous used t = true | Err e => exists n, entropy n = Err e end.
Proof.
  revert w. induction fuel as [|fuel IH]; intros w; simpl; [done|]. intros Hr.
  apply bind_inv in Hr as (t & w1 & Hf & Hr). unfold fill in Hf. injection Hf as <- <-.
  destruct (entropy (draws w)) as [t|e] eqn:Ee; [|run_inv Hr; split; [done|by eexists]].
  destruct (acceptable previous used t) eqn:Ea; [by run_inv Hr|].
  apply IH in Hr as [Hq Hr]. by split.
Qed.

(** What a prepared entry records of its candidate. *)
Record prepared_from (c : ClaimCandidate.t) (p : Prepared) : Prop := {
  pf_row_id : RowId.get (p_row_id p) = ClaimCandidate.event_row_id c;
  pf_event_row_id : p_event_row_id p = ClaimCandidate.event_row_id c;
  pf_tenant : TenantId.new (ClaimCandidate.tenant_id c) = Ok (p_tenant_id p);
  pf_event : hydrate_event (ClaimCandidate.event_row c) = Ok (p_event p);
  pf_attempts : AttemptCount.get (p_attempts p) = ClaimCandidate.attempts c + 1;
  pf_bound : AttemptCount.get (p_attempts p) <= i64_max;
  pf_token : ClaimCandidate.claim_token c <> Some (p_token p);
}.

Lemma pg_prepare_candidate_inv c used w r w' :
  prepare_candidate c used w = Some (r, w') ->
  quiet w w' /\ match r with Ok p => prepared_from c p /\ p_token p ∉ used | Err _ => True end.
Proof.
  unfold prepare_candidate. intros Hr.
  destruct (RowId.new _) as [row_id|] eqn:Eid; [|by run_inv Hr].
  destruct (checked_add i64_max _ 1) as [a1|] eqn:Eadd; [|by run_inv Hr].
  destruct (AttemptCount.new a1) as [attempts|] eqn:Eat; [|by run_inv Hr].
  run_inv Hr. apply pg_fresh_token_inv in Hm as [Hq Ht].
  destruct r0 as [token|]; [|by run_inv Hr]. apply acceptable_spec in Ht as [Hp Hu].
  destruct (negb _ && negb _) in Hr; [by run_inv Hr|].
  destruct (hydrate_event _) as [event|] eqn:Eh; [|by run_inv Hr].
  destruct (TenantId.new _) as [tenant|] eqn:Et; run_inv Hr; [|done].
  split; [done|]. split; [|done].
  apply RowId_new_Ok in Eid as [Hid _]. apply checked_add_Some in Eadd as [-> Hle].
  apply AttemptCount_new_Ok in Eat as [Hat _]. constructor; simpl; try done; lia.
Qed.

Lemma pg_prepare_inv cs used w r w' :
  prepare cs used w = Some (r, w') ->
  quiet w w' /\
  match r with
  | Ok ps => Forall2 prepared_from cs ps /\ NoDup (map p_token ps) /\
             (forall p, p ∈ ps -> p_token p ∉ used)
  | Err _ => True
  end.
Proof.
  revert used w r w'. induction cs as [|c cs IH]; simpl; intros used w r w' Hr.
  { run_inv Hr. split; [done|]. repeat split; try constructor. intros p Hp. set_solver. }
  run_inv Hr. apply pg_prepare_candidate_inv in Hm as [Hq Hp].
  destruct r0 as [p|e]; [|by run_inv Hr]. destruct Hp as [Hp Hu].
  run_inv Hr. apply IH in Hm as [Hq' Hps]. pose proof (quiet_trans _ _ _ Hq Hq') as Hq2.
  destruct r0 as [ps|e]; run_inv Hr; (split; [done|]); [|done].
  destruct Hps as (Hf & Hnd & Hus). split_and!.
  - by constructor.
  - constructor; [|done]. intros Hin. apply list_elem_of_fmap in Hin as (q & Hq3 & Hin).
    apply (Hus q Hin). rewrite <- Hq3. set_solver.
  - intros q Hin. apply elem_of_cons in Hin as [->|Hin]; [done|]. specialize (Hus q Hin). set_solver.
Qed.
End Preparation.

(** ** Claiming *)

Section Claiming.
Context `{SerdeJson, Base64, MimeLib, FluentUri, RustDebug, PgEnv}.
Context (Hisolated : isolated).
Context (worker : WorkerId.t) (operation_time : OffsetDateTime) (lease_for : Lease.t).

Let expiry := timestamp_add (encode_instant operation_time) (Lease.get lease_for).

(** A delivery that the claiming update of [p] matches. *)
Record ready (d : Deliveries.row_of Z) (p : Prepared) : Prop := {
  rd_key : Deliveries.event_row_id d = p_event_row_id p;
  rd_tenant : Deliveries.tenant_id d = TenantId.as_str (p_tenant_id p);
  rd_state : Deliveries.state d = "pending" \/ Deliveries.state d = "claimed";
}.

Definition claim_with (d : Deliveries.row_of Z) (p : Prepared) : Deliveries.row_of Z :=
  set_claimed (AttemptCount.get (p_attempts p)) (p_token p) (WorkerId.as_str worker) (Some expiry) d.

(** What a returned claim records of its prepared entry. *)
Record claimed_from (p : Prepared) (ev : ClaimedEvent.t) : Prop := {
  cf_tenant : ClaimedEvent.tenant_id ev = p_tenant_id p;
  cf_row_id : ClaimedEvent.row_id ev = p_row_id p;
  cf_event : ClaimedEvent.event ev = p_event p;
  cf_attempts : ClaimedEvent.attempts ev = p_attempts p;
  cf_token : ClaimedEvent.claim_token ev = ClaimToken.from_bytes (p_token p);
  cf_worker : ClaimedEvent.claimed_by ev = worker;
  cf_expiry : canonicalize_instant "claim_expires_at" (decode_instant expiry)
              = Ok (ClaimedEvent.claim_expires_at ev);
}.

(** The claiming update of a ready delivery writes that delivery alone. *)
Lemma pg_claim_update_one db d p a o :
  db_wf db -> d ∈ deliveries db -> ready d p ->
  claim_update_sql (AttemptCount.get (p_attempts p)) (p_token p) (WorkerId.as_str worker) expiry
    (TenantId.as_str (p_tenant_id p)) (p_event_row_id p) db = Ok (a, o) ->
  a = Some expiry /\ o = MkOwn [] [claim_with d p] [Deliveries.event_row_id d] /\
  db_wf (overlay o db) /\
  forall d', d' ∈ deliveries db -> Deliveries.event_row_id d' <> Deliveries.event_row_id d ->
    d' ∈ deliveries (overlay o db).
Proof.
  intros Hwf Hd [Hk Ht Hs]. unfold claim_update_sql.
  set (selected := fun r => _). set (set_ := set_claimed _ _ _ _).
  assert (Hsel : selected d = true).
  { unfold selected. rewrite Hk, Ht, Z.eqb_refl, bool_decide_true by done. simpl.
    rewrite orb_true_iff, !bool_decide_eq_true. done. }
  assert (Hkey : forall y, selected y = true -> Deliveries.event_row_id y = Deliveries.event_row_id d).
  { intros y. unfold selected. rewrite !andb_true_iff, Z.eqb_eq, Hk. tauto. }
  destruct (update_sql selected set_ db) as [[rows o']|] eqn:E; [|done]. cbn [fst snd].
  pose proof E as E'.
  assert (Hkeep : keeps_key set_) by done.
  destruct (update_sql_Ok _ _ _ _ _ Hwf Hkeep E) as (_ & _ & _ & Hov & Hwf').
  rewrite (update_sql_one _ _ _ d) in E' by (try done; intros y Hy Hsy; eapply (sorted_key_inj Deliveries.event_row_id); eauto; apply Hwf).
  destruct (Deliveries.check (set_ d)); [|done]. injection E' as <- <-.
  intros [= <- <-]. split; [done|]. split; [done|]. split; [done|].
  intros d' Hd' Hne. rewrite Hov. cbn [deliveries].
  replace d' with (updated selected set_ d'); [by apply list_elem_of_fmap_2|].
  unfold updated. destruct (selected d') eqn:Es; [|done]. by apply Hkey in Es.
Qed.

(** The transaction after it wrote the claims [rows]. *)
Definition claimed_txn (rows : list (Deliveries.row_of Z)) (t : Txn) : Txn :=
  with_own (own_app (own t) (MkOwn [] rows (map Deliveries.event_row_id rows))) t.

Lemma pg_claim_prepared_run d p w t r w' :
  open_at w t -> ready d p -> d ∈ deliveries (overlay (own t) (committed w)) ->
  Deliveries.event_row_id d ∈ own_locks (own t) ->
  claim_prepared worker operation_time lease_for p w = Some (r, w') ->
  during (own_locks (own t)) (committed w) (committed w') /\
  match r with
  | Ok ev => claimed_from p ev /\ open_at w' (claimed_txn [claim_with d p] t) /\
      forall d', d' ∈ deliveries (overlay (own t) (committed w)) ->
        Deliveries.event_row_id d' ∈ own_locks (own t) ->
        Deliveries.event_row_id d' <> Deliveries.event_row_id d ->
        d' ∈ deliveries (overlay (own (claimed_txn [claim_with d p] t)) (committed w'))
  | Err _ => exists t', settled w' t'
  end.
Proof.
  intros Ho Hready Hd Hk. unfold claim_prepared. intros Hr. run_inv Hr.
  assert (Hstay : forall d db', d ∈ deliveries (overlay (own t) (committed w)) ->
            Deliveries.event_row_id d ∈ own_locks (own t) ->
            during (own_locks (own t)) (committed w) db' -> db_wf (overlay (own t) db') ->
            d ∈ deliveries (overlay (own t) db')).
  { intros x db' Hx Hkx Hdur Hv. destruct Ho as ((_ & Hw & Hv0) & _).
    by apply (locked_row Hisolated t (committed w)). }
  pose proof (statement_open Hisolated _ _ _ _ _ Ho Hm) as (Hdur & _ & Hv & _).
  specialize (fun x Hx Hkx => Hstay x _ Hx Hkx Hdur Hv).
  destruct (write_open Hisolated _ _ _ _ _ Ho Hm) as [_ Hx].
  { intros a o Hu Hwf. by apply (pg_claim_update_one _ _ _ _ _ Hwf (Hstay d Hd Hk) Hready Hu). }
  split.
  { destruct r0 as [[e|]|]; [|by run_inv Hr..]. destruct (ClaimedEvent.new _ _ _ _ _ _ _); by run_inv Hr. }
  destruct r0 as [found|e].
  2: { run_inv Hr. destruct Hx as (t' & Hs & _). by exists t'. }
  destruct Hx as (o & Hu & Hwf & Ho').
  destruct (pg_claim_update_one _ _ _ _ _ Hwf (Hstay d Hd Hk) Hready Hu) as (-> & -> & _ & Hothers).
  change (with_own _ t) with (claimed_txn [claim_with d p] t) in Ho'.
  unfold ClaimedEvent.new in Hr.
  destruct (canonicalize_instant _ _) as [u|e] eqn:Eu; run_inv Hr.
  2: { eexists. apply Ho'. }
  split; [by constructor|]. split; [done|]. intros d' Hd' Hk' Hne.
  unfold claimed_txn, with_own. cbn [own]. rewrite overlay_app. by apply Hothers; [apply Hstay|].
Qed.

Lemma claimed_txn_app rows1 rows2 t :
  claimed_txn rows2 (claimed_txn rows1 t) = claimed_txn (rows1 ++ rows2) t.
Proof.
  unfold claimed_txn. rewrite with_own_app. unfold own_app at 3. simpl. by rewrite map_app.
Qed.

Lemma pg_claim_all_run ds ps w t r w' :
  Forall2 ready ds ps -> NoDup (map Deliveries.event_row_id ds) -> open_at w t ->
  (forall d, d ∈ ds -> d ∈ deliveries (overlay (own t) (committed w))) ->
  (forall d, d ∈ ds -> Deliveries.event_row_id d ∈ own_locks (own t)) ->
  claim_all worker operation_time lease_for ps w = Some (r, w') ->
  during (own_locks (own t)) (committed w) (committed w') /\
  match r with
  | Ok evs => Forall2 claimed_from ps evs /\ open_at w' (claimed_txn (zip_with claim_with ds ps) t)
  | Err _ => exists t', settled w' t'
  end.
Proof.
  intros Hready. revert w t r w'.
  induction Hready as [|d p ds ps Hdp Hready IH]; simpl; intros w t r w' Hnd Ho Hin Hlk Hr.
  { run_inv Hr. split; [constructor|]. split; [constructor|]. unfold claimed_txn.
    change (MkOwn [] [] (map _ [])) with (nothing (T := Z)). by rewrite own_app_nothing_r, with_own_id. }
  inversion Hnd as [|? ? Hnew Hnd']; subst. run_inv Hr.
  destruct (pg_claim_prepared_run d p _ _ _ _ Ho Hdp (Hin d ltac:(left)) (Hlk d ltac:(left)) Hm)
    as [Hd1 Hres].
  destruct r0 as [ev|e]; [|by run_inv Hr]. destruct Hres as (Hcf & Ho1 & Hothers). run_inv Hr.
  apply (IH _ (claimed_txn [claim_with d p] t)) in Hm0; [|done|done|..].
  2: { intros d' Hd'. apply Hothers; [by apply Hin; right|by apply Hlk; right|].
       intros He. apply Hnew. rewrite <- He. by apply list_elem_of_fmap_2. }
  2: { intros d' Hd'. simpl. apply elem_of_app. left. apply Hlk. by right. }
  destruct Hm0 as [Hd2 Hres2].
  apply (during_mono _ (own_locks (own t))) in Hd2; [|simpl; set_solver].
  pose proof (during_trans _ _ _ _ Hd1 Hd2) as Hd12.
  destruct r0 as [evs|e]; run_inv Hr; (split; [done|]); [|done].
  destruct Hres2 as [Hf Ho2]. split; [by constructor|].
  by rewrite claimed_txn_app in Ho2.
Qed.
End Claiming.

(** ** What a claim does *)

Section ClaimSpec.
Context `{SerdeJson, Base64, MimeLib, FluentUri, RustDebug, PgEnv}.
Context {IL : InstantColumnLaws} {PL : PgTimeLaws}.
Context (Hisolated : isolated).
Context (tenant_id : option TenantId.t) (worker : WorkerId.t) (lease_for : Lease.t)
  (limit : Limit.t).

Let tenant := option_map TenantId.as_str tenant_id.

(** A batch [evs] taken after the world [w], whose commit left [dbf]: at the
    database time [now] it took exactly the first claimable deliveries [ds] of
    the tables [db1]; they stayed locked until the commit, on the tables [db2],
    in which only their rows became claimed. *)
Definition claimed_on (w : World) (evs : list ClaimedEvent.t) (dbf : Db) : Prop :=
  exists m n db1 db2,
    let now := clock_timestamp m in
    let ds := chosen tenant now (Limit.get limit) (others_lock n db1) db1 in
    let expiry := timestamp_add now (Lease.get lease_for) in
    during [] (committed w) db1 /\ db_wf db1 /\
    Forall2 (is_claim_of hydrate_event db1 worker) ds evs /\
    NoDup (map (fun ev => ClaimToken.as_bytes (ClaimedEvent.claim_token ev)) evs) /\
    Forall (fun ev => canonicalize_instant "claim_expires_at" (decode_instant expiry)
                      = Ok (ClaimedEvent.claim_expires_at ev)) evs /\
    during (map Deliveries.event_row_id ds) db1 db2 /\ db_wf db2 /\
    (forall d, d ∈ ds -> d ∈ deliveries db2) /\
    dbf = MkDb (events db2) (map (row_after_claim worker (Some expiry) evs) (deliveries db2))
            (tables db2) /\
    db_wf dbf.

(** The transaction of a batch, before its commit. *)
Definition claimed_in (w w' : World) (evs : list ClaimedEvent.t) : Prop :=
  exists m n db1 t,
    let now := clock_timestamp m in
    let ds := chosen tenant now (Limit.get limit) (others_lock n db1) db1 in
    let expiry := timestamp_add now (Lease.get lease_for) in
    let keys := map Deliveries.event_row_id ds in
    during [] (committed w) db1 /\ db_wf db1 /\
    Forall2 (is_claim_of hydrate_event db1 worker) ds evs /\
    NoDup (map (fun ev => ClaimToken.as_bytes (ClaimedEvent.claim_token ev)) evs) /\
    Forall (fun ev => canonicalize_instant "claim_expires_at" (decode_instant expiry)
                      = Ok (ClaimedEvent.claim_expires_at ev)) evs /\
    during keys db1 (committed w') /\ open_at w' t /\
    own t = own_app (MkOwn [] [] keys) (MkOwn [] (claimed_rows worker expiry ds evs) keys).

(** A chosen delivery, its prepared entry and its claim. *)
Lemma pg_entry_claim_of db d c p t ev :
  candidate_of db d c -> prepared_from c p -> claimed_from worker t lease_for p ev ->
  is_claim_of hydrate_event db worker d ev.
Proof.
  intros (e & He & Hj & ->) [] []. simpl in *. constructor; try congruence.
  - rewrite cf_tenant0. by eapply TenantId_new_as_str.
  - by rewrite cf_token0.
  - exists e. do 2 (split; [done|]). rewrite cf_event0. exact pf_event0.
Qed.

Lemma pg_entry_ready db d c p tn now held :
  candidate_of db d c -> prepared_from c p -> claimable tn now held d = true -> ready d p.
Proof.
  intros (e & He & Hj & ->) [] Hc. simpl in *. constructor; [done| |by eapply claimable_state].
  symmetry. by eapply TenantId_new_as_str.
Qed.
(** The entries of a batch. *)
Lemma pg_batch_of db now held cs ps evs t :
  db_wf db -> encode_instant t = now ->
  cs = (claim_sql tenant now (Limit.get limit) held db).1 ->
  Forall2 prepared_from cs ps -> Forall2 (claimed_from worker t lease_for) ps evs ->
  let ds := chosen tenant now (Limit.get limit) held db in
  Forall2 (is_claim_of hydrate_event db worker) ds evs /\ Forall2 ready ds ps /\
  zip_with (claim_with worker t lease_for) ds ps
  = claimed_rows worker (timestamp_add now (Lease.get lease_for)) ds evs /\
  map (fun ev => ClaimToken.as_bytes (ClaimedEvent.claim_token ev)) evs = map p_token ps.
Proof.
  intros Hwf <- -> Hps Hevs ds.
  pose proof (pg_claim_sql_chosen tenant (encode_instant t) (Limit.get limit) held db Hwf) as Hcs.
  fold ds in Hcs.
  assert (Hcl : forall d, d ∈ ds -> claimable tenant (encode_instant t) held d = true)
    by (intros d Hd; by apply chosen_spec in Hd as [_ ?]).
  unfold claimed_rows. set (cs := (claim_sql _ _ _ _ _).1) in *. clearbody ds cs.
  revert ps evs Hps Hevs Hcl.
  induction Hcs as [|d c ds cs Hdc Hcs IH]; intros ps evs Hps Hevs Hcl;
    inversion Hps as [|? p ? ps' Hp Hps']; subst; inversion Hevs as [|? ev ? evs' Hev Hevs']; subst;
    simpl; [by split_and!|].
  destruct (IH _ _ Hps' Hevs') as (Hco & Hr & Hz & Ht); [intros x Hx; apply Hcl; by right|].
  split; [|split; [|split]].
  - constructor; [|done]. by eapply pg_entry_claim_of.
  - constructor; [|done]. eapply pg_entry_ready; [done..|]. apply Hcl. by left.
  - rewrite Hz. f_equal. destruct Hev. unfold claim_with. by rewrite cf_attempts0, cf_token0.
  - rewrite Ht. f_equal. destruct Hev. by rewrite cf_token0.
Qed.
Lemma pg_claim_sql_locks now held db :
  db_wf db ->
  (claim_sql tenant now (Limit.get limit) held db).2
  = MkOwn [] [] (map Deliveries.event_row_id (chosen tenant now (Limit.get limit) held db)).
Proof.
  intros Hwf. pose proof (pg_claim_sql_chosen tenant now (Limit.get limit) held db Hwf) as Hcs.
  unfold claim_sql in *. cbn [fst snd] in *. f_equal. symmetry. apply Forall2_map_eq.
  eapply Forall2_impl; [exact Hcs|]. by intros d c (e & _ & _ & ->).
Qed.

(** The updates of a batch, once its candidates are selected and prepared. *)
Lemma pg_claim_batch_run m n t0 ps w1 w t r w' :
  let db := committed w1 in let now := clock_timestamp m in
  let ds := chosen tenant now (Limit.get limit) (others_lock n db) db in
  db_wf db -> encode_instant t0 = now ->
  Forall2 prepared_from (claim_sql tenant now (Limit.get limit) (others_lock n db) db).1 ps ->
  NoDup (map p_token ps) -> committed w = db -> open_at w t ->
  own t = MkOwn [] [] (map Deliveries.event_row_id ds) ->
  claim_all worker t0 lease_for ps w = Some (r, w') ->
  during [] db (committed w') /\
  match r with
  | Ok evs => forall w0, during [] (committed w0) db -> claimed_in w0 w' evs
  | Err _ => exists t', settled w' t'
  end.
Proof.
  intros db now ds Hwf Ht0 Hps Htok Hc Ho Hown Hr.
  pose proof (pg_claim_sql_chosen tenant now (Limit.get limit) (others_lock n db) db Hwf) as Hcs.
  assert (Hready : Forall2 ready ds ps).
  { fold ds in Hcs. assert (Hcl : forall d, d ∈ ds -> claimable tenant now (others_lock n db) d = true)
      by (intros d Hd; by apply chosen_spec in Hd as [_ ?]).
    clearbody ds. clear -Hcs Hps Hcl. revert ps Hps.
    induction Hcs as [|d c ds cs Hdc Hcs IH]; intros ps Hps;
      inversion Hps as [|? p ? ps' Hp Hps']; subst; constructor.
    - eapply pg_entry_ready; [done..|]. apply Hcl. by left.
    - apply IH; [|done]. intros x Hx. apply Hcl. by right. }
  destruct (pg_claim_all_run Hisolated worker t0 lease_for ds ps w t r w') as [Hd Hres]; try done.
  - apply sorted_lt_NoDup, chosen_sorted, Hwf.
  - intros d Hd. rewrite Hown, overlay_locks, Hc. by apply chosen_spec in Hd as [? _].
  - intros d Hd. rewrite Hown. by apply list_elem_of_fmap_2.
  - rewrite Hc in Hd. split; [by eapply during_nil|]. destruct r as [evs|]; [|done].
    destruct Hres as [Hevs Ho']. intros w0 Hd0.
    destruct (pg_batch_of db now (others_lock n db) _ ps evs t0 Hwf Ht0 eq_refl Hps Hevs)
      as (Hco & _ & Hz & Htoks). fold ds in Hco, Hz.
    exists m, n, db, (claimed_txn (zip_with (claim_with worker t0 lease_for) ds ps) t).
    cbv zeta. fold now ds. do 3 (split; [done|]). split; [by rewrite Htoks|]. split.
    { apply Forall_forall. intros ev Hev. apply list_elem_of_lookup in Hev as [i Hi].
      destruct (Forall2_lookup_r _ _ _ _ _ Hevs Hi) as (p & _ & Hcf). rewrite <- Ht0. apply Hcf. }
    split; [by rewrite Hown in Hd|]. split; [done|].
    unfold claimed_txn. cbn [with_own own]. rewrite Hown, Hz, claimed_rows_keys; [done|].
    by eapply Forall2_length.
Qed.

(** A run of the transaction. *)
Lemma pg_claim_transaction_run w t r w' :
  open_at w t -> own t = nothing ->
  claim_in_transaction tenant_id worker lease_for limit w = Some (r, w') ->
  during [] (committed w) (committed w') /\
  match r with
  | Ok evs => claimed_in w w' evs
  | Err _ => exists t', settled w' t'
  end.
Proof.
  intros Ho Hown Hr. unfold claim_in_transaction in Hr. run_inv Hr.
  assert (Hb : during [] (committed w) (committed w0) /\
    match r0 with Ok _ => exists t0, open_at w0 t0 /\ own t0 = nothing | Err _ => exists t', settled w0 t' end).
  { destruct tenant_id as [tn|].
    - destruct (bind_tenant_open Hisolated _ _ _ _ _ Ho Hm) as [Hd Hx].
      split; [by eapply during_nil|]. destruct r0; [by exists (with_tenant (TenantId.as_str tn) t)|].
      destruct Hx as (t' & Hs & _). by exists t'.
    - run_inv Hm. split; [constructor|by exists t]. }
  destruct Hb as [Hd0 Hx]. destruct r0 as [[]|e]; [|by run_inv Hr].
  destruct Hx as (t0 & Ho0 & Hown0). clear Hm. run_inv Hr.
  destruct (query_open Hisolated _ _ _ _ _ Ho0 Hm) as [Hd1 Hx].
  apply during_nil in Hd1. pose proof (during_trans _ _ _ _ Hd0 Hd1) as Hd01.
  destruct r0 as [now|e]; [|run_inv Hr; split; [done|]; destruct Hx as (t' & ? & _); by exists t'].
  destruct Hx as [Hnow Ho1]. clear Hm. run_inv Hr.
  destruct (write_open Hisolated _ _ _ _ _ Ho1 Hm) as [Hd2 Hx].
  { intros a o [= <- <-] Hwf. by rewrite overlay_locks. }
  apply during_nil in Hd2. pose proof (during_trans _ _ _ _ Hd01 Hd2) as Hd02.
  destruct r0 as [cands|e]; [|run_inv Hr; split; [done|]; destruct Hx as (t' & ? & _); by exists t'].
  destruct Hx as (o & Hsql & Hview & Ho2). rewrite Hown0, overlay_nothing in Hsql, Hview.
  assert (Henc : encode_instant now = clock_timestamp (tick w0)) by (by rewrite Hnow, encode_decode).
  rewrite Henc in Hsql.
  apply (inj Ok) in Hsql.
  pose proof (f_equal fst Hsql) as Hcands. pose proof (f_equal snd Hsql) as Hlocks. cbn [fst snd] in *.
  rewrite pg_claim_sql_locks in Hlocks by done. clear Hm Hsql. run_inv Hr.
  destruct (pg_prepare_inv _ _ _ _ _ Hm) as [Hq Hps]. clear Hm.
  pose proof (quiet_open _ _ _ Hq Ho2) as Ho3. destruct Hq as (Hc3 & _).
  destruct r0 as [ps|e]; [|run_inv Hr; rewrite Hc3; split; [done|]; eexists; apply Ho3].
  destruct Hps as (Hps & Hnd & _). rewrite <- Hcands in Hps.
  assert (Hown3 : own (with_own (own_app (own t0) o) t0) = MkOwn [] [] (map Deliveries.event_row_id
            (chosen tenant (clock_timestamp (tick w0)) (Limit.get limit)
               (others_lock (tick w1) (committed w2)) (committed w2)))).
  { cbn [with_own own]. by rewrite Hown0, <- Hlocks. }
  destruct (pg_claim_batch_run _ _ _ _ _ _ _ _ _ Hview Henc Hps Hnd Hc3 Ho3 Hown3 Hr) as [Hd3 Hres].
  split; [by eapply during_trans|]. destruct r; [|done]. by apply Hres.
Qed.
(** The commit of a batch. *)
Lemma pg_claim_commit w w1 evs dbf db2 n m db1 t :
  let now := clock_timestamp m in
  let ds := chosen tenant now (Limit.get limit) (others_lock n db1) db1 in
  let expiry := timestamp_add now (Lease.get lease_for) in
  let keys := map Deliveries.event_row_id ds in
  during [] (committed w) db1 -> db_wf db1 ->
  Forall2 (is_claim_of hydrate_event db1 worker) ds evs ->
  NoDup (map (fun ev => ClaimToken.as_bytes (ClaimedEvent.claim_token ev)) evs) ->
  Forall (fun ev => canonicalize_instant "claim_expires_at" (decode_instant expiry)
                    = Ok (ClaimedEvent.claim_expires_at ev)) evs ->
  during keys db1 (committed w1) ->
  own t = own_app (MkOwn [] [] keys) (MkOwn [] (claimed_rows worker expiry ds evs) keys) ->
  during (own_locks (own t)) (committed w1) db2 -> db_wf db2 -> db_wf (overlay (own t) db2) ->
  dbf = overlay (own t) db2 -> claimed_on w evs dbf.
Proof.
  intros now ds expiry keys Hd1 Hwf Hco Hnd Hex Hd2 Hown Hd3 Hwf2 Hwfv Hdbf.
  rewrite Hown in Hd3. apply (during_mono _ keys) in Hd3; [|simpl; set_solver].
  pose proof (during_trans _ _ _ _ Hd2 Hd3) as Hd.
  exists m, n, db1, db2. cbv zeta. fold now ds expiry keys. do 7 (split; [done|]).
  assert (Hstay : forall d, d ∈ ds -> d ∈ deliveries db2).
  { intros d Hin. eapply (during_locked_row Hisolated _ _ _ _ Hwf Hd).
    - by apply chosen_spec in Hin as [? _].
    - by apply list_elem_of_fmap_2. }
  split; [done|]. subst dbf. split; [|done].
  rewrite Hown, overlay_app, overlay_locks, overlay_deliveries; [|done|].
  - f_equal. apply map_ext_in. intros d Hin. apply list_elem_of_In in Hin. apply version_claims.
    + by apply sorted_lt_NoDup, chosen_sorted.
    + eapply Forall2_impl; [exact Hco|]. intros x ev []. congruence.
    + intros Hk. apply list_elem_of_fmap in Hk as (d' & Hk & Hd').
      assert (d = d') as ->; [|done].
      eapply (sorted_key_inj Deliveries.event_row_id); eauto; apply Hwf2.
  - intros r Hr. apply (list_elem_of_fmap_2 Deliveries.event_row_id) in Hr.
    change (_ <$> ?l) with (map Deliveries.event_row_id l) in Hr.
    rewrite claimed_rows_keys in Hr by (by eapply Forall2_length).
    apply list_elem_of_fmap in Hr as (d & -> & Hd'). apply list_elem_of_fmap_2. by apply Hstay.
Qed.

(** A run of a claim. *)
Lemma pg_claim_run w r w' :
  closed w -> claim_for_scope tenant_id worker lease_for limit w = Some (r, w') ->
  closed w' /\
  match r with
  | Ok evs => claimed_on w evs (committed w')
  | Err e => during [] (committed w) (committed w') \/
      exists source evs, e = ClaimError.sql "commit claim transaction" source /\
        claimed_on w evs (committed w')
  end.
Proof.
  intros Hclosed. unfold claim_for_scope, claim_with_entropy. intros Hr. run_inv Hr.
  destruct (begin_closed Hisolated _ _ _ Hclosed Hm) as [Hd0 Hx].
  destruct r0 as [[]|e]; [|run_inv Hr; auto]. destruct Hx as (t & Ho & Hown). clear Hm. run_inv Hr.
  apply owned_inv in Hm as (w2 & Hm & Hrb).
  destruct (pg_claim_transaction_run _ _ _ _ Ho Hown Hm) as [Hd1 Hx].
  pose proof (during_trans _ _ _ _ Hd0 Hd1) as Hd01. destruct r0 as [evs|e].
  2: { destruct Hx as (t' & Hs), Hrb as (r' & Hrb). run_inv Hr.
       destruct (rollback_settled Hisolated _ _ _ _ Hs Hrb) as [Hc Hd2].
       split; [done|]. left. by eapply during_trans. }
  subst w2. destruct Hx as (m & n & db1 & t1 & Hf1 & Hf2 & Hf3 & Hf4 & Hf5 & Hf6 & Ho1 & Hf7).
  run_inv Hr.
  destruct (commit_open Hisolated _ _ _ _ Ho1 Hm0) as (Hc & db2 & Hd2 & Hwf2 & Hwfv & Hfin).
  assert (Hon : committed w2 = overlay (own t1) db2 -> claimed_on w evs (committed w2)).
  { intros Hcom. by eapply (pg_claim_commit w w1 evs _ db2 n m db1 t1 (during_trans _ _ _ _ Hd0 Hf1)). }
  destruct r0 as [[]|e]; run_inv Hr; (split; [done|]); [by apply Hon|].
  destruct Hfin as [Hfin|Hfin]; [right; eauto|]. left. rewrite Hfin.
  eapply during_trans; [exact Hd01|]. by eapply during_nil.
Qed.

End ClaimSpec.

(** ** Termination *)

Section ClaimReturns.
Context `{SerdeJson, Base64, MimeLib, FluentUri, RustDebug, PgEnv}.

(** The source of entropy does not fail, and does not repeat a token in the [n]
    draws from [k] on. *)
Definition distinct_draws (k n : nat) : Prop :=
  exists t, (forall i, entropy i = Ok (t i)) /\
    forall i j, (k <= i < k + n)%nat -> (k <= j < k + n)%nat -> t i = t j -> i = j.

Lemma pg_fresh_token_search (t : nat -> bytes) fuel previous used w k :
  (forall i, entropy i = Ok (t i)) -> (k < fuel)%nat ->
  acceptable previous used (t (draws w + k)%nat) = true ->
  exists r w', fresh_token fuel previous used w = Some (r, w') /\
    (draws w < draws w' <= draws w + fuel)%nat.
Proof.
  intros Ht. revert fuel w. induction k as [|k IH]; intros [|fuel] w Hk Ha; try lia; simpl;
    (erewrite bind_run by (unfold fill; rewrite Ht; reflexivity)); cbv beta iota.
  - rewrite Nat.add_0_r in Ha. rewrite Ha. do 2 eexists. split; [reflexivity|]. simpl. lia.
  - destruct (acceptable previous used (t (draws w))).
    + do 2 eexists. split; [reflexivity|]. simpl. lia.
    + destruct (IH fuel (MkWorld (committed w) (txn w) (tick w) (S (draws w)))) as (r & w' & Hr & Hd).
      * lia.
      * simpl. by replace (S (draws w + k)) with (draws w + S k)%nat by lia.
      * exists r, w'. split; [done|]. simpl in Hd. lia.
Qed.

Lemma pg_fresh_token_returns fuel previous used w n :
  distinct_draws (draws w) n -> (fuel <= n)%nat -> (length used + 1 < fuel)%nat ->
  exists r w', fresh_token fuel previous used w = Some (r, w') /\
    (draws w <= draws w' <= draws w + fuel)%nat.
Proof.
  intros (t & Ht & Hd) Hn Hfuel.
  destruct (acceptable_among previous used (fun k => t (draws w + k)%nat) fuel) as (k & Hk & Ha).
  - intros i j Hi Hj Hij. apply Hd in Hij; lia.
  - done.
  - destruct (pg_fresh_token_search t fuel previous used w k Ht Hk Ha) as (r & w' & Hr & Hb).
    exists r, w'. split; [done|lia].
Qed.

Lemma distinct_draws_later k n k' n' :
  (k <= k')%nat -> (k' + n' <= k + n)%nat -> distinct_draws k n -> distinct_draws k' n'.
Proof.
  intros Hk Hn (t & Ht & Hd). exists t. split; [done|]. intros i j Hi Hj. apply Hd; lia.
Qed.

Lemma pg_prepare_candidate_returns c used w n :
  distinct_draws (draws w) n -> (entropy_fuel <= n)%nat -> (length used + 1 < entropy_fuel)%nat ->
  exists r w', prepare_candidate c used w = Some (r, w') /\
    (draws w <= draws w' <= draws w + entropy_fuel)%nat.
Proof.
  intros Hd Hn Hfuel. unfold prepare_candidate.
  assert (Hstop : forall e : ClaimError.t, exists r w', ret (Err e : Result Prepared _) w = Some (r, w') /\
            (draws w <= draws w' <= draws w + entropy_fuel)%nat)
    by (intros e; do 2 eexists; split; [reflexivity|lia]).
  destruct (RowId.new _); [|apply Hstop]. destruct (checked_add _ _ _); [|apply Hstop].
  destruct (AttemptCount.new _); [|apply Hstop].
  destruct (pg_fresh_token_returns entropy_fuel (ClaimCandidate.claim_token c) used w n Hd Hn Hfuel)
    as (r & w' & Hr & Hb). rewrite (bind_run _ _ _ _ _ Hr).
  destruct r; repeat case_match; do 2 eexists; (split; [reflexivity|lia]).
Qed.

Lemma pg_prepare_returns cs used w :
  distinct_draws (draws w) (length cs * entropy_fuel) ->
  (length cs + length used < entropy_fuel)%nat -> is_Some (prepare cs used w).
Proof.
  revert used w. induction cs as [|c cs IH]; simpl; intros used w Hd Hfuel; [by eexists|].
  destruct (pg_prepare_candidate_returns c used w _ Hd) as (r & w1 & Hr & Hb); [lia..|].
  rewrite (bind_run _ _ _ _ _ Hr). destruct r as [p|e]; [|by eexists].
  destruct (IH (used ++ [p_token p]) w1) as [[r2 w2] Hr2].
  - eapply distinct_draws_later; [| |exact Hd]; lia.
  - rewrite length_app. simpl. lia.
  - rewrite (bind_run _ _ _ _ _ Hr2). destruct r2; by eexists.
Qed.

Lemma pg_claim_all_returns worker operation_time lease_for ps :
  returns (claim_all worker operation_time lease_for ps).
Proof.
  induction ps as [|p ps IH]; simpl; [apply returns_ret|].
  assert (returns (claim_prepared worker operation_time lease_for p)) by
    (unfold claim_prepared; returns_step).
  returns_step.
Qed.

(** The transaction returns when its draws do not repeat. *)
Lemma pg_claim_transaction_returns tenant_id worker lease_for limit w :
  distinct_draws (draws w) (Z.to_nat (Limit.get limit) * entropy_fuel) ->
  (Z.to_nat (Limit.get limit) < entropy_fuel)%nat ->
  is_Some (claim_in_transaction tenant_id worker lease_for limit w).
Proof.
  intros Hd Hfuel. unfold claim_in_transaction.
  assert (Hb : exists r w1, (match tenant_id with Some tenant_id => bind_tenant tenant_id
                             | None => ret (Ok tt) end) w = Some (r, w1) /\ draws w1 = draws w).
  { destruct tenant_id as [tn|]; [|by do 2 eexists].
    destruct (bind_tenant_returns tn w) as [[r w1] Hr]. exists r, w1.
    split; [done|]. by eapply bind_tenant_draws. }
  destruct Hb as (r & w1 & Hr & Hw1). rewrite (bind_run _ _ _ _ _ Hr).
  destruct r as [[]|e]; [|by eexists].
  destruct (query_returns (fun n _ => decode_instant (clock_timestamp n)) w1) as [[r w2] Hr2].
  unfold database_time. rewrite (bind_run _ _ _ _ _ Hr2). destruct r as [now|e]; [|by eexists].
  apply statement_draws in Hr2.
  destruct (statement_returns (fun n db => Ok (claim_sql (option_map TenantId.as_str tenant_id)
    (encode_instant now) (Limit.get limit) (others_lock n db) db)) w2) as [[r w3] Hr3].
  rewrite (bind_run _ _ _ _ _ Hr3). destruct r as [cs|e]; [|by eexists].
  pose proof (statement_draws _ _ _ _ Hr3) as Hw3.
  apply statement_answer in Hr3 as (n & db & o & Hcs). apply (inj Ok), (f_equal fst) in Hcs.
  unfold claim_sql in Hcs. cbn [fst] in Hcs.
  assert (Hlen : (length cs <= Z.to_nat (Limit.get limit))%nat) by (rewrite <- Hcs, length_take; lia).
  destruct (pg_prepare_returns cs [] w3) as [[r w4] Hr4].
  - eapply distinct_draws_later; [| |exact Hd]; nia.
  - simpl. lia.
  - rewrite (bind_run _ _ _ _ _ Hr4). destruct r; [apply pg_claim_all_returns|by eexists].
Qed.

Lemma pg_claim_returns tenant_id worker lease_for limit w :
  distinct_draws (draws w) (Z.to_nat (Limit.get limit) * entropy_fuel) ->
  (Z.to_nat (Limit.get limit) < entropy_fuel)%nat ->
  is_Some (claim_for_scope tenant_id worker lease_for limit w).
Proof.
  intros Hd Hfuel. unfold claim_for_scope, claim_with_entropy.
  destruct (begin_returns false w) as [[r w1] Hr]. rewrite (bind_run _ _ _ _ _ Hr).
  apply begin_draws in Hr. destruct r as [[]|e]; [|by eexists]. rewrite <- Hr in Hd.
  destruct (pg_claim_transaction_returns tenant_id worker lease_for limit w1 Hd Hfuel) as [[r w2] Hr2].
  assert (Ho : is_Some (owned (claim_in_transaction tenant_id worker lease_for limit) w1)).
  { unfold owned. rewrite (bind_run _ _ _ _ _ Hr2). destruct r; by eexists. }
  destruct Ho as [[r3 w3] Ho]. rewrite (bind_run _ _ _ _ _ Ho). destruct r3; [|by eexists].
  apply returns_bind; [apply commit_returns|]. intros [[]|]; apply returns_ret.
Qed.
End ClaimReturns.

Section ClaimTheorem.
Context `{SerdeJson, Base64, MimeLib, FluentUri, RustDebug, PgEnv} {IL : InstantColumnLaws} {PL : PgTimeLaws}.

(** C4: a claim over PostgreSQL, while other connections commit between any two
    of its statements and hold rows locked. When it returns claims, they are
    exactly the first [limit] deliveries of its scope, in row order, that were
    pending and due or claimed and expired at one database time and that no
    other connection held locked; each with its hydrated event, its attempt
    count increased by one and a token that differs from its previous one and
    from every other token of the batch. The rows stayed as they were seen until
    the commit, which made exactly them claimed under those tokens until that
    time plus the lease, and changed nothing else over what others committed.
    When it returns an error it left no trace, unless the error is that of a
    COMMIT whose answer was lost, which may also have taken effect whole. No
    transaction stays open. And it does return: the unbounded loop that draws
    tokens ends, as long as the source does not repeat itself meanwhile, with at
    most one draw more than there are tokens to avoid, so fuel beyond the limit
    is enough. *)
Theorem pg_claim_outcomes tenant_id worker lease_for limit w :
  isolated -> closed w ->
  (distinct_draws (draws w) (Z.to_nat (Limit.get limit) * entropy_fuel) ->
   (Z.to_nat (Limit.get limit) < entropy_fuel)%nat ->
   is_Some (claim_for_scope tenant_id worker lease_for limit w)) /\
  forall r w', claim_for_scope tenant_id worker lease_for limit w = Some (r, w') ->
    closed w' /\
    match r with
    | Ok evs => claimed_on tenant_id worker lease_for limit w evs (committed w')
    | Err e => during [] (committed w) (committed w') \/
        exists source evs, e = ClaimError.sql "commit claim transaction" source /\
          claimed_on tenant_id worker lease_for limit w evs (committed w')
    end.
Proof.
  intros Hisolated Hc. split.
  - apply pg_claim_returns.
  - intros r w' Hr. by apply pg_claim_run.
Qed.
End ClaimTheorem.
