(* ===== verification/PgMutation.v ===== *)
(** * Token-fenced mutations of the PostgreSQL adapter (crates/dovecote-sqlx-postgres/src/lifecycle_mutation.rs)

    Renew, acknowledge, retry, release and quarantine: one statement that locks
    the delivery, reads the clock and updates it under the claim's fence, the
    classification of a delivery it did not match, and the second attempt under
    the lock. The callers in lifecycle.rs fix the mutation. *)

From S2P Require Import Prelude Step Utf8 BTree Errors Limits Validation Bounds Values Extension Serialization Event State Tables Queries RowHydration External Overlay Others Instants Leases PgError Pg PgHydrate.

Module Mutation.
Inductive t : Type :=
  | Renew (lease_for : Lease.t)
  | Ack
  | Retry (failure : Failure.t) (backoff : Delay.t)
  | Release (delay : Delay.t)
  | Quarantine (reason : QuarantineReason.t).
End Mutation.

Module DeliveryForMutation.
Record t `{TimeLib} : Type := Make {
  state : string;
  claim_token : option bytes;
  claim_expires_at : option OffsetDateTime;
  operation_time : OffsetDateTime;
}.
End DeliveryForMutation.

Section Mutate.
Context `{RustDebug, PgEnv}.

(** The SET clause of each mutation. *)
Definition assign (mutation : Mutation.t) (now : Z) (d : Deliveries.row_of Z) :
    Deliveries.row_of Z :=
  match mutation with
  | Mutation.Renew lease_for =>
      Deliveries.Row (Deliveries.event_row_id d) (Deliveries.tenant_id d)
        (Deliveries.state d) (Deliveries.available_at d) (Deliveries.attempts d)
        (Deliveries.claim_token d) (Deliveries.claimed_by d)
        (Some (timestamp_add now (Lease.get lease_for)))
        (Deliveries.last_failure_code d) (Deliveries.last_failure_detail d)
        (Deliveries.delivered_at d) (Deliveries.quarantined_at d) (Deliveries.quarantine_reason d)
  | Mutation.Ack =>
      unclaimed d "delivered" (Deliveries.available_at d) None (Some now)
        (Deliveries.quarantined_at d) (Deliveries.quarantine_reason d)
  | Mutation.Retry failure backoff =>
      unclaimed d "pending" (timestamp_add now (Delay.get backoff))
        (Some (Failure.code failure, Failure.detail failure)) (Deliveries.delivered_at d)
        (Deliveries.quarantined_at d) (Deliveries.quarantine_reason d)
  | Mutation.Release delay =>
      unclaimed d "pending" (timestamp_add now (Delay.get delay)) None (Deliveries.delivered_at d)
        (Deliveries.quarantined_at d) (Deliveries.quarantine_reason d)
  | Mutation.Quarantine reason =>
      unclaimed d "quarantined" (Deliveries.available_at d) None (Deliveries.delivered_at d)
        (Some now) (Some (QuarantineReason.as_str reason))
  end.

(** [WITH locked AS MATERIALIZED (SELECT ... FOR UPDATE), operation AS
    MATERIALIZED (SELECT ..., clock_timestamp() ...) UPDATE ...]: locks the
    delivery, reads the clock and updates; its [rows_affected] *)
Definition mutation_sql (mutation : Mutation.t) (tenant : option string) (row_id : Z)
    (token : bytes) (now : Z) (db : Db) : Result (Z * Own Z) SqlxError.t :=
  let? updated := update_sql (fenced tenant row_id token now) (assign mutation now) db in
  Ok (Z.of_nat (length updated.1),
      own_app (lock_row_sql (row_in_scope tenant row_id) db).2 updated.2).

Definition execute_mutation (tenant_id : option TenantId.t) (row_id : RowId.t)
    (claim_token : ClaimToken.t) (mutation : Mutation.t) : M (Result Z MutationError.t) :=
  try* affected := statement (fun n =>
      mutation_sql mutation (option_map TenantId.as_str tenant_id) (RowId.get row_id)
        (ClaimToken.as_bytes claim_token) (clock_timestamp n))
       else MutationError.sql "execute conditional delivery mutation" in
  ret (Ok affected).

(** [WITH locked AS MATERIALIZED (SELECT ... FOR UPDATE), operation AS ... SELECT
    state, claim_token, claim_expires_at, operation_time FROM operation] *)
Definition lock_delivery_sql (tenant : option string) (row_id : Z) (now : Z) (db : Db) :
    option DeliveryForMutation.t * Own Z :=
  let locked := lock_row_sql (row_in_scope tenant row_id) db in
  (option_map (fun d =>
     DeliveryForMutation.Make _ (Deliveries.state d) (Deliveries.claim_token d)
       (option_map decode_instant (Deliveries.claim_expires_at d)) (decode_instant now)) locked.1,
   locked.2).

Definition lock_delivery (tenant_id : option TenantId.t) (row_id : RowId.t) :
    M (Result DeliveryForMutation.t MutationError.t) :=
  try* delivery := statement (fun n db =>
      Ok (lock_delivery_sql (option_map TenantId.as_str tenant_id) (RowId.get row_id)
            (clock_timestamp n) db))
       else MutationError.sql "lock delivery for mutation" in
  match delivery with
  | Some delivery => ret (Ok delivery)
  | None => ret (Err MutationError.NotFound)
  end.

Definition parse_state (value : string) : Result DeliveryState.t MutationError.t :=
  if bool_decide (value = "pending") then Ok DeliveryState.Pending
  else if bool_decide (value = "claimed") then Ok DeliveryState.Claimed
  else if bool_decide (value = "delivered") then Ok DeliveryState.Delivered
  else if bool_decide (value = "quarantined") then Ok DeliveryState.Quarantined
  else Err (MutationError.serialization ("unknown delivery state " +:+ debug_str value)).

Definition classify_delivery (delivery : DeliveryForMutation.t) (token : ClaimToken.t) :
    Result unit MutationError.t :=
  let? state := parse_state (DeliveryForMutation.state delivery) in
  if negb (bool_decide (state = DeliveryState.Claimed))
  then Err (MutationError.IllegalTransition state)
  else
    let? stored := ok_or (DeliveryForMutation.claim_token delivery)
                     (MutationError.serialization "claimed delivery has no claim token") in
    if negb (len stored =? 16)
    then Err (MutationError.serialization "claimed delivery has an invalid claim token width")
    else
      let? expires_at := ok_or (DeliveryForMutation.claim_expires_at delivery)
                           (MutationError.serialization "claimed delivery has no claim expiry") in
      if negb (bool_decide (stored = ClaimToken.as_bytes token))
         || instant_leb expires_at (DeliveryForMutation.operation_time delivery)
      then Err MutationError.LostClaim
      else Ok tt.

(** The [async] block of [mutate]. *)
Definition mutate_in_transaction (tenant_id : option TenantId.t) (row_id : RowId.t)
    (claim_token : ClaimToken.t) (mutation : Mutation.t) : M (Result unit MutationError.t) :=
  try* affected := execute_mutation tenant_id row_id claim_token mutation else (fun e => e) in
  if affected =? 1 then ret (Ok tt)
  else
    try* delivery := lock_delivery tenant_id row_id else (fun e => e) in
    match classify_delivery delivery claim_token with
    | Err error => ret (Err error)
    | Ok _ =>
        try* affected := execute_mutation tenant_id row_id claim_token mutation
             else (fun e => e) in
        if negb (affected =? 1) then
          try* latest := lock_delivery tenant_id row_id else (fun e => e) in
          match classify_delivery latest claim_token with
          | Err error => ret (Err error)
          | Ok _ => ret (Err (MutationError.sql "conditional delivery mutation"
                      (SqlxError.Protocol "locked claimed delivery did not satisfy mutation")))
          end
        else ret (Ok tt)
    end.

Definition mutate (tenant_id : option TenantId.t) (row_id : RowId.t) (claim_token : ClaimToken.t)
    (mutation : Mutation.t) : M (Result unit MutationError.t) :=
  try* _ := begin_statement false else MutationError.sql "begin mutation transaction" in
  try* _ := owned (match tenant_id with
                   | Some tenant_id =>
                       try* _ := bind_tenant tenant_id
                            else MutationError.sql "bind mutation tenant" in
                       ret (Ok tt)
                   | None => ret (Ok tt)
                   end) else (fun e => e) in
  let* result := mutate_in_transaction tenant_id row_id claim_token mutation in
  match result with
  | Ok _ => try* _ := commit else MutationError.sql "commit mutation transaction" in ret (Ok tt)
  | Err error => let* _ := rollback in ret (Err error)
  end.

Definition renew_for_scope tenant row_id token lease_for :=
  mutate tenant row_id token (Mutation.Renew lease_for).
Definition ack_for_scope tenant row_id token := mutate tenant row_id token Mutation.Ack.
Definition retry_for_scope tenant row_id token failure backoff :=
  mutate tenant row_id token (Mutation.Retry failure backoff).
Definition release_for_scope tenant row_id token delay :=
  mutate tenant row_id token (Mutation.Release delay).
Definition quarantine_for_scope tenant row_id token reason :=
  mutate tenant row_id token (Mutation.Quarantine reason).
End Mutate.

(** ** The statements *)

Section Statements.
Context `{RustDebug, PgEnv}.
Context (Hisolated : isolated).
Context (tenant_id : option TenantId.t) (row_id : RowId.t) (token : ClaimToken.t).

Let tenant := option_map TenantId.as_str tenant_id.
Let key := RowId.get row_id.
Let is_fenced := fenced tenant key (ClaimToken.as_bytes token).

Lemma assign_keeps_key mutation now : keeps_key (assign mutation now).
Proof. by destruct mutation. Qed.

(** The update matches the delivery with the row id, or nothing. *)
Lemma pg_mutation_sql_Ok mutation now db n o :
  db_wf db -> mutation_sql mutation tenant key (ClaimToken.as_bytes token) now db = Ok (n, o) ->
  db_wf (overlay o db) /\
  ((n = 1 /\ exists d, d ∈ deliveries db /\ is_fenced now d = true /\
      Deliveries.check (assign mutation now d) = true /\
      o = MkOwn [] [assign mutation now d] [key; key]) \/
   (n <> 1 /\ (forall d, d ∈ deliveries db -> is_fenced now d = false) /\
      own_events o = [] /\ own_deliveries o = [])).
Proof.
  intros Hwf. unfold mutation_sql.
  destruct (update_sql _ _ db) as [[rows o']|] eqn:Eu; [|done]. cbn [fst snd]. intros [= <- <-].
  split.
  { rewrite overlay_app. rewrite lock_row_overlay.
    by eapply (update_sql_wf _ _ _ _ _ (assign_keeps_key mutation now)). }
  apply update_fenced in Eu as [(d & Hd & Hf & Hc & -> & ->)|(-> & -> & Hn)];
    [| |done|apply assign_keeps_key].
  - left. split; [done|]. exists d. do 3 (split; [done|]).
    pose proof (fenced_in_scope _ _ _ Hf) as Hs.
    destruct (lock_row_sql _ db) as [[d'|] ol] eqn:El.
    + apply lock_row_Some in El as (Hd' & Hs' & ->).
      assert (d' = d) as -> by by eapply row_in_scope_unique. unfold own_app. simpl.
      by rewrite (row_in_scope_key d Hs).
    + apply lock_row_None in El as [_ Hno]. by rewrite Hno in Hs.
  - right. split; [done|]. split; [done|].
    rewrite own_app_nothing_r. unfold lock_row_sql. by case_match.
Qed.

(** A transaction that holds only locks. *)
Definition holds (w : World) (keys : list Z) : Prop :=
  exists t, open_at w t /\ own t = MkOwn [] [] keys.

(** A transaction that wrote the mutation of a delivery fenced at [now]. *)
Definition mutated_in (mutation : Mutation.t) (now : Z) (w : World) : Prop :=
  exists t d keys, open_at w t /\ own t = MkOwn [] [assign mutation now d] (keys ++ [key; key]) /\
    d ∈ deliveries (committed w) /\ is_fenced now d = true /\
    Deliveries.check (assign mutation now d) = true.

Lemma pg_execute_mutation_run mutation keys w r w' :
  holds w keys -> execute_mutation tenant_id row_id token mutation w = Some (r, w') ->
  tick w' = S (tick w) /\ db_wf (committed w') /\ during keys (committed w) (committed w') /\
  match r with
  | Ok n => (n = 1 /\ mutated_in mutation (clock_timestamp (tick w)) w') \/
      (n <> 1 /\ (exists keys', keys ⊆ keys' /\ holds w' keys') /\
       forall d, d ∈ deliveries (committed w') -> is_fenced (clock_timestamp (tick w)) d = false)
  | Err e => (exists t, settled w' t) /\ exists source,
      e = MutationError.sql "execute conditional delivery mutation" source
  end.
Proof.
  intros (t & Ho & Hown). unfold execute_mutation. intros Hr. run_inv Hr.
  pose proof (statement_tick _ _ _ _ Hm) as Htick.
  destruct (write_open Hisolated _ _ _ _ _ Ho Hm) as [Hd Hx].
  { intros a o Hu Hwf. by apply (pg_mutation_sql_Ok _ _ _ _ _ Hwf Hu). }
  pose proof (statement_open Hisolated _ _ _ _ _ Ho Hm) as (_ & Hwf & _).
  rewrite Hown in Hd. cbn [own_locks] in Hd.
  destruct r0 as [n|e]; run_inv Hr; (do 3 (split; [done|])).
  2: { destruct Hx as (t' & Hs & _). eauto. }
  destruct Hx as (o & Hu & _ & Ho'). rewrite Hown, overlay_locks in Hu.
  destruct (pg_mutation_sql_Ok _ _ _ _ _ Hwf Hu) as (_ & [(-> & d & Hin & Hf & Hc & ->)|(Hn & Hnone & He & Hdl)]).
  - left. split; [done|]. eexists _, d, keys. split; [exact Ho'|].
    split; [|done]. cbn [with_own own]. by rewrite Hown.
  - right. split; [done|]. split; [|done]. exists (keys ++ own_locks o). split; [set_solver|].
    eexists. split; [exact Ho'|]. cbn [with_own own]. rewrite Hown. unfold own_app. simpl.
    by rewrite He, Hdl.
Qed.

(** What [lock_delivery] reads of a delivery. *)
Definition read_for_mutation (now : Z) (d : Deliveries.row_of Z) : DeliveryForMutation.t :=
  DeliveryForMutation.Make _ (Deliveries.state d) (Deliveries.claim_token d)
    (option_map decode_instant (Deliveries.claim_expires_at d)) (decode_instant now).

Lemma pg_lock_delivery_run keys w r w' :
  holds w keys -> lock_delivery tenant_id row_id w = Some (r, w') ->
  tick w' = S (tick w) /\ db_wf (committed w') /\ during keys (committed w) (committed w') /\
  match r with
  | Ok dm => exists d, d ∈ deliveries (committed w') /\ row_in_scope tenant key d = true /\
      dm = read_for_mutation (clock_timestamp (tick w)) d /\ holds w' (keys ++ [key])
  | Err e => (exists t, settled w' t) /\
      ((e = MutationError.NotFound /\
        forall d, d ∈ deliveries (committed w') -> row_in_scope tenant key d = false) \/
       exists source, e = MutationError.sql "lock delivery for mutation" source)
  end.
Proof.
  intros (t & Ho & Hown). unfold lock_delivery. intros Hr. run_inv Hr.
  pose proof (statement_tick _ _ _ _ Hm) as Htick.
  destruct (write_open Hisolated _ _ _ _ _ Ho Hm) as [Hd Hx].
  { intros a o [= _ <-] Hwf. by rewrite lock_row_overlay. }
  pose proof (statement_open Hisolated _ _ _ _ _ Ho Hm) as (_ & Hwf & _).
  rewrite Hown in Hd. cbn [own_locks] in Hd.
  destruct r0 as [found|e].
  2: { destruct Hx as (t' & Hs & _). run_inv Hr. split_and!; eauto. }
  destruct Hx as (o & Hu & _ & Ho'). rewrite Hown, overlay_locks in Hu. apply (inj Ok) in Hu.
  unfold lock_delivery_sql in Hu.
  destruct (lock_row_sql _ _) as [[d|] ol] eqn:El; cbn [fst snd option_map] in Hu;
    injection Hu as <- <-; run_inv Hr; (do 3 (split; [done|])).
  - apply lock_row_Some in El as (Hin & Hs & ->). exists d. do 3 (split; [done|]).
    eexists. split; [exact Ho'|]. cbn [with_own own]. rewrite Hown. unfold own_app. simpl.
    by rewrite (row_in_scope_key d Hs).
  - apply lock_row_None in El as [-> Hn]. split; [eexists; apply Ho'|]. by left.
Qed.
End Statements.

(** ** Classification *)

Section Classification.
Context `{RustDebug, PgEnv} {IL : InstantColumnLaws} {PL : PgTimeLaws}.
Context (tenant_id : option TenantId.t) (row_id : RowId.t) (token : ClaimToken.t).

Let tenant := option_map TenantId.as_str tenant_id.
Let key := RowId.get row_id.

Lemma check_states (d : Deliveries.row_of Z) :
  Deliveries.check d = true ->
  (exists s, parse_state (Deliveries.state d) = Ok s /\ s <> DeliveryState.Claimed) \/
  (parse_state (Deliveries.state d) = Ok DeliveryState.Claimed /\
   exists stored expiry, Deliveries.claim_token d = Some stored /\ len stored = 16 /\
     claim_expiry d expiry).
Proof.
  unfold parse_state.
  intros [[Hs|[Hs|Hs]]|(stored & expiry & Ht & Hl & He)]%check_claim;
    [left; rewrite Hs; eexists; split; [reflexivity|done]..|right].
  rewrite (proj1 He). split; [done|]. by exists stored, expiry.
Qed.

(** What a classification says of a delivery that satisfies the CHECKs. *)
Lemma pg_classify_read d now :
  Deliveries.check d = true ->
  match classify_delivery (read_for_mutation now d) token with
  | Ok _ => exists expiry, claim_expiry d expiry /\ now < expiry /\
              Deliveries.claim_token d = Some (ClaimToken.as_bytes token)
  | Err (MutationError.IllegalTransition s) =>
      parse_state (Deliveries.state d) = Ok s /\ s <> DeliveryState.Claimed
  | Err MutationError.LostClaim => exists expiry, claim_expiry d expiry /\
      (Deliveries.claim_token d <> Some (ClaimToken.as_bytes token) \/ expiry <= now)
  | Err _ => False
  end.
Proof.
  intros Hc. unfold classify_delivery, read_for_mutation.
  cbn [DeliveryForMutation.state DeliveryForMutation.claim_token
       DeliveryForMutation.claim_expires_at DeliveryForMutation.operation_time].
  destruct (check_states d Hc) as [(s & Hs & Hne)|(Hs & stored & expiry & Ht & Hl & He)]; rewrite Hs.
  { rewrite bool_decide_false by done. done. }
  pose proof He as [_ Hx]. rewrite bool_decide_true, Ht, Hx by done. cbn [negb ok_or option_map].
  rewrite Hl. cbn [negb Z.eqb Pos.eqb]. rewrite decode_leb.
  case_bool_decide as Htok; cbn [negb orb].
  - destruct (Z.leb_spec expiry now); exists expiry; split_and!; try done; [by right|by rewrite Htok].
  - exists expiry. split; [done|]. left. congruence.
Qed.

(** The error of a locked delivery that the second attempt did not match. *)
Definition unexpected : MutationError.t :=
  MutationError.sql "conditional delivery mutation"
    (SqlxError.Protocol "locked claimed delivery did not satisfy mutation").

(** Why a mutation was refused on the tables [db] at [now]. *)
Definition refusal (e : MutationError.t) (now : Z) (db : Db) : Prop :=
  match e with
  | MutationError.NotFound =>
      forall d, d ∈ deliveries db -> row_in_scope tenant key d = false
  | MutationError.IllegalTransition s =>
      exists d, d ∈ deliveries db /\ row_in_scope tenant key d = true /\
        parse_state (Deliveries.state d) = Ok s /\ s <> DeliveryState.Claimed
  | MutationError.LostClaim =>
      exists d expiry, d ∈ deliveries db /\ row_in_scope tenant key d = true /\
        claim_expiry d expiry /\
        (Deliveries.claim_token d <> Some (ClaimToken.as_bytes token) \/ expiry <= now)
  | MutationError.Sql _ _ | MutationError.Transient _ _ _ => True
  | _ => False
  end.

Lemma pg_sql_refusal op source now db : refusal (MutationError.sql op source) now db.
Proof. unfold MutationError.sql. by destruct (TransientKind.from_sqlx source). Qed.

Lemma pg_classify_refusal d now db e :
  db_wf db -> d ∈ deliveries db -> row_in_scope tenant key d = true ->
  classify_delivery (read_for_mutation now d) token = Err e ->
  refusal e now db /\ e <> unexpected.
Proof.
  intros Hwf Hd Hs He. destruct Hwf as (_ & _ & _ & Hck & _). rewrite Forall_forall in Hck.
  pose proof (pg_classify_read d now (Hck _ Hd)) as Hr. rewrite He in Hr.
  destruct e; try done; (split; [|done]).
  - by exists d.
  - destruct Hr as (expiry & Hx & Hor). by exists d, expiry.
Qed.
End Classification.

(** ** What a mutation does *)

Section MutationSpec.
Context `{RustDebug, PgEnv} {IL : InstantColumnLaws} {PL : PgTimeLaws}.
Context (Hisolated : isolated).
Context (tenant_id : option TenantId.t) (row_id : RowId.t) (token : ClaimToken.t)
  (mutation : Mutation.t).

Let tenant := option_map TenantId.as_str tenant_id.
Let key := RowId.get row_id.

(** The database clock does not run backwards. *)
Definition clock_forward : Prop :=
  forall m n, (m <= n)%nat -> clock_timestamp m <= clock_timestamp n.

(** Between the two worlds the error was justified by some tables. *)
Definition refused (w w' : World) (e : MutationError.t) : Prop :=
  during [] (committed w) (committed w') /\
  exists n db, during [] (committed w) db /\ during [] db (committed w') /\ db_wf db /\
    refusal tenant_id row_id token e (clock_timestamp n) db /\
    (clock_forward -> e <> unexpected).

Lemma refused_now w w' e n :
  db_wf (committed w') -> during [] (committed w) (committed w') ->
  refusal tenant_id row_id token e (clock_timestamp n) (committed w') ->
  (clock_forward -> e <> unexpected) -> refused w w' e.
Proof. intros Hwf Hd Hr Hu. split; [done|]. exists n, (committed w'). split_and!; try done. constructor. Qed.

Lemma refused_sql w w' op source :
  db_wf (committed w') -> during [] (committed w) (committed w') ->
  op <> "conditional delivery mutation" -> refused w w' (MutationError.sql op source).
Proof.
  intros Hwf Hd Hop. apply (refused_now _ _ _ 0%nat); [done|done|apply pg_sql_refusal|].
  intros _. unfold unexpected, MutationError.sql. simpl.
  destruct (TransientKind.from_sqlx source); congruence.
Qed.

(** A classification that refuses. *)
Lemma refused_classified w w' d n e :
  db_wf (committed w') -> during [] (committed w) (committed w') ->
  d ∈ deliveries (committed w') -> row_in_scope tenant key d = true ->
  classify_delivery (read_for_mutation (clock_timestamp n) d) token = Err e -> refused w w' e.
Proof.
  intros Hwf Hd Hin Hs He.
  destruct (pg_classify_refusal tenant_id row_id token d _ _ e Hwf Hin Hs He) as [Hr Hu].
  by apply (refused_now _ _ _ n).
Qed.

(** A run of the transaction. *)
Lemma pg_mutate_in_transaction_run w r w' :
  holds w [] -> mutate_in_transaction tenant_id row_id token mutation w = Some (r, w') ->
  match r with
  | Ok _ => during [] (committed w) (committed w') /\
      exists n, mutated_in tenant_id row_id token mutation (clock_timestamp n) w'
  | Err e => (exists t, settled w' t) /\ refused w w' e
  end.
Proof.
  intros Hh. unfold mutate_in_transaction. intros Hr. run_inv Hr.
  destruct (pg_execute_mutation_run Hisolated _ _ _ _ _ _ _ _ Hh Hm) as (_ & Hwf0 & Hd0 & Hx).
  destruct r0 as [n|e].
  2: { run_inv Hr. destruct Hx as (Hs & source & ->). split; [done|]. by apply refused_sql. }
  destruct Hx as [(-> & Hin)|(Hn & (keys & _ & Hh0) & _)].
  { cbn [Z.eqb Pos.eqb] in Hr. run_inv Hr. eauto. }
  rewrite (proj2 (Z.eqb_neq _ _) Hn) in Hr. clear Hm Hh n Hn. run_inv Hr.
  destruct (pg_lock_delivery_run Hisolated tenant_id row_id _ _ _ _ Hh0 Hm) as (Ht1 & Hwf1 & Hd1 & Hx).
  apply during_nil in Hd1. pose proof (during_trans _ _ _ _ Hd0 Hd1) as Hd01.
  destruct r0 as [dm|e].
  2: { run_inv Hr. destruct Hx as (Hs & [[-> Hn]|[source ->]]); (split; [done|]).
       - by apply (refused_now _ _ _ 0%nat).
       - by apply refused_sql. }
  destruct Hx as (d & Hin & Hsc & -> & Hh1). clear Hm.
  destruct (classify_delivery _ _) as [[]|e] eqn:Ec in Hr.
  2: { run_inv Hr. destruct Hh1 as (t & [Hs _] & _). split; [by exists t|]. by eapply refused_classified. }
  pose proof (proj1 (Forall_forall _ _) (proj1 (proj2 (proj2 (proj2 Hwf1)))) _ Hin) as Hck.
  pose proof (pg_classify_read token d (clock_timestamp (tick w0)) Hck) as Hcl. rewrite Ec in Hcl.
  destruct Hcl as (expiry & [Hst He] & Hlt & Htok). run_inv Hr.
  destruct (pg_execute_mutation_run Hisolated _ _ _ _ _ _ _ _ Hh1 Hm) as (Ht2 & Hwf2 & Hd2 & Hx).
  assert (Hin2 : d ∈ deliveries (committed w2)).
  { eapply (during_locked_row Hisolated); [exact Hwf1|exact Hd2|done|].
    rewrite (row_in_scope_key d Hsc). set_solver. }
  pose proof (during_nil _ _ _ Hd2) as Hd2'. pose proof (during_trans _ _ _ _ Hd01 Hd2') as Hd02.
  destruct r0 as [n|e].
  2: { run_inv Hr. destruct Hx as (Hs & source & ->). split; [done|]. by apply refused_sql. }
  destruct Hx as [(-> & Hmut)|(Hn & (keys2 & Hsub & Hh2) & Hunf)].
  { cbn [Z.eqb Pos.eqb negb] in Hr. run_inv Hr. eauto. }
  rewrite (proj2 (Z.eqb_neq _ _) Hn) in Hr. clear Hm Hh1 n Hn. run_inv Hr.
  destruct (pg_lock_delivery_run Hisolated tenant_id row_id _ _ _ _ Hh2 Hm) as (Ht3 & Hwf3 & Hd3 & Hx).
  pose proof (during_nil _ _ _ Hd3) as Hd3'. pose proof (during_trans _ _ _ _ Hd02 Hd3') as Hd03.
  destruct r0 as [dm|e].
  2: { run_inv Hr. destruct Hx as (Hs & [[-> Hn]|[source ->]]); (split; [done|]).
       - by apply (refused_now _ _ _ 0%nat).
       - by apply refused_sql. }
  destruct Hx as (d' & Hin' & Hsc' & -> & Hh3). clear Hm.
  destruct Hh3 as (t & [Hs _] & _).
  destruct (classify_delivery _ _) as [[]|e] eqn:Ec' in Hr; run_inv Hr; (split; [by exists t|]).
  2: { by eapply refused_classified. }
  apply (refused_now _ _ _ 0%nat); [done|done|apply pg_sql_refusal|]. intros Hfwd _.
  (* the locked delivery is still the one classified, so its lease would have
     to expire backwards *)
  assert (d' = d) as ->.
  { eapply row_in_scope_unique; [exact Hwf3|done| |done..].
    eapply (during_locked_row Hisolated); [exact Hwf2|exact Hd3|done|].
    rewrite (row_in_scope_key d Hsc). apply Hsub. set_solver. }
  pose proof (pg_classify_read token d (clock_timestamp (tick w2)) Hck) as Hcl. rewrite Ec' in Hcl.
  destruct Hcl as (expiry' & [_ He'] & Hlt' & _). rewrite He in He'. injection He' as <-.
  specialize (Hunf d Hin2). unfold fenced in Hunf.
  rewrite Hsc, Hst, Htok, He, !bool_decide_true in Hunf by done. cbn [andb is_some_and] in Hunf.
  apply Z.ltb_ge in Hunf. specialize (Hfwd (tick w1) (tick w2) ltac:(lia)). lia.
Qed.
(** The tables after a mutation: over the tables [db] of its commit, the one
    fenced delivery got the columns of the SET clause. *)
Definition mutated_on (w : World) (dbf : Db) : Prop :=
  exists n db d, during [] (committed w) db /\ db_wf db /\
    d ∈ deliveries db /\
    fenced tenant key (ClaimToken.as_bytes token) (clock_timestamp n) d = true /\
    dbf = MkDb (events db)
            (map (fun r => if Deliveries.event_row_id r =? key
                           then assign mutation (clock_timestamp n) d else r) (deliveries db))
            (tables db) /\
    db_wf dbf.

Lemma pg_mutation_commit w w1 n t d keys db :
  let now := clock_timestamp n in
  during [] (committed w) (committed w1) -> db_wf (committed w1) ->
  own t = MkOwn [] [assign mutation now d] (keys ++ [key; key]) ->
  d ∈ deliveries (committed w1) ->
  fenced tenant key (ClaimToken.as_bytes token) now d = true ->
  during (own_locks (own t)) (committed w1) db -> db_wf db -> db_wf (overlay (own t) db) ->
  mutated_on w (overlay (own t) db).
Proof.
  intros now Hd0 Hwf1 Hown Hin Hf Hd Hwf Hwfv.
  assert (Hkey : Deliveries.event_row_id d = key).
  { apply (@row_in_scope_key tenant). unfold fenced in Hf. by bools. }
  assert (Hin2 : d ∈ deliveries db).
  { eapply (during_locked_row Hisolated); [exact Hwf1|exact Hd|done|].
    rewrite Hown, Hkey. simpl. set_solver. }
  exists n, db, d. apply during_nil in Hd.
  split; [by eapply during_trans|]. do 3 (split; [done|]). split; [|done].
  rewrite Hown, overlay_deliveries; [|done|].
  - f_equal. apply map_ext_in. intros r Hr. unfold version. simpl.
    rewrite (proj1 (assign_keeps_key mutation now d)), Hkey, Z.eqb_sym.
    by destruct (_ =? _).
  - intros r Hr. apply list_elem_of_singleton in Hr as ->.
    rewrite (proj1 (assign_keeps_key mutation now d)). by apply list_elem_of_fmap_2.
Qed.

(** Binding the tenant of a scoped mutation. *)
Lemma pg_bind_scope w t r w' :
  open_at w t -> own t = nothing ->
  owned (match tenant_id with
         | Some tenant_id =>
             try* _ := bind_tenant tenant_id
                  else MutationError.sql "bind mutation tenant" in
             ret (Ok tt)
         | None => ret (Ok tt)
         end) w = Some (r, w') ->
  during [] (committed w) (committed w') /\
  match r with
  | Ok _ => holds w' []
  | Err e => closed w' /\ exists source, e = MutationError.sql "bind mutation tenant" source
  end.
Proof.
  intros Ho Hown Hr. apply owned_inv in Hr as (w1 & Hm & Hrb). destruct tenant_id as [tn|].
  2: { run_inv Hm. split; [constructor|]. exists t. by split. }
  run_inv Hm. destruct (bind_tenant_open Hisolated _ _ _ _ _ Ho Hm0) as [Hd Hx].
  apply during_nil in Hd. destruct r0 as [[]|e]; run_inv Hm.
  - split; [done|]. eexists. split; [exact Hx|]. done.
  - destruct Hrb as (r' & Hrb), Hx as (t' & Hs & _).
    destruct (rollback_settled Hisolated _ _ _ _ Hs Hrb) as [Hc Hd2].
    split; [by eapply during_trans|]. eauto.
Qed.

Lemma execute_mutation_returns : returns (execute_mutation tenant_id row_id token mutation).
Proof. unfold execute_mutation. returns_step. Qed.
Lemma lock_delivery_returns : returns (lock_delivery tenant_id row_id).
Proof. unfold lock_delivery. returns_step. Qed.
Lemma mutate_returns : returns (mutate tenant_id row_id token mutation).
Proof.
  pose proof execute_mutation_returns. pose proof lock_delivery_returns.
  unfold mutate, mutate_in_transaction. returns_step.
Qed.

(** A run of a mutation. *)
Lemma pg_mutation_run w :
  closed w ->
  exists r w', mutate tenant_id row_id token mutation w = Some (r, w') /\ closed w' /\
    match r with
    | Ok _ => mutated_on w (committed w')
    | Err e => refused w w' e \/
        exists source, e = MutationError.sql "commit mutation transaction" source /\
          mutated_on w (committed w')
    end.
Proof.
  intros Hclosed. destruct (mutate_returns w) as [[r w'] Hr]. exists r, w'. split; [done|].
  unfold mutate in Hr. run_inv Hr.
  destruct (begin_closed Hisolated _ _ _ Hclosed Hm) as [Hd0 Hx]. destruct r0 as [[]|e].
  2: { run_inv Hr. split; [done|]. left. by apply refused_sql; [apply Hx|..]. }
  destruct Hx as (t & Ho & Hown). clear Hm. run_inv Hr.
  destruct (pg_bind_scope _ _ _ _ Ho Hown Hm) as [Hd1 Hx].
  pose proof (during_trans _ _ _ _ Hd0 Hd1) as Hd01. destruct r0 as [[]|e].
  2: { run_inv Hr. destruct Hx as [Hc [source ->]]. split; [done|]. left.
       by apply refused_sql; [apply Hc|..]. }
  clear Hm. run_inv Hr. apply (pg_mutate_in_transaction_run _ _ _ Hx) in Hm. destruct r0 as [[]|e].
  - destruct Hm as (Hd2 & n & (t1 & d & keys & Ho1 & Hown1 & Hin & Hf & _)).
    pose proof (during_trans _ _ _ _ Hd01 Hd2) as Hd02. run_inv Hr.
    destruct (commit_open Hisolated _ _ _ _ Ho1 Hm) as (Hc & db & Hd3 & Hwf & Hwfv & Hfin).
    assert (Hon : mutated_on w (overlay (own t1) db)).
    { eapply pg_mutation_commit; try done. apply Ho1. }
    destruct r0 as [[]|e]; run_inv Hr; (split; [done|]); [by rewrite Hfin|].
    destruct Hfin as [->|Hfin]; [right; by eauto|]. left. apply refused_sql; [apply Hc| |done].
    rewrite Hfin. eapply during_trans; [exact Hd02|]. by eapply during_nil.
  - destruct Hm as ((t1 & Hs) & Hd2 & n & db & Hb1 & Hb2 & Hb3 & Hb4 & Hb5). run_inv Hr. run_inv Hr.
    destruct (rollback_settled Hisolated _ _ _ _ Hs Hm) as [Hc Hd3]. split; [done|]. left.
    pose proof (during_trans _ _ _ _ Hd2 Hd3) as Hd23. split; [by eapply during_trans|].
    exists n, db. split; [by eapply during_trans|]. split; [by eapply during_trans|]. done.
Qed.

End MutationSpec.
