(* ===== verification/PgPage.v ===== *)
(** * Pages of the PostgreSQL adapter (crates/dovecote-sqlx-postgres/src/page.rs)

    Live pages after a cursor, and the finite snapshot pager that keeps one
    REPEATABLE READ transaction and reads up to the row id seen when it began. *)

From S2P Require Import Prelude Step Utf8 BTree Errors Limits Validation Bounds Values Extension Serialization Event State Tables Queries Paging RowHydration External Overlay Others Instants PgError Pg PgHydrate.

Module SnapshotPager.
Record t : Type := Make {
  upper_bound : option RowId.t;
  cursor : option RowId.t;
  exhausted : bool;
  tenant_id : option TenantId.t;
}.

Definition is_exhausted (self : t) : bool := exhausted self.
End SnapshotPager.

Section Page.
Context `{SerdeJson, Base64, MimeLib, FluentUri, RustDebug, PgEnv}.

(** [PAGE_SQL] and [SNAPSHOT_PAGE_SQL], which adds the upper bound *)
Definition query_page_on_connection (tenant_id : option TenantId.t) (after_row_id : Z)
    (upper_bound : option Z) (limit : Limit.t) : M (Result (list PagedEvent.t) PageError.t) :=
  try* rows := query (fun _ => page_sql (option_map TenantId.as_str tenant_id) after_row_id
                                 upper_bound (Limit.get limit))
       else PageError.sql "read event page" in
  ret (map_err PageError.serialization (collect hydrate_page rows)).

(** A connection of the pool. *)
Definition acquire : M (Result unit SqlxError.t) := query (fun _ _ => tt).

Definition page_for_scope (tenant_id : option TenantId.t) (after_row_id : option RowId.t)
    (limit : Limit.t) : M (Result (list PagedEvent.t) PageError.t) :=
  match tenant_id with
  | Some tenant_id =>
      try* _ := begin_statement false else PageError.sql "begin scoped live page transaction" in
      try* _ := owned (bind_tenant tenant_id) else PageError.sql "bind live page tenant" in
      let* result := query_page_on_connection (Some tenant_id) (cursor_id after_row_id) None limit in
      match result with
      | Ok rows =>
          try* _ := commit else PageError.sql "finish scoped live page transaction" in
          ret (Ok rows)
      | Err error => let* _ := rollback in ret (Err error)
      end
  | None =>
      try* _ := acquire else PageError.sql "acquire live page connection" in
      query_page_on_connection tenant_id (cursor_id after_row_id) None limit
  end.

(** [begin_snapshot_for_scope] after its BEGIN *)
Definition snapshot_in_transaction (tenant_id : option TenantId.t) :
    M (Result SnapshotPager.t PageError.t) :=
  try* _ := match tenant_id with
            | Some tenant_id => bind_tenant tenant_id
            | None => ret (Ok tt)
            end else PageError.sql "bind snapshot tenant" in
  try* upper_bound := query (fun _ => max_row_id_sql (option_map TenantId.as_str tenant_id))
       else PageError.sql "read snapshot upper row ID" in
  match (match upper_bound with
         | Some value => map_ok Some (RowId.new value)
         | None => Ok None
         end) with
  | Err error => ret (Err (PageError.serialization (ValidationError.to_string error)))
  | Ok upper_bound =>
      ret (Ok (SnapshotPager.Make upper_bound None
                 (match upper_bound with None => true | Some _ => false end) tenant_id))
  end.

Definition begin_snapshot_for_scope (tenant_id : option TenantId.t) :
    M (Result SnapshotPager.t PageError.t) :=
  try* _ := begin_statement true else PageError.sql "begin snapshot transaction" in
  owned (snapshot_in_transaction tenant_id).

(** The pager is passed and returned where the code borrows it mutably. The
    [expect] on the upper bound of a pager that is not exhausted is the [None]
    branch. *)
Definition next_page (self : SnapshotPager.t) (limit : Limit.t) :
    M (Result (list PagedEvent.t) PageError.t * SnapshotPager.t) :=
  if SnapshotPager.exhausted self then ret (Ok [], self)
  else
    match SnapshotPager.upper_bound self with
    | None => fun _ => None
    | Some upper_bound =>
        let* result := query_page_on_connection (SnapshotPager.tenant_id self)
            (cursor_id (SnapshotPager.cursor self)) (Some (RowId.get upper_bound)) limit in
        match result with
        | Err error => ret (Err error, self)
        | Ok rows =>
            match last rows with
            | Some event =>
                let cursor := Some (PagedEvent.row_id event) in
                let exhausted :=
                  if (Z.of_nat (length rows) <? Limit.get limit)
                     || bool_decide (cursor = SnapshotPager.upper_bound self)
                  then true else SnapshotPager.exhausted self in
                ret (Ok rows, SnapshotPager.Make (SnapshotPager.upper_bound self) cursor exhausted
                                (SnapshotPager.tenant_id self))
            | None =>
                ret (Ok rows, SnapshotPager.Make (SnapshotPager.upper_bound self)
                                (SnapshotPager.cursor self) true (SnapshotPager.tenant_id self))
            end
        end
    end.

Definition finish (self : SnapshotPager.t) : M (Result unit PageError.t) :=
  try* _ := commit else PageError.sql "finish snapshot transaction" in ret (Ok tt).

Definition rollback_snapshot (self : SnapshotPager.t) : M (Result unit PageError.t) :=
  try* _ := rollback else PageError.sql "rollback snapshot transaction" in ret (Ok tt).

Definition close (self : SnapshotPager.t) : M (Result unit PageError.t) := rollback_snapshot self.
End Page.

(** ** Live pages *)

Section LivePage.
Context `{SerdeJson, Base64, MimeLib, FluentUri, RustDebug, PgEnv}.
Context (Hisolated : isolated).

Lemma pg_hydrate_row_id c p :
  hydrate_page c = Ok p -> RowId.get (PagedEvent.row_id p) = DurableRow.row_id c.
Proof. by intros [? _]%pg_hydrate_page_row_id. Qed.

(** An event with its delivery, hydrated, and the rows of a page. *)
Definition hydrated (db : Db) (e : Events.row_of Z) (p : PagedEvent.t) : Prop :=
  hydrated_row hydrate_page db e p.
Definition page_of (tenant_id : option TenantId.t) (after : Z) (upper : option Z) (limit : Limit.t)
    (db : Db) (pages : list PagedEvent.t) : Prop :=
  page_rows hydrate_page tenant_id after upper limit db pages.

(** A page of a READ COMMITTED transaction that wrote nothing. *)
Lemma pg_query_page_open tenant_id after upper limit w t r w' :
  open_at w t -> own t = nothing ->
  query_page_on_connection tenant_id after upper limit w = Some (r, w') ->
  during [] (committed w) (committed w') /\ (exists t', settled w' t') /\
  match r with
  | Ok pages => open_at w' t /\ page_of tenant_id after upper limit (committed w') pages
  | Err _ => True
  end.
Proof.
  intros Ho Hown. unfold query_page_on_connection. intros Hr. run_inv Hr.
  destruct (query_open Hisolated _ _ _ _ _ Ho Hm) as [Hd Hx]. apply during_nil in Hd.
  destruct r0 as [rows|e]; run_inv Hr; (split; [done|]).
  - destruct Hx as [-> Ho']. rewrite Hown, overlay_nothing. split; [exists t; apply Ho'|].
    destruct (collect _ _) as [pages|e] eqn:Ec; simpl; [|done]. split; [done|].
    apply page_rows_collect; [apply Ho'|done].
  - destruct Hx as (t' & Hs & _). eauto.
Qed.

(** ... and of a connection without a transaction. *)
Lemma pg_query_closed {A} (f : nat -> Db -> A) w r w' :
  closed w -> query f w = Some (r, w') ->
  closed w' /\ during [] (committed w) (committed w') /\
  match r with Ok a => a = f (tick w) (committed w') | Err _ => True end.
Proof.
  intros Hc. pose proof (latest_closed Hisolated _ Hc) as [Hd Hw]. destruct Hc as [Ht _].
  unfold query, statement. rewrite Ht. destruct (sql_fault (tick w)); intros [= <- <-].
  - by split_and!.
  - rewrite overlay_nothing. by split_and!.
Qed.

(** A live page read between the two worlds. *)
Definition live_page_of (tenant_id : option TenantId.t) (after : option RowId.t) (limit : Limit.t)
    (w w' : World) (pages : list PagedEvent.t) : Prop :=
  exists db, during [] (committed w) db /\ during [] db (committed w') /\ db_wf db /\
    page_complete hydrate_page tenant_id (cursor_id after) limit db pages.

Lemma pg_live_page_intro tenant_id after limit w w' db pages :
  0 <= Limit.get limit -> during [] (committed w) db -> during [] db (committed w') -> db_wf db ->
  page_of tenant_id (cursor_id after) None limit db pages ->
  live_page_of tenant_id after limit w w' pages.
Proof.
  intros Hl Hd1 Hd2 Hwf Hp. exists db. do 3 (split; [done|]).
  exact (page_rows_complete _ pg_hydrate_row_id _ _ _ _ _ Hwf Hl Hp).
Qed.

Lemma query_page_returns tenant_id after upper limit :
  returns (query_page_on_connection tenant_id after upper limit).
Proof. unfold query_page_on_connection. returns_step. Qed.

(** A run of a live page. *)
Lemma pg_live_page_run tenant_id after limit w :
  closed w -> 0 <= Limit.get limit ->
  exists r w', page_for_scope tenant_id after limit w = Some (r, w') /\
    closed w' /\ during [] (committed w) (committed w') /\
    match r with Ok pages => live_page_of tenant_id after limit w w' pages | Err _ => True end.
Proof.
  intros Hc Hl. assert (Hret : returns (page_for_scope tenant_id after limit)).
  { pose proof query_page_returns. unfold page_for_scope, acquire. returns_step. }
  destruct (Hret w) as [[r w'] Hr]. exists r, w'. split; [done|]. clear Hret.
  unfold page_for_scope in Hr. destruct tenant_id as [tn|].
  - run_inv Hr. destruct (begin_closed Hisolated _ _ _ Hc Hm) as [Hd0 Hx].
    destruct r0 as [[]|e]; [|by run_inv Hr]. destruct Hx as (t & Ho & Hown). clear Hm. run_inv Hr.
    apply owned_inv in Hm as (w2 & Hm & Hrb).
    destruct (bind_tenant_open Hisolated _ _ _ _ _ Ho Hm) as [Hd1 Hx]. apply during_nil in Hd1.
    pose proof (during_trans _ _ _ _ Hd0 Hd1) as Hd01. destruct r0 as [[]|e].
    2: { run_inv Hr. destruct Hx as (t' & Hs & _), Hrb as [r' Hrb].
         destruct (rollback_settled Hisolated _ _ _ _ Hs Hrb) as [Hc' Hd2].
         split; [done|]. split; [by eapply during_trans|done]. }
    subst w2. clear Hm. run_inv Hr.
    destruct (pg_query_page_open _ _ _ _ _ _ _ _ Hx Hown Hm) as (Hd2 & (t' & Hs) & Hp).
    pose proof (during_trans _ _ _ _ Hd01 Hd2) as Hd02. clear Hm. destruct r0 as [pages|e]; run_inv Hr.
    + destruct Hp as [Ho2 Hp].
      destruct (commit_open Hisolated _ _ _ _ Ho2 Hm) as (Hc' & db & Hd3 & _ & _ & Hfin).
      apply during_nil in Hd3. cbn [own with_tenant] in Hfin. rewrite Hown, overlay_nothing in Hfin.
      assert (Hcom : committed w3 = db) by (destruct r0 as [[]|]; [done|by destruct Hfin]). subst db.
      pose proof (during_trans _ _ _ _ Hd02 Hd3) as Hd03.
      destruct r0 as [[]|e]; run_inv Hr; (do 2 (split; [done|])); [|done].
      eapply pg_live_page_intro; [done|exact Hd02|exact Hd3|apply Ho2|exact Hp].
    + run_inv Hr. destruct (rollback_settled Hisolated _ _ _ _ Hs Hm) as [Hc' Hd3].
      split; [done|]. split; [by eapply during_trans|done].
  - run_inv Hr. destruct (pg_query_closed _ _ _ _ Hc Hm) as (Hc0 & Hd0 & _).
    destruct r0 as [[]|e]; [|by run_inv Hr]. unfold query_page_on_connection in Hr. run_inv Hr.
    destruct (pg_query_closed _ _ _ _ Hc0 Hm0) as (Hc1 & Hd1 & Hx).
    pose proof (during_trans _ _ _ _ Hd0 Hd1) as Hd01.
    destruct r0 as [rows|e]; run_inv Hr; (do 2 (split; [done|])); [|done].
    destruct (collect _ _) as [pages|e] eqn:Ec; simpl; [|done].
    apply page_rows_collect in Ec; [|apply Hc1].
    eapply pg_live_page_intro; [done|exact Hd01|constructor|apply Hc1|exact Ec].
Qed.

(** A live page over PostgreSQL always returns; an answered page is the
    first [limit] events of the scope after the cursor, of the tables at one
    instant of the call, in strictly ascending row order, each hydrated with its
    delivery; no event of the scope is skipped: one that lies after the cursor
    is on the page, unless the page is full and the event lies beyond its last
    row. Reading changes nothing and leaves no transaction open, also on
    errors. *)
Theorem pg_live_page tenant_id after limit w :
  closed w -> 0 <= Limit.get limit ->
  exists r w', page_for_scope tenant_id after limit w = Some (r, w') /\
    closed w' /\ during [] (committed w) (committed w') /\
    match r with Ok pages => live_page_of tenant_id after limit w w' pages | Err _ => True end.
Proof. by apply pg_live_page_run. Qed.
End LivePage.

(** ** Snapshots *)

Section Snapshots.
Context `{SerdeJson, Base64, MimeLib, FluentUri, RustDebug, PgEnv}.
Context (Hisolated : isolated).

(** A REPEATABLE READ transaction whose statements succeeded, before
    ([snapshot = None]) and after it took its snapshot. *)
Definition reading (snapshot_ : option Db) (w : World) : Prop :=
  exists t, settled w t /\ own t = nothing /\ failed t = false /\ snapshot t = Some snapshot_.

(** The tables its next statement sees. *)
Definition seen (snapshot_ : option Db) (w' : World) : Db :=
  match snapshot_ with Some s => s | None => committed w' end.

(** ... and some statement failed. *)
Definition stalled (w : World) : Prop := exists t, settled w t /\ own t = nothing.

Lemma query_reading {A} (f : nat -> Db -> A) s w r w' :
  reading s w -> query f w = Some (r, w') ->
  during [] (committed w) (committed w') /\ db_wf (committed w') /\
  match r with
  | Ok a => a = f (tick w) (seen s w') /\ reading (Some (seen s w')) w'
  | Err _ => stalled w'
  end.
Proof.
  intros (t & Hset & Hown & Hf & Hs). pose proof (latest_open Hisolated _ _ Hset) as (Hd & Hw & Hv).
  destruct Hset as (Ht & _ & _). apply during_nil in Hd. unfold query, statement. rewrite Ht, Hf.
  destruct (sql_fault (tick w)).
  { intros [= <- <-]. do 2 (split; [done|]). exists (fail_txn t). by split_and!. }
  intros [= <- <-]. do 2 (split; [done|]). unfold take_snapshot, view, reading, seen. rewrite Hs.
  destruct s as [s|]; rewrite ?Hs; cbn [own snapshot committed]; rewrite Hown, overlay_nothing;
    (split; [done|]); eexists; (split; [split_and!; [reflexivity|exact Hw|]|]); cbn; rewrite ?Hown;
    cbn; by rewrite ?overlay_nothing.
Qed.

Lemma bind_tenant_reading tenant s w r w' :
  reading s w -> bind_tenant tenant w = Some (r, w') ->
  during [] (committed w) (committed w') /\ db_wf (committed w') /\
  match r with Ok _ => reading (Some (seen s w')) w' | Err _ => stalled w' end.
Proof.
  intros Hrd. unfold bind_tenant. destruct (query _ w) as [[r1 w1]|] eqn:E; [|done].
  apply (query_reading _ _ _ _ _ Hrd) in E as (Hd & Hwf & Hx).
  destruct r1 as [[]|e]; intros [= <- <-]; do 2 (split; [done|]); [|done].
  destruct Hx as (_ & t & (Ht & Hw & Hv) & Hown & Hf & Hs).
  exists (with_tenant (TenantId.as_str tenant) t). split; [|done].
  split_and!; [|done..]. simpl. by rewrite Ht.
Qed.

(** What the pager knows of the scope of its snapshot. *)
Definition pager_at (db : Db) (w : World) (self : SnapshotPager.t)
    (before rest : list (Events.row_of Z)) : Prop :=
  reading (Some db) w /\
  window_at (scope (option_map TenantId.as_str (SnapshotPager.tenant_id self)) db)
    (SnapshotPager.upper_bound self) (SnapshotPager.cursor self) (SnapshotPager.exhausted self)
    before rest.

(** One page: the pager advances past exactly the rows it returns. *)
Lemma pg_next_page_step db self before rest limit w :
  db_wf db -> pager_at db w self before rest -> 0 < Limit.get limit ->
  let n := Z.to_nat (Limit.get limit) in
  exists r self' w', next_page self limit w = Some ((r, self'), w') /\
    during [] (committed w) (committed w') /\
    match r with
    | Err _ => stalled w' /\ self' = self
    | Ok rows => pager_at db w' self' (before ++ take n rest) (drop n rest) /\
        Forall2 (hydrated db) (take n rest) rows
    end.
Proof.
  intros Hwf [Hrd Hat] Hlim n. unfold next_page.
  destruct (SnapshotPager.exhausted self) eqn:Hex.
  { pose proof (proj1 (at_exhausted _ _ _ _ _ _ Hat) eq_refl) as ->.
    exists (Ok []), self, w. rewrite take_nil, drop_nil, app_nil_r.
    split; [done|]. split; [constructor|]. split; [|constructor]. split; [done|]. by rewrite Hex. }
  assert (Hne : rest <> []) by (intros Hnil; by pose proof (proj2 (at_exhausted _ _ _ _ _ _ Hat) Hnil)).
  destruct (at_upper _ _ _ _ _ _ Hat Hne) as (u & Hub & _). rewrite Hub.
  match goal with |- context [query_page_on_connection ?a ?b ?c ?d] =>
    destruct (query_page_returns a b c d w) as [[r w1] Er] end.
  rewrite (bind_run _ _ _ _ _ Er). cbv beta.
  unfold query_page_on_connection in Er. run_inv Er.
  destruct (query_reading _ _ _ _ _ Hrd Hm) as (Hd & _ & Hx).
  destruct r0 as [sql_rows|e]; run_inv Er.
  2: { do 3 eexists. split; [reflexivity|]. split; [done|]. by split. }
  destruct Hx as [-> Hrd']. cbn [seen] in *.
  destruct (collect _ _) as [rows|e] eqn:Ec; cbn [map_err].
  2: { do 3 eexists. split; [reflexivity|]. split; [done|]. split; [|done].
       destruct Hrd' as (t & Hs & Hown & _). by exists t. }
  apply page_rows_collect in Ec; [|done]. unfold page_rows, page_events in Ec.
  pose proof (window_page _ _ _ _ _ _ _ _ n Hwf Hat Hub Hne) as Hpage. unfold n in Hpage.
  rewrite Hpage in Ec.
  destruct (advance (SnapshotPager.upper_bound self) (SnapshotPager.cursor self) limit rows)
    as [cursor' exhausted'] eqn:Eadv.
  pose proof (window_advance _ (fun e p => hydrated_row_id _ pg_hydrate_row_id _ e p Hwf) _ _ _ _ _ _ _ _ _
    (scope_sorted _ _ Hwf) Hlim Hne Hat Ec Eadv) as Hwin.
  unfold advance in Eadv. destruct (last rows) as [p|]; injection Eadv as <- <-;
    rewrite Hub in Hwin; do 3 eexists; (split; [reflexivity|]); (split; [done|]); (split; [|exact Ec]).
  - split; [done|]. cbn. by destruct (_ || _).
  - by split.
Qed.
(** Beginning a snapshot. *)
Lemma begin_reading w r w' :
  closed w -> begin_statement true w = Some (r, w') ->
  during [] (committed w) (committed w') /\
  match r with Ok _ => reading None w' | Err _ => closed w' end.
Proof.
  intros Hc. pose proof (latest_closed Hisolated _ Hc) as [Hd Hw]. destruct Hc as [Ht _].
  unfold begin_statement. rewrite Ht.
  destruct (sql_fault (tick w)); intros [= <- <-]; (split; [done|]); [done|].
  eexists. split; [split; [reflexivity|]|done]. cbn. by rewrite overlay_nothing.
Qed.

Lemma reading_stalled s w : reading s w -> stalled w.
Proof. intros (t & Hs & Hown & _). by exists t. Qed.

Lemma stalled_rollback w r w' :
  stalled w -> rollback w = Some (r, w') -> closed w' /\ during [] (committed w) (committed w').
Proof. intros (t & Hs & _). by apply (rollback_settled Hisolated _ t). Qed.

(** The tables the pager's snapshot holds. *)
Definition snapshot_of (tenant_id : option TenantId.t) (w w' : World) (db : Db)
    (pager : SnapshotPager.t) : Prop :=
  during [] (committed w) db /\ during [] db (committed w') /\ db_wf db /\
  SnapshotPager.tenant_id pager = tenant_id /\
  pager_at db w' pager [] (scope (option_map TenantId.as_str tenant_id) db).

Lemma pg_snapshot_in_transaction tenant_id w r w' :
  reading None w -> snapshot_in_transaction tenant_id w = Some (r, w') ->
  during [] (committed w) (committed w') /\
  match r with
  | Ok pager => exists db, snapshot_of tenant_id w w' db pager
  | Err _ => stalled w'
  end.
Proof.
  intros Hrd. unfold snapshot_in_transaction. intros Hr. run_inv Hr.
  assert (Hb : during [] (committed w) (committed w0) /\
    match r0 with
    | Ok _ => exists s, reading s w0 /\ (forall db, s = Some db -> db = committed w0 /\ db_wf db)
    | Err _ => stalled w0
    end).
  { destruct tenant_id as [tn|].
    - destruct (bind_tenant_reading _ _ _ _ _ Hrd Hm) as (Hd & Hwf & Hx). split; [done|].
      destruct r0; [|done]. eexists. split; [exact Hx|]. by intros db [= <-].
    - run_inv Hm. split; [constructor|]. by exists None. }
  destruct Hb as [Hd0 Hx]. destruct r0 as [[]|e]; [|by run_inv Hr].
  destruct Hx as (s & Hrd0 & Hsdb). clear Hm. run_inv Hr.
  destruct (query_reading _ _ _ _ _ Hrd0 Hm) as (Hd1 & Hwf1 & Hx).
  pose proof (during_trans _ _ _ _ Hd0 Hd1) as Hd01. destruct r0 as [u|e]; [|by run_inv Hr].
  destruct Hx as [Hu Hrd1]. set (db := seen s w1) in *.
  assert (Hdb : during [] (committed w) db /\ during [] db (committed w1) /\ db_wf db).
  { unfold db. destruct s as [s|]; simpl; [|by split_and!; [|constructor|]].
    by destruct (Hsdb s eq_refl) as [-> ?]. }
  destruct Hdb as (Hb1 & Hb2 & Hb3).
  destruct (match u with Some _ => _ | None => _ end) as [upper|e] eqn:Eu in Hr; run_inv Hr;
    (split; [done|]); [|by eapply reading_stalled].
  exists db. do 4 (split; [done|]). split; [done|]. cbn. apply window_start.
  - intros v Hv. rewrite Hv in Eu. simpl in Eu.
    destruct (RowId.new v) as [id|] eqn:Eid; simpl in Eu; [|done]. injection Eu as <-.
    apply RowId_new_Ok in Eid as [Hid Hpos]. by exists id.
  - intros Hv. rewrite Hv in Eu. by injection Eu as <-.
Qed.

Lemma pg_begin_snapshot tenant_id w r w' :
  closed w -> begin_snapshot_for_scope tenant_id w = Some (r, w') ->
  during [] (committed w) (committed w') /\
  match r with
  | Ok pager => exists db, snapshot_of tenant_id w w' db pager
  | Err _ => closed w'
  end.
Proof.
  intros Hc. unfold begin_snapshot_for_scope. intros Hr. run_inv Hr.
  destruct (begin_reading _ _ _ Hc Hm) as [Hd0 Hx]. destruct r0 as [[]|e]; [|by run_inv Hr].
  apply owned_inv in Hr as (w1 & Hr & Hrb).
  destruct (pg_snapshot_in_transaction _ _ _ _ Hx Hr) as [Hd1 Hy].
  pose proof (during_trans _ _ _ _ Hd0 Hd1) as Hd01. destruct r as [pager|e].
  - subst w1. split; [done|]. destruct Hy as (db & Hb1 & Hb). exists db.
    split; [eapply during_trans; [exact Hd0|exact Hb1]|done].
  - destruct Hrb as [r' Hrb]. destruct (stalled_rollback _ _ _ Hy Hrb) as [Hc' Hd2].
    split; [by eapply during_trans|done].
Qed.

(** Ending the transaction of a pager. *)
Lemma stalled_commit w r w' :
  stalled w -> commit w = Some (r, w') -> closed w' /\ during [] (committed w) (committed w').
Proof.
  intros (t & Hset & Hown). pose proof (latest_open Hisolated _ _ Hset) as (Hd & Hw & _).
  destruct Hset as (Ht & _ & _). apply during_nil in Hd. unfold commit. rewrite Ht, Hown, overlay_nothing.
  replace (if failed t then latest w else latest w) with (latest w) by (by destruct (failed t)).
  destruct (commit_fault (tick w)) as [[e []]|]; by intros [= <- <-].
Qed.

Lemma pg_end_snapshot pager w r w' :
  stalled w -> finish pager w = Some (r, w') \/ close pager w = Some (r, w') ->
  closed w' /\ during [] (committed w) (committed w').
Proof.
  intros Hs [Hr|Hr]; unfold finish, close, rollback_snapshot in Hr; run_inv Hr.
  - apply (stalled_commit _ _ _ Hs) in Hm. by destruct r0 as [[]|]; run_inv Hr.
  - apply (stalled_rollback _ _ _ Hs) in Hm. by destruct r0 as [[]|]; run_inv Hr.
Qed.

(** C28: a snapshot pager over PostgreSQL gives every event of the scope exactly
    once, as of one instant [db] between its BEGIN and the read of its upper
    bound. However many pages of whatever sizes the caller asks for, the call
    returns (the pager's [expect] is unreachable), and as long as no statement
    fails the pages read one after the other are a prefix of the scope's events,
    each hydrated with its delivery, whatever other connections commit
    meanwhile. The pager reports itself exhausted exactly when all were given,
    which is so after at most as many pages as there are events. Finishing or
    closing it ends its transaction, also after a failed page. *)
Theorem pg_snapshot_pages tenant_id limits w pager w0 :
  closed w -> Forall (fun l => 0 < Limit.get l) limits ->
  begin_snapshot_for_scope tenant_id w = Some (Ok pager, w0) ->
  exists db r pager' w1,
    during [] (committed w) db /\ during [] db (committed w0) /\ db_wf db /\
    drain next_page limits pager w0 = Some ((r, pager'), w1) /\
    during [] (committed w0) (committed w1) /\
    (forall r2 w2, finish pager' w1 = Some (r2, w2) \/ close pager' w1 = Some (r2, w2) ->
       closed w2 /\ during [] (committed w1) (committed w2)) /\
    let all := scope (option_map TenantId.as_str tenant_id) db in
    match r with
    | Err _ => True
    | Ok rows =>
        Forall2 (hydrated db) (take (length rows) all) rows /\
        (SnapshotPager.is_exhausted pager' = true <-> length rows = length all) /\
        (length all <= length limits -> SnapshotPager.is_exhausted pager' = true)%nat
    end.
Proof.
  intros Hc Hlim Hb. destruct (pg_begin_snapshot _ _ _ _ Hc Hb) as [_ (db & Hd1 & Hd2 & Hwf & _ & Hat)].
  destruct (drain_all next_page (hydrated db) (pager_at db) (fun w _ => stalled w)
    (fun w w' => during [] (committed w) (committed w')) SnapshotPager.exhausted) with
    (limits := limits) (w := w0) (self := pager)
    (all := scope (option_map TenantId.as_str tenant_id) db) as (r & pager' & w1 & Hr & Hd & Hm).
  - intros ?. constructor.
  - intros w1 w2 w3. apply during_trans.
  - intros w1 self before rest [_ Hp]. apply (at_exhausted _ _ _ _ _ _ Hp).
  - intros self before rest limit w1 Hp Hl n.
    destruct (pg_next_page_step db self before rest limit w1 Hwf Hp Hl) as (r & self' & w2 & Hr & Hd & Hm).
    exists r, self', w2. do 2 (split; [done|]). destruct r; [done|]. by destruct Hm.
  - done.
  - done.
  - exists db, r, pager', w1. do 5 (split; [done|]). split.
    + intros r2 w2. apply pg_end_snapshot. destruct r as [rows|e]; [|done].
      destruct Hm as ((before & rest & Hp & _) & _). by eapply reading_stalled.
    + cbv zeta. destruct r as [rows|e]; [|done]. by destruct Hm.
Qed.
End Snapshots.
