(* ===== verification/PgOutbox.v ===== *)
(** * The PostgreSQL adapter keeps the contract

    Claims and mutations, which run in transactions of their own, and callers'
    transactions of enqueues, imports and finalizations are histories of the
    contract of an outbox, on tables that others change by the contract
    meanwhile. *)

From S2P Require Import Prelude Step Utf8 External BTree Errors Limits Validation Bounds Values Extension Serialization Event State Tables Queries RowHydration Claims Contract Overlay Others Instants Leases Calls PgError PgMigration Pg PgHydrate PgSchema PgEnqueue PgCanonical PgFinalize PgImport PgLifecycle PgMutation.

Section PgActions.
Context `{SerdeJson, Base64, MimeLib, FluentUri, RustDebug, PgEnv, PgCatalogEnv}.
Context {TL : TimeLaws} {IL : InstantColumnLaws} {PL : PgTimeLaws}.
Context (Hkeep : keep_contract).

(** ** Claims and mutations *)

(** What a mutation writes at [now]. *)
Definition update_of (mutation : Mutation.t) (now : Z) : update Z :=
  match mutation with
  | Mutation.Renew lease_for => Renew (Some (timestamp_add now (Lease.get lease_for)))
  | Mutation.Ack => Ack now
  | Mutation.Retry failure backoff =>
      Retry (timestamp_add now (Delay.get backoff)) (Failure.code failure) (Failure.detail failure)
  | Mutation.Release delay => Release (timestamp_add now (Delay.get delay))
  | Mutation.Quarantine reason => Quarantine now (QuarantineReason.as_str reason)
  end.

Lemma assign_update_of mutation now d : assign mutation now d = apply_update (update_of mutation now) d.
Proof. by destruct mutation. Qed.

Lemma pg_claim_performed tenant_id worker lease_for limit w evs w' :
  closed w -> claimed_on tenant_id worker lease_for limit w evs (committed w') ->
  exists now, performed (committed w) (committed w')
    [claim_of worker now (timestamp_add now (Lease.get lease_for)) evs].
Proof.
  intros [_ Hwf0] (m & n & db1 & db2 & Hd1 & Hwf1 & Hco & Htok & _ & Hd2 & Hwf2 & Hin & Hdb & Hwf).
  set (ds := chosen _ _ _ _ _) in *. exists (clock_timestamp m).
  apply (performed_one _ db2); [done..|by eapply during_trans; [|eapply during_nil]|].
  rewrite Hdb in *. apply (claims_action (ds := ds)); try done.
  - apply Forall2_same_length_lookup_2; [by eapply Forall2_length|]. intros i d ev Hi Hev.
    destruct (Forall2_lookup_lr _ _ _ _ _ _ Hco Hi Hev) as [Hk _ _ Ha _ Ht _].
    apply list_elem_of_lookup_2, chosen_spec in Hi as [_ Hcl]. constructor; try done.
    rewrite claimable_due, bool_decide_eq_true in Hcl. by eapply due_open.
  - by apply sorted_lt_NoDup, chosen_sorted.
Qed.

Lemma pg_mutation_is_performed tenant_id row_id token mutation w w' :
  closed w -> mutated_on tenant_id row_id token mutation w (committed w') ->
  exists now, performed (committed w) (committed w')
    [Mutate (RowId.get row_id) (ClaimToken.as_bytes token) now (update_of mutation now)].
Proof.
  intros [_ Hwf0] (n & db & d & Hd & Hwf & Hin & Hf & Hdb & Hwf'). exists (clock_timestamp n).
  rewrite assign_update_of in Hdb. rewrite Hdb in *.
  apply (performed_one _ db); [done..|]. by eapply mutation_performed.
Qed.
End PgActions.

(** ** Callers' transactions *)

Section PgCalls.
Context `{SerdeJson, Base64, MimeLib, FluentUri, RustDebug, PgEnv, PgCatalogEnv}.
Context {TL : TimeLaws} {IL : InstantColumnLaws} {PL : PgTimeLaws}.
Context (sql : string).

#[export] Instance pg_server : Server World := {|
  srv_tables := committed;
  srv_idle := closed;
  srv_open w o := exists t, open_at w t /\ own t = o;
  srv_begins w w' := begin_statement false w = Some (Ok tt, w');
  srv_answers c a w w' := portable_call c /\
    match c, a with
    | CallEnqueue tenant_id event, AnswerEnqueue outcome =>
        enqueue_for_scope sql tenant_id event w = Some (Ok outcome, w')
    | CallImport tenant_id event state, AnswerImport outcome =>
        import_for_scope sql tenant_id event state w = Some (Ok outcome, w')
    | CallFinalize tenant_id row_id delivered_at, AnswerFinalize outcome =>
        finalize_for_scope sql tenant_id row_id delivered_at w = Some (Ok outcome, w')
    | _, _ => False
    end;
  srv_ends how w w' :=
    match how with
    | Committed => commit w = Some (Ok tt, w')
    | CommitFailed => exists e, commit w = Some (Err e, w')
    | RolledBack => exists r, rollback w = Some (r, w')
    end;
|}.

Context (Hkeep : keep_contract).
Let Hisolated : isolated := contract_isolated Hkeep.
Let Happend : append_only := contract_append_only Hkeep.

Lemma pg_enqueue_answered w t tenant_id event outcome w' :
  open_at w t -> portable_call (CallEnqueue tenant_id event) ->
  enqueue_for_scope sql tenant_id event w = Some (Ok outcome, w') ->
  answered w (own t) (CallEnqueue tenant_id event) (AnswerEnqueue outcome) w'.
Proof.
  intros Ho Hport Hr.
  destruct (pg_enqueue_run sql tenant_id event Hisolated Hport _ _ _ _ Ho Hr) as [Hd Hx].
  destruct outcome as [id|id].
  - destruct Hx as (Hck & (db & _ & Hb2 & Hb3 & Hb4 & _ & Hk) & Ho').
    apply (answered_insert Hkeep _ _ _ _ _ (stored_row tenant_id event id (started_at t)) None db);
      try done; [by eexists|constructor].
  - destruct Hx as (Ho' & _). eapply answered_nothing; [by exists t|done..|constructor].
Qed.

Lemma pg_import_answered w t tenant_id event state outcome w' :
  open_at w t -> portable_call (CallImport tenant_id event state) ->
  import_for_scope sql tenant_id event state w = Some (Ok outcome, w') ->
  answered w (own t) (CallImport tenant_id event state) (AnswerImport outcome) w'.
Proof.
  intros Ho Hport Hr.
  destruct (pg_import_run sql tenant_id event state Hisolated Hport _ _ _ _ Ho Hr) as [Hd Hx].
  destruct outcome as [id|id].
  - destruct Hx as (n & Hck & (db & _ & Hb2 & Hb3 & Hb4 & _ & Hk) & Ho').
    apply (answered_insert Hkeep _ _ _ _ _ (stored_row tenant_id event id (clock_timestamp n))
             (imported_at state) db); try done; [|constructor].
    eexists. split; [exact Ho'|]. by destruct state.
  - destruct Hx as (Ho' & _). eapply answered_nothing; [by exists t|done..|constructor].
Qed.

Lemma pg_finalize_answered w t tenant_id row_id delivered_at outcome w' :
  open_at w t -> finalize_for_scope sql tenant_id row_id delivered_at w = Some (Ok outcome, w') ->
  answered w (own t) (CallFinalize tenant_id row_id delivered_at) (AnswerFinalize outcome) w'.
Proof.
  intros Ho Hr. pose proof Ho as ((_ & Hwf0 & _) & _).
  destruct (pg_finalize_run sql tenant_id row_id delivered_at Hisolated _ _ _ _ Ho Hr) as [Hd Hx].
  destruct outcome as [id|id].
  - destruct Hx as (-> & e & d & Hat & _ & Hse & _ & -> & Hin & Ho').
    unfold event_at in Hat. rewrite andb_true_iff, bool_decide_eq_true, Z.eqb_eq in Hat.
    destruct Hat as [Ht Hk].
    unfold imported_delivery in Hin, Ho'. rewrite <- Ht, <- Hk in Hin, Ho'.
    apply (answered_finalize Hkeep _ _ _ _ _ e (encode_instant delivered_at)
             [Events.row_id e; Events.row_id e]); try done.
    + by eapply during_wf.
    + destruct Hse as (db & Hb1 & Hb2 & _ & He).
      pose proof (during_wf Hisolated _ _ _ Hwf0 Hb1) as Hwfb.
      eapply overlay_events_mono; [exact Hwfb|by eapply during_wf| |exact He]. by eapply during_events.
    + set_solver.
    + by eexists.
    + rewrite Hk. constructor.
  - destruct Hx as (-> & Ho' & _).
    eapply answered_nothing; [by eexists|done|..|constructor]; simpl; rewrite ?app_nil_r; try done.
    set_solver.
Qed.

(** PostgreSQL keeps what [ServerLaws] asks of a server. *)
#[export] Instance pg_server_laws : ServerLaws World.
Proof.
  constructor.
  - by intros w [_ Hwf].
  - intros w w' Hc Hb. destruct (begin_closed Hisolated _ _ _ Hc Hb) as [Hd (t & Ho & Hown)].
    split; [done|]. by exists t.
  - intros w o c a w' (t & Ho & <-) [Hport Hr].
    destruct c, a; try done.
    + by apply pg_enqueue_answered.
    + by apply pg_import_answered.
    + by apply pg_finalize_answered.
  - intros w o [| |] w' (t & Ho & <-); [intros Hc|intros [e Hc]|intros [r Hr]].
    + destruct (commit_open Hisolated _ _ _ _ Ho Hc) as (_ & db & Hd & Hwf & Hv & Hm). by exists db.
    + destruct (commit_open Hisolated _ _ _ _ Ho Hc) as (_ & db & Hd & Hwf & Hv & Hm). by exists db.
    + destruct (latest_open Hisolated _ _ (proj1 Ho)) as (Hd & Hwf & Hv).
      exists (latest w). by injection Hr as _ <-.
Qed.

End PgCalls.
