(* ===== verification/PgScope.v ===== *)
(** * Handles of the PostgreSQL adapter (crates/dovecote-sqlx-postgres/src/scope.rs and lib.rs)

    The adapter itself, a handle bound to one tenant and the administrative
    handle. The pool is the world the steps run on, so a handle keeps its tenant
    only. A tenant's handle binds its tenant to the caller's transaction before
    every operation in it. *)

From S2P Require Import Prelude Step Utf8 BTree Errors Limits Validation Bounds Values Extension Serialization Event State Tables Queries Paging RowHydration Claims External Overlay Others Instants Leases PgError Pg PgHydrate PgSchema PgEnqueue PgCanonical PgFinalize PgImport PgLifecycle PgMutation PgPage.

Module TenantDovecote.
Record t : Type := Make { tenant_id : TenantId.t }.

Section Ops.
Context `{SerdeJson, Base64, MimeLib, FluentUri, RustDebug, PgEnv, PgCatalogEnv}.
Context (tenant_baseline_sql : string).

Definition new (tenant_id : TenantId.t) : t := Make tenant_id.

Definition bind_tenant (self : t) : M (Result unit SqlxError.t) := Pg.bind_tenant (tenant_id self).

Definition enqueue (self : t) (event : NewEvent.t) : M (Result EnqueueOutcome.t EnqueueError.t) :=
  try* _ := bind_tenant self else EnqueueError.sql "bind tenant" in
  enqueue_for_scope tenant_baseline_sql (tenant_id self) event.
Definition import_for_migration (self : t) (event : NewEvent.t) (state : ImportedDeliveryState.t) :
    M (Result ImportOutcome.t ImportError.t) :=
  try* _ := bind_tenant self else ImportError.sql "bind tenant" in
  import_for_scope tenant_baseline_sql (tenant_id self) event state.
Definition finalize_pending_delivery_for_migration (self : t) (row_id : RowId.t)
    (delivered_at : OffsetDateTime) : M (Result FinalizeOutcome.t FinalizeError.t) :=
  try* _ := bind_tenant self else FinalizeError.sql "bind tenant" in
  finalize_for_scope tenant_baseline_sql (tenant_id self) row_id delivered_at.

Definition page (self : t) (after_row_id : option RowId.t) (limit : Limit.t) :
    M (Result (list PagedEvent.t) PageError.t) :=
  page_for_scope (Some (tenant_id self)) after_row_id limit.
Definition begin_snapshot (self : t) : M (Result SnapshotPager.t PageError.t) :=
  begin_snapshot_for_scope (Some (tenant_id self)).

Definition claim (self : t) (worker : WorkerId.t) (lease_for : Lease.t) (limit : Limit.t) :
    M (Result (list ClaimedEvent.t) ClaimError.t) :=
  claim_for_scope (Some (tenant_id self)) worker lease_for limit.
Definition renew (self : t) (row_id : RowId.t) (token : ClaimToken.t) (lease_for : Lease.t) :
    M (Result unit MutationError.t) :=
  renew_for_scope (Some (tenant_id self)) row_id token lease_for.
Definition ack (self : t) (row_id : RowId.t) (token : ClaimToken.t) :
    M (Result unit MutationError.t) :=
  ack_for_scope (Some (tenant_id self)) row_id token.
Definition retry (self : t) (row_id : RowId.t) (token : ClaimToken.t) (failure : Failure.t)
    (backoff : Delay.t) : M (Result unit MutationError.t) :=
  retry_for_scope (Some (tenant_id self)) row_id token failure backoff.
Definition release (self : t) (row_id : RowId.t) (token : ClaimToken.t) (delay : Delay.t) :
    M (Result unit MutationError.t) :=
  release_for_scope (Some (tenant_id self)) row_id token delay.
Definition quarantine (self : t) (row_id : RowId.t) (token : ClaimToken.t)
    (reason : QuarantineReason.t) : M (Result unit MutationError.t) :=
  quarantine_for_scope (Some (tenant_id self)) row_id token reason.
End Ops.
End TenantDovecote.

Module AdminDovecote.
Record t : Type := Make { }.

Section Ops.
Context `{SerdeJson, Base64, MimeLib, FluentUri, RustDebug, PgEnv, PgCatalogEnv}.
Context (tenant_baseline_sql : string).

Definition new : t := Make.

Definition enqueue (_ : t) (tenant_id : TenantId.t) (event : NewEvent.t) :
    M (Result EnqueueOutcome.t EnqueueError.t) :=
  enqueue_for_scope tenant_baseline_sql tenant_id event.
Definition import_for_migration (_ : t) (tenant_id : TenantId.t) (event : NewEvent.t)
    (state : ImportedDeliveryState.t) : M (Result ImportOutcome.t ImportError.t) :=
  import_for_scope tenant_baseline_sql tenant_id event state.
Definition finalize_pending_delivery_for_migration (_ : t) (tenant_id : TenantId.t)
    (row_id : RowId.t) (delivered_at : OffsetDateTime) :
    M (Result FinalizeOutcome.t FinalizeError.t) :=
  finalize_for_scope tenant_baseline_sql tenant_id row_id delivered_at.

Definition page (_ : t) (after_row_id : option RowId.t) (limit : Limit.t) :
    M (Result (list PagedEvent.t) PageError.t) := page_for_scope None after_row_id limit.
Definition begin_snapshot (_ : t) : M (Result SnapshotPager.t PageError.t) :=
  begin_snapshot_for_scope None.
Definition claim (_ : t) (worker : WorkerId.t) (lease_for : Lease.t) (limit : Limit.t) :
    M (Result (list ClaimedEvent.t) ClaimError.t) := claim_for_scope None worker lease_for limit.

Definition renew (_ : t) (tenant_id : TenantId.t) (row_id : RowId.t) (token : ClaimToken.t)
    (lease_for : Lease.t) : M (Result unit MutationError.t) :=
  renew_for_scope (Some tenant_id) row_id token lease_for.
Definition ack (_ : t) (tenant_id : TenantId.t) (row_id : RowId.t) (token : ClaimToken.t) :
    M (Result unit MutationError.t) := ack_for_scope (Some tenant_id) row_id token.
Definition retry (_ : t) (tenant_id : TenantId.t) (row_id : RowId.t) (token : ClaimToken.t)
    (failure : Failure.t) (backoff : Delay.t) : M (Result unit MutationError.t) :=
  retry_for_scope (Some tenant_id) row_id token failure backoff.
Definition release (_ : t) (tenant_id : TenantId.t) (row_id : RowId.t) (token : ClaimToken.t)
    (delay : Delay.t) : M (Result unit MutationError.t) :=
  release_for_scope (Some tenant_id) row_id token delay.
Definition quarantine (_ : t) (tenant_id : TenantId.t) (row_id : RowId.t) (token : ClaimToken.t)
    (reason : QuarantineReason.t) : M (Result unit MutationError.t) :=
  quarantine_for_scope (Some tenant_id) row_id token reason.
End Ops.
End AdminDovecote.

Module PostgresDovecote.
Record t : Type := Make { }.

Section Ops.
Context `{PgEnv, PgCatalogEnv}.
Context (tenant_baseline_sql : string).

Definition new : t := Make.
Definition for_tenant (_ : t) (tenant : TenantId.t) : TenantDovecote.t := TenantDovecote.new tenant.
Definition admin (_ : t) : AdminDovecote.t := AdminDovecote.new.
Definition check_schema (_ : t) : M (Result unit SchemaError.t) :=
  PgSchema.check_schema tenant_baseline_sql.
End Ops.
End PostgresDovecote.

(** ** Tenant isolation *)

(** The mutations of a tenant's handle. *)
Inductive tenant_mutation `{RustDebug, PgEnv} (self : TenantDovecote.t) :
    M (Result unit MutationError.t) -> Prop :=
  | mutation_renew row_id token lease_for :
      tenant_mutation self (TenantDovecote.renew self row_id token lease_for)
  | mutation_ack row_id token : tenant_mutation self (TenantDovecote.ack self row_id token)
  | mutation_retry row_id token failure backoff :
      tenant_mutation self (TenantDovecote.retry self row_id token failure backoff)
  | mutation_release row_id token delay :
      tenant_mutation self (TenantDovecote.release self row_id token delay)
  | mutation_quarantine row_id token reason :
      tenant_mutation self (TenantDovecote.quarantine self row_id token reason).

Section Isolation.
Context `{SerdeJson, Base64, MimeLib, FluentUri, RustDebug, PgEnv, PgCatalogEnv}.
Context {TL : TimeLaws} {IL : InstantColumnLaws} {PL : PgTimeLaws}.
Context (sql : string) (self : TenantDovecote.t).
Context (Hisolated : isolated).

Let tenant := TenantId.as_str (TenantDovecote.tenant_id self).

Definition of_tenant (ev : ClaimedEvent.t) : Prop :=
  TenantId.as_str (ClaimedEvent.tenant_id ev) = tenant.

Lemma pg_claimed_confined worker lease_for limit w evs dbf :
  claimed_on (Some (TenantDovecote.tenant_id self)) worker lease_for limit w evs dbf ->
  confined tenant (committed w) dbf /\ Forall of_tenant evs.
Proof.
  intros (m & n & db1 & db2 & Hd1 & Hwf1 & Hco & _ & _ & Hd2 & Hwf2 & Hstay & -> & _).
  set (ds := chosen _ _ _ _ db1) in *.
  assert (Hown : forall ev, ev ∈ evs -> exists d, d ∈ deliveries db2 /\
            RowId.get (ClaimedEvent.row_id ev) = Deliveries.event_row_id d /\
            TenantId.as_str (ClaimedEvent.tenant_id ev) = Deliveries.tenant_id d /\
            Deliveries.tenant_id d = tenant).
  { intros ev Hev. apply list_elem_of_lookup in Hev as [i Hi].
    destruct (Forall2_lookup_r _ _ _ _ _ Hco Hi) as (d & Hd & []). exists d.
    apply list_elem_of_lookup_2 in Hd. pose proof (Hstay _ Hd) as Hd'.
    apply chosen_spec in Hd as [_ Hc]. do 3 (split; [done|]).
    unfold claimable, in_scope in Hc. cbn in Hc. rewrite !andb_true_iff, bool_decide_eq_true in Hc.
    apply Hc. }
  split.
  - apply confined_claims; [|done|].
    { eapply during_trans; [exact Hd1|]. by eapply during_nil. }
    intros ev Hev. destruct (Hown ev Hev) as (d & ? & ? & _ & ?). by exists d.
  - apply Forall_forall. intros ev Hev. unfold of_tenant.
    destruct (Hown ev Hev) as (d & _ & _ & -> & ->). done.
Qed.

Lemma pg_claim_confined worker lease_for limit w r w' :
  closed w -> TenantDovecote.claim self worker lease_for limit w = Some (r, w') ->
  confined tenant (committed w) (committed w') /\
  match r with Ok evs => Forall of_tenant evs | Err _ => True end.
Proof.
  intros Hc Hr. destruct (pg_claim_run Hisolated _ _ _ _ _ _ _ Hc Hr) as [_ Hx].
  destruct r as [evs|e]; [by eapply pg_claimed_confined|]. split; [|done].
  destruct Hx as [Hd|(source & evs & _ & Hon)]; [by apply during_confined|].
  by apply pg_claimed_confined in Hon as [? _].
Qed.

Lemma pg_mutated_confined row_id token mutation w dbf :
  mutated_on (Some (TenantDovecote.tenant_id self)) row_id token mutation w dbf ->
  confined tenant (committed w) dbf.
Proof.
  intros (n & db & d & Hd & Hwf & Hin & Hf & -> & _).
  unfold fenced, row_in_scope, in_scope in Hf. cbn in Hf.
  rewrite !andb_true_iff, bool_decide_eq_true, Z.eqb_eq in Hf. destruct Hf as ((([Hkd Htd] & _) & _) & _).
  eapply confined_row; [done..|]. by rewrite (proj2 (assign_keeps_key mutation (clock_timestamp n) d)).
Qed.

Lemma pg_mutation_confined m w r w' :
  closed w -> tenant_mutation self m -> m w = Some (r, w') -> confined tenant (committed w) (committed w').
Proof.
  intros Hc Hm Hr.
  assert (Hx : exists row_id token mutation,
            m = mutate (Some (TenantDovecote.tenant_id self)) row_id token mutation)
    by (destruct Hm; by do 3 eexists).
  destruct Hx as (row_id & token & mutation & ->).
  destruct (pg_mutation_run Hisolated (Some (TenantDovecote.tenant_id self)) row_id token mutation w Hc)
    as (r1 & w1 & Hr1 & _ & Hres). rewrite Hr in Hr1. injection Hr1 as <- <-.
  destruct r as [[]|e]; [by eapply pg_mutated_confined|].
  destruct Hres as [[Hd _]|(source & _ & Hon)]; [by apply during_confined|].
  by eapply pg_mutated_confined.
Qed.

Lemma pg_page_confined after limit w r w' :
  closed w -> 0 <= Limit.get limit -> TenantDovecote.page self after limit w = Some (r, w') ->
  during [] (committed w) (committed w') /\
  match r with Ok pages => Forall (fun p => TenantId.as_str (PagedEvent.tenant_id p) = tenant) pages
             | Err _ => True end.
Proof.
  intros Hc Hl Hr.
  destruct (pg_live_page_run Hisolated (Some (TenantDovecote.tenant_id self)) after limit w Hc Hl)
    as (r1 & w1 & Hr1 & _ & Hd & Hx). unfold TenantDovecote.page in Hr. rewrite Hr in Hr1.
  injection Hr1 as <- <-. split; [done|]. destruct r as [pages|]; [|done].
  destruct Hx as (db & _ & _ & Hwf & [Hp _ _ _]). eapply page_rows_tenant; [|exact Hwf|exact Hp].
  intros c p Hcp. apply pg_hydrate_page_row_id in Hcp as [_ Hcp]. by apply TenantId_new_as_str.
Qed.

(** The transaction failed, or the row versions it gained are the tenant's. *)
Definition writes_own (t : Txn) (w w' : World) : Prop :=
  during (own_locks (own t)) (committed w) (committed w') /\
  exists t', settled w' t' /\
    (failed t' = true \/
     exists es ds, own_events (own t') = own_events (own t) ++ es /\
       own_deliveries (own t') = own_deliveries (own t) ++ ds /\
       Forall (fun e => Events.tenant_id e = tenant) es /\
       Forall (fun d => Deliveries.tenant_id d = tenant) ds).

Lemma writes_nothing t t' w w' :
  during (own_locks (own t)) (committed w) (committed w') -> settled w' t' ->
  own_events (own t') = own_events (own t) -> own_deliveries (own t') = own_deliveries (own t) ->
  writes_own t w w'.
Proof.
  intros Hd Hs He Hdl. split; [done|]. exists t'. split; [done|]. right. exists [], [].
  by rewrite !app_nil_r.
Qed.

(** A transaction's operation: it binds the tenant first. *)
Lemma pg_bound {A E} (body : M (Result A E)) (f : SqlxError.t -> E) w t r w' :
  open_at w t ->
  (forall w1 t1 r1, open_at w1 t1 -> body w1 = Some (r1, w') -> writes_own t1 w1 w') ->
  (try* _ := TenantDovecote.bind_tenant self else f in body) w = Some (r, w') ->
  writes_own t w w'.
Proof.
  intros Ho Hbody Hr. run_inv Hr.
  destruct (bind_tenant_open Hisolated _ _ _ _ _ Ho Hm) as [Hd Hx]. destruct r0 as [[]|e].
  - apply (Hbody _ _ _ Hx) in Hr as (Hd2 & Hw). cbn [own with_tenant] in *.
    split; [by eapply during_trans|done].
  - run_inv Hr. destruct Hx as (t' & Hs & Hown). apply (writes_nothing _ t'); [done|done|by rewrite Hown..].
Qed.

Lemma pg_writes_pair t row d keys w w' :
  during (own_locks (own t)) (committed w) (committed w') ->
  settled w' (with_own (own_app (own t) (MkOwn [row] [d] keys)) t) ->
  Events.tenant_id row = tenant -> Deliveries.tenant_id d = tenant -> writes_own t w w'.
Proof.
  intros Hd Hs He Hdl. split; [done|]. eexists. split; [exact Hs|]. right. exists [row], [d].
  do 2 (split; [done|]). by split; apply Forall_singleton.
Qed.

Lemma pg_writes_failed t t' w w' :
  during (own_locks (own t)) (committed w) (committed w') -> settled w' t' ->
  own t' = own t \/ failed t' = true -> writes_own t w w'.
Proof.
  intros Hd Hs [Ho|Hf]; [by apply (writes_nothing _ t'); rewrite ?Ho|].
  split; [done|]. exists t'. split; [done|by left].
Qed.

Lemma pg_transaction_confined event state row_id delivered_at w t w' :
  option_all portable_instant (EventContent.time (NewEvent.content event)) -> open_at w t ->
  (exists r, TenantDovecote.enqueue sql self event w = Some (r, w')) \/
  (exists r, TenantDovecote.import_for_migration sql self event state w = Some (r, w')) \/
  (exists r, TenantDovecote.finalize_pending_delivery_for_migration sql self row_id delivered_at w
             = Some (r, w')) ->
  writes_own t w w'.
Proof.
  intros Hport Ho [[r Hr]|[[r Hr]|[r Hr]]]; eapply (pg_bound _ _ _ _ _ _ Ho); try exact Hr;
    clear Hr r Ho w t; intros w t r Ho Hr.
  - destruct (pg_enqueue_run _ _ _ Hisolated Hport _ _ _ _ Ho Hr) as [Hd Hx].
    destruct r as [[id|id]|[]]; try (destruct Hx as (t' & Hs & Hor); by eapply pg_writes_failed).
    + destruct Hx as (_ & _ & [Hs _]). by eapply pg_writes_pair.
    + destruct Hx as ([Hs _] & _). by eapply writes_nothing.
    + destruct Hx as ([Hs _] & _). by eapply writes_nothing.
  - destruct (pg_import_run _ _ _ _ Hisolated Hport _ _ _ _ Ho Hr) as [Hd Hx].
    destruct r as [[id|id]|[]]; try (destruct Hx as (t' & Hs & Hor); by eapply pg_writes_failed).
    + destruct Hx as (n & _ & _ & [Hs _]). by eapply pg_writes_pair.
    + destruct Hx as ([Hs _] & _). by eapply writes_nothing.
    + destruct Hx as ([Hs _] & _). by eapply writes_nothing.
    + destruct Hx as ([Hs _] & _). by eapply writes_nothing.
  - destruct (pg_finalize_run _ _ _ _ Hisolated _ _ _ _ Ho Hr) as [Hd Hx].
    destruct r as [[id|id]|[]]; try (destruct Hx as (t' & Hs & He & Hdl); by eapply writes_nothing).
    + destruct Hx as (_ & e & d & _ & _ & _ & _ & _ & _ & [Hs _]). split; [done|].
      eexists. split; [exact Hs|]. right. eexists [], [_].
      do 2 (split; [done|]). split; [constructor|]. by apply Forall_singleton.
    + destruct Hx as (_ & [Hs _] & _). eapply writes_nothing; [done|exact Hs|..]; cbn; by rewrite app_nil_r.
    + destruct Hx as ([Hs _] & _). by eapply writes_nothing.
    + destruct Hx as (_ & [Hs _] & _). eapply writes_nothing; [done|exact Hs|..]; cbn; by rewrite app_nil_r.
    + destruct Hx as [-> _]. eapply writes_nothing; [done|apply Ho|done..].
Qed.

(** C14: a PostgreSQL tenant's handle never touches another tenant. Whatever a
    claim or a mutation of the handle does, and however it fails, also when the
    answer to its COMMIT is lost, the rows of every other tenant stay exactly
    what other connections made them; every claim and every page the handle
    returns belongs to its tenant; and the row versions that enqueue, import and
    finalization add to the caller's transaction are the tenant's, unless the
    transaction failed and can only be rolled back. *)
Theorem pg_tenant_isolation w :
  (closed w ->
     (forall worker lease_for limit r w',
        TenantDovecote.claim self worker lease_for limit w = Some (r, w') ->
        confined tenant (committed w) (committed w') /\
        match r with Ok evs => Forall of_tenant evs | Err _ => True end) /\
     (forall m r w', tenant_mutation self m -> m w = Some (r, w') ->
        confined tenant (committed w) (committed w')) /\
     (forall after limit r w', 0 <= Limit.get limit ->
        TenantDovecote.page self after limit w = Some (r, w') ->
        during [] (committed w) (committed w') /\
        match r with
        | Ok pages => Forall (fun p => TenantId.as_str (PagedEvent.tenant_id p) = tenant) pages
        | Err _ => True
        end)) /\
  (forall t event state row_id delivered_at w', open_at w t ->
     option_all portable_instant (EventContent.time (NewEvent.content event)) ->
     (exists r, TenantDovecote.enqueue sql self event w = Some (r, w')) \/
     (exists r, TenantDovecote.import_for_migration sql self event state w = Some (r, w')) \/
     (exists r, TenantDovecote.finalize_pending_delivery_for_migration sql self row_id delivered_at w
                = Some (r, w')) ->
     writes_own t w w').
Proof.
  split.
  - intros Hc. split; [|split]; intros.
    + by eapply pg_claim_confined.
    + by eapply pg_mutation_confined.
    + by eapply pg_page_confined.
  - intros t event state row_id delivered_at w' Ho Hport Hr. by eapply pg_transaction_confined.
Qed.
End Isolation.
