(* ===== verification/MyError.v ===== *)
(** * Errors of the MySQL adapter (crates/dovecote-sqlx-mysql/src/error.rs)

    The server errors a caller may retry, the recognition of a duplicate key by
    its name, and one error type per operation with the constructors the code
    uses. *)

From S2P Require Import Prelude Text Errors Bounds State External.

Module TransientKind.
Inductive t : Type := SerializationFailure | DeadlockDetected | StatementOrLockTimeout.

#[global] Instance eq_dec : EqDecision t.
Proof. solve_decision. Defined.

Definition from_code (code : string) (number : option Z) : option t :=
  if bool_decide (number = Some 1213) then Some DeadlockDetected
  else if bool_decide (number = Some 1205) then Some StatementOrLockTimeout
  else if bool_decide (number = Some 1020) then Some SerializationFailure
  else if bool_decide (code = "40001") then Some SerializationFailure
  else None.

(** [source.as_database_error()?.code()?] and the number of a MySQL error *)
Definition from_sqlx (source : SqlxError.t) : option t :=
  match source with
  | SqlxError.Database (Some code) => from_code code None
  | SqlxError.MySql number (Some code) _ => from_code code (Some number)
  | _ => None
  end.
End TransientKind.

(** ** Duplicate keys *)

Definition FOR_KEY : string := " for key ".
Definition QUOTE : ascii := "'".
Definition TENANT_SOURCE_EVENT_ID_KEY : string := "dovecote_events_tenant_source_event_id".

(** [key.rsplit('.').next()] is the last part of [key]; [rsplit] always has one. *)
Definition last_part (key : string) : string := List.last (split "." key) key.

Definition duplicate_key_name (message : string) : option string :=
  match rsplit_once FOR_KEY message with
  | None => None
  | Some (_, suffix) =>
      match strip_prefix (String QUOTE EmptyString) suffix with
      | None => None
      | Some suffix =>
          match strip_suffix QUOTE suffix with
          | None => None
          | Some key =>
              if is_empty key || negb (no_byte QUOTE key) then None else Some (last_part key)
          end
      end
  end.

Definition is_tenant_source_event_id_duplicate (source : SqlxError.t) : bool :=
  match source with
  | SqlxError.MySql number code message =>
      (number =? 1062) && bool_decide (code = Some "23000")
      && bool_decide (duplicate_key_name message = Some TENANT_SOURCE_EVENT_ID_KEY)
  | _ => false
  end.

(** The number of a MySQL error *)
Definition mysql_number (source : SqlxError.t) : option Z :=
  match source with SqlxError.MySql number _ _ => Some number | _ => None end.

Module EnqueueError.
Inductive t : Type :=
  | IdempotencyConflict (existing_row_id : RowId.t)
  | MigrationMismatch (detail : string)
  | BackendMismatch (detail : string)
  | Serialization (detail : string)
  | Sql (operation : string) (source : SqlxError.t)
  | Transient (operation : string) (kind : TransientKind.t) (source : SqlxError.t).

Definition sql (operation : string) (source : SqlxError.t) : t :=
  match TransientKind.from_sqlx source with
  | Some kind => Transient operation kind source
  | None => Sql operation source
  end.

Definition serialization (detail : string) : t := Serialization detail.
End EnqueueError.

Module ImportError.
Inductive t : Type :=
  | IdentityConflict (existing_row_id : RowId.t)
  | ImportConflict (existing_row_id : RowId.t)
  | InvalidState (source : ValidationError.t)
  | MigrationMismatch (detail : string)
  | BackendMismatch (detail : string)
  | Serialization (detail : string)
  | Sql (operation : string) (source : SqlxError.t)
  | Transient (operation : string) (kind : TransientKind.t) (source : SqlxError.t).

Definition sql (operation : string) (source : SqlxError.t) : t :=
  match TransientKind.from_sqlx source with
  | Some kind => Transient operation kind source
  | None => Sql operation source
  end.

Definition serialization (detail : string) : t := Serialization detail.
End ImportError.

Module FinalizeError.
Inductive t : Type :=
  | NotFound
  | StateConflict (row_id : RowId.t)
  | InvalidTimestamp (source : ValidationError.t)
  | MigrationMismatch (detail : string)
  | BackendMismatch (detail : string)
  | Serialization (detail : string)
  | Sql (operation : string) (source : SqlxError.t)
  | Transient (operation : string) (kind : TransientKind.t) (source : SqlxError.t).

Definition sql (operation : string) (source : SqlxError.t) : t :=
  match TransientKind.from_sqlx source with
  | Some kind => Transient operation kind source
  | None => Sql operation source
  end.
End FinalizeError.

Module ClaimError.
Inductive t : Type :=
  | CounterOverflow (row_id : RowId.t)
  | EntropyUnavailable (source : EntropyError)
  | Serialization (detail : string)
  | MigrationMismatch (detail : string)
  | BackendMismatch (detail : string)
  | Sql (operation : string) (source : SqlxError.t)
  | Transient (operation : string) (kind : TransientKind.t) (source : SqlxError.t).

Definition sql (operation : string) (source : SqlxError.t) : t :=
  match TransientKind.from_sqlx source with
  | Some kind => Transient operation kind source
  | None => Sql operation source
  end.

Definition serialization (detail : string) : t := Serialization detail.
End ClaimError.

Module MutationError.
Inductive t : Type :=
  | NotFound
  | IllegalTransition (state : DeliveryState.t)
  | LostClaim
  | MigrationMismatch (detail : string)
  | BackendMismatch (detail : string)
  | Serialization (detail : string)
  | Sql (operation : string) (source : SqlxError.t)
  | Transient (operation : string) (kind : TransientKind.t) (source : SqlxError.t).

Definition sql (operation : string) (source : SqlxError.t) : t :=
  match TransientKind.from_sqlx source with
  | Some kind => Transient operation kind source
  | None => Sql operation source
  end.

Definition serialization (detail : string) : t := Serialization detail.
End MutationError.

Module PageError.
Inductive t : Type :=
  | Serialization (detail : string)
  | BackendMismatch (detail : string)
  | Sql (operation : string) (source : SqlxError.t)
  | Transient (operation : string) (kind : TransientKind.t) (source : SqlxError.t).

Definition sql (operation : string) (source : SqlxError.t) : t :=
  match TransientKind.from_sqlx source with
  | Some kind => Transient operation kind source
  | None => Sql operation source
  end.

Definition serialization (detail : string) : t := Serialization detail.
End PageError.

Module SchemaError.
Inductive t : Type :=
  | MigrationMismatch (detail : string)
  | BackendMismatch (detail : string)
  | Sql (operation : string) (source : SqlxError.t)
  | Transient (operation : string) (kind : TransientKind.t) (source : SqlxError.t).

Definition sql (operation : string) (source : SqlxError.t) : t :=
  match TransientKind.from_sqlx source with
  | Some kind => Transient operation kind source
  | None => Sql operation source
  end.
End SchemaError.

(** ** Facts *)

(** After the last [" for key "] there is no space. *)
Lemma rsplit_for_key y : no_byte " " y = true -> rsplit_once FOR_KEY (FOR_KEY +:+ y) = Some (EmptyString, y).
Proof.
  intros Hy. pose proof (rsplit_once_absent " " FOR_KEY y eq_refl Hy) as Hn.
  assert (Hp : strip_prefix FOR_KEY (String " " y) = None).
  { destruct (strip_prefix _ _) as [t|] eqn:E; [|done].
    apply strip_prefix_Some in E. injection E as ->. by rewrite no_byte_app in Hy. }
  unfold FOR_KEY in *. repeat rewrite str_app_cons. rewrite str_app_nil_l.
  do 8 rewrite rsplit_once_cons. rewrite rsplit_once_cons, Hn, Hp. cbn [option_map].
  repeat (rewrite strip_prefix_cons; first [rewrite bool_decide_false by done|rewrite bool_decide_true by done]; cbn [option_map]).
  done.
Qed.

Lemma rsplit_message x y :
  no_byte " " y = true -> rsplit_once FOR_KEY (x +:+ FOR_KEY +:+ y) = Some (x, y).
Proof. intros Hy. by rewrite rsplit_once_app, rsplit_for_key, str_app_nil_r. Qed.

(** Whatever the text of the duplicate entry, [for key '...'] of another key in
    it included, the key at the end of the server's message is the one found. *)
Lemma duplicate_key_name_message text key :
  key <> EmptyString -> no_byte " " key = true -> no_byte QUOTE key = true ->
  duplicate_key_name (text +:+ FOR_KEY +:+ String QUOTE (key +:+ String QUOTE EmptyString))
  = Some (last_part key).
Proof.
  intros Hne Hsp Hq. unfold duplicate_key_name. rewrite rsplit_message.
  - rewrite strip_prefix_cons, bool_decide_true by done. cbn [strip_prefix].
    rewrite strip_suffix_app, Hq. by destruct key.
  - unfold no_byte in *. simpl. by rewrite all_bytes_app, Hsp.
Qed.

(** A message a key was found in ends with that key, quoted. *)
Lemma duplicate_key_name_Some message name :
  duplicate_key_name message = Some name ->
  exists text key, last_part key = name /\ key <> EmptyString /\ no_byte QUOTE key = true /\
    message = text +:+ FOR_KEY +:+ String QUOTE (key +:+ String QUOTE EmptyString).
Proof.
  unfold duplicate_key_name. destruct (rsplit_once _ _) as [[text suffix]|] eqn:E; [|done].
  apply rsplit_once_Some in E as ->. destruct (strip_prefix _ _) as [rest|] eqn:E; [|done].
  apply strip_prefix_Some in E as ->. destruct (strip_suffix _ _) as [key|] eqn:E; [|done].
  apply strip_suffix_Some in E as ->. destruct (is_empty key) eqn:He; [done|].
  destruct (no_byte QUOTE key) eqn:Hq; [|done]. intros [= <-]. exists text, key.
  split_and!; [done|by destruct key|done..].
Qed.

(** A key name, and one qualified by its table as MySQL 8 writes it. *)
Lemma last_part_plain key : no_byte "." key = true -> last_part key = key.
Proof. intros Hk. unfold last_part. by rewrite split_whole. Qed.

Lemma last_part_qualified table key :
  no_byte "." key = true -> last_part (table +:+ String "." key) = key.
Proof. intros Hk. unfold last_part. by rewrite split_app, (split_whole _ key), last_last. Qed.

(** Error 1062 as the servers write it, the key alone or qualified by its table. *)
Lemma duplicate_of_key number code text (table : option string) key :
  key <> EmptyString ->
  no_byte " " key = true -> no_byte QUOTE key = true -> no_byte "." key = true ->
  is_some_and table (fun t => no_byte " " t && no_byte QUOTE t) || is_none table = true ->
  let name := match table with Some t => t +:+ String "." key | None => key end in
  is_tenant_source_event_id_duplicate
    (SqlxError.MySql number code
       (text +:+ FOR_KEY +:+ String QUOTE (name +:+ String QUOTE EmptyString))) = true
  <-> number = 1062 /\ code = Some "23000" /\ key = TENANT_SOURCE_EVENT_ID_KEY.
Proof.
  intros Hne Hsp Hq Hdot Ht name.
  assert (Hname : duplicate_key_name
            (text +:+ FOR_KEY +:+ String QUOTE (name +:+ String QUOTE EmptyString)) = Some key).
  { unfold name. destruct table as [t|]; simpl in Ht.
    - rewrite orb_false_r in Ht. apply andb_true_iff in Ht as [Ht1 Ht2].
      rewrite duplicate_key_name_message.
      + by rewrite last_part_qualified.
      + by destruct t.
      + rewrite no_byte_app, Ht1. unfold no_byte in *. simpl. by rewrite Hsp.
      + rewrite no_byte_app, Ht2. unfold no_byte in *. simpl. by rewrite Hq.
    - by rewrite duplicate_key_name_message, last_part_plain. }
  unfold is_tenant_source_event_id_duplicate. rewrite Hname, !andb_true_iff, Z.eqb_eq,
    !bool_decide_eq_true. naive_solver.
Qed.

(** A server error is taken for a replayed identity exactly when it is error
    1062 with SQLSTATE 23000 on the identity key, whether the server names the key
    alone or qualified by its table, and whatever the text of the duplicate entry:
    one that itself spells [for key] and the identity key's name does not turn
    another key's duplicate into a replay, nor hides a replay. *)
Theorem identity_duplicate_exact number code text (table : option string) key :
  key <> EmptyString ->
  no_byte " " key = true -> no_byte QUOTE key = true -> no_byte "." key = true ->
  is_some_and table (fun t => no_byte " " t && no_byte QUOTE t) || is_none table = true ->
  let name := match table with Some t => t +:+ String "." key | None => key end in
  is_tenant_source_event_id_duplicate
    (SqlxError.MySql number code
       (text +:+ FOR_KEY +:+ String QUOTE (name +:+ String QUOTE EmptyString))) = true
  <-> number = 1062 /\ code = Some "23000" /\ key = TENANT_SOURCE_EVENT_ID_KEY.
Proof. apply duplicate_of_key. Qed.
