(* ===== verification/My.v ===== *)
(** * The MySQL connection

    Statements of an InnoDB transaction in REPEATABLE READ as steps over an
    explicit world: the committed tables that every connection shares, the read
    view and the uncommitted rows and locks of this connection, and a counter
    that indexes what the environment does at each statement. A plain SELECT
    reads the read view, which the first of them opens; a locking read, an
    INSERT and an UPDATE read the tables committed when they run. Both see the
    transaction's own rows. Other connections commit between any two statements;
    they cannot change a row this connection holds locked. *)

From S2P Require Import Prelude Step Utf8 Tables Queries Overlay Others Instants External Leases MyError.

(** ** Environment and world *)

(** The constraints, other than a unique key, that fail a statement; MySQL and
    MariaDB number them differently. *)
Inductive Violation : Type := CheckViolated | ForeignKeyViolated | DatetimeOverflow.

(** What the code does not decide, per statement number: failures, the outcome
    of a COMMIT whose answer is lost, the database clock, identity values, the
    text of errors, and entropy. *)
Class MyEnv `{InstantColumn, Others} := {
  (** the error of a statement, and whether the server rolled the transaction back
      with it, as for a deadlock *)
  sql_fault : nat -> option (SqlxError.t * bool);
  (** the error of a COMMIT, and whether the server committed all the same *)
  commit_fault : nat -> option (SqlxError.t * bool);
  (** [UTC_TIMESTAMP(6)]: the time the statement started *)
  utc_timestamp : nat -> Z;
  (** the next AUTO_INCREMENT value of [dovecote_events] *)
  auto_increment : nat -> Db -> Z;
  violation : Violation -> SqlxError.t;
  (** what precedes the key's name in the message of a duplicate, and the table
      MySQL qualifies the name with *)
  duplicate_text : nat -> string;
  key_table : option string;
  (** whether a query of the catalog opens the read view *)
  catalog_opens_view : nat -> bool;
  (** [getrandom::fill] of sixteen bytes, by the number of the draw *)
  entropy : nat -> Result bytes EntropyError;
  (** how many draws [fresh_token] may make before the model gives up *)
  entropy_fuel : nat;
}.

(** Documented behaviour of the servers: a violation of another constraint has
    its own error number, a failure of another kind is not reported as a duplicate
    of the identity key, error 1020 (a record changed since the last read) keeps the
    transaction, and table names are plain. *)
Class MyErrorLaws `{MyEnv} : Prop := {
  fault_not_duplicate n e rolled_back :
    sql_fault n = Some (e, rolled_back) -> is_tenant_source_event_id_duplicate e = false;
  record_changed_keeps n e rolled_back :
    sql_fault n = Some (e, rolled_back) -> mysql_number e = Some 1020 -> rolled_back = false;
  violation_not_duplicate v : is_tenant_source_event_id_duplicate (violation v) = false;
  key_table_plain :
    is_some_and key_table (fun t => no_byte " " t && no_byte QUOTE t) || is_none key_table = true;
}.

(** The open transaction: its read view, once a consistent read opened it, and
    its own rows and locks. *)
Record Txn : Type := MkTxn {
  view : option Db;
  own : Own Z;
}.

Record World : Type := MkWorld {
  committed : Db;
  txn : option Txn;
  tick : nat;
  draws : nat;
}.

(** Error 1062: the duplicate of a key *)
Definition duplicate_entry `{MyEnv} (n : nat) (key : string) : SqlxError.t :=
  let name := match key_table with Some table => table +:+ String "." key | None => key end in
  SqlxError.MySql 1062 (Some "23000")
    (duplicate_text n +:+ FOR_KEY +:+ String QUOTE (name +:+ String QUOTE EmptyString)).

Section Statements.
Context `{MyEnv}.

Definition M (A : Type) : Type := Step World A.

Definition with_own (o : Own Z) (t : Txn) : Txn := MkTxn (view t) o.
Definition add_own (o : Own Z) (t : Txn) : Txn := with_own (own_app (own t) o) t.

(** The first consistent read opens the read view. *)
Definition open_view (db : Db) (t : Txn) : Txn :=
  MkTxn (Some (match view t with Some v => v | None => db end)) (own t).

(** The tables a consistent read sees, and those of every other statement. *)
Definition read_view (t : Txn) (db : Db) : Db :=
  overlay (own t) (match view t with Some v => v | None => db end).
Definition current (t : Txn) (db : Db) : Db := overlay (own t) db.

(** What is committed when statement [tick w] runs. *)
Definition latest (w : World) : Db :=
  others_commit (tick w) (match txn w with Some t => own t | None => nothing end) (committed w).

(** One statement: it answers and changes the transaction. A failed statement
    leaves the transaction as it was, unless the server rolled it back too;
    outside a transaction the statement commits at once. *)
Definition in_session {A} (f : nat -> Db -> Txn -> Result (A * Txn) SqlxError.t) :
    M (Result A SqlxError.t) :=
  fun w =>
    let db := latest w in
    let after d t := MkWorld d t (S (tick w)) (draws w) in
    match sql_fault (tick w) with
    | Some (e, rolled_back) => Some (Err e, after db (if rolled_back then None else txn w))
    | None =>
        match txn w with
        | Some t =>
            match f (tick w) db t with
            | Err e => Some (Err e, after db (Some t))
            | Ok (a, t) => Some (Ok a, after db (Some t))
            end
        | None =>
            match f (tick w) db (MkTxn None nothing) with
            | Err e => Some (Err e, after db None)
            | Ok (a, t) => Some (Ok a, after (overlay (own t) db) None)
            end
        end
    end.

(** INSERT, UPDATE and SELECT ... FOR UPDATE: reads what is committed *)
Definition statement {A} (f : nat -> Db -> Result (A * Own Z) SqlxError.t) :
    M (Result A SqlxError.t) :=
  in_session (fun n db t => let? r := f n (current t db) in Ok (r.1, add_own r.2 t)).

(** A SELECT without a lock clause: reads the read view *)
Definition consistent_read {A} (f : nat -> Db -> A) : M (Result A SqlxError.t) :=
  in_session (fun n db t => Ok (f n (read_view t db), open_view db t)).

(** A SELECT that reads no table *)
Definition server_query {A} (f : nat -> A) : M (Result A SqlxError.t) :=
  in_session (fun n _ t => Ok (f n, t)).

(** A SELECT on the information schema, which is not versioned *)
Definition catalog_query {A} (f : nat -> Db -> A) : M (Result A SqlxError.t) :=
  in_session (fun n db t =>
    Ok (f n (current t db), if catalog_opens_view n then open_view db t else t)).

(** [START TRANSACTION], optionally WITH CONSISTENT SNAPSHOT, READ ONLY *)
Definition begin_statement (consistent_snapshot : bool) : M (Result unit SqlxError.t) :=
  fun w =>
    let db := latest w in
    match sql_fault (tick w) with
    | Some (e, _) => Some (Err e, MkWorld db (txn w) (S (tick w)) (draws w))
    | None =>
        let t := MkTxn (if consistent_snapshot then Some db else None) nothing in
        Some (Ok tt, MkWorld db (Some t) (S (tick w)) (draws w))
    end.

(** [ROLLBACK], also that of a transaction the code drops *)
Definition rollback : M (Result unit SqlxError.t) :=
  fun w => Some (match sql_fault (tick w) with Some (e, _) => Err e | None => Ok tt end,
                 MkWorld (latest w) None (S (tick w)) (draws w)).

(** [COMMIT]: when its answer is lost the server may have committed or not. *)
Definition commit : M (Result unit SqlxError.t) :=
  fun w =>
    let db := latest w in
    let merged := match txn w with Some t => overlay (own t) db | None => db end in
    match commit_fault (tick w) with
    | None => Some (Ok tt, MkWorld merged None (S (tick w)) (draws w))
    | Some (e, applied) =>
        Some (Err e, MkWorld (if applied then merged else db) None (S (tick w)) (draws w))
    end.
End Statements.

#[global] Arguments in_session : simpl never.
#[global] Arguments statement : simpl never.
#[global] Arguments consistent_read : simpl never.
#[global] Arguments server_query : simpl never.
#[global] Arguments catalog_query : simpl never.
#[global] Arguments begin_statement : simpl never.
#[global] Arguments rollback : simpl never.
#[global] Arguments commit : simpl never.

(** ** Running a statement *)

Section Runs.
Context `{MyEnv}.

(** A transaction is open; the tables are well formed with and without its rows,
    and so is its read view. *)
Definition open_at (w : World) (t : Txn) : Prop :=
  txn w = Some t /\ db_wf (committed w) /\ db_wf (overlay (own t) (committed w)) /\
  forall v, view t = Some v -> db_wf v.

(** No transaction is open. *)
Definition closed (w : World) : Prop := txn w = None /\ db_wf (committed w).

(** After a failed statement: the transaction is as it was, or rolled back. *)
Definition stopped (w : World) (t : Txn) : Prop := open_at w t \/ closed w.

Lemma open_committed w t : open_at w t -> db_wf (committed w).
Proof. by intros (_ & ? & _). Qed.
Lemma open_current w t : open_at w t -> db_wf (overlay (own t) (committed w)).
Proof. by intros (_ & _ & ? & _). Qed.

Context (Hisolated : isolated).

Lemma add_nothing t : add_own nothing t = t.
Proof. destruct t. unfold add_own, with_own. simpl. by rewrite own_app_nothing_r. Qed.

Lemma add_own_app a b t : add_own b (add_own a t) = add_own (own_app a b) t.
Proof. unfold add_own, with_own. simpl. by rewrite own_app_assoc. Qed.

Lemma my_latest_open w t :
  open_at w t ->
  during (own_locks (own t)) (committed w) (latest w) /\
  db_wf (latest w) /\ db_wf (overlay (own t) (latest w)).
Proof.
  intros (Ht & Hw & Hv & _). unfold latest. rewrite Ht.
  destruct (Hisolated (tick w) (own t) _ Hw Hv). split_and!; [|done..]. by apply during_one.
Qed.

Lemma my_latest_closed w : closed w -> during [] (committed w) (latest w) /\ db_wf (latest w).
Proof.
  intros [Ht Hw]. unfold latest. rewrite Ht. pose proof Hw as Hv. rewrite <- overlay_nothing in Hv.
  destruct (Hisolated (tick w) nothing _ Hw Hv). split; [|done].
  eapply during_nil. by apply during_one.
Qed.

(** The result of a statement of an open transaction. *)
Lemma in_session_open {A} (f : nat -> Db -> Txn -> Result (A * Txn) SqlxError.t) w t r w' :
  open_at w t -> in_session f w = Some (r, w') ->
  during (own_locks (own t)) (committed w) (committed w') /\
  db_wf (committed w') /\ db_wf (overlay (own t) (committed w')) /\
  match r with
  | Ok a => exists t', f (tick w) (committed w') t = Ok (a, t') /\ txn w' = Some t'
  | Err _ => stopped w' t
  end.
Proof.
  intros Ho. pose proof (my_latest_open _ _ Ho) as (Hd & Hw & Hv). destruct Ho as (Ht & _ & _ & Hview).
  unfold in_session. rewrite Ht. destruct (sql_fault (tick w)) as [[e []]|].
  - intros [= <- <-]. split_and!; [done..|by right].
  - intros [= <- <-]. split_and!; [done..|left]. by split_and!.
  - destruct (f _ _ _) as [[a t']|e] eqn:E; intros [= <- <-]; (split_and!; [done..|]).
    + by exists t'.
    + left. by split_and!.
Qed.

Lemma in_session_tick {A} (f : nat -> Db -> Txn -> Result (A * Txn) SqlxError.t) w r w' :
  in_session f w = Some (r, w') -> tick w' = S (tick w).
Proof.
  unfold in_session. destruct (sql_fault _) as [[e b]|]; [by intros [= _ <-]|].
  destruct (txn w); destruct (f _ _ _) as [[]|]; by intros [= _ <-].
Qed.

(** Only [fresh_token] draws entropy. *)
Lemma in_session_draws {A} (f : nat -> Db -> Txn -> Result (A * Txn) SqlxError.t) w r w' :
  in_session f w = Some (r, w') -> draws w' = draws w.
Proof.
  unfold in_session. destruct (sql_fault _) as [[e b]|]; [by intros [= _ <-]|].
  destruct (txn w); destruct (f _ _ _) as [[]|]; by intros [= _ <-].
Qed.
Lemma my_begin_draws b w r w' : begin_statement b w = Some (r, w') -> draws w' = draws w.
Proof. unfold begin_statement. destruct (sql_fault _) as [[]|]; by intros [= _ <-]. Qed.
Lemma begin_tick b w r w' : begin_statement b w = Some (r, w') -> tick w' = S (tick w).
Proof. unfold begin_statement. destruct (sql_fault _) as [[]|]; by intros [= _ <-]. Qed.

(** A statement that succeeds answers what it found in some tables. *)
Lemma in_session_answer {A} (f : nat -> Db -> Txn -> Result (A * Txn) SqlxError.t) w a w' :
  in_session f w = Some (Ok a, w') -> exists n db t t', f n db t = Ok (a, t').
Proof.
  unfold in_session. destruct (sql_fault _) as [[e b]|]; [done|].
  destruct (txn w); destruct (f _ _ _) as [[a' o]|] eqn:E; intros [= <- _]; eauto.
Qed.

(** A statement that writes or locks. *)
Lemma my_statement_open {A} (f : nat -> Db -> Result (A * Own Z) SqlxError.t) w t r w' :
  open_at w t -> statement f w = Some (r, w') ->
  (forall a o, f (tick w) (overlay (own t) (committed w')) = Ok (a, o) ->
     db_wf (overlay (own t) (committed w')) -> db_wf (overlay o (overlay (own t) (committed w')))) ->
  during (own_locks (own t)) (committed w) (committed w') /\
  match r with
  | Ok a => exists o, f (tick w) (overlay (own t) (committed w')) = Ok (a, o) /\
              db_wf (overlay (own t) (committed w')) /\ open_at w' (add_own o t)
  | Err _ => stopped w' t
  end.
Proof.
  intros Ho Hr Hwrite. destruct (in_session_open _ _ _ _ _ Ho Hr) as (Hd & Hw & Hv & Hx).
  split; [done|]. destruct r as [a|e]; [|done]. destruct Hx as (t' & Hf & Ht).
  unfold current in Hf. destruct (f _ _) as [[a' o]|e] eqn:E; [|done]. injection Hf as <- <-.
  exists o. split; [done|]. split; [done|]. destruct Ho as (_ & _ & _ & Hview).
  split_and!; [done..| |done]. simpl. rewrite overlay_app. by eapply Hwrite.
Qed.

(** A read of the tables through the read view. *)
Lemma consistent_open {A} (f : nat -> Db -> A) w t r w' :
  open_at w t -> consistent_read f w = Some (r, w') ->
  during (own_locks (own t)) (committed w) (committed w') /\
  match r with
  | Ok a => exists v, db_wf v /\ a = f (tick w) (overlay (own t) v) /\
      match view t with Some v' => v = v' | None => v = committed w' end /\
      open_at w' (MkTxn (Some v) (own t))
  | Err _ => stopped w' t
  end.
Proof.
  intros Ho Hr. destruct (in_session_open _ _ _ _ _ Ho Hr) as (Hd & Hw & Hv & Hx).
  split; [done|]. destruct r as [a|e]; [|done]. destruct Hx as (t' & Hf & Ht).
  injection Hf as <- <-. destruct Ho as (_ & _ & _ & Hview).
  exists (match view t with Some v => v | None => committed w' end).
  assert (Hwfv : db_wf (match view t with Some v => v | None => committed w' end)).
  { destruct (view t); [by apply Hview|done]. }
  split; [done|]. split; [done|]. split; [by destruct (view t)|].
  split_and!; [done..|]. simpl. by intros ? [= <-].
Qed.

Lemma server_open {A} (f : nat -> A) w t r w' :
  open_at w t -> server_query f w = Some (r, w') ->
  during (own_locks (own t)) (committed w) (committed w') /\
  match r with
  | Ok a => a = f (tick w) /\ open_at w' t
  | Err _ => stopped w' t
  end.
Proof.
  intros Ho Hr. destruct (in_session_open _ _ _ _ _ Ho Hr) as (Hd & Hw & Hv & Hx).
  split; [done|]. destruct r as [a|e]; [|done]. destruct Hx as (t' & Hf & Ht).
  injection Hf as <- <-. destruct Ho as (_ & _ & _ & Hview). by split_and!.
Qed.

(** The transaction after a statement that may have opened its read view. *)
Definition viewed (db : Db) (t t' : Txn) : Prop := t' = t \/ t' = open_view db t.

Lemma catalog_open {A} (f : nat -> Db -> A) w t r w' :
  open_at w t -> catalog_query f w = Some (r, w') ->
  during (own_locks (own t)) (committed w) (committed w') /\
  match r with
  | Ok a => a = f (tick w) (overlay (own t) (committed w')) /\
      exists t', viewed (committed w') t t' /\ open_at w' t'
  | Err _ => stopped w' t
  end.
Proof.
  intros Ho Hr. destruct (in_session_open _ _ _ _ _ Ho Hr) as (Hd & Hw & Hv & Hx).
  split; [done|]. destruct r as [a|e]; [|done]. destruct Hx as (t' & Hf & Ht).
  injection Hf as <- <-. destruct Ho as (_ & _ & _ & Hview). split; [done|].
  eexists. split; [|split_and!; [exact Ht|done| |]].
  - destruct (catalog_opens_view _); [by right|by left].
  - by destruct (catalog_opens_view _).
  - destruct (catalog_opens_view _); [|done]. simpl. intros v [= <-].
    destruct (view t); [by apply Hview|done].
Qed.

Lemma my_begin_closed b w r w' :
  closed w -> begin_statement b w = Some (r, w') ->
  during [] (committed w) (committed w') /\
  match r with
  | Ok _ => open_at w' (MkTxn (if b then Some (committed w') else None) nothing)
  | Err _ => closed w'
  end.
Proof.
  intros Hc. pose proof (my_latest_closed _ Hc) as [Hd Hw]. destruct Hc as [Ht _].
  unfold begin_statement. rewrite Ht.
  destruct (sql_fault (tick w)) as [[]|]; intros [= <- <-]; (split; [done|]); [done|].
  split_and!; [done..|cbn [own committed]; by rewrite overlay_nothing|]. destruct b; [by intros v [= <-]|done].
Qed.

Lemma rollback_open w t r w' :
  open_at w t -> rollback w = Some (r, w') ->
  closed w' /\ during [] (committed w) (committed w').
Proof.
  intros Ho. pose proof (my_latest_open _ _ Ho) as (Hd & Hw & _). intros [= _ <-].
  split; [done|]. by eapply during_nil.
Qed.

Lemma my_rollback_closed w r w' :
  closed w -> rollback w = Some (r, w') -> closed w' /\ during [] (committed w) (committed w').
Proof. intros Hc. pose proof (my_latest_closed _ Hc) as (Hd & Hw). by intros [= _ <-]. Qed.

Lemma rollback_stopped w t r w' :
  stopped w t -> rollback w = Some (r, w') -> closed w' /\ during [] (committed w) (committed w').
Proof. intros [Ho|Hc]; [by eapply rollback_open|by eapply my_rollback_closed]. Qed.

(** Reads outside a transaction. *)
Lemma consistent_closed {A} (f : nat -> Db -> A) w r w' :
  closed w -> consistent_read f w = Some (r, w') ->
  closed w' /\ during [] (committed w) (committed w') /\
  match r with Ok a => a = f (tick w) (committed w') | Err _ => True end.
Proof.
  intros Hc. pose proof (my_latest_closed _ Hc) as [Hd Hw]. destruct Hc as [Ht _].
  unfold consistent_read, in_session. rewrite Ht. unfold read_view, open_view. cbn [own view].
  rewrite !overlay_nothing.
  destruct (sql_fault (tick w)) as [[e []]|]; intros [= <- <-]; by split_and!.
Qed.

Lemma server_closed {A} (f : nat -> A) w r w' :
  closed w -> server_query f w = Some (r, w') ->
  closed w' /\ during [] (committed w) (committed w').
Proof.
  intros Hc. pose proof (my_latest_closed _ Hc) as [Hd Hw]. destruct Hc as [Ht _].
  unfold server_query, in_session. rewrite Ht. cbn [own]. rewrite overlay_nothing.
  destruct (sql_fault (tick w)) as [[e []]|]; intros [= <- <-]; by split_and!.
Qed.

Lemma commit_closed w r w' :
  closed w -> commit w = Some (r, w') -> closed w' /\ during [] (committed w) (committed w').
Proof.
  intros Hc. pose proof (my_latest_closed _ Hc) as [Hd Hw]. destruct Hc as [Ht _].
  unfold commit. rewrite Ht. destruct (commit_fault (tick w)) as [[e []]|]; by intros [= <- <-].
Qed.

Lemma my_commit_open w t r w' :
  open_at w t -> commit w = Some (r, w') ->
  closed w' /\ exists db, during (own_locks (own t)) (committed w) db /\ db_wf db /\
    db_wf (overlay (own t) db) /\
    match r with
    | Ok _ => committed w' = overlay (own t) db
    | Err _ => committed w' = overlay (own t) db \/ committed w' = db
    end.
Proof.
  intros Ho. pose proof (my_latest_open _ _ Ho) as (Hd & Hw & Hv).
  destruct Ho as (Ht & _). unfold commit. rewrite Ht.
  destruct (commit_fault (tick w)) as [[e []]|]; intros [= <- <-];
    (split; [done|]); exists (latest w); auto.
Qed.
End Runs.

Section Returns.
Context `{MyEnv}.

Lemma in_session_returns {A} (f : nat -> Db -> Txn -> Result (A * Txn) SqlxError.t) :
  returns (in_session f).
Proof.
  intros w. unfold in_session. destruct (sql_fault _) as [[]|]; [by eexists|].
  destruct (txn w); destruct (f _ _ _) as [[]|]; by eexists.
Qed.
Lemma my_statement_returns {A} (f : nat -> Db -> Result (A * Own Z) SqlxError.t) :
  returns (statement f).
Proof. apply in_session_returns. Qed.
Lemma consistent_read_returns {A} (f : nat -> Db -> A) : returns (consistent_read f).
Proof. apply in_session_returns. Qed.
Lemma server_query_returns {A} (f : nat -> A) : returns (server_query f).
Proof. apply in_session_returns. Qed.
Lemma catalog_query_returns {A} (f : nat -> Db -> A) : returns (catalog_query f).
Proof. apply in_session_returns. Qed.
Lemma my_begin_returns b : returns (begin_statement b).
Proof. intros w. unfold begin_statement. destruct (sql_fault _) as [[]|]; by eexists. Qed.
Lemma my_rollback_returns : returns rollback.
Proof. intros w. by eexists. Qed.
Lemma my_commit_returns : returns commit.
Proof. intros w. unfold commit. destruct (commit_fault _) as [[]|]; by eexists. Qed.

(** The other statements are made of [in_session]. *)
Lemma my_statement_tick {A} (f : nat -> Db -> Result (A * Own Z) SqlxError.t) w r w' :
  statement f w = Some (r, w') -> tick w' = S (tick w).
Proof. apply in_session_tick. Qed.
Lemma consistent_tick {A} (f : nat -> Db -> A) w r w' :
  consistent_read f w = Some (r, w') -> tick w' = S (tick w).
Proof. apply in_session_tick. Qed.
Lemma server_value {A} (f : nat -> A) w a w' : server_query f w = Some (Ok a, w') -> a = f (tick w).
Proof.
  unfold server_query, in_session. destruct (sql_fault _) as [[]|]; [done|].
  destruct (txn w); by intros [= <- _].
Qed.
Lemma server_tick {A} (f : nat -> A) w r w' : server_query f w = Some (r, w') -> tick w' = S (tick w).
Proof. apply in_session_tick. Qed.

(** ** Errors of the engine *)

Lemma duplicate_entry_identity {EL : MyErrorLaws} n :
  is_tenant_source_event_id_duplicate (duplicate_entry n TENANT_SOURCE_EVENT_ID_KEY) = true.
Proof. apply (duplicate_of_key _ _ _ key_table); [..|apply key_table_plain|done]; done. Qed.

Lemma duplicate_entry_primary {EL : MyErrorLaws} n :
  is_tenant_source_event_id_duplicate (duplicate_entry n "PRIMARY") = false.
Proof.
  apply not_true_iff_false. intros Hd.
  by apply (duplicate_of_key _ _ _ key_table) in Hd as (_ & _ & Hd); [..|apply key_table_plain].
Qed.
End Returns.

#[export] Hint Resolve my_statement_returns consistent_read_returns server_query_returns
  catalog_query_returns my_begin_returns my_rollback_returns my_commit_returns : dovecote.
