(* ===== verification/MyInsert.v ===== *)
(** * Insertion in MySQL (migrations/0002_dovecote_tenant_baseline.sql, crates/dovecote-sqlx-mysql/src/enqueue.rs)

    The INSERT statements on the two tables: CHECKs, keys in the order InnoDB
    checks them, and the foreign key. The identity of an event is unique through
    the generated column [identity_key], whose encoding is injective. *)

From S2P Require Import Prelude Text Errors Values Event State Tables Queries RowHydration External Overlay Others Instants MyError My.

(** ** identity_key *)

Fixpoint zeros (n : nat) : string := match n with O => EmptyString | S n => String "0" (zeros n) end.

(** [LPAD(value, width, '0')] *)
Definition lpad (width : nat) (value : string) : string :=
  if (width <=? String.length value)%nat then String.substring 0 width value
  else zeros (width - String.length value) +:+ value.

(** [CONCAT(LPAD(OCTET_LENGTH(tenant_id), 3, '0'), tenant_id,
    LPAD(OCTET_LENGTH(source), 4, '0'), source, event_id)] *)
Definition identity_key (tenant_id source event_id : string) : string :=
  lpad 3 (pretty (len tenant_id)) +:+ tenant_id
  +:+ lpad 4 (pretty (len source)) +:+ source +:+ event_id.

Definition row_identity_key (r : Events.row_of Z) : string :=
  identity_key (Events.tenant_id r) (Events.source r) (Events.event_id r).

(** ** The statements *)

(** [INSERT INTO dovecote_events ...]: the CHECKs, the primary key, then the
    identity key. The lock on the new row keeps other connections from inserting a
    delivery that refers to it. *)
Definition insert_event_sql `{MyEnv} (tenant : string) (columns : EventRow.t_of Z) (enqueued_at : Z)
    (n : nat) (db : Db) : Result (unit * Own Z) SqlxError.t :=
  let r := new_event_row (auto_increment n db) tenant columns enqueued_at in
  if negb (Events.check r) then Err (violation CheckViolated)
  else if existsb (fun e => Events.row_id e =? Events.row_id r) (events db)
  then Err (duplicate_entry n "PRIMARY")
  else if existsb (fun e => bool_decide (row_identity_key e = row_identity_key r)) (events db)
  then Err (duplicate_entry n TENANT_SOURCE_EVENT_ID_KEY)
  else Ok (tt, MkOwn [r] [] [Events.row_id r]).

(** [INSERT INTO dovecote_deliveries ...]: the CHECKs, the primary key and the
    foreign key *)
Definition insert_delivery_sql `{MyEnv} (r : Deliveries.row_of Z) (n : nat) (db : Db) :
    Result (unit * Own Z) SqlxError.t :=
  if negb (Deliveries.check r) then Err (violation CheckViolated)
  else if existsb (fun d => Deliveries.event_row_id d =? Deliveries.event_row_id r) (deliveries db)
  then Err (duplicate_entry n "PRIMARY")
  else if negb (existsb (join_condition r) (events db)) then Err (violation ForeignKeyViolated)
  else Ok (tt, MkOwn [] [r] []).

(** ** The key determines the identity *)

Section IdentityKey.

Lemma str_app_inj a b s t :
  String.length a = String.length b -> a +:+ s = b +:+ t -> a = b /\ s = t.
Proof.
  revert b. induction a as [|c a IH]; intros [|d b]; simpl; try done.
  intros [= Hl] He. rewrite !str_app_cons in He. injection He as -> He.
  destruct (IH b Hl He) as [-> ->]. done.
Qed.

Lemma pretty_N_go_length w x s :
  (x < 10 ^ N.of_nat w)%N -> (String.length (pretty_N_go x s) <= w + String.length s)%nat.
Proof.
  revert x s. induction w as [|w IH]; intros x s Hx.
  - assert (x = 0%N) as -> by (simpl in Hx; lia). by rewrite pretty_N_go_0.
  - destruct (decide (x = 0%N)) as [->|Hn]; [rewrite pretty_N_go_0; lia|].
    rewrite pretty_N_go_step by lia. rewrite Nat2N.inj_succ, N.pow_succ_r' in Hx.
    assert (Hd : (x `div` 10 < 10 ^ N.of_nat w)%N) by (apply N.Div0.div_lt_upper_bound; lia).
    specialize (IH _ (String (pretty_N_char (x `mod` 10)) s) Hd). simpl in IH. lia.
Qed.

Lemma pretty_length w z :
  (0 < w)%nat -> 0 <= z < 10 ^ Z.of_nat w -> (String.length (pretty z) <= w)%nat.
Proof.
  intros Hw Hz. destruct z as [|p|p]; [simpl; lia| |lia].
  change (pretty (Z.pos p)) with (pretty (N.pos p)). unfold pretty, pretty_N.
  rewrite decide_False by done.
  assert (Hx : (N.pos p < 10 ^ N.of_nat w)%N).
  { apply N2Z.inj_lt. rewrite N2Z.inj_pow, nat_N_Z. simpl. lia. }
  pose proof (pretty_N_go_length w (N.pos p) "" Hx) as Hl. simpl in Hl. lia.
Qed.

Lemma my_digits_value_zeros n s : digits_value 0 (zeros n +:+ s) = digits_value 0 s.
Proof. induction n as [|n IH]; [by rewrite str_app_nil_l|]. cbn [zeros]. rewrite str_app_cons. simpl. apply IH. Qed.

Lemma zeros_length n : String.length (zeros n) = n.
Proof. induction n as [|n IH]; simpl; [done|by rewrite IH]. Qed.

Lemma substring_whole s : String.substring 0 (String.length s) s = s.
Proof. induction s as [|a s IH]; simpl; [done|by rewrite IH]. Qed.

(** A number that fits the width is padded to it, and read back. *)
Lemma lpad_number w z :
  (0 < w)%nat -> 0 <= z < 10 ^ Z.of_nat w ->
  String.length (lpad w (pretty z)) = w /\ digits_value 0 (lpad w (pretty z)) = z.
Proof.
  intros Hw Hz. pose proof (pretty_length w z Hw Hz) as Hl.
  destruct (pretty_digits z) as [_ Hv]; [lia|]. unfold lpad.
  destruct (Nat.leb_spec w (String.length (pretty z))) as [Hle|Hlt].
  - assert (w = String.length (pretty z)) as -> by lia. by rewrite substring_whole.
  - rewrite my_digits_value_zeros. split; [|done].
    rewrite str_length_app, zeros_length. lia.
Qed.

Lemma same_len a b : len a = len b -> String.length a = String.length b.
Proof. unfold len. lia. Qed.

Lemma identity_key_inj tenant source id tenant' source' id' :
  len tenant <= 255 -> len tenant' <= 255 -> len source <= 2048 -> len source' <= 2048 ->
  identity_key tenant source id = identity_key tenant' source' id' ->
  (tenant, source, id) = (tenant', source', id').
Proof.
  intros Ht Ht' Hs Hs' He. unfold identity_key in He.
  pose proof (len_nonneg tenant). pose proof (len_nonneg tenant').
  pose proof (len_nonneg source). pose proof (len_nonneg source').
  destruct (lpad_number 3 (len tenant)) as [L1 V1]; [lia|simpl; lia|].
  destruct (lpad_number 3 (len tenant')) as [L1' V1']; [lia|simpl; lia|].
  destruct (lpad_number 4 (len source)) as [L2 V2]; [lia|simpl; lia|].
  destruct (lpad_number 4 (len source')) as [L2' V2']; [lia|simpl; lia|].
  apply str_app_inj in He as [Hp He]; [|congruence]. rewrite Hp in V1.
  apply str_app_inj in He as [-> He]; [|apply same_len; congruence].
  apply str_app_inj in He as [Hp2 He]; [|congruence]. rewrite Hp2 in V2.
  apply str_app_inj in He as [-> ->]; [done|]. apply same_len. congruence.
Qed.
(** C37: the generated identity key of MySQL's events table determines the identity
    it encodes: within the length limits of the CHECKs, two rows have the same key
    only if tenant, source and event id are all the same, whatever bytes they
    hold. A unique key on it therefore admits each identity once. *)
Theorem identity_key_injective tenant source id tenant' source' id' :
  len tenant <= 255 -> len tenant' <= 255 -> len source <= 2048 -> len source' <= 2048 ->
  identity_key tenant source id = identity_key tenant' source' id' ->
  (tenant, source, id) = (tenant', source', id').
Proof. apply identity_key_inj. Qed.
End IdentityKey.

(** ** What the statements do *)

Section Inserts.
Context `{MyEnv}.

(** The lengths the CHECKs allow. *)
Lemma check_identity_lengths (r : Events.row_of Z) :
  Events.check r = true -> len (Events.tenant_id r) <= 255 /\ len (Events.source r) <= 2048.
Proof. unfold Events.check, Events.max_len. intros Hc. bools. lia. Qed.

Lemma row_identity_key_inj (a b : Events.row_of Z) :
  Events.check a = true -> Events.check b = true ->
  row_identity_key a = row_identity_key b <-> event_identity a = event_identity b.
Proof.
  intros [Ha Ha']%check_identity_lengths [Hb Hb']%check_identity_lengths. split.
  - by apply identity_key_inj.
  - unfold row_identity_key, event_identity. by intros [= -> -> ->].
Qed.

Lemma my_insert_event_Ok tenant columns enqueued_at n (db : Db) o :
  db_wf db -> insert_event_sql tenant columns enqueued_at n db = Ok (tt, o) ->
  let r := new_event_row (auto_increment n db) tenant columns enqueued_at in
  0 < Events.row_id r /\ Events.check r = true /\ o = MkOwn [r] [] [Events.row_id r] /\
  Events.row_id r ∉ event_keys db /\ event_identity r ∉ map event_identity (events db).
Proof.
  intros Hwf. unfold insert_event_sql. cbv zeta. set (r := new_event_row _ _ _ _).
  destruct (Events.check r) eqn:Ec; cbn [negb]; [|done].
  case_match eqn:Ek; [done|]. case_match eqn:Ei; [done|]. intros [= <-].
  split; [unfold Events.check in Ec; by bools|]. do 2 (split; [done|]). split.
  - intros Hin. apply list_elem_of_fmap in Hin as (e & He & Hin). apply not_true_iff_false in Ek.
    apply Ek, existsb_exists. exists e. rewrite <- list_elem_of_In. split; [done|]. lia.
  - intros Hin. apply list_elem_of_fmap in Hin as (e & He & Hin). apply not_true_iff_false in Ei.
    apply Ei, existsb_exists. exists e. rewrite <- list_elem_of_In. split; [done|].
    apply bool_decide_eq_true, row_identity_key_inj; [|done..].
    destruct Hwf as (_ & _ & Hck & _). rewrite Forall_forall in Hck. by apply Hck.
Qed.

(** A duplicate of the identity key is reported only of a stored identity. *)
Lemma my_insert_event_duplicate {EL : MyErrorLaws} tenant columns enqueued_at n (db : Db) source :
  db_wf db -> insert_event_sql tenant columns enqueued_at n db = Err source ->
  is_tenant_source_event_id_duplicate source = true ->
  exists e, e ∈ events db /\
    event_identity e = (tenant, EventRow.source columns, EventRow.event_id columns).
Proof.
  intros Hwf. unfold insert_event_sql. cbv zeta. set (r := new_event_row _ _ _ _).
  destruct (Events.check r) eqn:Ec; cbn [negb].
  2: { intros [= <-] Hd. by rewrite violation_not_duplicate in Hd. }
  case_match.
  { intros [= <-] Hd. by rewrite duplicate_entry_primary in Hd. }
  case_match eqn:Ei; [|done]. intros _ _. apply existsb_exists in Ei as (e & Hin & He).
  rewrite <- list_elem_of_In in Hin. apply bool_decide_eq_true in He. exists e. split; [done|].
  apply row_identity_key_inj in He; [done| |done].
  destruct Hwf as (_ & _ & Hck & _). rewrite Forall_forall in Hck. by apply Hck.
Qed.

Lemma my_insert_event_wf tenant columns enqueued_at n (db : Db) o :
  insert_event_sql tenant columns enqueued_at n db = Ok (tt, o) -> db_wf db -> db_wf (overlay o db).
Proof.
  intros Hi Hwf. apply my_insert_event_Ok in Hi; [|done]. destruct Hi as (_ & Hc & -> & Hk & Hid).
  rewrite overlay_event by done. by apply with_event_wf.
Qed.

Lemma my_insert_delivery_Ok r n (db : Db) o :
  insert_delivery_sql r n db = Ok (tt, o) ->
  o = MkOwn [] [r] [] /\ Deliveries.check r = true /\ Deliveries.event_row_id r ∉ delivery_keys db /\
  exists e, e ∈ events db /\ join_condition r e = true.
Proof.
  unfold insert_delivery_sql. destruct (Deliveries.check r) eqn:Ec; cbn [negb]; [|done].
  case_match eqn:Ek; [done|].
  destruct (existsb (join_condition r) _) eqn:Ej; cbn [negb]; [|done]. intros [= <-].
  do 2 (split; [done|]). split.
  - intros Hin. apply list_elem_of_fmap in Hin as (d & He & Hin). apply not_true_iff_false in Ek.
    apply Ek, existsb_exists. exists d. rewrite <- list_elem_of_In. split; [done|]. lia.
  - apply existsb_exists in Ej as (e & Hin & He). exists e. by rewrite list_elem_of_In.
Qed.

Lemma my_insert_delivery_wf r n (db : Db) o :
  insert_delivery_sql r n db = Ok (tt, o) -> db_wf db -> db_wf (overlay o db).
Proof.
  intros Hi Hwf. apply my_insert_delivery_Ok in Hi as (-> & Hc & Hk & e & He & Hj).
  rewrite overlay_delivery by done. apply join_condition_spec in Hj as [Ht Hi].
  by eapply with_delivery_wf.
Qed.
End Inserts.
