(* ===== verification/MyBackend.v ===== *)
(** * Server identification of the MySQL adapter (crates/dovecote-sqlx-mysql/src/backend.rs)

    What a connection reports of its server and session, the servers and sessions
    the adapter accepts, and the parsing of release numbers. *)

From S2P Require Import Prelude Step Utf8 Text RowHydration Tables Overlay Others Instants External MyError My.

Module BackendKind.
Inductive t : Type := MySql | MariaDb.

#[global] Instance eq_dec : EqDecision t.
Proof. solve_decision. Defined.

(** [{:?}] *)
Definition debug (self : t) : string :=
  match self with MySql => "MySql" | MariaDb => "MariaDb" end.
End BackendKind.

Module ServerVersion.
Record t : Type := new { major : Z; minor : Z; patch : Z }.

#[global] Instance eq_dec : EqDecision t.
Proof. solve_decision. Defined.
End ServerVersion.

Module Capabilities.
Record t : Type := Make {
  skip_locked : bool;
  enforced_checks : bool;
  repeatable_read_snapshot : bool;
}.
End Capabilities.

Module BackendInfo.
Record t : Type := Make {
  kind : BackendKind.t;
  version : ServerVersion.t;
  capabilities : Capabilities.t;
  transaction_isolation : string;
}.
End BackendInfo.

Module ServerProbe.
Record t : Type := Make {
  version : string;
  version_comment : string;
  time_zone : string;
  transaction_isolation : string;
  sql_mode : string;
  character_set_client : string;
  character_set_connection : string;
  character_set_results : string;
  collation_connection : string;
}.
End ServerProbe.

(** ** Releases *)

Definition is_version_byte (a : ascii) : bool := is_ascii_digit a || Ascii.eqb a ".".

(** [value.split(...).find(|part| !part.is_empty())?]: the first run of digits and
    dots *)
Definition first_numeric (value : string) : option string :=
  let part := take_while is_version_byte
                (trim_start_matches (fun a => negb (is_version_byte a)) value) in
  if is_empty part then None else Some part.

Definition parse_server_version (value : string) : option ServerVersion.t :=
  match first_numeric value with
  | None => None
  | Some numeric =>
      match map parse_u32 (split "." numeric) with
      | Some major :: Some minor :: [] => Some (ServerVersion.new major minor 0)
      | Some major :: Some minor :: Some patch :: _ => Some (ServerVersion.new major minor patch)
      | _ => None
      end
  end.

Definition supported (kind : BackendKind.t) (version : ServerVersion.t) : bool :=
  let major := ServerVersion.major version in
  let minor := ServerVersion.minor version in
  match kind with
  | BackendKind.MySql => (8 <? major) || ((major =? 8) && (4 <=? minor))
  | BackendKind.MariaDb => (11 <? major) || ((major =? 11) && (8 <=? minor))
  end.

Definition capabilities (kind : BackendKind.t) (version : ServerVersion.t) : Capabilities.t :=
  let major := ServerVersion.major version in
  let minor := ServerVersion.minor version in
  let skip_locked :=
    match kind with
    | BackendKind.MySql => 8 <=? major
    | BackendKind.MariaDb => (10 <? major) || ((major =? 10) && (6 <=? minor))
    end in
  let enforced_checks :=
    match kind with
    | BackendKind.MySql => 8 <=? major
    | BackendKind.MariaDb => (10 <? major) || ((major =? 10) && (2 <=? minor))
    end in
  Capabilities.Make skip_locked enforced_checks true.

(** ** Detection *)

(** The session a connection was given, per statement. *)
Class MyServer := { server_probe : nat -> ServerProbe.t }.

Definition mismatch {A} (detail : string) : Result A SchemaError.t :=
  Err (SchemaError.BackendMismatch detail).

Section Detect.
Context `{RustDebug}.

(** The server family by its version text and comment. *)
Definition identify (probe : ServerProbe.t) : Result BackendKind.t SchemaError.t :=
  let version_lower := to_ascii_lowercase (ServerProbe.version probe) in
  let comment_lower := to_ascii_lowercase (ServerProbe.version_comment probe) in
  if contains "mariadb" version_lower || contains "mariadb" comment_lower
  then Ok BackendKind.MariaDb
  else if contains "mysql" comment_lower && negb (contains "percona" comment_lower)
          && negb (contains "tidb" comment_lower) && negb (contains "vitess" comment_lower)
  then Ok BackendKind.MySql
  else mismatch ("server is not an identified Oracle MySQL or MariaDB build: "
                 +:+ debug_str (ServerProbe.version_comment probe)).

Definition is_strict (mode : string) : bool :=
  eq_ignore_ascii_case mode "STRICT_TRANS_TABLES" || eq_ignore_ascii_case mode "STRICT_ALL_TABLES".

(** The loop over the character set variables. *)
Fixpoint check_charsets (vars : list (string * string)) : Result unit SchemaError.t :=
  match vars with
  | [] => Ok tt
  | (name, value) :: vars =>
      if negb (eq_ignore_ascii_case value "utf8mb4")
      then mismatch (name +:+ " must be utf8mb4, got " +:+ debug_str value)
      else check_charsets vars
  end.

(** [detect_on_connection] after its query *)
Definition inspect (probe : ServerProbe.t) : Result BackendInfo.t SchemaError.t :=
  let? kind := identify probe in
  let? version := ok_or (parse_server_version (ServerProbe.version probe))
                    (SchemaError.BackendMismatch
                       ("cannot parse " +:+ BackendKind.debug kind +:+ " server version "
                        +:+ debug_str (ServerProbe.version probe))) in
  if negb (supported kind version)
  then mismatch ("unsupported " +:+ BackendKind.debug kind +:+ " server release "
                 +:+ pretty (ServerVersion.major version) +:+ "."
                 +:+ pretty (ServerVersion.minor version) +:+ "."
                 +:+ pretty (ServerVersion.patch version))
  else
  let zone := to_ascii_uppercase (trim (ServerProbe.time_zone probe)) in
  if negb (bool_decide (zone = "+00:00") || bool_decide (zone = "UTC"))
  then mismatch ("session time_zone must be UTC, got " +:+ debug_str (ServerProbe.time_zone probe))
  else
  let capabilities := capabilities kind version in
  if negb (Capabilities.skip_locked capabilities)
     || negb (Capabilities.enforced_checks capabilities)
  then mismatch "server lacks required SKIP LOCKED or enforced CHECK support"
  else
  let modes := split "," (ServerProbe.sql_mode probe) in
  if negb (existsb is_strict modes)
  then mismatch ("strict SQL mode is required, got " +:+ debug_str (ServerProbe.sql_mode probe))
  else if existsb (fun mode => eq_ignore_ascii_case mode "NO_AUTO_VALUE_ON_ZERO") modes
  then mismatch "NO_AUTO_VALUE_ON_ZERO is incompatible with positive AUTO_INCREMENT row IDs"
  else if negb (eq_ignore_ascii_case (ServerProbe.transaction_isolation probe) "REPEATABLE-READ")
  then mismatch ("transaction isolation must be REPEATABLE-READ, got "
                 +:+ debug_str (ServerProbe.transaction_isolation probe))
  else
  let? _ := check_charsets
              [("character_set_client", ServerProbe.character_set_client probe);
               ("character_set_connection", ServerProbe.character_set_connection probe);
               ("character_set_results", ServerProbe.character_set_results probe)] in
  if negb (String.prefix "utf8mb4_" (to_ascii_lowercase (ServerProbe.collation_connection probe)))
  then mismatch ("connection collation must be utf8mb4, got "
                 +:+ debug_str (ServerProbe.collation_connection probe))
  else Ok (BackendInfo.Make kind version capabilities (ServerProbe.transaction_isolation probe)).

Context `{MyEnv, MyServer}.

Definition detect_on_connection : M (Result BackendInfo.t SchemaError.t) :=
  try* probe := server_query server_probe else SchemaError.sql "detect MySQL/MariaDB backend" in
  ret (inspect probe).

(** A connection of the pool. *)
Definition acquire : M (Result unit SqlxError.t) := server_query (fun _ => tt).

Definition detect : M (Result BackendInfo.t SchemaError.t) :=
  try* _ := acquire else SchemaError.sql "acquire backend detection connection" in
  detect_on_connection.
End Detect.

(** ** What is accepted *)

(** Releases in their order. *)
Definition at_least (major minor : Z) (version : ServerVersion.t) : Prop :=
  major < ServerVersion.major version \/
  ServerVersion.major version = major /\ minor <= ServerVersion.minor version.

(** The first supported release of a family. *)
Definition recent (kind : BackendKind.t) (version : ServerVersion.t) : Prop :=
  match kind with
  | BackendKind.MySql => at_least 8 4 version
  | BackendKind.MariaDb => at_least 11 8 version
  end.

(** A release as a server writes it: three numbers and the rest of its name. *)
Definition version_text (version : ServerVersion.t) (rest : string) : string :=
  pretty (ServerVersion.major version) +:+ String "."
    (pretty (ServerVersion.minor version) +:+ String "."
       (pretty (ServerVersion.patch version) +:+ rest)).

(** A session whose texts and instants mean what the adapter takes them for. *)
Record suitable_session (probe : ServerProbe.t) : Prop := {
  s_zone : to_ascii_uppercase (trim (ServerProbe.time_zone probe)) = "+00:00" \/
           to_ascii_uppercase (trim (ServerProbe.time_zone probe)) = "UTC";
  s_strict : exists mode, mode ∈ split "," (ServerProbe.sql_mode probe) /\ is_strict mode = true;
  s_auto_value : forall mode, mode ∈ split "," (ServerProbe.sql_mode probe) ->
    eq_ignore_ascii_case mode "NO_AUTO_VALUE_ON_ZERO" = false;
  s_isolation :
    eq_ignore_ascii_case (ServerProbe.transaction_isolation probe) "REPEATABLE-READ" = true;
  s_charsets : Forall (fun charset => eq_ignore_ascii_case charset "utf8mb4" = true)
    [ServerProbe.character_set_client probe; ServerProbe.character_set_connection probe;
     ServerProbe.character_set_results probe];
  s_collation :
    String.prefix "utf8mb4_" (to_ascii_lowercase (ServerProbe.collation_connection probe)) = true;
}.

Section Accepted.
Context `{RustDebug}.

Lemma supported_recent kind version : supported kind version = true <-> recent kind version.
Proof.
  destruct kind; simpl; unfold at_least;
    rewrite orb_true_iff, andb_true_iff, Z.ltb_lt, Z.leb_le, Z.eqb_eq; done.
Qed.

(** A supported release has every capability. *)
Lemma supported_capable kind version :
  supported kind version = true -> capabilities kind version = Capabilities.Make true true true.
Proof.
  intros Hs%supported_recent. unfold capabilities, recent, at_least in *. destruct kind; f_equal; lia.
Qed.

Lemma existsb_split_false (p : string -> bool) l :
  existsb p l = false <-> forall x, x ∈ l -> p x = false.
Proof.
  rewrite <- not_true_iff_false, existsb_exists. split.
  - intros Hn x Hx. apply not_true_iff_false. intros Hp. apply Hn. exists x. by rewrite <- list_elem_of_In.
  - intros Hall (x & Hx & Hp). rewrite Hall in Hp; [done|]. by apply list_elem_of_In.
Qed.

Lemma check_charsets_Ok vars :
  check_charsets vars = Ok tt <-> Forall (fun v => eq_ignore_ascii_case v.2 "utf8mb4" = true) vars.
Proof.
  induction vars as [|[name value] vars IH]; simpl; [by split|]. rewrite Forall_cons. simpl.
  destruct (eq_ignore_ascii_case value "utf8mb4"); simpl; [by rewrite IH; intuition|].
  by split; [|intros [? _]].
Qed.

Lemma check_charsets_Err vars e :
  check_charsets vars = Err e -> exists detail, e = SchemaError.BackendMismatch detail.
Proof.
  induction vars as [|[name value] vars IH]; simpl; [done|].
  destruct (negb _); [|done]. intros [= <-]. by eexists.
Qed.

Lemma identify_Err probe e : identify probe = Err e -> exists detail, e = SchemaError.BackendMismatch detail.
Proof. unfold identify, mismatch. repeat case_match; intros [= <-]; eauto. Qed.

(** A refusal is always a [BackendMismatch]. *)
Lemma inspect_Err probe e : inspect probe = Err e -> exists detail, e = SchemaError.BackendMismatch detail.
Proof.
  unfold inspect, mismatch. destruct (identify probe) as [kind|] eqn:Ei.
  2: { intros [= <-]. by eapply identify_Err. }
  destruct (parse_server_version _) as [version|]; cbn [ok_or]; [|intros [= <-]; eauto].
  do 6 (match goal with |- (if ?b then _ else _) = _ -> _ => destruct b; [intros [= <-]; eauto|] end).
  destruct (check_charsets _) as [[]|e'] eqn:Ec; [|intros [= <-]; by eapply check_charsets_Err].
  match goal with |- (if ?b then _ else _) = _ -> _ => destruct b; [intros [= <-]; eauto|done] end.
Qed.

Lemma inspect_Ok probe info :
  inspect probe = Ok info <->
  exists kind version, identify probe = Ok kind /\
    parse_server_version (ServerProbe.version probe) = Some version /\
    recent kind version /\ suitable_session probe /\
    info = BackendInfo.Make kind version (Capabilities.Make true true true)
             (ServerProbe.transaction_isolation probe).
Proof.
  unfold inspect, mismatch. split.
  - destruct (identify probe) as [kind|] eqn:Ei; [|done].
    destruct (parse_server_version _) as [version|] eqn:Ev; [|done]. simpl ok_or. cbv iota beta.
    destruct (supported kind version) eqn:Es; [|done]. cbn [negb].
    destruct (bool_decide _ || bool_decide _) eqn:Ez; [|done]. cbn [negb].
    rewrite (supported_capable _ _ Es). cbn [Capabilities.skip_locked Capabilities.enforced_checks negb orb].
    destruct (existsb is_strict _) eqn:Em; [|done]. cbn [negb].
    destruct (existsb (fun mode => _) _) eqn:En; [done|].
    destruct (eq_ignore_ascii_case _ "REPEATABLE-READ") eqn:Et; [|done]. cbn [negb].
    destruct (check_charsets _) as [[]|] eqn:Ec; [|done].
    destruct (String.prefix _ _) eqn:Ep; [|done]. intros [= <-].
    exists kind, version. split_and!; [done|done|by apply supported_recent| |done].
    apply check_charsets_Ok in Ec. split; try done.
    + apply orb_true_iff in Ez. by rewrite !bool_decide_eq_true in Ez.
    + apply existsb_exists in Em as (mode & Hin & Hm). exists mode. by rewrite list_elem_of_In.
    + by apply existsb_split_false.
    + repeat (apply Forall_cons in Ec as [? Ec]). by repeat constructor.
  - intros (kind & version & -> & -> & Hr & [Hz Hm Hn Ht Hc Hp] & ->).
    apply supported_recent in Hr. simpl ok_or. cbv iota beta. rewrite Hr. cbn [negb].
    assert (bool_decide (to_ascii_uppercase (trim (ServerProbe.time_zone probe)) = "+00:00")
            || bool_decide (to_ascii_uppercase (trim (ServerProbe.time_zone probe)) = "UTC") = true) as ->.
    { apply orb_true_iff. by rewrite !bool_decide_eq_true. }
    cbn [negb]. rewrite (supported_capable _ _ Hr). cbn [Capabilities.skip_locked Capabilities.enforced_checks negb orb].
    assert (existsb is_strict (split "," (ServerProbe.sql_mode probe)) = true) as ->.
    { apply existsb_exists. destruct Hm as (mode & Hin & Hm). exists mode. by rewrite <- list_elem_of_In. }
    cbn [negb]. rewrite (proj2 (existsb_split_false _ _) Hn), Ht. cbn [negb].
    rewrite (proj2 (check_charsets_Ok _)); [by rewrite Hp|].
    repeat (apply Forall_cons in Hc as [? Hc]). by repeat constructor.
Qed.

(** A connection is accepted exactly when its server names itself MariaDB, or
    MySQL and none of its forks, the release parses and is at least 11.8 or 8.4 in
    the order of releases, and the session is suitable: UTC, a strict SQL mode
    without NO_AUTO_VALUE_ON_ZERO, REPEATABLE READ and utf8mb4 throughout. Then
    every capability is present, so the capability checks of detection and of
    each operation never refuse an accepted server; a refusal is always a
    BackendMismatch. *)
Theorem backend_acceptance probe :
  (forall info, inspect probe = Ok info <->
    exists kind version, identify probe = Ok kind /\
      parse_server_version (ServerProbe.version probe) = Some version /\
      recent kind version /\ suitable_session probe /\
      info = BackendInfo.Make kind version (Capabilities.Make true true true)
               (ServerProbe.transaction_isolation probe)) /\
  (forall e, inspect probe = Err e -> exists detail, e = SchemaError.BackendMismatch detail).
Proof. split; [apply inspect_Ok|apply inspect_Err]. Qed.
End Accepted.

(** ** Release texts *)

Definition starts_plain (rest : string) : bool :=
  match rest with String a _ => negb (is_version_byte a) | EmptyString => true end.

Lemma digits_version_bytes s : all_bytes is_ascii_digit s = true -> all_bytes is_version_byte s = true.
Proof. apply all_bytes_impl. intros a Ha. unfold is_version_byte. by rewrite Ha. Qed.

Lemma take_while_plain rest : starts_plain rest = true -> take_while is_version_byte rest = EmptyString.
Proof. destruct rest as [|a rest]; simpl; [done|]. by destruct (is_version_byte a). Qed.

Definition is_u32 (z : Z) : Prop := 0 <= z <= u32_max.

(** The release a server writes, [major.minor.patch] followed by whatever else
    it calls itself, is read back as those three numbers. *)
Theorem server_version_roundtrip version rest :
  is_u32 (ServerVersion.major version) -> is_u32 (ServerVersion.minor version) ->
  is_u32 (ServerVersion.patch version) -> starts_plain rest = true ->
  parse_server_version (version_text version rest) = Some version.
Proof.
  destruct version as [major minor patch]. unfold version_text. simpl. intros Hma Hmi Hpa Hrest.
  destruct (pretty_digits major) as [Da _]; [apply Hma|].
  destruct (pretty_digits minor) as [Di _]; [apply Hmi|].
  destruct (pretty_digits patch) as [Dp _]; [apply Hpa|].
  pose proof (pretty_not_empty major (proj1 Hma)) as Hne.
  assert (Hfirst : first_numeric (pretty major +:+ String "." (pretty minor +:+ String "." (pretty patch +:+ rest)))
            = Some (pretty major +:+ String "." (pretty minor +:+ String "." (pretty patch)))).
  { unfold first_numeric.
    assert (Ht : forall t, trim_start_matches (fun a => negb (is_version_byte a)) (pretty major +:+ t)
                           = pretty major +:+ t).
    { intros t. apply digits_version_bytes in Da. destruct (pretty major) as [|a s]; [done|].
      rewrite str_app_cons. simpl in *. by destruct (is_version_byte a). }
    rewrite Ht, take_while_app by by apply digits_version_bytes. cbn [take_while].
    change (is_version_byte ".") with true. cbv iota.
    rewrite take_while_app by by apply digits_version_bytes. cbn [take_while].
    change (is_version_byte ".") with true. cbv iota.
    rewrite take_while_app, take_while_plain, str_app_nil_r by (done || by apply digits_version_bytes).
    destruct (pretty major) as [|a s]; [done|]. done. }
  unfold parse_server_version. rewrite Hfirst.
  assert (Hdot : forall z : Z, all_bytes is_ascii_digit (pretty z) = true -> split "." (pretty z) = [pretty z]).
  { intros z Hz. apply split_whole. by apply (all_bytes_no_byte is_ascii_digit). }
  rewrite !split_app, !Hdot by done. cbn [app map]. by rewrite !parse_u32_pretty.
Qed.
