(* ===== verification/MyNormalize.v ===== *)
(** * Catalog expressions of MySQL and MariaDB (crates/dovecote-sqlx-mysql/src/schema/normalization.rs)

    The text of CHECK clauses, generated columns and triggers, freed of what the
    servers' catalogs add: white space, quoting of names, letter case, literal
    introducers, LENGTH for OCTET_LENGTH, and parentheses around the whole. *)

From S2P Require Import Prelude Text.

Definition BACKSLASH : ascii := "\".
Definition QUOTE : ascii := "'".
Definition BACKQUOTE : ascii := "`".

(** white space or a backquote *)
Definition decoration (a : ascii) : bool := is_ascii_whitespace (byte_val a) || Ascii.eqb a BACKQUOTE.

Fixpoint without (p : ascii -> bool) (value : string) : string :=
  match value with
  | EmptyString => EmptyString
  | String a value => if p a then without p value else String a (without p value)
  end.

Definition normalize_trigger (value : string) : string :=
  without decoration (to_ascii_lowercase value).

Definition trigger_action_matches (kind action : string) : bool :=
  let expected :=
    if bool_decide (kind = "insert") then
      Some "beginifnew.row_id<0thensignal sqlstate'45000'setmessage_text='dovecote row_id must be positive';endif;end"
    else if bool_decide (kind = "update") then
      Some "beginifnew.row_id<=0ornew.row_id<>old.row_idthensignal sqlstate'45000'setmessage_text='dovecote row_id must be positive';endif;end"
    else None in
  match expected with
  | None => false
  | Some expected => bool_decide (normalize_trigger action = replace " " EmptyString expected)
  end.

(** ** normalize *)

(** The loop of [normalize], with what it has read of a literal. *)
Fixpoint normalize_from (in_string escaped : bool) (value : string) : string :=
  match value with
  | EmptyString => if escaped then String BACKSLASH EmptyString else EmptyString
  | String a value =>
      if in_string then
        if escaped then
          if Ascii.eqb a QUOTE then String a (normalize_from true false value)
          else String BACKSLASH (String a (normalize_from true false value))
        else if Ascii.eqb a BACKSLASH then normalize_from true true value
        else if Ascii.eqb a QUOTE then String a (normalize_from false false value)
        else String a (normalize_from true false value)
      else if Ascii.eqb a QUOTE then String a (normalize_from true escaped value)
      else if decoration a then normalize_from false escaped value
      else String (byte_of (ascii_lowercase (byte_val a))) (normalize_from false escaped value)
  end.

Definition normalize (value : string) : string :=
  normalize_from false false
    (replace (String BACKSLASH (String QUOTE EmptyString)) (String QUOTE EmptyString) value).

(** ** LENGTH and OCTET_LENGTH *)

(** The [while let] loop: [fuel] matches of [length] in [remaining]. *)
Fixpoint rewrite_lengths (fuel : nat) (length octet_length remaining : string) : string :=
  match fuel with
  | O => remaining
  | S fuel =>
      match split_once_str length remaining with
      | None => remaining
      | Some (prefix, suffix) =>
          prefix +:+ (if ends_with "octet_" prefix then length else octet_length)
            +:+ rewrite_lengths fuel length octet_length suffix
      end
  end.

Definition replace_length_aliases (normalized : string) (columns : list string) : string :=
  fold_left (fun normalized column =>
      rewrite_lengths (S (String.length normalized)) ("length(" +:+ column +:+ ")")
        ("octet_length(" +:+ column +:+ ")") normalized)
    columns normalized.

Definition normalize_generated_expression (value : string) : string :=
  let normalized :=
    replace "_utf8mb4'" "'"
      (replace "_binary'" "'" (replace (String BACKSLASH EmptyString) EmptyString (normalize value))) in
  replace_length_aliases normalized ["tenant_id"; "source"].

(** ** Parentheses *)

Inductive QuoteState : Type := Outside | Quoted | Escaped.

(** The loop of [outer_parentheses_enclose_expression]. *)
Fixpoint enclose_from (depth : Z) (quoted : QuoteState) (value : string) : bool :=
  match value with
  | EmptyString => match quoted with Outside => depth =? 0 | _ => false end
  | String byte rest =>
      match quoted with
      | Escaped => enclose_from depth Quoted rest
      | Quoted =>
          if Ascii.eqb byte BACKSLASH then enclose_from depth Escaped rest
          else if Ascii.eqb byte QUOTE then
            match rest with
            | String next after =>
                if Ascii.eqb next QUOTE then enclose_from depth Quoted after
                else enclose_from depth Outside rest
            | EmptyString => enclose_from depth Outside rest
            end
          else enclose_from depth Quoted rest
      | Outside =>
          if Ascii.eqb byte QUOTE then enclose_from depth Quoted rest
          else if Ascii.eqb byte "(" then
            match checked_add u32_max depth 1 with
            | None => false
            | Some depth => enclose_from depth Outside rest
            end
          else if Ascii.eqb byte ")" then
            if depth <? 1 then false
            else if (depth - 1 =? 0) && negb (is_empty rest) then false
            else enclose_from (depth - 1) Outside rest
          else enclose_from depth Outside rest
      end
  end.

Definition outer_parentheses_enclose_expression (value : string) : bool :=
  enclose_from 0 Outside value.

(** [value.strip_prefix('(').and_then(|value| value.strip_suffix(')'))] *)
Definition inner_of (value : string) : option string :=
  match strip_prefix "(" value with
  | Some value => strip_suffix ")" value
  | None => None
  end.

(** The [while let] loop, with [fuel] pairs. *)
Fixpoint strip_pairs (fuel : nat) (value : string) : string :=
  match fuel with
  | O => value
  | S fuel =>
      match inner_of value with
      | None => value
      | Some inner =>
          if negb (outer_parentheses_enclose_expression value) then value else strip_pairs fuel inner
      end
  end.

Definition strip_redundant_outer_parentheses (value : string) : string :=
  strip_pairs (S (String.length value)) value.

(** ** normalize_check_clause *)

Definition binary_length_columns (name : string) : list string :=
  if bool_decide (name = "dovecote_events_tenant_size") then ["tenant_id"]
  else if bool_decide (name = "dovecote_events_tenant_nonempty") then ["tenant_id"]
  else if bool_decide (name = "dovecote_events_stream_size") then ["stream"]
  else if bool_decide (name = "dovecote_events_event_id_size") then ["event_id"]
  else if bool_decide (name = "dovecote_events_source_size") then ["source"]
  else if bool_decide (name = "dovecote_events_event_type_size") then ["event_type"]
  else if bool_decide (name = "dovecote_events_subject_size") then ["subject"]
  else if bool_decide (name = "dovecote_events_content_type_size") then ["datacontenttype"]
  else if bool_decide (name = "dovecote_events_schema_size") then ["dataschema"]
  else if bool_decide (name = "dovecote_events_partition_size") then ["partitionkey"]
  else if bool_decide (name = "dovecote_events_identity_size") then ["source"; "event_id"]
  else if bool_decide (name = "dovecote_events_content_type") then ["data"]
  else if bool_decide (name = "dovecote_deliveries_tenant_size") then ["tenant_id"]
  else if bool_decide (name = "dovecote_deliveries_tenant_nonempty") then ["tenant_id"]
  else if bool_decide (name = "dovecote_deliveries_token_size") then ["claim_token"]
  else if bool_decide (name = "dovecote_deliveries_worker_size") then ["claimed_by"]
  else if bool_decide (name = "dovecote_deliveries_failure_code_size") then ["last_failure_code"]
  else if bool_decide (name = "dovecote_deliveries_failure_detail_size") then ["last_failure_detail"]
  else if bool_decide (name = "dovecote_deliveries_quarantine_size") then ["quarantine_reason"]
  else [].

Definition normalize_check_clause (name clause : string) : string :=
  let normalized := replace "_utf8mb4'" "'" (replace "_binary'" "'" (normalize clause)) in
  strip_redundant_outer_parentheses
    (replace_length_aliases normalized (binary_length_columns name)).

(** ** The loops end *)

(** More fuel than bytes changes nothing. *)
Lemma rewrite_lengths_fuel length octet fuel remaining :
  (0 < String.length length)%nat -> (String.length remaining < fuel)%nat ->
  rewrite_lengths fuel length octet remaining
  = rewrite_lengths (S (String.length remaining)) length octet remaining.
Proof.
  intros Hl. remember (String.length remaining) as n eqn:En. revert fuel remaining En.
  induction n as [n IH] using lt_wf_ind. intros [|fuel] remaining -> Hf; [lia|]. cbn [rewrite_lengths].
  destruct (split_once_str length remaining) as [[x y]|] eqn:E; [|done].
  apply split_once_str_Some in E. subst remaining. rewrite !str_length_app in *. f_equal. f_equal.
  rewrite (IH (String.length y) ltac:(lia) fuel y eq_refl) by lia.
  symmetry. apply IH; [lia|done|lia].
Qed.

Lemma inner_of_Some value inner : inner_of value = Some inner -> value = "(" +:+ inner +:+ ")".
Proof.
  unfold inner_of. destruct (strip_prefix "(" value) as [t|] eqn:E; [|done].
  apply strip_prefix_Some in E as ->. intros Hs. apply strip_suffix_Some in Hs as ->. done.
Qed.

Lemma strip_pairs_ends fuel value :
  (String.length value < fuel)%nat ->
  forall inner, inner_of (strip_pairs fuel value) = Some inner ->
  outer_parentheses_enclose_expression (strip_pairs fuel value) = false.
Proof.
  revert value. induction fuel as [|fuel IH]; intros value Hf inner; [lia|]. cbn [strip_pairs].
  destruct (inner_of value) as [i|] eqn:Ei; [|congruence].
  destruct (outer_parentheses_enclose_expression value) eqn:Eo; cbn [negb]; [|done].
  apply IH. apply inner_of_Some in Ei as ->. rewrite !str_length_app in Hf. simpl in Hf. lia.
Qed.

Lemma strip_pairs_fuel fuel value :
  (String.length value < fuel)%nat ->
  strip_pairs fuel value = strip_redundant_outer_parentheses value.
Proof.
  unfold strip_redundant_outer_parentheses. remember (String.length value) as n eqn:En.
  revert fuel value En. induction n as [n IH] using lt_wf_ind. intros [|fuel] value -> Hf; [lia|].
  cbn [strip_pairs]. destruct (inner_of value) as [i|] eqn:Ei; [|done].
  destruct (negb _); [done|]. apply inner_of_Some in Ei as ->. rewrite !str_length_app in *. cbn [String.length] in *.
  rewrite (IH (String.length i) ltac:(lia) fuel i eq_refl) by lia.
  symmetry. apply IH; [lia|done|lia].
Qed.

Lemma inner_of_app inner : inner_of ("(" +:+ inner +:+ ")") = Some inner.
Proof.
  unfold inner_of. rewrite str_app_cons, str_app_nil_l. cbn [strip_prefix].
  rewrite bool_decide_true by done. apply strip_suffix_app.
Qed.

(** ** What a normalized text keeps *)

Lemma quote_not_decoration a : decoration a = true -> Ascii.eqb a QUOTE = false.
Proof. destruct (Ascii.eqb_spec a QUOTE) as [->|]; [by vm_compute|done]. Qed.

(** Outside literals, letter case, white space and backquotes do not matter. *)
Lemma normalize_from_plain value rest :
  no_byte QUOTE value = true ->
  normalize_from false false (value +:+ rest)
  = map_bytes ascii_lowercase (without decoration value) +:+ normalize_from false false rest.
Proof.
  unfold no_byte. induction value as [|a value IH]; [by rewrite !str_app_nil_l|]. intros Hq. simpl in Hq. bools.
  rewrite str_app_cons. cbn [normalize_from without].
  match goal with Hn : Ascii.eqb a QUOTE = false |- _ => rewrite Hn end.
  destruct (decoration a); [by apply IH|]. cbn [map_bytes]. rewrite str_app_cons. f_equal. by apply IH.
Qed.

(** A literal is kept as it is, and ends at its closing quote. *)
Lemma normalize_from_literal literal rest :
  no_byte QUOTE literal = true -> no_byte BACKSLASH literal = true ->
  normalize_from true false (literal +:+ String QUOTE rest)
  = literal +:+ String QUOTE (normalize_from false false rest).
Proof.
  unfold no_byte. induction literal as [|a literal IH]; [done|]. intros Hq Hb. simpl in Hq, Hb. bools.
  rewrite !str_app_cons. cbn [normalize_from].
  match goal with Hn : Ascii.eqb a QUOTE = false |- _ => rewrite Hn end.
  match goal with Hn : Ascii.eqb a BACKSLASH = false |- _ => rewrite Hn end.
  f_equal. by apply IH.
Qed.

(** ** Parentheses that enclose *)

Fixpoint count (c : ascii) (s : string) : Z :=
  match s with
  | EmptyString => 0
  | String a s => (if Ascii.eqb a c then 1 else 0) + count c s
  end.

(** Every prefix of [s] opens as many parentheses as it closes, or [spare] fewer,
    and all of it exactly [spare] fewer. *)
Definition nested (spare : Z) (s : string) : Prop :=
  (forall p q, s = p +:+ q -> count ")" p <= spare + count "(" p) /\
  count ")" s = spare + count "(" s.

Lemma nested_cons spare a s :
  nested spare (String a s) <->
  0 <= spare /\ nested (spare + (if Ascii.eqb a "(" then 1 else 0) - (if Ascii.eqb a ")" then 1 else 0)) s.
Proof.
  unfold nested. simpl. split.
  - intros [Hp He]. split.
    + specialize (Hp EmptyString (String a s) eq_refl). simpl in Hp. lia.
    + split; [|lia]. intros p q ->. specialize (Hp (String a p) q eq_refl). simpl in Hp. lia.
  - intros [Hs [Hp He]]. split; [|lia]. intros [|b p] q Hq; simpl; [lia|].
    rewrite str_app_cons in Hq. injection Hq as <- ->. specialize (Hp p q eq_refl). lia.
Qed.

Lemma enclose_from_nested s depth :
  no_byte QUOTE s = true -> 1 <= depth -> depth + len s <= u32_max ->
  enclose_from depth Outside (s +:+ ")") = true <-> nested (depth - 1) s.
Proof.
  unfold no_byte. revert depth. induction s as [|a s IH]; intros depth Hq Hd Hmax.
  - rewrite str_app_nil_l. simpl. destruct (Z.ltb_spec depth 1); [lia|]. rewrite andb_false_r.
    rewrite Z.eqb_eq. unfold nested. simpl. split; [|lia]. intros He. split; [|lia].
    intros [|b p] q Hp; [simpl; lia|done].
  - simpl in Hq. bools. rewrite str_app_cons, nested_cons. cbn [enclose_from].
    match goal with Hn : Ascii.eqb a QUOTE = false |- _ => rewrite Hn end.
    assert (Hlen : len (String a s) = 1 + len s) by (unfold len; simpl; lia). rewrite Hlen in Hmax.
    pose proof (len_nonneg s).
    assert (Hne : is_empty (s +:+ ")") = false) by (destruct s; [by rewrite str_app_nil_l|by rewrite str_app_cons]).
    destruct (Ascii.eqb_spec a "(") as [->|Ho].
    + cbn [Ascii.eqb Bool.eqb]. unfold checked_add. destruct (Z.leb_spec (depth + 1) u32_max); [|lia].
      rewrite IH by (done || lia). split; [intros Hn; split; [lia|]|intros [_ Hn]].
      * by replace (depth - 1 + 1 - _) with (depth + 1 - 1) by (simpl; lia).
      * by replace (depth - 1 + 1 - _) with (depth + 1 - 1) in Hn by (simpl; lia).
    + destruct (Ascii.eqb_spec a ")") as [->|Hc].
      * destruct (Z.ltb_spec depth 1); [lia|]. rewrite Hne. cbn [negb]. rewrite andb_true_r.
        destruct (Z.eqb_spec (depth - 1) 0) as [He|He].
        -- split; [done|]. intros [_ [Hp _]]. specialize (Hp EmptyString s eq_refl). simpl in Hp. lia.
        -- rewrite IH by (done || lia). replace (depth - 1 + 0 - 1) with (depth - 1 - 1) by lia.
           split; [intros; split; [lia|done]|by intros [_ ?]].
      * rewrite IH by (done || lia). replace (depth - 1 + 0 - 0) with (depth - 1) by lia.
        split; [intros; split; [lia|done]|by intros [_ ?]].
Qed.

(** Parentheses around a catalog expression are taken off only when they
    enclose all of it: in a text without literals, the first parenthesis matches
    the last one exactly when what is between them is properly nested, so that a
    clause like [(a) OR (b)] keeps both. The loop takes off every such pair and
    ends, however many there are. *)
Theorem outer_parentheses_nested inner :
  no_byte QUOTE inner = true -> len inner < u32_max ->
  (outer_parentheses_enclose_expression ("(" +:+ inner +:+ ")") = true <-> nested 0 inner) /\
  (nested 0 inner ->
   strip_redundant_outer_parentheses ("(" +:+ inner +:+ ")") = strip_redundant_outer_parentheses inner) /\
  forall rest, inner_of (strip_redundant_outer_parentheses inner) = Some rest ->
    outer_parentheses_enclose_expression (strip_redundant_outer_parentheses inner) = false.
Proof.
  intros Hq Hl.
  assert (He : outer_parentheses_enclose_expression ("(" +:+ inner +:+ ")") = true <-> nested 0 inner).
  { unfold outer_parentheses_enclose_expression. rewrite str_app_cons, str_app_nil_l.
    cbn [enclose_from]. change (checked_add u32_max 0 1) with (Some 1). cbn [Ascii.eqb Bool.eqb].
    apply enclose_from_nested; [done|lia|lia]. }
  split; [exact He|]. split.
  - intros Hn. unfold strip_redundant_outer_parentheses at 1.
    remember (String.length ("(" +:+ inner +:+ ")")) as n eqn:En. cbn [strip_pairs].
    rewrite inner_of_app, (proj2 He Hn). cbn [negb]. apply strip_pairs_fuel.
    rewrite En, !str_length_app. simpl. lia.
  - intros rest. apply strip_pairs_ends. lia.
Qed.
