(* ===== verification/MyContracts.v ===== *)
(** * Contracts of the MySQL schema (crates/dovecote-sqlx-mysql/src/schema/contracts.rs)

    The columns each table must have and the forms in which the servers may show
    each CHECK of the shipped migration. *)

From S2P Require Import Prelude Text MyNormalize.

Module ColumnSpec.
Record t : Type := Make {
  name : string;
  data_type : string;
  max : option Z;
  exact_column_type : option string;
  nullable : bool;
  identity : bool;
  default : option string;
  generated : option string;
  generation_expression : option string;
}.

Definition required (name data_type : string) (max : option Z) (identity : bool) : t :=
  Make name data_type max None false identity None None None.
Definition optional (name data_type : string) (max : option Z) : t :=
  Make name data_type max None true false None None None.
Definition required_default (name data_type default : string) : t :=
  Make name data_type None None false false (Some default) None None.
Definition required_exact_type (name data_type column_type : string) : t :=
  Make name data_type None (Some column_type) false false None None None.
Definition stored_generated (name data_type : string) (max : option Z) (expression : string) : t :=
  Make name data_type max None true false None (Some "STORED GENERATED") (Some expression).
End ColumnSpec.

Definition marker_columns : list ColumnSpec.t :=
  [ColumnSpec.required "schema_version" "int" None false;
   ColumnSpec.required "minimum_crate_major" "smallint" None false;
   ColumnSpec.required "minimum_crate_minor" "smallint" None false;
   ColumnSpec.required "minimum_crate_patch" "smallint" None false;
   ColumnSpec.required_exact_type "rolling_compatible" "tinyint" "tinyint(1)"].

Definition IDENTITY_KEY_GENERATION_EXPRESSION : string :=
  "CONCAT(LPAD(OCTET_LENGTH(tenant_id), 3, '0'), tenant_id, LPAD(OCTET_LENGTH(source), 4, '0'), source, event_id)".

(** The arms of a [match] on a name. *)
Definition lookup (arms : list (string * string)) (name : string) : option string :=
  option_map snd (find (fun arm => bool_decide (arm.1 = name)) arms).

Definition CHECK_NAMES : list string :=
  ["dovecote_events_specversion";
   "dovecote_events_tenant_size";
   "dovecote_events_tenant_nonempty";
   "dovecote_events_stream_size";
   "dovecote_events_event_id_size";
   "dovecote_events_source_size";
   "dovecote_events_event_type_size";
   "dovecote_events_subject_size";
   "dovecote_events_content_type_size";
   "dovecote_events_schema_size";
   "dovecote_events_partition_size";
   "dovecote_events_identity_size";
   "dovecote_events_data_kind";
   "dovecote_events_data_pair";
   "dovecote_events_content_type";
   "dovecote_deliveries_state";
   "dovecote_deliveries_tenant_size";
   "dovecote_deliveries_tenant_nonempty";
   "dovecote_deliveries_attempts";
   "dovecote_deliveries_token_size";
   "dovecote_deliveries_worker_size";
   "dovecote_deliveries_failure_code_size";
   "dovecote_deliveries_failure_detail_size";
   "dovecote_deliveries_quarantine_size";
   "dovecote_deliveries_failure_pair";
   "dovecote_deliveries_state_shape"].

Definition MARKER_CHECK_NAMES : list string :=
  ["dovecote_schema_version_supported";
   "dovecote_schema_minimum_nonnegative"].

Definition expected_marker_check_clause : string -> option string :=
  lookup [("dovecote_schema_version_supported", "schema_version = 2");
    ("dovecote_schema_minimum_nonnegative", "minimum_crate_major >= 0 AND minimum_crate_minor >= 0 AND minimum_crate_patch >= 0")].

Definition marker_catalog_check_clause : string -> option string :=
  lookup [("dovecote_schema_minimum_nonnegative", "(minimum_crate_major >= 0) AND (minimum_crate_minor >= 0) AND (minimum_crate_patch >= 0)")].

Definition expected_check_clause : string -> option string :=
  lookup [("dovecote_events_specversion", "specversion = _binary '1.0'");
    ("dovecote_events_tenant_size", "OCTET_LENGTH(tenant_id) <= 255");
    ("dovecote_events_tenant_nonempty", "OCTET_LENGTH(tenant_id) > 0");
    ("dovecote_events_stream_size", "OCTET_LENGTH(stream) <= 255");
    ("dovecote_events_event_id_size", "OCTET_LENGTH(event_id) <= 1024");
    ("dovecote_events_source_size", "OCTET_LENGTH(source) <= 2048");
    ("dovecote_events_event_type_size", "OCTET_LENGTH(event_type) <= 1024");
    ("dovecote_events_subject_size", "subject IS NULL OR OCTET_LENGTH(subject) <= 2048");
    ("dovecote_events_content_type_size", "datacontenttype IS NULL OR OCTET_LENGTH(datacontenttype) <= 255");
    ("dovecote_events_schema_size", "dataschema IS NULL OR OCTET_LENGTH(dataschema) <= 2048");
    ("dovecote_events_partition_size", "partitionkey IS NULL OR OCTET_LENGTH(partitionkey) <= 255");
    ("dovecote_events_identity_size", "OCTET_LENGTH(source) + OCTET_LENGTH(event_id) <= 2048");
    ("dovecote_events_data_kind", "data_kind IS NULL OR data_kind IN (_binary 'json', _binary 'binary')");
    ("dovecote_events_data_pair", "(data_kind IS NULL) = (data IS NULL)");
    ("dovecote_events_content_type", "data IS NULL OR OCTET_LENGTH(data) = 0 OR datacontenttype IS NOT NULL");
    ("dovecote_deliveries_state", "state IN (_binary 'pending', _binary 'claimed', _binary 'delivered', _binary 'quarantined')");
    ("dovecote_deliveries_tenant_size", "OCTET_LENGTH(tenant_id) <= 255");
    ("dovecote_deliveries_tenant_nonempty", "OCTET_LENGTH(tenant_id) > 0");
    ("dovecote_deliveries_attempts", "attempts >= 0");
    ("dovecote_deliveries_token_size", "claim_token IS NULL OR OCTET_LENGTH(claim_token) = 16");
    ("dovecote_deliveries_worker_size", "claimed_by IS NULL OR OCTET_LENGTH(claimed_by) <= 255");
    ("dovecote_deliveries_failure_code_size", "last_failure_code IS NULL OR OCTET_LENGTH(last_failure_code) <= 128");
    ("dovecote_deliveries_failure_detail_size", "last_failure_detail IS NULL OR OCTET_LENGTH(last_failure_detail) <= 2048");
    ("dovecote_deliveries_quarantine_size", "quarantine_reason IS NULL OR OCTET_LENGTH(quarantine_reason) <= 2048");
    ("dovecote_deliveries_failure_pair", "(last_failure_code IS NULL) = (last_failure_detail IS NULL)");
    ("dovecote_deliveries_state_shape", "(state = _binary 'pending' AND claim_token IS NULL AND claimed_by IS NULL AND claim_expires_at IS NULL AND delivered_at IS NULL AND quarantined_at IS NULL AND quarantine_reason IS NULL) OR (state = _binary 'claimed' AND claim_token IS NOT NULL AND claimed_by IS NOT NULL AND claim_expires_at IS NOT NULL AND delivered_at IS NULL AND quarantined_at IS NULL AND quarantine_reason IS NULL) OR (state = _binary 'delivered' AND claim_token IS NULL AND claimed_by IS NULL AND claim_expires_at IS NULL AND delivered_at IS NOT NULL AND quarantined_at IS NULL AND quarantine_reason IS NULL) OR (state = _binary 'quarantined' AND claim_token IS NULL AND claimed_by IS NULL AND claim_expires_at IS NULL AND delivered_at IS NULL AND quarantined_at IS NOT NULL AND quarantine_reason IS NOT NULL)")].

Definition catalog_check_clause : string -> option string :=
  lookup [("dovecote_events_subject_size", "(subject IS NULL) OR (OCTET_LENGTH(subject) <= 2048)");
    ("dovecote_events_content_type_size", "(datacontenttype IS NULL) OR (OCTET_LENGTH(datacontenttype) <= 255)");
    ("dovecote_events_schema_size", "(dataschema IS NULL) OR (OCTET_LENGTH(dataschema) <= 2048)");
    ("dovecote_events_partition_size", "(partitionkey IS NULL) OR (OCTET_LENGTH(partitionkey) <= 255)");
    ("dovecote_events_identity_size", "(OCTET_LENGTH(source) + OCTET_LENGTH(event_id)) <= 2048");
    ("dovecote_events_data_kind", "(data_kind IS NULL) OR (data_kind IN (_binary 'json', _binary 'binary'))");
    ("dovecote_events_data_pair", "data_kind IS NULL = (data IS NULL)");
    ("dovecote_events_content_type", "(data IS NULL) OR (OCTET_LENGTH(data) = 0) OR (datacontenttype IS NOT NULL)");
    ("dovecote_deliveries_token_size", "(claim_token IS NULL) OR (OCTET_LENGTH(claim_token) = 16)");
    ("dovecote_deliveries_worker_size", "(claimed_by IS NULL) OR (OCTET_LENGTH(claimed_by) <= 255)");
    ("dovecote_deliveries_failure_code_size", "(last_failure_code IS NULL) OR (OCTET_LENGTH(last_failure_code) <= 128)");
    ("dovecote_deliveries_failure_detail_size", "(last_failure_detail IS NULL) OR (OCTET_LENGTH(last_failure_detail) <= 2048)");
    ("dovecote_deliveries_quarantine_size", "(quarantine_reason IS NULL) OR (OCTET_LENGTH(quarantine_reason) <= 2048)");
    ("dovecote_deliveries_failure_pair", "last_failure_code IS NULL = (last_failure_detail IS NULL)");
    ("dovecote_deliveries_state_shape", "(state = _binary 'pending' AND claim_token IS NULL AND claimed_by IS NULL AND claim_expires_at IS NULL AND delivered_at IS NULL AND quarantined_at IS NULL AND quarantine_reason IS NULL) OR (state = _binary 'claimed' AND claim_token IS NOT NULL AND claimed_by IS NOT NULL AND claim_expires_at IS NOT NULL AND delivered_at IS NULL AND quarantined_at IS NULL AND quarantine_reason IS NULL) OR (state = _binary 'delivered' AND claim_token IS NULL AND claimed_by IS NULL AND claim_expires_at IS NULL AND delivered_at IS NOT NULL AND quarantined_at IS NULL AND quarantine_reason IS NULL) OR (state = _binary 'quarantined' AND claim_token IS NULL AND claimed_by IS NULL AND claim_expires_at IS NULL AND delivered_at IS NULL AND quarantined_at IS NOT NULL AND quarantine_reason IS NOT NULL)")].

Definition mariadb_catalog_check_clause : string -> option string :=
  lookup [("dovecote_deliveries_state_shape", "state = _binary 'pending' AND claim_token IS NULL AND claimed_by IS NULL AND claim_expires_at IS NULL AND delivered_at IS NULL AND quarantined_at IS NULL AND quarantine_reason IS NULL OR state = _binary 'claimed' AND claim_token IS NOT NULL AND claimed_by IS NOT NULL AND claim_expires_at IS NOT NULL AND delivered_at IS NULL AND quarantined_at IS NULL AND quarantine_reason IS NULL OR state = _binary 'delivered' AND claim_token IS NULL AND claimed_by IS NULL AND claim_expires_at IS NULL AND delivered_at IS NOT NULL AND quarantined_at IS NULL AND quarantine_reason IS NULL OR state = _binary 'quarantined' AND claim_token IS NULL AND claimed_by IS NULL AND claim_expires_at IS NULL AND delivered_at IS NULL AND quarantined_at IS NOT NULL AND quarantine_reason IS NOT NULL")].

Definition mysql_unwrapped_catalog_check_clause (name : string) : option string :=
  mariadb_catalog_check_clause name.

Definition mysql_predicate_grouped_catalog_check_clause : string -> option string :=
  lookup [("dovecote_deliveries_state_shape", "((state = _binary 'pending') AND (claim_token IS NULL) AND (claimed_by IS NULL) AND (claim_expires_at IS NULL) AND (delivered_at IS NULL) AND (quarantined_at IS NULL) AND (quarantine_reason IS NULL)) OR ((state = _binary 'claimed') AND (claim_token IS NOT NULL) AND (claimed_by IS NOT NULL) AND (claim_expires_at IS NOT NULL) AND (delivered_at IS NULL) AND (quarantined_at IS NULL) AND (quarantine_reason IS NULL)) OR ((state = _binary 'delivered') AND (claim_token IS NULL) AND (claimed_by IS NULL) AND (claim_expires_at IS NULL) AND (delivered_at IS NOT NULL) AND (quarantined_at IS NULL) AND (quarantine_reason IS NULL)) OR ((state = _binary 'quarantined') AND (claim_token IS NULL) AND (claimed_by IS NULL) AND (claim_expires_at IS NULL) AND (delivered_at IS NULL) AND (quarantined_at IS NOT NULL) AND (quarantine_reason IS NOT NULL))")].

(** A clause in the form [catalog], if the name has one. *)
Definition matches_form (name actual : string) (catalog : option string) : bool :=
  is_some_and catalog (fun catalog => bool_decide (actual = normalize_check_clause name catalog)).

Definition marker_check_clause_is_plausible (name clause : string) : bool :=
  match expected_marker_check_clause name with
  | None => false
  | Some expected =>
      let actual := normalize_check_clause name clause in
      bool_decide (actual = normalize_check_clause name expected)
      || matches_form name actual (marker_catalog_check_clause name)
  end.

Definition check_clause_is_plausible (name clause : string) : bool :=
  match expected_check_clause name with
  | None => false
  | Some expected =>
      let actual := normalize_check_clause name clause in
      bool_decide (actual = normalize_check_clause name expected)
      || matches_form name actual (catalog_check_clause name)
      || matches_form name actual (mariadb_catalog_check_clause name)
      || matches_form name actual (mysql_unwrapped_catalog_check_clause name)
      || matches_form name actual (mysql_predicate_grouped_catalog_check_clause name)
  end.

(** ** Facts *)

(** The forms of a CHECK: the migration's text and those of the servers. *)
Definition forms (name : string) : list string :=
  omap (fun f => f name) [expected_check_clause; catalog_check_clause; mariadb_catalog_check_clause;
                          mysql_predicate_grouped_catalog_check_clause].

Definition marker_forms (name : string) : list string :=
  omap (fun f => f name) [expected_marker_check_clause; marker_catalog_check_clause].

Lemma matches_form_spec name actual catalog :
  matches_form name actual catalog = true <->
  exists form, catalog = Some form /\ actual = normalize_check_clause name form.
Proof.
  unfold matches_form, is_some_and. destruct catalog as [form|]; [|naive_solver].
  rewrite bool_decide_eq_true. naive_solver.
Qed.

Lemma exists_cons {A} (P : A -> Prop) x l :
  (exists y, y ∈ x :: l /\ P y) <-> P x \/ exists y, y ∈ l /\ P y.
Proof.
  split.
  - intros (y & [->|Hy]%elem_of_cons & HP); [by left|right; eauto].
  - intros [HP|(y & Hy & HP)]; [exists x|exists y]; (split; [|done]); [by left|by right].
Qed.

Lemma exists_nil {A} (P : A -> Prop) : (exists y, y ∈ [] /\ P y) <-> False.
Proof. split; [|done]. by intros (y & Hy%elem_of_nil & _). Qed.

(** A clause is plausible when it normalizes like one of the forms of its name. *)
Lemma check_clause_forms name clause :
  is_Some (expected_check_clause name) ->
  check_clause_is_plausible name clause = true <->
  exists form, form ∈ forms name /\ normalize_check_clause name clause = normalize_check_clause name form.
Proof.
  intros [e He]. unfold check_clause_is_plausible, mysql_unwrapped_catalog_check_clause, forms. rewrite He.
  cbv zeta. rewrite !orb_true_iff, !matches_form_spec, bool_decide_eq_true. cbn [omap list_omap]. rewrite He.
  destruct (catalog_check_clause name), (mariadb_catalog_check_clause name),
    (mysql_predicate_grouped_catalog_check_clause name); simpl;
    rewrite ?exists_cons, exists_nil; naive_solver.
Qed.

Lemma marker_check_clause_forms name clause :
  is_Some (expected_marker_check_clause name) ->
  marker_check_clause_is_plausible name clause = true <->
  exists form, form ∈ marker_forms name /\
    normalize_check_clause name clause = normalize_check_clause name form.
Proof.
  intros [e He]. unfold marker_check_clause_is_plausible, marker_forms. rewrite He.
  cbv zeta. rewrite !orb_true_iff, !matches_form_spec, bool_decide_eq_true. cbn [omap list_omap]. rewrite He.
  destruct (marker_catalog_check_clause name); simpl; rewrite ?exists_cons, exists_nil; naive_solver.
Qed.

(** Every expected CHECK has a text. *)
Lemma check_names_expected name : name ∈ CHECK_NAMES -> is_Some (expected_check_clause name).
Proof.
  intros Hin. apply list_elem_of_In in Hin. simpl in Hin.
  repeat (destruct Hin as [<-|Hin]; [by eexists; vm_compute|]). done.
Qed.

Lemma marker_check_names_expected name :
  name ∈ MARKER_CHECK_NAMES -> is_Some (expected_marker_check_clause name).
Proof.
  intros Hin. apply list_elem_of_In in Hin. simpl in Hin.
  repeat (destruct Hin as [<-|Hin]; [by eexists; vm_compute|]). done.
Qed.
