(* ===== verification/MyRows.v ===== *)
(** * Statements and read views in MySQL (crates/dovecote-sqlx-mysql/src/lifecycle.rs)

    The database clock and its arithmetic, the rows a transaction locks, and what
    detection leaves. A consistent read sees the tables as they were when the
    transaction's read view was opened, with the transaction's own rows;
    connections that only insert events leave every event of an older view in
    place, so what the view shows of events is still there. *)

From S2P Require Import Prelude Step Utf8 Text Errors Limits Validation Bounds Tables Queries RowHydration External Overlay Instants Others Leases MyError My MyBackend.

Definition duration_micros (value : Duration.t) : Result Z string :=
  let micros := Duration.as_nanos value / 1000 in
  if micros <=? i64_max then Ok micros else Err "duration does not fit MySQL microseconds".

(** 9999-12-31 23:59:59.999999, the last value of a DATETIME *)
Definition datetime_max : Z := 253402300799999999.

(** [TIMESTAMPADD(MICROSECOND, micros, now)] *)
Definition timestampadd (micros now : Z) : option Z :=
  if now + micros <=? datetime_max then Some (now + micros) else None.

Section Rows.
Context `{RustDebug, MyEnv, MyServer}.

(** [SELECT UTC_TIMESTAMP(6)] *)
Definition database_time : M (Result OffsetDateTime SqlxError.t) :=
  server_query (fun n => decode_instant (utc_timestamp n)).

Definition lock_row (selected : Deliveries.row_of Z -> bool) :
    M (Result (option (Deliveries.row_of Z)) SqlxError.t) :=
  statement (fun _ db => Ok (lock_row_sql selected db)).

Lemma detect_returns : returns detect_on_connection.
Proof. unfold detect_on_connection. returns_step. Qed.
Lemma database_time_returns : returns database_time.
Proof. unfold database_time. returns_step. Qed.
Lemma my_lock_row_returns selected : returns (lock_row selected).
Proof. unfold lock_row. returns_step. Qed.

Lemma my_lock_row_open (Hisolated : isolated) selected w t r w' :
  open_at w t -> lock_row selected w = Some (r, w') ->
  during (own_locks (own t)) (committed w) (committed w') /\
  match r with
  | Ok (Some d) => open_at w' (add_own (MkOwn [] [] [Deliveries.event_row_id d]) t) /\
      selected d = true /\ db_wf (overlay (own t) (committed w')) /\
      d ∈ deliveries (overlay (own t) (committed w'))
  | Ok None => open_at w' t /\ db_wf (overlay (own t) (committed w')) /\
      forall d, d ∈ deliveries (overlay (own t) (committed w')) -> selected d = false
  | Err _ => stopped w' t
  end.
Proof.
  intros Ho Hr. apply (my_statement_open Hisolated _ _ _ _ _ Ho) in Hr as [Hd Hr].
  2: { intros a o [= Hl] Hwf. apply (f_equal snd) in Hl. simpl in Hl. subst o.
       by rewrite lock_row_overlay. }
  split; [done|]. destruct r as [[d|]|e]; [..|done].
  - destruct Hr as (o & [= Hl] & Hv & Ho'). apply lock_row_Some in Hl as (Hin & Hs & ->). done.
  - destruct Hr as (o & [= Hl] & Hv & Ho'). apply lock_row_None in Hl as [-> Hn].
    by rewrite add_nothing in Ho'.
Qed.

(** How detection can fail. *)
Definition detection_error (e : SchemaError.t) : Prop :=
  match e with
  | SchemaError.BackendMismatch _ => True
  | SchemaError.Sql op _ | SchemaError.Transient op _ _ => op = "detect MySQL/MariaDB backend"
  | SchemaError.MigrationMismatch _ => False
  end.

(** Detection reads no table. *)
Lemma detect_open (Hisolated : isolated) w t r w' :
  open_at w t -> detect_on_connection w = Some (r, w') ->
  during (own_locks (own t)) (committed w) (committed w') /\
  match r with
  | Ok info => open_at w' t /\ exists probe, inspect probe = Ok info
  | Err e => stopped w' t /\ detection_error e
  end.
Proof.
  intros Ho Hr. unfold detect_on_connection in Hr. run_inv Hr.
  destruct (server_open Hisolated _ _ _ _ _ Ho Hm) as [Hd Hx]. destruct r0 as [probe|e]; run_inv Hr.
  - destruct Hx as [-> Ho']. split; [done|].
    destruct (inspect _) as [info|e] eqn:E; [by split; [|eexists]|].
    split; [by left|]. by apply inspect_Err in E as [detail ->].
  - split; [done|]. split; [done|]. unfold SchemaError.sql. by destruct (TransientKind.from_sqlx e).
Qed.

Lemma detect_tick w r w' : detect_on_connection w = Some (r, w') -> tick w' = S (tick w).
Proof.
  unfold detect_on_connection. intros Hr. run_inv Hr. apply server_tick in Hm.
  destruct r0; by run_inv Hr.
Qed.
End Rows.

#[export] Hint Resolve detect_returns database_time_returns my_lock_row_returns : dovecote.

(** ** Read views *)

Section Views.
Context `{MyEnv}.
Context (Hisolated : isolated) (Happend : append_only).

(** The events of the read view are still there. *)
Definition past (w : World) (t : Txn) : Prop :=
  forall v, view t = Some v -> events v ⊆ events (committed w).

Definition open_past (w : World) (t : Txn) : Prop := open_at w t /\ past w t.

Lemma past_later w w' t keys :
  past w t -> db_wf (committed w) -> during keys (committed w) (committed w') -> past w' t.
Proof.
  intros Hp Hwf Hd v Hv. etrans; [by apply Hp|]. by eapply during_events.
Qed.

(** A step that writes and locks nothing: the transaction goes on, if it does, with
    what it wrote, though its view may have been opened. *)
Definition observes {A E} (m : M (Result A E)) : Prop :=
  forall w t r w', open_past w t -> m w = Some (r, w') ->
  during (own_locks (own t)) (committed w) (committed w') /\
  exists t', own t' = own t /\ match r with Ok _ => open_past w' t' | Err _ => stopped w' t' end.

Lemma observes_ret {A E} (r : Result A E) : observes (ret r).
Proof.
  intros w t r' w' Ho [= <- <-]. split; [constructor|]. exists t. split; [done|].
  destruct r; [done|]. left. apply Ho.
Qed.

Lemma observes_try {A B E F} (m : M (Result A E)) (k : A -> M (Result B F)) (g : E -> F) :
  observes m -> (forall a, observes (k a)) -> observes (try* a := m else g in k a).
Proof.
  intros Hm Hk w t r w' Ho Hr. apply bind_inv in Hr as (r0 & w1 & Hr0 & Hr).
  destruct (Hm _ _ _ _ Ho Hr0) as (Hd & t1 & Hown & Hx). destruct r0 as [a|e].
  - destruct (Hk a _ _ _ _ Hx Hr) as (Hd' & t' & Hown' & Hx'). rewrite Hown in Hd'.
    split; [by eapply during_trans|]. exists t'. split; [congruence|done].
  - apply ret_inv in Hr as [-> ->]. split; [done|]. by exists t1.
Qed.

(** A consistent read, and what it saw. *)
Lemma consistent_past {A} (f : nat -> Db -> A) w t r w' :
  open_past w t -> consistent_read f w = Some (r, w') ->
  during (own_locks (own t)) (committed w) (committed w') /\
  match r with
  | Ok a => exists v, db_wf v /\ events v ⊆ events (committed w') /\
      a = f (tick w) (overlay (own t) v) /\ open_past w' (MkTxn (Some v) (own t)) /\
      match view t with Some v' => v = v' | None => v = committed w' end
  | Err _ => stopped w' t
  end.
Proof.
  intros [Ho Hp] Hr. destruct (consistent_open Hisolated _ _ _ _ _ Ho Hr) as [Hd Hx]. split; [done|].
  destruct r as [a|e]; [|done]. destruct Hx as (v & Hwf & Ha & Hv & Ho'). exists v.
  pose proof (past_later _ _ _ _ Hp (open_committed _ _ Ho) Hd) as Hp'.
  assert (Hsub : events v ⊆ events (committed w')).
  { destruct (view t) as [v'|] eqn:E; [subst v'; by apply Hp'|by subst v]. }
  do 3 (split; [done|]). split; [split; [done|]; by intros ? [= <-]|done].
Qed.

Lemma consistent_read_observes {A} (f : nat -> Db -> A) : observes (consistent_read f).
Proof.
  intros w t r w' Ho Hr. destruct (consistent_past _ _ _ _ _ Ho Hr) as [Hd Hx]. split; [done|].
  destruct r as [a|e]; [|by exists t]. destruct Hx as (v & _ & _ & _ & Ho' & _). by exists (MkTxn (Some v) (own t)).
Qed.

Lemma server_query_observes {A} (f : nat -> A) : observes (server_query f).
Proof.
  intros w t r w' [Ho Hp] Hr. destruct (server_open Hisolated _ _ _ _ _ Ho Hr) as [Hd Hx].
  split; [done|]. exists t. split; [done|]. destruct r as [a|e]; [|done]. destruct Hx as [_ Ho'].
  split; [done|]. exact (past_later _ _ _ _ Hp (open_committed _ _ Ho) Hd).
Qed.

Lemma catalog_query_observes {A} (f : nat -> Db -> A) : observes (catalog_query f).
Proof.
  intros w t r w' [Ho Hp] Hr. destruct (catalog_open Hisolated _ _ _ _ _ Ho Hr) as [Hd Hx].
  split; [done|]. destruct r as [a|e]; [|by exists t]. destruct Hx as (_ & t' & Hv & Ho').
  pose proof (past_later _ _ _ _ Hp (open_committed _ _ Ho) Hd) as Hp'. exists t'.
  destruct Hv as [->| ->]; (split; [done|split; [done|]]); [done|].
  intros v. simpl. intros [= <-]. destruct (view t) eqn:E; [by apply Hp'|done].
Qed.


(** A statement that writes or locks, in a transaction with a view of the past. *)
Lemma statement_past {A} (f : nat -> Db -> Result (A * Own Z) SqlxError.t) w t r w' :
  open_past w t -> statement f w = Some (r, w') ->
  (forall a o, f (tick w) (overlay (own t) (committed w')) = Ok (a, o) ->
     db_wf (overlay (own t) (committed w')) -> db_wf (overlay o (overlay (own t) (committed w')))) ->
  during (own_locks (own t)) (committed w) (committed w') /\
  db_wf (committed w') /\ db_wf (overlay (own t) (committed w')) /\
  match r with
  | Ok a => exists o, f (tick w) (overlay (own t) (committed w')) = Ok (a, o) /\
      open_past w' (add_own o t)
  | Err _ => stopped w' t
  end.
Proof.
  intros [Ho Hp] Hr Hwrite. destruct (in_session_open Hisolated _ _ _ _ _ Ho Hr) as (_ & Hw & Hv & _).
  destruct (my_statement_open Hisolated _ _ _ _ _ Ho Hr Hwrite) as [Hd Hx]. do 3 (split; [done|]).
  destruct r as [a|e]; [|done]. destruct Hx as (o & Hf & _ & Ho'). exists o. split; [done|].
  split; [done|]. exact (past_later _ _ _ _ Hp (open_committed _ _ Ho) Hd).
Qed.

Lemma lock_row_past selected w t r w' :
  open_past w t -> lock_row selected w = Some (r, w') ->
  during (own_locks (own t)) (committed w) (committed w') /\
  match r with
  | Ok (Some d) => open_past w' (add_own (MkOwn [] [] [Deliveries.event_row_id d]) t) /\
      selected d = true /\ db_wf (overlay (own t) (committed w')) /\
      d ∈ deliveries (overlay (own t) (committed w'))
  | Ok None => open_past w' t /\
      forall d, d ∈ deliveries (overlay (own t) (committed w')) -> selected d = false
  | Err _ => stopped w' t
  end.
Proof.
  intros [Ho Hp] Hr. destruct (my_lock_row_open Hisolated _ _ _ _ _ Ho Hr) as [Hd Hx]. split; [done|].
  pose proof (past_later _ _ _ _ Hp (open_committed _ _ Ho) Hd) as Hp'.
  destruct r as [[d|]|e]; [|destruct Hx as (? & _ & ?)|done]; [|done].
  destruct Hx as (? & ? & ? & ?). done.
Qed.
End Views.

(** Proves that a composed step only observes. *)
Ltac observes_step :=
  repeat first
    [ eassumption
    | apply observes_ret
    | apply observes_try; [|intros ?]
    | apply consistent_read_observes; assumption
    | apply server_query_observes; assumption
    | apply catalog_query_observes; assumption
    | match goal with |- observes (match ?x with _ => _ end) => destruct x end ].

Section Detection.
Context `{RustDebug, MyEnv, MyServer}.

Lemma detect_observes : isolated -> append_only -> observes detect_on_connection.
Proof. intros Hi Ha. unfold detect_on_connection. observes_step. Qed.
End Detection.

(** ** Rows this transaction inserted *)

Section OwnRows.
Context {T : Type}.

Lemma upsert_elem {R} (key : R -> Z) r table : r ∈ upsert key r table.
Proof.
  enough (row_at key (key r) (upsert key r table) = Some r) as Hr by (by apply row_at_Some in Hr as [? _]).
  by rewrite row_at_upsert, Z.eqb_refl.
Qed.

Lemma own_event_elem (o : Own T) r keys db : r ∈ events (overlay (own_app o (MkOwn [r] [] keys)) db).
Proof.
  unfold overlay, own_app, upsert_all. cbn [events own_events own_deliveries own_locks].
  rewrite fold_left_app. apply upsert_elem.
Qed.

(** An identity is stored once. *)
Lemma event_identity_unique (db : Db_of T) a b :
  db_wf db -> a ∈ events db -> b ∈ events db -> event_identity a = event_identity b -> a = b.
Proof.
  intros (_ & _ & _ & _ & Hnd & _) Ha Hb He.
  apply list_elem_of_lookup in Ha as [i Hi]. apply list_elem_of_lookup in Hb as [j Hj].
  enough (i = j) by congruence. eapply NoDup_lookup; [exact Hnd|..].
  - rewrite list_lookup_fmap, Hi. reflexivity.
  - rewrite list_lookup_fmap, Hj. simpl. by rewrite He.
Qed.

(** A delivery's event is stored. *)
Lemma delivery_event_key (db : Db_of T) d :
  db_wf db -> d ∈ deliveries db -> Deliveries.event_row_id d ∈ event_keys db.
Proof.
  intros (_ & _ & _ & _ & _ & Hf) Hd. rewrite Forall_forall in Hf. destruct (Hf d Hd) as (e & He & Hk & _).
  rewrite <- Hk. by apply list_elem_of_fmap_2.
Qed.

Lemma event_keys_overlay (o : Own T) db k : k ∈ event_keys db -> k ∈ event_keys (overlay o db).
Proof.
  unfold event_keys, overlay, upsert_all. cbn [events]. generalize (events db) as t.
  induction (own_events o) as [|r rows IH]; intros t Hk; [done|]. simpl. apply IH, upsert_keys. by right.
Qed.
End OwnRows.

(** No delivery of a row id that was free when this transaction took and locked it. *)
Section NewKey.
Context `{MyEnv}.
Context (Hisolated : isolated) (Happend : append_only).

Lemma no_delivery_of_new_key (o : Own Z) k db1 v d :
  db_wf db1 -> db_wf (overlay o db1) -> k ∉ event_keys (overlay o db1) ->
  db_wf v -> (events v ⊆ events db1 \/ during [k] db1 v) ->
  d ∈ deliveries (overlay o v) -> Deliveries.event_row_id d <> k.
Proof.
  intros Hw1 Ho1 Hk Hv Hor Hin Heq.
  assert (Hdk : row_at Deliveries.event_row_id k (deliveries (overlay o v)) <> None).
  { intros Hn. apply row_at_None in Hn. apply Hn. rewrite <- Heq. by apply list_elem_of_fmap_2. }
  unfold overlay in Hdk. cbn [deliveries] in Hdk. rewrite row_at_upsert_all in Hdk.
  destruct (row_at Deliveries.event_row_id k (rev (own_deliveries o))) as [d'|] eqn:E.
  - assert (Hd' : row_at Deliveries.event_row_id k (deliveries (overlay o db1)) = Some d').
    { unfold overlay. cbn [deliveries]. by rewrite row_at_upsert_all, E. }
    apply row_at_Some in Hd' as [Hd' <-]. by apply Hk, (delivery_event_key _ d').
  - clear Hin Heq. destruct Hor as [Hsub|Hdv].
    + destruct (row_at Deliveries.event_row_id k (deliveries v)) as [d'|] eqn:E'; [|done].
      apply row_at_Some in E' as [Hd' Hkd]. apply Hk, event_keys_overlay.
      pose proof (delivery_event_key _ _ Hv Hd') as Hkk.
      rewrite Hkd in Hkk. apply list_elem_of_fmap in Hkk as (e & -> & He).
      apply list_elem_of_fmap_2. by apply Hsub.
    + rewrite (during_locked Hisolated _ _ _ k Hw1 Hdv) in Hdk by set_solver.
      destruct (row_at Deliveries.event_row_id k (deliveries db1)) as [d2|] eqn:E2; [|done].
      apply row_at_Some in E2 as [Hd2 <-]. by apply Hk, event_keys_overlay, delivery_event_key.
Qed.
End NewKey.
