(* ===== verification/MySchema.v ===== *)
(** * The schema check of the MySQL adapter (crates/dovecote-sqlx-mysql/src/schema.rs, schema/catalog.rs)

    The information schema of the connection as its queries report it, the check
    of every table, column, constraint, trigger and index against the contracts of
    the shipped schema, and what the check accepts. *)

From S2P Require Import Prelude Step Utf8 Text Errors RowHydration Tables Queries Overlay Others Instants External Migration MyError My MyBackend MyNormalize MyContracts MyRows.

Module SchemaMarker.
Record t : Type := Make {
  schema_version : Z;
  minimum_crate_major : Z;
  minimum_crate_minor : Z;
  minimum_crate_patch : Z;
  rolling_compatible : bool;
}.

#[global] Instance eq_dec : EqDecision t.
Proof. solve_decision. Defined.
End SchemaMarker.

Module TriggerInfo.
Record t : Type := Make {
  trigger_name : string;
  event_manipulation : string;
  action_timing : string;
  event_object_table : string;
  action_statement : string;
}.
End TriggerInfo.

Module TableInfo.
Record t : Type := Make {
  table_name : string;
  engine : option string;
  table_type : string;
}.
End TableInfo.

Module ColumnInfo.
Record t : Type := Make {
  column_name : string;
  data_type : string;
  column_type : string;
  character_maximum_length : option Z;
  is_nullable : string;
  column_default : option string;
  extra : string;
  generation_expression : option string;
}.
End ColumnInfo.

Module ConstraintInfo.
Record t : Type := Make {
  table_name : string;
  constraint_name : string;
  constraint_type : string;
}.
End ConstraintInfo.

Module CheckInfo.
Record t : Type := Make { constraint_name : string; check_clause : string }.
End CheckInfo.

Module KeyColumn.
Record t : Type := Make {
  constraint_name : string;
  column_name : string;
  referenced_table_name : option string;
  referenced_column_name : option string;
}.
End KeyColumn.

Module IndexInfo.
Record t : Type := Make {
  table_name : string;
  index_name : string;
  non_unique : Z;
  seq_in_index : Z;
  column_name : string;
  index_type : string;
  sub_part : option Z;
}.
End IndexInfo.

(** What the catalog queries answer: the rows of [dovecote_schema], unless there is
    no such table; the tables, constraints and CHECKs of the database; the
    columns of a table; the collation of [dovecote_events.extensions], if there is
    such a column and if it has one; the key columns and indexes of the two domain
    tables in the order of their queries; the delete rule of the foreign key; and
    the triggers on the two tables. A row that does not decode, as that of an index
    over an expression, fails its query. *)
Record Catalog : Type := MkCatalog {
  markers : option (list SchemaMarker.t);
  tables_of : list TableInfo.t;
  columns_of : string -> list ColumnInfo.t;
  extension_collation : option (option string);
  constraints_of : list ConstraintInfo.t;
  checks_of : list CheckInfo.t;
  keys_of : list KeyColumn.t;
  delete_rule : option string;
  triggers_of : list TriggerInfo.t;
  indexes_of : list IndexInfo.t;
}.

(** The catalog at each statement. *)
Class MyCatalogEnv := { catalog : nat -> Catalog }.

Definition migration_mismatch (detail : string) : SchemaError.t :=
  SchemaError.MigrationMismatch detail.

(** ** The rows of each query *)

Definition is_innodb (table : TableInfo.t) : bool :=
  bool_decide (TableInfo.table_type table = "BASE TABLE")
  && bool_decide (TableInfo.engine table = Some "InnoDB").

Definition table_named (name : string) (tables : list TableInfo.t) : option TableInfo.t :=
  find (fun table => bool_decide (TableInfo.table_name table = name)) tables.

(** The body of the loop over the two tables. *)
Definition check_table (tables : list TableInfo.t) (name : string) : Result unit SchemaError.t :=
  match table_named name tables with
  | None => Err (migration_mismatch ("required table " +:+ name +:+ " is missing"))
  | Some table =>
      if negb (is_innodb table)
      then Err (migration_mismatch ("table " +:+ name +:+ " must be an InnoDB base table"))
      else Ok tt
  end.

Definition default_matches (spec : ColumnSpec.t) (actual : option string) : bool :=
  match ColumnSpec.default spec with
  | Some expected => is_some_and actual (fun value => bool_decide (normalize value = normalize expected))
  | None => is_none_or actual (fun value =>
              ColumnSpec.nullable spec && bool_decide (normalize value = "null"))
  end.

Definition non_generated_metadata_matches (extra : string) (expression : option string)
    (identity has_expected_default : bool) : bool :=
  let extra := trim extra in
  let extra_matches :=
    is_empty extra
    || (has_expected_default && eq_ignore_ascii_case extra "DEFAULT_GENERATED")
    || (identity && eq_ignore_ascii_case extra "AUTO_INCREMENT") in
  extra_matches
  && is_none_or expression (all_bytes (fun byte => is_ascii_whitespace (byte_val byte))).

Definition generated_matches (spec : ColumnSpec.t) (actual : ColumnInfo.t) : bool :=
  match ColumnSpec.generated spec, ColumnSpec.generation_expression spec with
  | Some expected_extra, Some expected_expression =>
      eq_ignore_ascii_case (ColumnInfo.extra actual) expected_extra
      && is_some_and (ColumnInfo.generation_expression actual) (fun actual =>
           bool_decide (normalize_generated_expression actual
                        = normalize_generated_expression expected_expression))
  | None, None =>
      non_generated_metadata_matches (ColumnInfo.extra actual)
        (ColumnInfo.generation_expression actual) (ColumnSpec.identity spec)
        (negb (is_none (ColumnSpec.default spec)))
  | _, _ => false
  end.

Definition size_matches (spec : ColumnSpec.t) (actual : ColumnInfo.t) : bool :=
  if bool_decide (ColumnSpec.data_type spec = "binary") then
    is_some_and (ColumnSpec.max spec) (fun size =>
      eq_ignore_ascii_case (ColumnInfo.column_type actual) ("binary(" +:+ pretty size +:+ ")"))
  else is_none (ColumnSpec.max spec)
       || bool_decide (ColumnInfo.character_maximum_length actual = ColumnSpec.max spec).

Definition precision_matches (spec : ColumnSpec.t) (actual : ColumnInfo.t) : bool :=
  if bool_decide (ColumnSpec.data_type spec = "datetime")
  then eq_ignore_ascii_case (ColumnInfo.column_type actual) "datetime(6)" else true.

Definition identity_matches (spec : ColumnSpec.t) (actual : ColumnInfo.t) : bool :=
  Bool.eqb (eq_ignore_ascii_case (trim (ColumnInfo.extra actual)) "auto_increment")
    (ColumnSpec.identity spec).

Definition exact_type_matches (spec : ColumnSpec.t) (actual : ColumnInfo.t) : bool :=
  is_none_or (ColumnSpec.exact_column_type spec)
    (fun expected => eq_ignore_ascii_case (ColumnInfo.column_type actual) expected).

(** The body of the loop over the specifications. *)
Definition check_column (table : string) (columns : list ColumnInfo.t) (spec : ColumnSpec.t) :
    Result unit SchemaError.t :=
  match find (fun column => bool_decide (ColumnInfo.column_name column = ColumnSpec.name spec))
          columns with
  | None => Err (migration_mismatch ("required column " +:+ table +:+ "." +:+ ColumnSpec.name spec
                                     +:+ " is missing"))
  | Some actual =>
      if negb (bool_decide (ColumnInfo.data_type actual = ColumnSpec.data_type spec))
         || contains "unsigned" (to_ascii_lowercase (ColumnInfo.column_type actual))
         || negb (size_matches spec actual) || negb (precision_matches spec actual)
         || negb (exact_type_matches spec actual)
         || negb (Bool.eqb (bool_decide (ColumnInfo.is_nullable actual = "YES"))
                    (ColumnSpec.nullable spec))
         || negb (identity_matches spec actual) || negb (generated_matches spec actual)
         || negb (default_matches spec (ColumnInfo.column_default actual))
      then Err (migration_mismatch ("column " +:+ table +:+ "." +:+ ColumnSpec.name spec
                                    +:+ " is incompatible"))
      else Ok tt
  end.

(** [check_columns] after its query *)
Definition check_column_rows (table : string) (expected : list ColumnSpec.t)
    (columns : list ColumnInfo.t) : Result unit SchemaError.t :=
  if negb (length columns =? length expected)%nat
  then Err (migration_mismatch ("table " +:+ table +:+ " has unexpected columns"))
  else all_ok (check_column table columns) expected.

Definition events_columns : list ColumnSpec.t :=
  [ColumnSpec.required "row_id" "bigint" None true;
   ColumnSpec.required "tenant_id" "varbinary" (Some 255) false;
   ColumnSpec.required "stream" "varbinary" (Some 255) false;
   ColumnSpec.required "specversion" "varbinary" (Some 8) false;
   ColumnSpec.required "event_id" "varbinary" (Some 1024) false;
   ColumnSpec.required "source" "varbinary" (Some 2048) false;
   ColumnSpec.required "event_type" "varbinary" (Some 1024) false;
   ColumnSpec.optional "subject" "varbinary" (Some 2048);
   ColumnSpec.optional "occurred_at" "datetime" None;
   ColumnSpec.optional "datacontenttype" "varbinary" (Some 255);
   ColumnSpec.optional "dataschema" "varbinary" (Some 2048);
   ColumnSpec.optional "partitionkey" "varbinary" (Some 255);
   ColumnSpec.required "extensions" "longtext" None false;
   ColumnSpec.optional "data_kind" "varbinary" (Some 6);
   ColumnSpec.optional "data" "longblob" None;
   ColumnSpec.required_default "enqueued_at" "datetime" "CURRENT_TIMESTAMP(6)";
   ColumnSpec.stored_generated "identity_key" "varbinary" (Some 2310)
     IDENTITY_KEY_GENERATION_EXPRESSION].

Definition deliveries_columns : list ColumnSpec.t :=
  [ColumnSpec.required "event_row_id" "bigint" None false;
   ColumnSpec.required "tenant_id" "varbinary" (Some 255) false;
   ColumnSpec.required "state" "varbinary" (Some 12) false;
   ColumnSpec.required_default "available_at" "datetime" "CURRENT_TIMESTAMP(6)";
   ColumnSpec.required_default "attempts" "bigint" "0";
   ColumnSpec.optional "claim_token" "binary" (Some 16);
   ColumnSpec.optional "claimed_by" "varbinary" (Some 255);
   ColumnSpec.optional "claim_expires_at" "datetime" None;
   ColumnSpec.optional "last_failure_code" "varbinary" (Some 128);
   ColumnSpec.optional "last_failure_detail" "varbinary" (Some 2048);
   ColumnSpec.optional "delivered_at" "datetime" None;
   ColumnSpec.optional "quarantined_at" "datetime" None;
   ColumnSpec.optional "quarantine_reason" "varbinary" (Some 2048)].

(** The constraints of the marker table. *)
Definition check_marker_constraints (constraints : list ConstraintInfo.t) : Result unit SchemaError.t :=
  if negb (length constraints =? length MARKER_CHECK_NAMES + 1)%nat
     || negb (existsb (fun constraint =>
                bool_decide (ConstraintInfo.constraint_name constraint = "PRIMARY")
                && bool_decide (ConstraintInfo.constraint_type constraint = "PRIMARY KEY")) constraints)
  then Err (migration_mismatch "Dovecote schema marker has unexpected constraints")
  else Ok tt.

(** The body of the loops over the names of CHECKs; [what] words the error. *)
Definition check_clause_of (what : string) (plausible : string -> string -> bool)
    (checks : list CheckInfo.t) (name : string) : Result unit SchemaError.t :=
  match find (fun check => bool_decide (CheckInfo.constraint_name check = name)) checks with
  | None => Err (migration_mismatch ("required " +:+ what +:+ "CHECK constraint " +:+ name +:+ " is missing"))
  | Some check =>
      if negb (plausible name (CheckInfo.check_clause check))
      then Err (migration_mismatch (what +:+ "CHECK constraint " +:+ name +:+ " is incompatible"))
      else Ok tt
  end.

(** The constraints the domain tables must have, besides the CHECKs: table, name
    and type. *)
Definition required_constraints : list (string * string * string) :=
  [("dovecote_events", "PRIMARY", "PRIMARY KEY");
   ("dovecote_deliveries", "PRIMARY", "PRIMARY KEY");
   ("dovecote_events", "dovecote_events_tenant_source_event_id", "UNIQUE");
   ("dovecote_events", "dovecote_events_tenant_row_unique", "UNIQUE");
   ("dovecote_deliveries", "dovecote_deliveries_event_fk", "FOREIGN KEY")].

Definition check_required_constraint (constraints : list ConstraintInfo.t)
    (required : string * string * string) : Result unit SchemaError.t :=
  let '(table, name, kind) := required in
  if negb (existsb (fun c => bool_decide (ConstraintInfo.table_name c = table)
                             && bool_decide (ConstraintInfo.constraint_name c = name)
                             && bool_decide (ConstraintInfo.constraint_type c = kind)) constraints)
  then Err (migration_mismatch ("required constraint " +:+ table +:+ "." +:+ name
                                +:+ " is missing or incompatible"))
  else Ok tt.

(** The columns of a key of the domain tables, with what they reference. *)
Definition key_columns (name : string) (keys : list KeyColumn.t) :
    list (string * option string * option string) :=
  map (fun k => (KeyColumn.column_name k, KeyColumn.referenced_table_name k,
                 KeyColumn.referenced_column_name k))
    (List.filter (fun k => bool_decide (KeyColumn.constraint_name k = name)) keys).

Definition check_keys (keys : list KeyColumn.t) : Result unit SchemaError.t :=
  if negb (match key_columns "dovecote_events_tenant_source_event_id" keys with
           | [(column, _, _)] => bool_decide (column = "identity_key")
           | _ => false
           end)
  then Err (migration_mismatch "identity constraint must cover identity_key")
  else if negb (match key_columns "dovecote_events_tenant_row_unique" keys with
                | [(first, _, _); (second, _, _)] =>
                    bool_decide (first = "tenant_id") && bool_decide (second = "row_id")
                | _ => false
                end)
  then Err (migration_mismatch "tenant row constraint must cover tenant_id,row_id in order")
  else if negb (match key_columns "dovecote_deliveries_event_fk" keys with
                | [first; second] =>
                    bool_decide (first = ("tenant_id", Some "dovecote_events", Some "tenant_id"))
                    && bool_decide (second = ("event_row_id", Some "dovecote_events", Some "row_id"))
                | _ => false
                end)
  then Err (migration_mismatch "delivery foreign key is incompatible")
  else Ok tt.

Definition check_delete_rule (reference : option string) : Result unit SchemaError.t :=
  if is_none_or reference (fun value => negb (bool_decide (value = "RESTRICT")))
  then Err (migration_mismatch "delivery foreign key must use ON DELETE RESTRICT")
  else Ok tt.

(** A trigger before [event] on the events table. *)
Definition is_row_id_trigger (name event kind : string) (trigger : TriggerInfo.t) : bool :=
  bool_decide (TriggerInfo.trigger_name trigger = name)
  && bool_decide (TriggerInfo.event_manipulation trigger = event)
  && bool_decide (TriggerInfo.action_timing trigger = "BEFORE")
  && bool_decide (TriggerInfo.event_object_table trigger = "dovecote_events")
  && trigger_action_matches kind (TriggerInfo.action_statement trigger).

(** [check_triggers] after its query *)
Definition check_trigger_rows (triggers : list TriggerInfo.t) : Result unit SchemaError.t :=
  if negb (length triggers =? 2)%nat
     || existsb (fun trigger =>
          bool_decide (TriggerInfo.event_object_table trigger = "dovecote_deliveries")) triggers
     || negb (existsb (is_row_id_trigger "dovecote_events_row_id_positive_insert" "INSERT" "insert") triggers)
     || negb (existsb (is_row_id_trigger "dovecote_events_row_id_positive_update" "UPDATE" "update") triggers)
  then Err (migration_mismatch "Dovecote row_id positivity triggers are missing")
  else Ok tt.

(** The indexes the domain tables must have: name, table, uniqueness and columns. *)
Definition expected_indexes : list (string * string * bool * list string) :=
  [("dovecote_events_tenant_source_event_id", "dovecote_events", true, ["identity_key"]);
   ("dovecote_events_tenant_row_unique", "dovecote_events", true, ["tenant_id"; "row_id"]);
   ("dovecote_deliveries_event_fk", "dovecote_deliveries", false, ["tenant_id"; "event_row_id"]);
   ("dovecote_deliveries_claimable", "dovecote_deliveries", false,
    ["tenant_id"; "state"; "available_at"; "event_row_id"]);
   ("dovecote_deliveries_expired_claims", "dovecote_deliveries", false,
    ["tenant_id"; "state"; "claim_expires_at"; "event_row_id"])].

(** The [n]th column of an index. *)
Definition index_column_matches (table : string) (unique : bool) (n : nat) (column : string)
    (i : IndexInfo.t) : bool :=
  bool_decide (IndexInfo.table_name i = table) && bool_decide (IndexInfo.column_name i = column)
  && (IndexInfo.seq_in_index i =? Z.of_nat n + 1)
  && (IndexInfo.non_unique i =? (if negb unique then 1 else 0))
  && bool_decide (IndexInfo.index_type i = "BTREE") && is_none (IndexInfo.sub_part i).

(** The rows of an index against its columns, from the [n]th on. *)
Fixpoint index_columns_match (table : string) (unique : bool) (n : nat) (columns : list string)
    (actual : list IndexInfo.t) : bool :=
  match columns, actual with
  | [], [] => true
  | column :: columns, i :: actual =>
      index_column_matches table unique n column i
      && index_columns_match table unique (S n) columns actual
  | _, _ => false
  end.

Definition check_index (indexes : list IndexInfo.t) (expected : string * string * bool * list string) :
    Result unit SchemaError.t :=
  let '(name, table, unique, columns) := expected in
  let actual := List.filter (fun i => bool_decide (IndexInfo.index_name i = name)) indexes in
  if negb (index_columns_match table unique 0 columns actual)
  then Err (migration_mismatch ("index " +:+ name +:+ " is missing or incompatible"))
  else Ok tt.

(** [check_indexes] after its query *)
Definition check_index_rows (indexes : list IndexInfo.t) : Result unit SchemaError.t :=
  if existsb (fun i => negb (bool_decide (IndexInfo.index_name i = "PRIMARY"))
                       && negb (existsb (fun e => bool_decide (IndexInfo.index_name i = e.1.1.1))
                                  expected_indexes)) indexes
  then Err (migration_mismatch "Dovecote has unexpected indexes")
  else all_ok (check_index indexes) expected_indexes.

(** ** The queries, in their order *)

Section Check.
Context `{RustDebug, MyEnv, MyServer, MyCatalogEnv}.
(** the text of migrations/0002_dovecote_tenant_baseline.sql *)
Context (tenant_baseline_sql : string).

Definition schema_query {A} (operation : string) (f : Catalog -> A) :
    M (Result A SchemaError.t) :=
  try* rows := catalog_query (fun n _ => f (catalog n)) else SchemaError.sql operation in
  ret (Ok rows).

(** The error of a SELECT on a table that is not there *)
Definition no_such_table : SqlxError.t :=
  SqlxError.MySql 1146 (Some "42S02") "Table 'dovecote_schema' doesn't exist".

Definition marker_matches (marker : SchemaMarker.t) (migration : Migration.t) : bool :=
  let minimum := MigrationCompatibility.minimum (Migration.compatibility migration) in
  (SchemaMarker.schema_version marker =? Migration.version migration)
  && (SchemaMarker.minimum_crate_major marker =? CrateVersion.major minimum)
  && (SchemaMarker.minimum_crate_minor marker =? CrateVersion.minor minimum)
  && (SchemaMarker.minimum_crate_patch marker =? CrateVersion.patch minimum)
  && Bool.eqb (SchemaMarker.rolling_compatible marker) (Migration.rolling_compatible migration).

(** [check_schema_marker] after its query *)
Definition check_markers (rows : option (list SchemaMarker.t)) : Result unit SchemaError.t :=
  match rows with
  | None => Err (SchemaError.sql "check schema marker" no_such_table)
  | Some [marker] =>
      let? migration := map_err migration_mismatch (current_migration tenant_baseline_sql) in
      if negb (marker_matches marker migration)
      then Err (migration_mismatch "schema marker is incompatible with this adapter") else Ok tt
  | Some rows => Err (migration_mismatch ("expected exactly one schema marker row, found "
                                          +:+ pretty (Z.of_nat (length rows))))
  end.

Definition check_schema_marker : M (Result unit SchemaError.t) :=
  try* rows := consistent_read (fun n _ => markers (catalog n))
       else SchemaError.sql "check schema marker" in
  ret (check_markers rows).

Definition check_columns (table : string) (expected : list ColumnSpec.t) :
    M (Result unit SchemaError.t) :=
  try* columns := schema_query "check Dovecote columns" (fun c => columns_of c table)
       else (fun e => e) in
  ret (check_column_rows table expected columns).

Definition marker_constraints (c : Catalog) : list ConstraintInfo.t :=
  List.filter (fun k => bool_decide (ConstraintInfo.table_name k = "dovecote_schema")) (constraints_of c).
Definition domain_constraints (c : Catalog) : list ConstraintInfo.t :=
  List.filter (fun k => bool_decide (ConstraintInfo.table_name k ∈ ["dovecote_events"; "dovecote_deliveries"]))
    (constraints_of c).
Definition domain_triggers (c : Catalog) : list TriggerInfo.t :=
  List.filter (fun t => bool_decide (TriggerInfo.event_object_table t ∈ ["dovecote_events"; "dovecote_deliveries"]))
    (triggers_of c).
Definition domain_tables (c : Catalog) : list TableInfo.t :=
  List.filter (fun t => bool_decide (TableInfo.table_name t ∈ ["dovecote_events"; "dovecote_deliveries"]))
    (tables_of c).

Definition check_marker_row (marker : option TableInfo.t) : Result unit SchemaError.t :=
  match marker with
  | None => Err (migration_mismatch "required table dovecote_schema is missing")
  | Some marker =>
      if negb (is_innodb marker)
      then Err (migration_mismatch "table dovecote_schema must be an InnoDB base table") else Ok tt
  end.

Definition check_marker_table : M (Result unit SchemaError.t) :=
  try* marker := schema_query "check Dovecote schema marker table"
                   (fun c => table_named "dovecote_schema" (tables_of c)) else (fun e => e) in
  try* _ := ret (check_marker_row marker) else (fun e => e) in
  try* _ := check_columns "dovecote_schema" marker_columns else (fun e => e) in
  try* constraints := schema_query "check Dovecote schema marker constraints" marker_constraints
       else (fun e => e) in
  try* _ := ret (check_marker_constraints constraints) else (fun e => e) in
  try* checks := schema_query "check Dovecote schema marker CHECK constraints" checks_of
       else (fun e => e) in
  ret (all_ok (check_clause_of "schema marker " marker_check_clause_is_plausible checks)
         MARKER_CHECK_NAMES).

(** The collation read into a [String]. *)
Definition check_collation (rows : option (option string)) : Result unit SchemaError.t :=
  match rows with
  | Some None => Err (SchemaError.sql "check extension collation" unexpected_null)
  | Some (Some collation) =>
      if negb (bool_decide (collation = "utf8mb4_bin"))
      then Err (migration_mismatch "dovecote_events.extensions must use utf8mb4_bin") else Ok tt
  | None => Err (migration_mismatch "dovecote_events.extensions must use utf8mb4_bin")
  end.

Definition check_tables_and_columns : M (Result unit SchemaError.t) :=
  try* _ := check_marker_table else (fun e => e) in
  try* tables := schema_query "check Dovecote tables" domain_tables else (fun e => e) in
  try* _ := ret (all_ok (check_table tables) ["dovecote_events"; "dovecote_deliveries"])
       else (fun e => e) in
  try* _ := check_columns "dovecote_events" events_columns else (fun e => e) in
  try* collation := schema_query "check extension collation" extension_collation else (fun e => e) in
  try* _ := ret (check_collation collation) else (fun e => e) in
  check_columns "dovecote_deliveries" deliveries_columns.

Definition check_constraint_count (constraints : list ConstraintInfo.t) : Result unit SchemaError.t :=
  if negb (length constraints =? length CHECK_NAMES + 5)%nat
  then Err (migration_mismatch "Dovecote has unexpected constraints") else Ok tt.

Definition check_constraints : M (Result unit SchemaError.t) :=
  try* constraints := schema_query "check Dovecote constraints" domain_constraints else (fun e => e) in
  try* _ := ret (all_ok (check_required_constraint constraints) required_constraints)
       else (fun e => e) in
  try* checks := schema_query "check Dovecote CHECK constraints" checks_of else (fun e => e) in
  try* _ := ret (check_constraint_count constraints) else (fun e => e) in
  try* _ := ret (all_ok (check_clause_of EmptyString check_clause_is_plausible checks) CHECK_NAMES)
       else (fun e => e) in
  try* keys := schema_query "check Dovecote constraint columns" keys_of else (fun e => e) in
  try* _ := ret (check_keys keys) else (fun e => e) in
  try* reference := schema_query "check delivery foreign key action" delete_rule else (fun e => e) in
  ret (check_delete_rule reference).

Definition check_triggers : M (Result unit SchemaError.t) :=
  try* triggers := schema_query "check Dovecote row_id triggers" domain_triggers else (fun e => e) in
  ret (check_trigger_rows triggers).

Definition check_indexes : M (Result unit SchemaError.t) :=
  try* indexes := schema_query "check Dovecote indexes" indexes_of else (fun e => e) in
  ret (check_index_rows indexes).

Definition check_schema_connection : M (Result unit SchemaError.t) :=
  try* _ := detect_on_connection else (fun e => e) in
  try* _ := check_schema_marker else (fun e => e) in
  try* _ := check_tables_and_columns else (fun e => e) in
  try* _ := ret (map_err migration_mismatch (current_migration tenant_baseline_sql))
       else (fun e => e) in
  try* _ := check_constraints else (fun e => e) in
  try* _ := check_triggers else (fun e => e) in
  check_indexes.

Definition check_schema : M (Result unit SchemaError.t) :=
  try* _ := acquire else SchemaError.sql "acquire schema-check connection" in
  check_schema_connection.
End Check.

(** ** What the check accepts *)

(** The first row of a name. *)
Definition named {A} (name : A -> string) (k : string) (P : A -> Prop) (rows : list A) : Prop :=
  exists a, find (fun a => bool_decide (name a = k)) rows = Some a /\ P a.

Definition innodb (table : TableInfo.t) : Prop :=
  TableInfo.table_type table = "BASE TABLE" /\ TableInfo.engine table = Some "InnoDB".

Record column_fits (spec : ColumnSpec.t) (column : ColumnInfo.t) : Prop := {
  cf_data_type : ColumnInfo.data_type column = ColumnSpec.data_type spec;
  cf_signed : contains "unsigned" (to_ascii_lowercase (ColumnInfo.column_type column)) = false;
  cf_size :
    match ColumnSpec.max spec with
    | Some size =>
        if bool_decide (ColumnSpec.data_type spec = "binary")
        then to_ascii_lowercase (ColumnInfo.column_type column)
             = to_ascii_lowercase ("binary(" +:+ pretty size +:+ ")")
        else ColumnInfo.character_maximum_length column = Some size
    | None => ColumnSpec.data_type spec <> "binary"
    end;
  cf_precision : ColumnSpec.data_type spec = "datetime" ->
    to_ascii_lowercase (ColumnInfo.column_type column) = "datetime(6)";
  cf_exact ty : ColumnSpec.exact_column_type spec = Some ty ->
    to_ascii_lowercase (ColumnInfo.column_type column) = to_ascii_lowercase ty;
  cf_nullable : ColumnInfo.is_nullable column = "YES" <-> ColumnSpec.nullable spec = true;
  cf_identity : to_ascii_lowercase (trim (ColumnInfo.extra column)) = "auto_increment" <->
    ColumnSpec.identity spec = true;
  cf_generated : generated_matches spec column = true;
  cf_default :
    match ColumnSpec.default spec with
    | Some expected => exists value, ColumnInfo.column_default column = Some value /\
        normalize value = normalize expected
    | None => forall value, ColumnInfo.column_default column = Some value ->
        ColumnSpec.nullable spec = true /\ normalize value = "null"
    end;
}.

Definition table_fits (c : Catalog) (table : string) (expected : list ColumnSpec.t) : Prop :=
  length (columns_of c table) = length expected /\
  Forall (fun spec => named ColumnInfo.column_name (ColumnSpec.name spec) (column_fits spec)
                        (columns_of c table)) expected.

(** The CHECK of a name is shown in one of its forms. *)
Definition check_fits (forms : string -> list string) (checks : list CheckInfo.t) (name : string) : Prop :=
  named CheckInfo.constraint_name name (fun check => exists form, form ∈ forms name /\
    normalize_check_clause name (CheckInfo.check_clause check) = normalize_check_clause name form) checks.

(** The rows of an index. *)
Definition index_rows (expected : string * string * bool * list string) : list IndexInfo.t :=
  let '(name, table, unique, columns) := expected in
  imap (fun n column => IndexInfo.Make table name (if negb unique then 1 else 0) (Z.of_nat n + 1) column
                          "BTREE" None) columns.

(** the marker row of the shipped migration *)
Definition shipped_marker : SchemaMarker.t := SchemaMarker.Make 2 0 2 0 false.

(** The catalog of the shipped schema. *)
Record schema_ok (c : Catalog) : Prop := {
  ok_marker : markers c = Some [shipped_marker];
  ok_marker_table : named TableInfo.table_name "dovecote_schema" innodb (tables_of c);
  ok_marker_columns : table_fits c "dovecote_schema" marker_columns;
  ok_marker_constraints : length (marker_constraints c) = 3%nat /\
    exists k, k ∈ marker_constraints c /\ ConstraintInfo.constraint_name k = "PRIMARY" /\
      ConstraintInfo.constraint_type k = "PRIMARY KEY";
  ok_marker_checks : Forall (check_fits marker_forms (checks_of c)) MARKER_CHECK_NAMES;
  ok_tables : Forall (fun name => named TableInfo.table_name name innodb (domain_tables c))
                ["dovecote_events"; "dovecote_deliveries"];
  ok_event_columns : table_fits c "dovecote_events" events_columns;
  ok_collation : extension_collation c = Some (Some "utf8mb4_bin");
  ok_delivery_columns : table_fits c "dovecote_deliveries" deliveries_columns;
  ok_required : Forall (fun '(table, name, kind) =>
    ConstraintInfo.Make table name kind ∈ domain_constraints c) required_constraints;
  ok_count : length (domain_constraints c) = 31%nat;
  ok_checks : Forall (check_fits forms (checks_of c)) CHECK_NAMES;
  ok_identity : exists r s,
    key_columns "dovecote_events_tenant_source_event_id" (keys_of c) = [("identity_key", r, s)];
  ok_tenant_row : exists r1 s1 r2 s2,
    key_columns "dovecote_events_tenant_row_unique" (keys_of c)
    = [("tenant_id", r1, s1); ("row_id", r2, s2)];
  ok_foreign_key : key_columns "dovecote_deliveries_event_fk" (keys_of c)
    = [("tenant_id", Some "dovecote_events", Some "tenant_id");
       ("event_row_id", Some "dovecote_events", Some "row_id")];
  ok_delete_rule : delete_rule c = Some "RESTRICT";
  ok_triggers : length (domain_triggers c) = 2%nat /\
    (forall t, t ∈ domain_triggers c -> TriggerInfo.event_object_table t <> "dovecote_deliveries") /\
    (exists t, t ∈ domain_triggers c /\
       is_row_id_trigger "dovecote_events_row_id_positive_insert" "INSERT" "insert" t = true) /\
    (exists t, t ∈ domain_triggers c /\
       is_row_id_trigger "dovecote_events_row_id_positive_update" "UPDATE" "update" t = true);
  ok_index_names : forall i, i ∈ indexes_of c ->
    IndexInfo.index_name i = "PRIMARY" \/ exists e, e ∈ expected_indexes /\ IndexInfo.index_name i = e.1.1.1;
  ok_indexes : Forall (fun e => List.filter (fun i => bool_decide (IndexInfo.index_name i = e.1.1.1))
                                  (indexes_of c) = index_rows e) expected_indexes;
}.

Section Accepts.

Lemma existsb_elem {A} (p : A -> bool) l : existsb p l = true <-> exists a, a ∈ l /\ p a = true.
Proof.
  rewrite existsb_exists. split; intros (a & Ha & Hp); exists a; by rewrite list_elem_of_In in *.
Qed.

Lemma existsb_none {A} (p : A -> bool) l : existsb p l = false <-> forall a, a ∈ l -> p a = false.
Proof.
  rewrite <- not_true_iff_false, existsb_elem. split.
  - intros Hn a Ha. destruct (p a) eqn:E; [|done]. destruct Hn. by exists a.
  - intros Hn (a & Ha & Hp). rewrite Hn in Hp; done.
Qed.

Lemma is_innodb_true table : is_innodb table = true <-> innodb table.
Proof. unfold is_innodb, innodb. by rewrite andb_true_iff, !bool_decide_eq_true. Qed.

Lemma check_table_Ok tables name :
  check_table tables name = Ok tt <-> named TableInfo.table_name name innodb tables.
Proof.
  unfold check_table, table_named, named. destruct (find _ tables) as [t|]; [|naive_solver].
  pose proof (is_innodb_true t). destruct (is_innodb t); naive_solver.
Qed.

Lemma size_matches_true spec column :
  size_matches spec column = true <->
  match ColumnSpec.max spec with
  | Some size =>
      if bool_decide (ColumnSpec.data_type spec = "binary")
      then to_ascii_lowercase (ColumnInfo.column_type column)
           = to_ascii_lowercase ("binary(" +:+ pretty size +:+ ")")
      else ColumnInfo.character_maximum_length column = Some size
  | None => ColumnSpec.data_type spec <> "binary"
  end.
Proof.
  unfold size_matches, eq_ignore_ascii_case.
  destruct (ColumnSpec.max spec) as [size|]; case_bool_decide; simpl; rewrite ?bool_decide_eq_true; naive_solver.
Qed.

Lemma default_matches_true spec actual :
  default_matches spec actual = true <->
  match ColumnSpec.default spec with
  | Some expected => exists value, actual = Some value /\ normalize value = normalize expected
  | None => forall value, actual = Some value -> ColumnSpec.nullable spec = true /\ normalize value = "null"
  end.
Proof.
  unfold default_matches. destruct (ColumnSpec.default spec), actual; simpl;
    rewrite ?andb_true_iff, ?bool_decide_eq_true; naive_solver.
Qed.

Lemma my_column_fits_true spec column :
  negb (bool_decide (ColumnInfo.data_type column = ColumnSpec.data_type spec))
  || contains "unsigned" (to_ascii_lowercase (ColumnInfo.column_type column))
  || negb (size_matches spec column) || negb (precision_matches spec column)
  || negb (exact_type_matches spec column)
  || negb (Bool.eqb (bool_decide (ColumnInfo.is_nullable column = "YES")) (ColumnSpec.nullable spec))
  || negb (identity_matches spec column) || negb (generated_matches spec column)
  || negb (default_matches spec (ColumnInfo.column_default column)) = false <->
  column_fits spec column.
Proof.
  rewrite !orb_false_iff, !negb_false_iff, bool_decide_eq_true, size_matches_true, default_matches_true.
  assert (Hn : Bool.eqb (bool_decide (ColumnInfo.is_nullable column = "YES")) (ColumnSpec.nullable spec)
               = true <-> (ColumnInfo.is_nullable column = "YES" <-> ColumnSpec.nullable spec = true)).
  { rewrite Bool.eqb_true_iff. case_bool_decide; destruct (ColumnSpec.nullable spec); naive_solver. }
  assert (Hp : precision_matches spec column = true <-> (ColumnSpec.data_type spec = "datetime" ->
            to_ascii_lowercase (ColumnInfo.column_type column) = "datetime(6)")).
  { unfold precision_matches, eq_ignore_ascii_case. change (to_ascii_lowercase "datetime(6)") with "datetime(6)".
    destruct (bool_decide (ColumnSpec.data_type spec = "datetime")) eqn:Ed;
      [apply bool_decide_eq_true in Ed|apply bool_decide_eq_false in Ed];
      [rewrite bool_decide_eq_true; tauto|split; [by intros _ ?|done]]. }
  assert (He : exact_type_matches spec column = true <->
            (forall ty, ColumnSpec.exact_column_type spec = Some ty ->
             to_ascii_lowercase (ColumnInfo.column_type column) = to_ascii_lowercase ty)).
  { unfold exact_type_matches, eq_ignore_ascii_case. destruct (ColumnSpec.exact_column_type spec); simpl;
      rewrite ?bool_decide_eq_true; naive_solver. }
  assert (Hi : identity_matches spec column = true <->
            (to_ascii_lowercase (trim (ColumnInfo.extra column)) = "auto_increment" <->
             ColumnSpec.identity spec = true)).
  { unfold identity_matches, eq_ignore_ascii_case.
    change (to_ascii_lowercase "auto_increment") with "auto_increment".
    rewrite Bool.eqb_true_iff. generalize (to_ascii_lowercase (trim (ColumnInfo.extra column))). intros e.
    destruct (bool_decide (e = "auto_increment")) eqn:Ee;
      [apply bool_decide_eq_true in Ee|apply bool_decide_eq_false in Ee];
      destruct (ColumnSpec.identity spec); intuition congruence. }
  rewrite Hn, Hp, He, Hi. split.
  - intros [[[[[[[[? ?] ?] ?] ?] ?] ?] ?] ?]. constructor; assumption.
  - intros [a b c d e f g h i].
    exact (conj (conj (conj (conj (conj (conj (conj (conj a b) c) d) e) f) g) h) i).
Qed.

Lemma my_check_column_Ok table columns spec :
  check_column table columns spec = Ok tt <->
  named ColumnInfo.column_name (ColumnSpec.name spec) (column_fits spec) columns.
Proof.
  unfold check_column, named. destruct (find _ columns) as [c|]; [|naive_solver].
  pose proof (my_column_fits_true spec c) as Hf.
  destruct (_ || _ || _ || _ || _ || _ || _ || _ || _); naive_solver.
Qed.

Lemma Forall_iff_in {A} (P Q : A -> Prop) l : (forall x, x ∈ l -> P x <-> Q x) -> Forall P l <-> Forall Q l.
Proof. intros Hpq. rewrite !Forall_forall. split; intros Hf x Hx; apply (Hpq x Hx); by apply Hf. Qed.

Lemma my_check_column_rows_Ok table expected columns :
  check_column_rows table expected columns = Ok tt <->
  length columns = length expected /\
  Forall (fun spec => named ColumnInfo.column_name (ColumnSpec.name spec) (column_fits spec) columns) expected.
Proof.
  unfold check_column_rows. destruct (Nat.eqb_spec (length columns) (length expected)); cbn [negb]; [|naive_solver].
  rewrite all_ok_Ok.
  rewrite (Forall_iff_in _ _ expected (fun spec _ => my_check_column_Ok table columns spec)). tauto.
Qed.

Lemma check_marker_constraints_Ok constraints :
  check_marker_constraints constraints = Ok tt <->
  length constraints = 3%nat /\
  exists k, k ∈ constraints /\ ConstraintInfo.constraint_name k = "PRIMARY" /\
    ConstraintInfo.constraint_type k = "PRIMARY KEY".
Proof.
  unfold check_marker_constraints. change (length MARKER_CHECK_NAMES + 1)%nat with 3%nat.
  destruct (Nat.eqb_spec (length constraints) 3); cbn [negb orb]; [|naive_solver].
  match goal with |- context [existsb ?p constraints] => destruct (existsb p constraints) eqn:E end;
    cbn [negb].
  - apply existsb_elem in E as (k & Hk & E). rewrite andb_true_iff, !bool_decide_eq_true in E.
    split; [|done]. intros _. split; [done|]. by exists k.
  - split; [done|]. intros [_ (k & Hk & Hn & Ht)]. rewrite existsb_none in E. specialize (E k Hk).
    simpl in E. by rewrite Hn, Ht, !bool_decide_true in E.
Qed.

Lemma check_clause_of_Ok what plausible forms checks name :
  (forall clause, plausible name clause = true <->
     exists form, form ∈ forms name /\
       normalize_check_clause name clause = normalize_check_clause name form) ->
  check_clause_of what plausible checks name = Ok tt <-> check_fits forms checks name.
Proof.
  intros Hp. unfold check_clause_of, check_fits, named. destruct (find _ checks) as [k|]; [|naive_solver].
  specialize (Hp (CheckInfo.check_clause k)). destruct (plausible _ _); naive_solver.
Qed.

Lemma checks_Ok checks :
  all_ok (check_clause_of EmptyString check_clause_is_plausible checks) CHECK_NAMES = Ok tt <->
  Forall (check_fits forms checks) CHECK_NAMES.
Proof.
  rewrite all_ok_Ok. apply Forall_iff_in. intros name Hn. apply check_clause_of_Ok. intros clause.
  by apply check_clause_forms, check_names_expected.
Qed.

Lemma marker_checks_Ok checks :
  all_ok (check_clause_of "schema marker " marker_check_clause_is_plausible checks) MARKER_CHECK_NAMES
  = Ok tt <-> Forall (check_fits marker_forms checks) MARKER_CHECK_NAMES.
Proof.
  rewrite all_ok_Ok. apply Forall_iff_in. intros name Hn. apply check_clause_of_Ok. intros clause.
  by apply marker_check_clause_forms, marker_check_names_expected.
Qed.

Lemma required_Ok constraints :
  all_ok (check_required_constraint constraints) required_constraints = Ok tt <->
  Forall (fun '(table, name, kind) => ConstraintInfo.Make table name kind ∈ constraints) required_constraints.
Proof.
  rewrite all_ok_Ok. apply Forall_iff. intros [[table name] kind]. unfold check_required_constraint.
  match goal with |- context [existsb ?p constraints] => destruct (existsb p constraints) eqn:E end; cbn [negb].
  - apply existsb_elem in E as ([] & Hk & E). simpl in E.
    rewrite !andb_true_iff, !bool_decide_eq_true in E. by destruct E as [[-> ->] ->].
  - split; [done|]. intros Hin. rewrite existsb_none in E. specialize (E _ Hin). simpl in E.
    by rewrite !bool_decide_true in E.
Qed.

Lemma check_keys_Ok keys :
  check_keys keys = Ok tt <->
  (exists r s, key_columns "dovecote_events_tenant_source_event_id" keys = [("identity_key", r, s)]) /\
  (exists r1 s1 r2 s2, key_columns "dovecote_events_tenant_row_unique" keys
     = [("tenant_id", r1, s1); ("row_id", r2, s2)]) /\
  key_columns "dovecote_deliveries_event_fk" keys
  = [("tenant_id", Some "dovecote_events", Some "tenant_id");
     ("event_row_id", Some "dovecote_events", Some "row_id")].
Proof.
  unfold check_keys.
  destruct (key_columns "dovecote_events_tenant_source_event_id" keys) as [|[[c1 r1] s1] [|]]; simpl;
    try (split; [done|intros [(? & ? & ?) _]; done]).
  case_bool_decide as H1; simpl; [subst|split; [done|intros [(? & ? & [=]) _]; done]].
  destruct (key_columns "dovecote_events_tenant_row_unique" keys) as [|[[c2 r2] s2] [|[[c3 r3] s3] [|]]]; simpl;
    try (split; [done|intros (_ & (? & ? & ? & ? & ?) & _); done]).
  destruct (bool_decide (c2 = _) && _) eqn:E2; simpl;
    [|split; [done|intros (_ & (? & ? & ? & ? & [= -> -> -> -> -> ->]) & _); done]].
  apply andb_true_iff in E2. rewrite !bool_decide_eq_true in E2. destruct E2 as [-> ->].
  destruct (key_columns "dovecote_deliveries_event_fk" keys) as [|x [|y [|]]]; simpl;
    try (split; [done|intros (_ & _ & ?); done]).
  destruct (bool_decide (x = _) && _) eqn:E3; simpl;
    [|split; [done|intros (_ & _ & [= -> ->]); done]].
  apply andb_true_iff in E3. rewrite !bool_decide_eq_true in E3. destruct E3 as [-> ->]. naive_solver.
Qed.

Lemma check_delete_rule_Ok r : check_delete_rule r = Ok tt <-> r = Some "RESTRICT".
Proof.
  unfold check_delete_rule. destruct r as [v|]; simpl; [|done]. case_bool_decide; simpl; naive_solver.
Qed.

Lemma check_collation_Ok r : check_collation r = Ok tt <-> r = Some (Some "utf8mb4_bin").
Proof.
  unfold check_collation. destruct r as [[v|]|]; [|done..]. case_bool_decide; simpl; naive_solver.
Qed.

Lemma check_trigger_rows_Ok triggers :
  check_trigger_rows triggers = Ok tt <->
  length triggers = 2%nat /\
  (forall t, t ∈ triggers -> TriggerInfo.event_object_table t <> "dovecote_deliveries") /\
  (exists t, t ∈ triggers /\
     is_row_id_trigger "dovecote_events_row_id_positive_insert" "INSERT" "insert" t = true) /\
  (exists t, t ∈ triggers /\
     is_row_id_trigger "dovecote_events_row_id_positive_update" "UPDATE" "update" t = true).
Proof.
  unfold check_trigger_rows. destruct (Nat.eqb_spec (length triggers) 2); cbn [negb orb]; [|naive_solver].
  match goal with |- context [existsb ?p triggers || _] => destruct (existsb p triggers) eqn:E1 end.
  { cbn [orb]. split; [done|]. intros (_ & Hn & _). apply existsb_elem in E1 as (t & Ht & E1).
    apply bool_decide_eq_true in E1. by destruct (Hn t Ht). }
  cbn [orb]. rewrite existsb_none in E1.
  rewrite <- !existsb_elem.
  destruct (existsb (is_row_id_trigger _ "INSERT" _) triggers); cbn [negb orb]; [|naive_solver].
  destruct (existsb (is_row_id_trigger _ "UPDATE" _) triggers); cbn [negb]; [|naive_solver].
  split; [|done]. intros _. split_and!; [done| |done..]. intros t Ht. apply E1 in Ht.
  by apply bool_decide_eq_false in Ht.
Qed.

Lemma index_columns_match_true name table unique n columns actual :
  (forall i, i ∈ actual -> IndexInfo.index_name i = name) ->
  index_columns_match table unique n columns actual = true <->
  actual = imap (fun k column => IndexInfo.Make table name (if negb unique then 1 else 0)
                                   (Z.of_nat (n + k) + 1) column "BTREE" None) columns.
Proof.
  revert n actual. induction columns as [|column columns IH]; intros n [|i actual] Hname; simpl; try done.
  rewrite andb_true_iff, (IH (S n) actual) by (intros x Hx; apply Hname; by right).
  assert (Hi : index_column_matches table unique n column i = true <->
    i = IndexInfo.Make table name (if negb unique then 1 else 0) (Z.of_nat (n + 0) + 1) column "BTREE" None).
  { unfold index_column_matches.
    rewrite !andb_true_iff, !bool_decide_eq_true, !Z.eqb_eq, is_none_true, Nat.add_0_r.
    pose proof (Hname i ltac:(left)) as Hk. destruct i; simpl in *. subst. split; [|by intros [=]; subst].
    intros [[[[[-> ->] ->] ->] ->] ->]. done. }
  rewrite Hi. assert (Hm : forall l, imap (fun k c => IndexInfo.Make table name (if negb unique then 1 else 0)
                       (Z.of_nat (S n + k) + 1) c "BTREE" None) l
           = imap ((fun k c => IndexInfo.Make table name (if negb unique then 1 else 0)
                       (Z.of_nat (n + k) + 1) c "BTREE" None) ∘ S) l).
  { intros l. apply imap_ext. intros k x _. simpl. do 2 f_equal. lia. }
  rewrite Hm. split; [intros [-> ->]; done|by intros [=]].
Qed.

Lemma my_check_index_Ok indexes e :
  check_index indexes e = Ok tt <->
  List.filter (fun i => bool_decide (IndexInfo.index_name i = e.1.1.1)) indexes = index_rows e.
Proof.
  destruct e as [[[name table] unique] columns]. unfold check_index, index_rows. simpl.
  set (actual := List.filter _ indexes).
  assert (Hname : forall i, i ∈ actual -> IndexInfo.index_name i = name).
  { intros i Hi. apply list_elem_of_In, filter_In in Hi as [_ Hi]. by apply bool_decide_eq_true in Hi. }
  pose proof (index_columns_match_true name table unique 0 columns actual Hname) as Hm.
  destruct (index_columns_match _ _ _ _ _); simpl in *; [tauto|]. split; [done|]. intros Ha. by apply Hm in Ha.
Qed.

Lemma check_index_rows_Ok indexes :
  check_index_rows indexes = Ok tt <->
  (forall i, i ∈ indexes ->
     IndexInfo.index_name i = "PRIMARY" \/ exists e, e ∈ expected_indexes /\ IndexInfo.index_name i = e.1.1.1) /\
  Forall (fun e => List.filter (fun i => bool_decide (IndexInfo.index_name i = e.1.1.1)) indexes
                   = index_rows e) expected_indexes.
Proof.
  unfold check_index_rows. generalize expected_indexes. intros expected.
  match goal with |- context [existsb ?p indexes] => destruct (existsb p indexes) eqn:E end.
  - apply existsb_elem in E as (i & Hi & E). split; [done|]. intros [Hn _]. exfalso.
    rewrite andb_true_iff, !negb_true_iff, bool_decide_eq_false, existsb_none in E. destruct E as [Hp E].
    destruct (Hn i Hi) as [?|(e & He & Hname)]; [done|]. specialize (E e He). simpl in E.
    by rewrite Hname, bool_decide_true in E.
  - rewrite existsb_none in E. rewrite all_ok_Ok.
    rewrite (Forall_iff_in _ _ expected (fun e _ => my_check_index_Ok indexes e)). split; [|tauto].
    intros Hf. split; [|done]. intros i Hi. specialize (E i Hi). simpl in E.
    apply andb_false_iff in E as [E|E]; rewrite negb_false_iff in E.
    + left. by apply bool_decide_eq_true in E.
    + right. apply existsb_elem in E as (e & He & E). apply bool_decide_eq_true in E. by exists e.
Qed.

Lemma my_check_markers_Ok sql rows : check_markers sql rows = Ok tt <-> rows = Some [shipped_marker].
Proof.
  unfold check_markers. destruct rows as [[|marker [|m rows]]|]; [done| |done|].
  2: { split; [|done]. unfold SchemaError.sql. by destruct (TransientKind.from_sqlx _). }
  change (current_migration sql) with (Ok (A := Migration.t) (E := string)
    (Migration.Make 2 sql (MigrationCompatibility.new (CrateVersion.new 0 2 0) None) false)).
  cbn [map_err]. destruct marker as [v ma mi pa ro]. unfold marker_matches. cbn.
  destruct (Z.eqb_spec v 2), (Z.eqb_spec ma 0), (Z.eqb_spec mi 2), (Z.eqb_spec pa 0), ro; simpl;
    subst; split; try done; unfold shipped_marker; intros [=]; subst; done.
Qed.

(** The verdict on a catalog, part by part, and on a server with it. *)
Definition marker_table_verdict (c : Catalog) : Result unit SchemaError.t :=
  let? _ := check_marker_row (table_named "dovecote_schema" (tables_of c)) in
  let? _ := check_column_rows "dovecote_schema" marker_columns (columns_of c "dovecote_schema") in
  let? _ := check_marker_constraints (marker_constraints c) in
  all_ok (check_clause_of "schema marker " marker_check_clause_is_plausible (checks_of c))
    MARKER_CHECK_NAMES.

Definition tables_verdict (c : Catalog) : Result unit SchemaError.t :=
  let? _ := marker_table_verdict c in
  let? _ := all_ok (check_table (domain_tables c)) ["dovecote_events"; "dovecote_deliveries"] in
  let? _ := check_column_rows "dovecote_events" events_columns (columns_of c "dovecote_events") in
  let? _ := check_collation (extension_collation c) in
  check_column_rows "dovecote_deliveries" deliveries_columns (columns_of c "dovecote_deliveries").

Definition constraints_verdict (c : Catalog) : Result unit SchemaError.t :=
  let? _ := all_ok (check_required_constraint (domain_constraints c)) required_constraints in
  let? _ := check_constraint_count (domain_constraints c) in
  let? _ := all_ok (check_clause_of EmptyString check_clause_is_plausible (checks_of c)) CHECK_NAMES in
  let? _ := check_keys (keys_of c) in
  check_delete_rule (delete_rule c).

Definition schema_verdict `{RustDebug} (sql : string) (p : ServerProbe.t) (c : Catalog) :
    Result unit SchemaError.t :=
  let? _ := inspect p in
  let? _ := check_markers sql (markers c) in
  let? _ := tables_verdict c in
  let? _ := map_err migration_mismatch (current_migration sql) in
  let? _ := constraints_verdict c in
  let? _ := check_trigger_rows (domain_triggers c) in
  check_index_rows (indexes_of c).

Lemma check_marker_row_Ok tables :
  check_marker_row (table_named "dovecote_schema" tables) = Ok tt <->
  named TableInfo.table_name "dovecote_schema" innodb tables.
Proof.
  unfold check_marker_row, table_named, named. destruct (find _ tables) as [t|]; [|naive_solver].
  pose proof (is_innodb_true t). destruct (is_innodb t); naive_solver.
Qed.

Lemma check_constraint_count_Ok constraints :
  check_constraint_count constraints = Ok tt <-> length constraints = 31%nat.
Proof.
  unfold check_constraint_count. change (length CHECK_NAMES + 5)%nat with 31%nat.
  destruct (Nat.eqb_spec (length constraints) 31); simpl; naive_solver.
Qed.

Lemma my_check_tables_Ok tables :
  all_ok (check_table tables) ["dovecote_events"; "dovecote_deliveries"] = Ok tt <->
  Forall (fun name => named TableInfo.table_name name innodb tables) ["dovecote_events"; "dovecote_deliveries"].
Proof. rewrite all_ok_Ok. apply Forall_iff. intros name. apply check_table_Ok. Qed.
End Accepts.

(** ** On a server that answers *)

Section Verdict.
Context `{RustDebug, MyEnv, MyServer, MyCatalogEnv} (sql : string).

Lemma my_schema_verdict_Ok p c :
  schema_verdict sql p c = Ok tt <-> (exists info, inspect p = Ok info) /\ schema_ok c.
Proof.
  unfold schema_verdict. destruct (inspect p) as [info|e]; [|naive_solver].
  change (map_err migration_mismatch (current_migration sql)) with (Ok (A := Migration.t) (E := SchemaError.t)
    (Migration.Make 2 sql (MigrationCompatibility.new (CrateVersion.new 0 2 0) None) false)).
  cbv beta iota. unfold tables_verdict, marker_table_verdict, constraints_verdict.
  rewrite !bind_Ok, my_check_markers_Ok, check_marker_row_Ok, !my_check_column_rows_Ok,
    check_marker_constraints_Ok, marker_checks_Ok, my_check_tables_Ok, check_collation_Ok, required_Ok,
    check_constraint_count_Ok, checks_Ok, check_keys_Ok, check_delete_rule_Ok, check_trigger_rows_Ok,
    check_index_rows_Ok.
  split.
  - intros Hv. destruct_and! Hv. split; [by exists info|].
    constructor; repeat first [assumption|split].
  - intros [Hi []]. repeat first [exact Hi | assumption | split].
Qed.

(** A step that answers [v]. *)
Definition yields {A} (m : M A) (v : A) : Prop := forall w, exists w', m w = Some (v, w').

Lemma my_yields_ret {A} (a : A) : yields (ret a) a.
Proof. intros w. by exists w. Qed.

Lemma my_yields_try {A B E} (m : M (Result A E)) (k : A -> M (Result B E)) v (r : A -> Result B E) :
  yields m v -> (forall a, v = Ok a -> yields (k a) (r a)) ->
  yields (try* a := m else (fun e => e) in k a) (let? a := v in r a).
Proof.
  intros Hm Hk w. destruct (Hm w) as (w1 & Hr). rewrite (bind_run _ _ _ _ _ Hr).
  destruct v as [a|e]; [by apply Hk|]. by exists w1.
Qed.

Context (p : ServerProbe.t) (c : Catalog).
Context (Hok : forall n, sql_fault n = None) (Hcat : forall n, catalog n = c)
  (Hprobe : forall n, server_probe n = p).

Lemma my_in_session_yields {A} (f : nat -> Db -> Txn -> Result (A * Txn) SqlxError.t) a :
  (forall n db t, exists t', f n db t = Ok (a, t')) -> yields (in_session f) (Ok a).
Proof.
  intros Hf w. unfold in_session. rewrite Hok.
  destruct (txn w) as [t|].
  - destruct (Hf (tick w) (latest w) t) as [t' ->]. by eexists.
  - destruct (Hf (tick w) (latest w) (MkTxn None nothing)) as [t' ->]. by eexists.
Qed.

Lemma my_schema_query_yields {A} op (f : Catalog -> A) : yields (schema_query op f) (Ok (f c)).
Proof.
  intros w. unfold schema_query.
  destruct (my_in_session_yields (fun n db t => Ok (f (catalog n),
              if catalog_opens_view n then open_view db t else t)) (f c)) with (w := w) as [w' Hw].
  { intros n db t. rewrite Hcat. by eexists. }
  unfold catalog_query. rewrite (bind_run _ _ _ _ _ Hw). by exists w'.
Qed.

Lemma my_queried_yields {A B} op (f : Catalog -> A) (k : A -> M (Result B SchemaError.t)) v :
  yields (k (f c)) v -> yields (try* rows := schema_query op f else (fun e => e) in k rows) v.
Proof.
  intros Hk. eapply (my_yields_try _ _ (Ok (f c)) (fun _ => v)); [apply my_schema_query_yields|].
  by intros a [= <-].
Qed.

Lemma my_checked_yields {A B} (r : Result A SchemaError.t) (k : A -> M (Result B SchemaError.t)) s :
  (forall a, yields (k a) (s a)) ->
  yields (try* a := ret r else (fun e => e) in k a) (let? a := r in s a).
Proof. intros Hk. apply my_yields_try; [apply my_yields_ret|]. by intros a _. Qed.

Lemma my_detect_yields : yields detect_on_connection (inspect p).
Proof.
  intros w. unfold detect_on_connection.
  destruct (my_in_session_yields (fun n (_ : Db) t => Ok (server_probe n, t)) p) with (w := w) as [w' Hw].
  { intros n db t. rewrite Hprobe. by eexists. }
  unfold server_query. rewrite (bind_run _ _ _ _ _ Hw). by exists w'.
Qed.

Lemma my_marker_yields : yields (check_schema_marker sql) (check_markers sql (markers c)).
Proof.
  intros w. unfold check_schema_marker.
  destruct (my_in_session_yields (fun n db t => Ok (markers (catalog n), open_view db t)) (markers c))
    with (w := w) as [w' Hw].
  { intros n db t. rewrite Hcat. by eexists. }
  unfold consistent_read. rewrite (bind_run _ _ _ _ _ Hw). by exists w'.
Qed.

Lemma my_columns_yields table expected :
  yields (check_columns table expected) (check_column_rows table expected (columns_of c table)).
Proof. apply my_queried_yields, my_yields_ret. Qed.

Lemma my_marker_table_yields : yields check_marker_table (marker_table_verdict c).
Proof.
  apply my_queried_yields, my_checked_yields. intros _. apply my_yields_try; [apply my_columns_yields|].
  intros _ _. apply my_queried_yields, my_checked_yields. intros _. apply my_queried_yields, my_yields_ret.
Qed.

Lemma my_tables_yields : yields check_tables_and_columns (tables_verdict c).
Proof.
  apply my_yields_try; [apply my_marker_table_yields|]. intros _ _.
  apply my_queried_yields, my_checked_yields. intros _. apply my_yields_try; [apply my_columns_yields|].
  intros _ _. apply my_queried_yields, my_checked_yields. intros _. apply my_columns_yields.
Qed.

Lemma my_constraints_yields : yields check_constraints (constraints_verdict c).
Proof.
  apply my_queried_yields, my_checked_yields. intros _.
  apply my_queried_yields, my_checked_yields. intros _. apply my_checked_yields. intros _.
  apply my_queried_yields, my_checked_yields. intros _. apply my_queried_yields, my_yields_ret.
Qed.

Lemma my_check_schema_yields : yields (check_schema_connection sql) (schema_verdict sql p c).
Proof.
  apply my_yields_try; [apply my_detect_yields|]. intros _ _.
  apply my_yields_try; [apply my_marker_yields|]. intros _ _.
  apply my_yields_try; [apply my_tables_yields|]. intros _ _.
  apply my_checked_yields. intros _.
  apply my_yields_try; [apply my_constraints_yields|]. intros _ _.
  apply my_yields_try; [apply my_queried_yields, my_yields_ret|]. intros _ _.
  apply my_queried_yields, my_yields_ret.
Qed.
End Verdict.

(** ** What the check does to a transaction *)

Section Effects.
Context `{RustDebug, MyEnv, MyServer, MyCatalogEnv} (sql : string).
Context (Hisolated : isolated) (Happend : append_only).

Lemma my_schema_query_observes {A} op (f : Catalog -> A) : observes (schema_query op f).
Proof. unfold schema_query. observes_step. Qed.

Lemma my_columns_observes table expected : observes (check_columns table expected).
Proof. apply observes_try; [apply my_schema_query_observes|]. intros a. apply observes_ret. Qed.

Lemma my_marker_observes : observes (check_schema_marker sql).
Proof. unfold check_schema_marker. observes_step. Qed.

Lemma my_check_schema_observes : observes (check_schema_connection sql).
Proof.
  unfold check_schema_connection, check_tables_and_columns, check_marker_table, check_constraints,
    check_triggers, check_indexes.
  repeat first
    [ apply observes_ret | apply (detect_observes Hisolated Happend) | apply my_marker_observes
    | apply my_columns_observes | apply my_schema_query_observes | apply observes_try; [|intros ?] ].
Qed.

End Effects.
