(* ===== verification/MyHydrate.v ===== *)
(** * Row hydration of the MySQL adapter (crates/dovecote-sqlx-mysql/src/hydrate.rs, page.rs)

    Durable columns back into the core's values. Text columns are VARBINARY, read
    as bytes and checked to be UTF-8 here; the driver reads a [DATETIME(6)] column
    as an instant. *)

From S2P Require Import Prelude Step Utf8 BTree Errors Limits Validation Bounds Values Extension Serialization Event State Tables Queries RowHydration Instants External.

(** [String::from_utf8], [std::str::from_utf8] of a column *)
Definition strv (value : bytes) (field : string) : Result string string :=
  if valid_utf8 value then Ok value else Err ("stored " +:+ field +:+ " is not UTF-8").

(** A checked constructor on a column of bytes. *)
Definition column {V} (value : bytes) (field : string)
    (new : string -> Result V ValidationError.t) : Result V string :=
  let? value := strv value field in text (new value).

Section Hydrate.
Context `{SerdeJson, Base64, MimeLib, FluentUri, RustDebug, InstantColumn}.

Definition hydrate_event (row : EventRow.t_of Z) : Result StoredEvent.t string :=
  if negb (bool_decide (EventRow.specversion row = SPEC_VERSION))
  then Err "stored event has unsupported specversion"
  else
    let? stream := column (EventRow.stream row) "stream" StreamName.new in
    let? id := column (EventRow.event_id row) "event id" EventId.new in
    let? source := column (EventRow.source row) "source" EventSource.new in
    let? event_type := column (EventRow.event_type row) "event type" EventType.new in
    let builder := NewEventBuilder.new stream id source event_type in
    let? builder := optional_step builder (EventRow.subject row)
                      (fun v => column v "subject" EventSubject.new)
                      NewEventBuilder.set_subject in
    let? builder := optional_step builder (EventRow.occurred_at row)
                      (fun v => Ok (decode_instant v)) NewEventBuilder.set_time in
    let? builder := optional_step builder (EventRow.datacontenttype row)
                      (fun v => column v "content type" ContentType.new)
                      NewEventBuilder.set_datacontenttype in
    let? builder := optional_step builder (EventRow.dataschema row)
                      (fun v => column v "schema URI" SchemaUri.new)
                      NewEventBuilder.set_dataschema in
    let? builder := optional_step builder (EventRow.partitionkey row)
                      (fun v => column v "partition key" PartitionKey.new)
                      NewEventBuilder.set_partitionkey in
    let? extensions := strv (EventRow.extensions row) "extensions" in
    let? extensions := map_err ExtensionDecodeError.to_string
                         (Extensions.from_canonical_json extensions) in
    let builder := NewEventBuilder.set_extensions builder extensions in
    let? builder := hydrate_data builder (EventRow.data_kind row) (EventRow.data row) in
    let? event := text (NewEventBuilder.build_with_limit builder
                          (EventSizeLimit.Make usize_max)) in
    text (into_stored event).

(** ** page.rs *)

Definition token_width (value : option bytes) : Result unit string :=
  match value with
  | Some v => if len v =? 16 then Ok tt
              else Err ("invalid claim token width " +:+ pretty (len v))
  | None => Err "claimed delivery has no claim token"
  end.

Definition parse_failure (code detail : option bytes) : Result (option Failure.t) string :=
  match code, detail with
  | None, None => Ok None
  | Some c, Some d =>
      let? c := strv c "failure code" in
      let? d := strv d "failure detail" in
      map_ok Some (text (Failure.new c d))
  | _, _ => Err "failure code and detail must be paired"
  end.

(** The match on [state.as_slice()]. *)
Definition hydrate_delivery (row : DurableRow.t_of Z) (state : bytes)
    (available_at : OffsetDateTime) (attempts : AttemptCount.t) (failure : option Failure.t) :
    Result DeliverySnapshot.t string :=
  if bool_decide (state = "pending") then
    let? _ := require_absent "pending claim token" (DurableRow.claim_token row) in
    let? _ := require_absent "pending worker" (DurableRow.claimed_by row) in
    let? _ := require_absent "pending expiry" (DurableRow.claim_expires_at row) in
    let? _ := require_absent "pending delivered" (DurableRow.delivered_at row) in
    let? _ := require_absent "pending quarantined" (DurableRow.quarantined_at row) in
    let? _ := require_absent "pending reason" (DurableRow.quarantine_reason row) in
    text (DeliverySnapshot.pending available_at attempts failure)
  else if bool_decide (state = "claimed") then
    let? _ := token_width (DurableRow.claim_token row) in
    let? worker := ok_or (DurableRow.claimed_by row) "claimed delivery has no worker" in
    let? worker := column worker "worker" WorkerId.new in
    let? expires := ok_or (DurableRow.claim_expires_at row) "claimed delivery has no expiry" in
    let? _ := require_absent "claimed delivered" (DurableRow.delivered_at row) in
    let? _ := require_absent "claimed quarantined" (DurableRow.quarantined_at row) in
    let? _ := require_absent "claimed reason" (DurableRow.quarantine_reason row) in
    text (DeliverySnapshot.claimed available_at worker (decode_instant expires) attempts failure)
  else if bool_decide (state = "delivered") then
    let? _ := require_absent "delivered token" (DurableRow.claim_token row) in
    let? _ := require_absent "delivered worker" (DurableRow.claimed_by row) in
    let? _ := require_absent "delivered expiry" (DurableRow.claim_expires_at row) in
    let? delivered := ok_or (DurableRow.delivered_at row) "delivered delivery has no timestamp" in
    let? _ := require_absent "delivered quarantined" (DurableRow.quarantined_at row) in
    let? _ := require_absent "delivered reason" (DurableRow.quarantine_reason row) in
    text (DeliverySnapshot.delivered available_at (decode_instant delivered) attempts failure)
  else if bool_decide (state = "quarantined") then
    let? _ := require_absent "quarantined token" (DurableRow.claim_token row) in
    let? _ := require_absent "quarantined worker" (DurableRow.claimed_by row) in
    let? _ := require_absent "quarantined expiry" (DurableRow.claim_expires_at row) in
    let? _ := require_absent "quarantined delivered" (DurableRow.delivered_at row) in
    let? at_ := ok_or (DurableRow.quarantined_at row) "quarantined delivery has no timestamp" in
    let? reason := ok_or (DurableRow.quarantine_reason row)
                     "quarantined delivery has no reason" in
    let? reason := column reason "quarantine reason" QuarantineReason.new in
    text (DeliverySnapshot.quarantined available_at (decode_instant at_) attempts failure reason)
  else Err "unknown delivery state".

Definition hydrate_page (row : DurableRow.t_of Z) : Result PagedEvent.t string :=
  let? tenant_id := column (DurableRow.tenant_id row) "tenant id" TenantId.new in
  let? row_id := text (RowId.new (DurableRow.row_id row)) in
  let? event := hydrate_event (event_row row) in
  let? state := ok_or (DurableRow.state row)
                  ("event row " +:+ pretty (DurableRow.row_id row)
                   +:+ " has no required delivery row") in
  let? available_at := ok_or (DurableRow.available_at row) "delivery row has no available_at" in
  let? attempts := ok_or (DurableRow.attempts row) "delivery row has no attempts" in
  let? attempts := text (AttemptCount.new attempts) in
  let? failure := parse_failure (DurableRow.last_failure_code row)
                    (DurableRow.last_failure_detail row) in
  let? delivery := hydrate_delivery row state (decode_instant available_at) attempts failure in
  text (PagedEvent.new tenant_id row_id event (decode_instant (DurableRow.enqueued_at row)) delivery).
End Hydrate.

(** ** Facts *)

(** The text columns hold UTF-8, as those written from Rust strings do. *)
Definition utf8_columns (row : EventRow.t_of Z) : bool :=
  valid_utf8 (EventRow.stream row) && valid_utf8 (EventRow.event_id row)
  && valid_utf8 (EventRow.source row) && valid_utf8 (EventRow.event_type row)
  && is_none_or (EventRow.subject row) valid_utf8
  && is_none_or (EventRow.datacontenttype row) valid_utf8
  && is_none_or (EventRow.dataschema row) valid_utf8
  && is_none_or (EventRow.partitionkey row) valid_utf8
  && valid_utf8 (EventRow.extensions row).

Section Facts.
Context `{SerdeJson, Base64, MimeLib, FluentUri, RustDebug, InstantColumn}.

Lemma column_utf8 {V} value field (new : string -> Result V ValidationError.t) :
  valid_utf8 value = true -> column value field new = text (new value).
Proof. unfold column, strv. by intros ->. Qed.

Lemma column_Ok {V} value field (new : string -> Result V ValidationError.t) v :
  column value field new = Ok v -> valid_utf8 value = true /\ new value = Ok v.
Proof.
  unfold column, strv, text. destruct (valid_utf8 value); [|done].
  destruct (new value); [|done]. by intros [= ->].
Qed.

Lemma optional_step_ext {B C V} (b : B) (o : option C) (f g : C -> Result V string) set :
  (forall c, o = Some c -> f c = g c) -> optional_step b o f set = optional_step b o g set.
Proof. intros Hfg. destruct o as [c|]; simpl; [by rewrite Hfg|done]. Qed.

(** On UTF-8 columns this is the hydration the adapters share. *)
Lemma hydrate_event_utf8 row :
  utf8_columns row = true -> EventRow.specversion row = SPEC_VERSION ->
  hydrate_event row = hydrate_event_with (fun v => Ok (decode_instant v)) row.
Proof.
  unfold utf8_columns. intros Hu Hs. bools. unfold hydrate_event, hydrate_event_with.
  rewrite bool_decide_true by done. cbn [negb]. rewrite !column_utf8 by done.
  assert (Hext : strv (EventRow.extensions row) "extensions" = Ok (EventRow.extensions row)).
  { unfold strv. match goal with H : valid_utf8 (EventRow.extensions row) = true |- _ => by rewrite H end. }
  rewrite Hext. do 4 (match goal with |- match ?x with _ => _ end = _ => destruct x; [|done] end).
  assert (Hopt : forall (o : option bytes) V (new : string -> Result V ValidationError.t) field b
                        (set : NewEventBuilder.t -> V -> NewEventBuilder.t),
            is_none_or o valid_utf8 = true ->
            optional_step b o (fun v => column v field new) set
            = optional_step b o (fun v => text (new v)) set).
  { intros o V new field b set Ho. apply optional_step_ext. intros c ->. by apply column_utf8. }
  rewrite Hopt by done. match goal with |- match ?x with _ => _ end = _ => destruct x; [|done] end.
  match goal with |- match ?x with _ => _ end = _ => destruct x; [|done] end.
  do 3 (rewrite Hopt by done; match goal with |- match ?x with _ => _ end = _ => destruct x; [|done] end).
  done.
Qed.

(** What hydrates has UTF-8 columns. *)
Lemma my_hydrate_event_Ok row e :
  hydrate_event row = Ok e ->
  utf8_columns row = true /\ hydrate_event_with (fun v => Ok (decode_instant v)) row = Ok e.
Proof.
  intros He. enough (Hu : utf8_columns row = true /\ EventRow.specversion row = SPEC_VERSION).
  { destruct Hu as [Hu Hs]. split; [done|]. by rewrite <- (hydrate_event_utf8 row). }
  unfold hydrate_event in He. case_bool_decide as Hs; [|done]. split; [|done].
  cbn [negb] in He. unfold utf8_columns.
  assert (Hopt : forall (o : option bytes) V (new : string -> Result V ValidationError.t) field b
                        (set : NewEventBuilder.t -> V -> NewEventBuilder.t) b',
            optional_step b o (fun v => column v field new) set = Ok b' ->
            is_none_or o valid_utf8 = true).
  { intros [c|] V new field b set b'; simpl; [|done]. destruct (column c field new) as [v|] eqn:E; [|done].
    intros _. apply (column_Ok c field new v E). }
  destruct (column (EventRow.stream row) _ _) eqn:E1; [apply column_Ok in E1 as [-> _]|done].
  destruct (column (EventRow.event_id row) _ _) eqn:E2; [apply column_Ok in E2 as [-> _]|done].
  destruct (column (EventRow.source row) _ _) eqn:E3; [apply column_Ok in E3 as [-> _]|done].
  destruct (column (EventRow.event_type row) _ _) eqn:E4; [apply column_Ok in E4 as [-> _]|done].
  destruct (optional_step _ (EventRow.subject row) _ _) eqn:E5; [apply Hopt in E5 as ->|done].
  destruct (optional_step _ (EventRow.occurred_at row) _ _) eqn:E6; [|done].
  destruct (optional_step _ (EventRow.datacontenttype row) _ _) eqn:E7; [apply Hopt in E7 as ->|done].
  destruct (optional_step _ (EventRow.dataschema row) _ _) eqn:E8; [apply Hopt in E8 as ->|done].
  destruct (optional_step _ (EventRow.partitionkey row) _ _) eqn:E9; [apply Hopt in E9 as ->|done].
  unfold strv in He. by destruct (valid_utf8 (EventRow.extensions row)).
Qed.

Lemma my_hydrate_page_row_id c p :
  hydrate_page c = Ok p ->
  RowId.get (PagedEvent.row_id p) = DurableRow.row_id c /\
  TenantId.new (DurableRow.tenant_id c) = Ok (PagedEvent.tenant_id p).
Proof.
  unfold hydrate_page, text.
  destruct (column _ _ _) as [tenant|] eqn:Et; simpl; [|done].
  apply column_Ok in Et as [_ Et].
  destruct (RowId.new _) as [row_id|] eqn:Er; simpl; [|done].
  apply RowId_new_Ok in Er as [Hr _]. intros Hp.
  repeat match type of Hp with
    (match ?x with _ => _ end) = _ => destruct x eqn:?; try done end.
  unfold PagedEvent.new in Hp.
  destruct (canonicalize_instant _ _); simpl in Hp; [|done]. by injection Hp as <-.
Qed.

Context {TL : TimeLaws} {TT : TimeTextLaws} {NL : JsonNumberLaws}
  {SL : SerdeJsonLaws} {BL : Base64Laws} {IL : InstantColumnLaws}.

(** The columns of an accepted event hydrate. *)
Lemma my_hydrate_written_columns c limit :
  content_wf c -> validate_content c limit = Ok tt ->
  EventSizeLimit.get limit <= usize_max -> utf8_columns (event_columns c) = true ->
  hydrate_event (event_columns c) = Ok (StoredEvent.Make _ c).
Proof.
  intros Hwf Hv Hl Hu. rewrite hydrate_event_utf8 by done. eapply hydrate_with_columns; eauto.
  intros t Hp Ht. rewrite decode_encode by done. by rewrite to_utc_id.
Qed.
End Facts.
