(* ===== verification/MyMutation.v ===== *)
(** * Token-fenced mutations of the MySQL adapter (crates/dovecote-sqlx-mysql/src/lifecycle/mutation.rs)

    Renew, acknowledge, retry, release and quarantine: one conditional UPDATE at
    the time it starts; when it matches nothing, the delivery is locked,
    classified at a later time, and the UPDATE repeated under the lock. *)

From S2P Require Import Prelude Step Utf8 BTree Errors Limits Validation Bounds Values Extension Serialization Event State Tables Queries RowHydration External Overlay Others Instants Leases MyError My MyBackend MyRows.

Module Mutation.
Inductive t : Type :=
  | Renew (lease : Lease.t)
  | Ack
  | Retry (failure : Failure.t) (backoff : Delay.t)
  | Release (delay : Delay.t)
  | Quarantine (reason : QuarantineReason.t).
End Mutation.

Module DeliveryForMutation.
Record t `{TimeLib} : Type := Make {
  state : bytes;
  claim_token : option bytes;
  claim_expires_at : option OffsetDateTime;
}.
End DeliveryForMutation.

Section Mutate.
Context `{RustDebug, MyEnv, MyServer}.

(** The interval each mutation binds, if it binds one. *)
Definition interval (mutation : Mutation.t) : Result (option Z) string :=
  match mutation with
  | Mutation.Renew lease => map_ok Some (duration_micros (Lease.get lease))
  | Mutation.Retry _ backoff => map_ok Some (duration_micros (Delay.get backoff))
  | Mutation.Release delay => map_ok Some (duration_micros (Delay.get delay))
  | Mutation.Ack | Mutation.Quarantine _ => Ok None
  end.

(** The SET clause of each mutation: [now] is [UTC_TIMESTAMP(6)] and [later] the
    result of [TIMESTAMPADD]. *)
Definition assign (mutation : Mutation.t) (now later : Z) (d : Deliveries.row_of Z) :
    Deliveries.row_of Z :=
  match mutation with
  | Mutation.Renew _ =>
      Deliveries.Row (Deliveries.event_row_id d) (Deliveries.tenant_id d)
        (Deliveries.state d) (Deliveries.available_at d) (Deliveries.attempts d)
        (Deliveries.claim_token d) (Deliveries.claimed_by d) (Some later)
        (Deliveries.last_failure_code d) (Deliveries.last_failure_detail d)
        (Deliveries.delivered_at d) (Deliveries.quarantined_at d) (Deliveries.quarantine_reason d)
  | Mutation.Ack =>
      unclaimed d "delivered" (Deliveries.available_at d) None (Some now)
        (Deliveries.quarantined_at d) (Deliveries.quarantine_reason d)
  | Mutation.Retry failure _ =>
      unclaimed d "pending" later
        (Some (Failure.code failure, Failure.detail failure)) (Deliveries.delivered_at d)
        (Deliveries.quarantined_at d) (Deliveries.quarantine_reason d)
  | Mutation.Release _ =>
      unclaimed d "pending" later None (Deliveries.delivered_at d)
        (Deliveries.quarantined_at d) (Deliveries.quarantine_reason d)
  | Mutation.Quarantine reason =>
      unclaimed d "quarantined" (Deliveries.available_at d) None (Deliveries.delivered_at d)
        (Some now) (Some (QuarantineReason.as_str reason))
  end.

(** [UPDATE dovecote_deliveries SET ... WHERE (? IS NULL OR tenant_id = ?) AND
    event_row_id = ? AND state = 'claimed' AND claim_token = ? AND claim_expires_at
    > UTC_TIMESTAMP(6)]: the rows it matched. A time past the last DATETIME fails
    the statement when a row is to get it. *)
Definition mutation_sql (mutation : Mutation.t) (micros : option Z) (tenant : option string)
    (row_id : Z) (token : bytes) (now : Z) (db : Db) : Result (Z * Own Z) SqlxError.t :=
  let later := match micros with Some micros => timestampadd micros now | None => Some now end in
  match later with
  | Some later =>
      let? updated := @update_sql (violation CheckViolated) (fenced tenant row_id token now)
                        (assign mutation now later) db in
      Ok (Z.of_nat (length updated.1), updated.2)
  | None =>
      if existsb (fenced tenant row_id token now) (deliveries db)
      then Err (violation DatetimeOverflow) else Ok (0, nothing)
  end.

Definition execute_mutation_fast (tenant_id : option TenantId.t) (row_id : RowId.t)
    (token : ClaimToken.t) (mutation : Mutation.t) : M (Result Z MutationError.t) :=
  match interval mutation with
  | Err detail => ret (Err (MutationError.serialization detail))
  | Ok micros =>
      try* affected := statement (fun n =>
          mutation_sql mutation micros (option_map TenantId.as_str tenant_id) (RowId.get row_id)
            (ClaimToken.as_bytes token) (utc_timestamp n))
           else MutationError.sql "execute fast conditional delivery mutation" in
      ret (Ok affected)
  end.

Definition parse_state (value : bytes) : Result DeliveryState.t MutationError.t :=
  if bool_decide (value = "pending") then Ok DeliveryState.Pending
  else if bool_decide (value = "claimed") then Ok DeliveryState.Claimed
  else if bool_decide (value = "delivered") then Ok DeliveryState.Delivered
  else if bool_decide (value = "quarantined") then Ok DeliveryState.Quarantined
  else Err (MutationError.serialization "unknown delivery state").

Definition classify_delivery (delivery : DeliveryForMutation.t) (token : ClaimToken.t)
    (now : OffsetDateTime) : Result unit MutationError.t :=
  let? state := parse_state (DeliveryForMutation.state delivery) in
  if negb (bool_decide (state = DeliveryState.Claimed))
  then Err (MutationError.IllegalTransition state)
  else
    let? stored := ok_or (DeliveryForMutation.claim_token delivery)
                     (MutationError.serialization "claimed delivery has no claim token") in
    if negb (len stored =? 16)
    then Err (MutationError.serialization "claimed delivery has invalid claim token width")
    else
      let? expiry := ok_or (DeliveryForMutation.claim_expires_at delivery)
                       (MutationError.serialization "claimed delivery has no claim expiry") in
      if negb (bool_decide (stored = ClaimToken.as_bytes token)) || instant_leb expiry now
      then Err MutationError.LostClaim
      else Ok tt.

Definition schema_to_mutation (error : SchemaError.t) : MutationError.t :=
  match error with
  | SchemaError.BackendMismatch detail => MutationError.BackendMismatch detail
  | SchemaError.MigrationMismatch detail => MutationError.MigrationMismatch detail
  | SchemaError.Sql operation source => MutationError.sql operation source
  | SchemaError.Transient operation kind source => MutationError.Transient operation kind source
  end.

(** the columns of [SELECT state, claim_token, claim_expires_at ... FOR UPDATE] *)
Definition read_for_mutation (d : Deliveries.row_of Z) : DeliveryForMutation.t :=
  DeliveryForMutation.Make _ (Deliveries.state d) (Deliveries.claim_token d)
    (option_map decode_instant (Deliveries.claim_expires_at d)).

(** The [async] block of [mutate]. *)
Definition mutate_in_transaction (tenant_id : option TenantId.t) (row_id : RowId.t)
    (token : ClaimToken.t) (mutation : Mutation.t) : M (Result unit MutationError.t) :=
  try* _ := detect_on_connection else schema_to_mutation in
  try* affected := execute_mutation_fast tenant_id row_id token mutation else (fun e => e) in
  if affected =? 1 then ret (Ok tt)
  else
    try* delivery := lock_row (row_in_scope (option_map TenantId.as_str tenant_id)
                                 (RowId.get row_id))
         else MutationError.sql "lock delivery for mutation" in
    match delivery with
    | None => ret (Err MutationError.NotFound)
    | Some delivery =>
        try* operation_time := database_time
             else MutationError.sql "read mutation operation time" in
        match classify_delivery (read_for_mutation delivery) token operation_time with
        | Err error => ret (Err error)
        | Ok _ =>
            try* affected := execute_mutation_fast tenant_id row_id token mutation
                 else (fun e => e) in
            if negb (affected =? 1)
            then ret (Err (MutationError.sql "conditional delivery mutation"
                   (SqlxError.Protocol "locked claimed delivery did not satisfy mutation")))
            else ret (Ok tt)
        end
    end.

Definition mutate (tenant_id : option TenantId.t) (row_id : RowId.t) (token : ClaimToken.t)
    (mutation : Mutation.t) : M (Result unit MutationError.t) :=
  try* _ := begin_statement false else MutationError.sql "begin mutation transaction" in
  let* result := mutate_in_transaction tenant_id row_id token mutation in
  match result with
  | Ok _ => try* _ := commit else MutationError.sql "commit mutation transaction" in ret (Ok tt)
  | Err error => let* _ := rollback in ret (Err error)
  end.

Definition renew_for_scope tenant row_id token lease :=
  mutate tenant row_id token (Mutation.Renew lease).
Definition ack_for_scope tenant row_id token := mutate tenant row_id token Mutation.Ack.
Definition retry_for_scope tenant row_id token failure backoff :=
  mutate tenant row_id token (Mutation.Retry failure backoff).
Definition release_for_scope tenant row_id token delay :=
  mutate tenant row_id token (Mutation.Release delay).
Definition quarantine_for_scope tenant row_id token reason :=
  mutate tenant row_id token (Mutation.Quarantine reason).
End Mutate.

(** ** The statements *)

Section Statements.
Context `{RustDebug, MyEnv, MyServer}.
Context (Hisolated : isolated).
Context (tenant_id : option TenantId.t) (row_id : RowId.t) (token : ClaimToken.t).

Let tenant := option_map TenantId.as_str tenant_id.
Let key := RowId.get row_id.
Let is_fenced := fenced tenant key (ClaimToken.as_bytes token).

Lemma my_assign_keeps_key mutation now later : keeps_key (assign mutation now later).
Proof. by destruct mutation. Qed.

(** The new columns of a delivery a mutation matched at [now]. *)
Definition assigned (mutation : Mutation.t) (now : Z) (d d' : Deliveries.row_of Z) : Prop :=
  exists micros later, interval mutation = Ok micros /\
    match micros with Some micros => timestampadd micros now | None => Some now end = Some later /\
    d' = assign mutation now later d.

Lemma assigned_key mutation now d d' :
  assigned mutation now d d' -> Deliveries.event_row_id d' = Deliveries.event_row_id d.
Proof. intros (? & later & _ & _ & ->). apply my_assign_keeps_key. Qed.

(** The update matches the delivery with the row id, or nothing. *)
Lemma my_mutation_sql_Ok mutation micros now db n o :
  db_wf db -> interval mutation = Ok micros ->
  mutation_sql mutation micros tenant key (ClaimToken.as_bytes token) now db = Ok (n, o) ->
  db_wf (overlay o db) /\
  ((n = 1 /\ exists d d', d ∈ deliveries db /\ is_fenced now d = true /\
      assigned mutation now d d' /\ Deliveries.check d' = true /\ o = MkOwn [] [d'] [key]) \/
   (n <> 1 /\ o = nothing /\ forall d, d ∈ deliveries db -> is_fenced now d = false)).
Proof.
  intros Hwf Hi. unfold mutation_sql.
  destruct (match micros with Some micros => timestampadd micros now | None => Some now end)
    as [later|] eqn:El.
  - destruct (update_sql _ _ db) as [[rows o']|] eqn:Eu; [|done]. intros [= <- <-].
    split; [by eapply (update_sql_wf _ _ _ _ _ (my_assign_keeps_key mutation now later))|].
    apply update_fenced in Eu; [|done|apply my_assign_keeps_key].
    destruct Eu as [(d & Hd & Hf & Hc & -> & ->)|(-> & -> & Hn)]; [left|by right].
    split; [done|]. exists d, (assign mutation now later d). split_and!; try done.
    by exists micros, later.
  - destruct (existsb _ _) eqn:Ex; [done|]. intros [= <- <-].
    split; [by rewrite overlay_nothing|]. right. split; [done|]. split; [done|]. intros d Hd.
    apply not_true_iff_false. intros Hf. apply not_true_iff_false in Ex. apply Ex.
    apply existsb_exists. exists d. by rewrite <- list_elem_of_In.
Qed.

(** A transaction that holds only locks. *)
Definition holds (w : World) (keys : list Z) : Prop :=
  exists t, open_at w t /\ own t = MkOwn [] [] keys.

(** A transaction that wrote the mutation of a delivery fenced at [now]. *)
Definition mutated_in (mutation : Mutation.t) (now : Z) (w : World) : Prop :=
  exists t d d' keys, open_at w t /\ own t = MkOwn [] [d'] (keys ++ [key]) /\
    d ∈ deliveries (committed w) /\ is_fenced now d = true /\ assigned mutation now d d'.

(** A statement failed: the transaction is open or gone. *)
Definition broken (w : World) : Prop := exists t, stopped w t.

Lemma holds_broken w keys : holds w keys -> broken w.
Proof. intros (t & Ho & _). exists t. by left. Qed.

Lemma my_execute_run mutation keys w r w' :
  holds w keys -> execute_mutation_fast tenant_id row_id token mutation w = Some (r, w') ->
  db_wf (committed w') /\ during keys (committed w) (committed w') /\
  match r with
  | Ok n => (n = 1 /\ mutated_in mutation (utc_timestamp (tick w)) w') \/
      (n <> 1 /\ holds w' keys /\
       forall d, d ∈ deliveries (committed w') -> is_fenced (utc_timestamp (tick w)) d = false)
  | Err e => broken w' /\
      ((exists source, e = MutationError.sql "execute fast conditional delivery mutation" source) \/
       exists detail, e = MutationError.Serialization detail /\ interval mutation = Err detail)
  end.
Proof.
  intros Hh Hr. pose proof Hh as (t & Ho & Hown). unfold execute_mutation_fast in Hr.
  destruct (interval mutation) as [micros|detail] eqn:Ei.
  2: { run_inv Hr. split; [by eapply open_committed|]. split; [constructor|]. split; [by eapply holds_broken|eauto]. }
  run_inv Hr.
  destruct (my_statement_open Hisolated _ _ _ _ _ Ho Hm) as [Hd Hx].
  { intros a o Hu Hwf. by apply (my_mutation_sql_Ok _ _ _ _ _ _ Hwf Ei Hu). }
  destruct (in_session_open Hisolated _ _ _ _ _ Ho Hm) as (_ & Hwf & _).
  rewrite Hown in Hd. cbn [own_locks] in Hd.
  destruct r0 as [n|e]; run_inv Hr; (do 2 (split; [done|])).
  2: { split; [by exists t|]. eauto. }
  destruct Hx as (o & Hu & _ & Ho'). rewrite Hown, overlay_locks in Hu.
  destruct (my_mutation_sql_Ok _ _ _ _ _ _ Hwf Ei Hu)
    as (_ & [(-> & d & d' & Hin & Hf & Ha & _ & ->)|(Hn & -> & Hnone)]).
  - left. split; [done|]. eexists _, d, d', keys. split; [exact Ho'|].
    split; [|done]. cbn [add_own with_own own]. by rewrite Hown.
  - right. split; [done|]. split; [|done]. rewrite add_nothing in Ho'. by exists t.
Qed.
End Statements.

(** ** Classification *)

Section Classification.
Context `{RustDebug, MyEnv} {IL : InstantColumnLaws}.
Context (tenant_id : option TenantId.t) (row_id : RowId.t) (token : ClaimToken.t).

Let tenant := option_map TenantId.as_str tenant_id.
Let key := RowId.get row_id.

(** What a classification says of a delivery that satisfies the CHECKs. *)
Lemma my_classify_read d now :
  Deliveries.check d = true ->
  match classify_delivery (read_for_mutation d) token (decode_instant now) with
  | Ok _ => fenced tenant key (ClaimToken.as_bytes token) now d = row_in_scope tenant key d
  | Err (MutationError.IllegalTransition s) =>
      parse_state (Deliveries.state d) = Ok s /\ s <> DeliveryState.Claimed
  | Err MutationError.LostClaim => exists expiry, claim_expiry d expiry /\
      (Deliveries.claim_token d <> Some (ClaimToken.as_bytes token) \/ expiry <= now)
  | Err _ => False
  end.
Proof.
  intros Hc. unfold classify_delivery, read_for_mutation.
  cbn [DeliveryForMutation.state DeliveryForMutation.claim_token
       DeliveryForMutation.claim_expires_at].
  destruct (check_claim d Hc) as [[Hs|[Hs|Hs]]|(stored & expiry & Ht & Hl & He)].
  - rewrite Hs. by split.
  - rewrite Hs. by split.
  - rewrite Hs. by split.
  - pose proof He as [Hs Hx]. rewrite Hs, Ht, Hx.
    change (parse_state "claimed") with (@Ok _ MutationError.t DeliveryState.Claimed).
    cbv iota beta. rewrite bool_decide_true by done. cbn [negb ok_or option_map].
    rewrite Hl. cbn [negb Z.eqb Pos.eqb]. rewrite decode_leb.
    case_bool_decide as Htok; cbn [negb orb].
    + destruct (Z.leb_spec expiry now); [exists expiry; split; [done|by right]|].
      unfold fenced. rewrite Hs, Ht, Hx, Htok, !bool_decide_true by done. cbn [is_some_and].
      rewrite !andb_true_r. destruct (row_in_scope _ _ _); [simpl; lia|done].
    + exists expiry. split; [done|]. left. congruence.
Qed.

(** The error of a locked delivery that the second attempt did not match. *)
Definition lapsed : MutationError.t :=
  MutationError.sql "conditional delivery mutation"
    (SqlxError.Protocol "locked claimed delivery did not satisfy mutation").

(** Why a mutation was refused on the tables [db] at [now]. *)
Definition refusal (mutation : Mutation.t) (e : MutationError.t) (now : Z) (db : Db) : Prop :=
  match e with
  | MutationError.NotFound =>
      forall d, d ∈ deliveries db -> row_in_scope tenant key d = false
  | MutationError.IllegalTransition s =>
      exists d, d ∈ deliveries db /\ row_in_scope tenant key d = true /\
        parse_state (Deliveries.state d) = Ok s /\ s <> DeliveryState.Claimed
  | MutationError.LostClaim =>
      exists d expiry, d ∈ deliveries db /\ row_in_scope tenant key d = true /\
        claim_expiry d expiry /\
        (Deliveries.claim_token d <> Some (ClaimToken.as_bytes token) \/ expiry <= now)
  | MutationError.Serialization detail => interval mutation = Err detail
  | MutationError.MigrationMismatch _ => False
  | MutationError.BackendMismatch _ | MutationError.Sql _ _ | MutationError.Transient _ _ _ => True
  end /\
  (** the lease ran out after it was found to hold, while the row was locked *)
  (e = lapsed -> exists m n d expiry, d ∈ deliveries db /\
     fenced tenant key (ClaimToken.as_bytes token) (utc_timestamp m) d = true /\
     claim_expiry d expiry /\ utc_timestamp m < expiry <= utc_timestamp n).

Lemma my_sql_refusal mutation op source now db :
  op <> "conditional delivery mutation" -> refusal mutation (MutationError.sql op source) now db.
Proof.
  intros Hop. unfold refusal, lapsed, MutationError.sql. simpl.
  destruct (TransientKind.from_sqlx source); (split; [done|congruence]).
Qed.

Lemma my_detect_refusal mutation e now db :
  detection_error e -> refusal mutation (schema_to_mutation e) now db.
Proof.
  destruct e as [detail|detail|op source|op kind source]; simpl; intros He; [done| | |].
  - by split.
  - subst op. by apply my_sql_refusal.
  - by split.
Qed.

Lemma my_classify_refusal mutation d now db e :
  db_wf db -> d ∈ deliveries db -> row_in_scope tenant key d = true ->
  classify_delivery (read_for_mutation d) token (decode_instant now) = Err e ->
  refusal mutation e now db.
Proof.
  intros (_ & _ & _ & Hck & _) Hd Hs He. rewrite Forall_forall in Hck.
  pose proof (my_classify_read d now (Hck _ Hd)) as Hr. rewrite He in Hr.
  destruct e; try done; (split; [|done]).
  - by exists d.
  - destruct Hr as (expiry & Hx & Hor). by exists d, expiry.
Qed.
End Classification.

(** ** What a mutation does *)

Section MutationSpec.
Context `{RustDebug, MyEnv, MyServer} {IL : InstantColumnLaws}.
Context (Hisolated : isolated).
Context (tenant_id : option TenantId.t) (row_id : RowId.t) (token : ClaimToken.t)
  (mutation : Mutation.t).

Let tenant := option_map TenantId.as_str tenant_id.
Let key := RowId.get row_id.

(** Between the two worlds the error was justified by some tables. *)
Definition refused (w w' : World) (e : MutationError.t) : Prop :=
  during [] (committed w) (committed w') /\
  exists n db, during [] (committed w) db /\ during [] db (committed w') /\ db_wf db /\
    refusal tenant_id row_id token mutation e (utc_timestamp n) db.

Lemma my_refused_now w w' e n :
  db_wf (committed w') -> during [] (committed w) (committed w') ->
  refusal tenant_id row_id token mutation e (utc_timestamp n) (committed w') -> refused w w' e.
Proof. intros Hwf Hd Hr. split; [done|]. exists n, (committed w'). split_and!; try done. constructor. Qed.

Lemma my_refused_sql w w' op source :
  db_wf (committed w') -> during [] (committed w) (committed w') ->
  op <> "conditional delivery mutation" -> refused w w' (MutationError.sql op source).
Proof. intros Hwf Hd Hop. apply (my_refused_now _ _ _ 0%nat); [done|done|by apply my_sql_refusal]. Qed.

Lemma broken_wf w : broken w -> db_wf (committed w).
Proof. intros (t & [Ho|[_ Hw]]); [by eapply open_committed|done]. Qed.

Lemma stopped_broken w t : stopped w t -> broken w.
Proof. intros Hs. by exists t. Qed.

(** What the errors of the UPDATE say. *)
Lemma my_refused_execute w w' e :
  broken w' -> during [] (committed w) (committed w') ->
  (exists source, e = MutationError.sql "execute fast conditional delivery mutation" source) \/
  (exists detail, e = MutationError.Serialization detail /\ interval mutation = Err detail) ->
  refused w w' e.
Proof.
  intros Hb Hd [[source ->]|(detail & -> & Hi)].
  - apply my_refused_sql; [by apply broken_wf|done..].
  - by apply (my_refused_now _ _ _ 0%nat); [apply broken_wf|..].
Qed.

(** What a run of the transaction leaves. *)
Definition ran (w w' : World) (r : Result unit MutationError.t) : Prop :=
  match r with
  | Ok _ => during [] (committed w) (committed w') /\
      exists n, mutated_in tenant_id row_id token mutation (utc_timestamp n) w'
  | Err e => broken w' /\ refused w w' e
  end.

(** The second attempt, on a locked delivery whose claim held at [n]: it fails to
    match only when the lease ran out meanwhile. *)
Lemma my_second_attempt w0 w d n r w' :
  during [] (committed w0) (committed w) -> holds w [key] -> d ∈ deliveries (committed w) ->
  fenced tenant key (ClaimToken.as_bytes token) (utc_timestamp n) d = true ->
  (try* affected := execute_mutation_fast tenant_id row_id token mutation else (fun e => e) in
   if negb (affected =? 1) then ret (Err lapsed) else ret (Ok tt)) w = Some (r, w') ->
  ran w0 w' r.
Proof.
  intros Hd0 Hh Hin Hf Hr. pose proof Hh as (t & Ho & Hown).
  pose proof (open_committed _ _ Ho) as Hwf. run_inv Hr.
  destruct (my_execute_run Hisolated _ _ _ _ _ _ _ _ Hh Hm) as (Hwf1 & Hd1 & Hx).
  pose proof (during_nil _ _ _ Hd1) as Hd1'. pose proof (during_trans _ _ _ _ Hd0 Hd1') as Hd01.
  destruct r0 as [m|e].
  2: { run_inv Hr. destruct Hx as [Hb He]. split; [done|]. by apply my_refused_execute. }
  destruct Hx as [(-> & Hmut)|(Hn & Hh1 & Hunf)].
  { cbn [Z.eqb Pos.eqb negb] in Hr. run_inv Hr. split; eauto. }
  rewrite (proj2 (Z.eqb_neq _ _) Hn) in Hr. run_inv Hr.
  split; [by eapply holds_broken|]. apply (my_refused_now _ _ _ 0%nat); [done..|].
  split; [done|]. intros _.
  assert (Hin1 : d ∈ deliveries (committed w1)).
  { eapply (during_locked_row Hisolated); [exact Hwf|exact Hd1|done|].
    rewrite (row_in_scope_key d (fenced_in_scope _ _ _ Hf)). set_solver. }
  pose proof Hf as (Hsc & Htok & expiry & Hx & Hlt)%fenced_claim.
  exists n, (tick w), d, expiry. do 3 (split; [done|]). split; [done|].
  apply Z.nlt_ge. intros Hlt'. specialize (Hunf d Hin1). rewrite (proj2 (fenced_claim _ _ _)) in Hunf; [done|].
  eauto.
Qed.

(** A run of the transaction. *)
Lemma my_mutate_in_transaction_run w r w' :
  holds w [] -> mutate_in_transaction tenant_id row_id token mutation w = Some (r, w') ->
  ran w w' r.
Proof.
  intros Hh. unfold mutate_in_transaction. intros Hr. run_inv Hr.
  destruct Hh as (t & Ho & Hown). destruct (detect_open Hisolated _ _ _ _ Ho Hm) as [Hd0 Hx].
  rewrite Hown in Hd0. destruct r0 as [info|e].
  2: { run_inv Hr. destruct Hx as [Hs He]. apply stopped_broken in Hs. split; [done|].
       apply (my_refused_now _ _ _ 0%nat); [by apply broken_wf|done|by apply my_detect_refusal]. }
  destruct Hx as [Ho0 _]. assert (Hh : holds w0 []) by by exists t. clear Hm Ho t Hown Ho0. run_inv Hr.
  destruct (my_execute_run Hisolated _ _ _ _ _ _ _ _ Hh Hm) as (Hwf1 & Hd1 & Hx).
  pose proof (during_trans _ _ _ _ Hd0 Hd1) as Hd01. destruct r0 as [n|e].
  2: { run_inv Hr. destruct Hx as [Hb He]. split; [done|]. by apply my_refused_execute. }
  destruct Hx as [(-> & Hin)|(Hn & Hh1 & _)].
  { cbn [Z.eqb Pos.eqb] in Hr. run_inv Hr. split; eauto. }
  rewrite (proj2 (Z.eqb_neq _ _) Hn) in Hr. clear Hm Hh n Hn. run_inv Hr.
  destruct Hh1 as (t & Ho & Hown). destruct (my_lock_row_open Hisolated _ _ _ _ _ Ho Hm) as [Hd2 Hx].
  rewrite Hown in Hd2, Hx. rewrite overlay_locks in Hx.
  pose proof (during_trans _ _ _ _ Hd01 Hd2) as Hd02. destruct r0 as [[d|]|e].
  3: { run_inv Hr. apply stopped_broken in Hx. split; [done|].
       apply my_refused_sql; [by apply broken_wf|done..]. }
  2: { run_inv Hr. destruct Hx as (Ho' & Hwf & Hno). split; [exists t; by left|].
       by apply (my_refused_now _ _ _ 0%nat). }
  destruct Hx as (Ho2 & Hsc & Hwf2 & Hin). clear Hm Ho. run_inv Hr.
  set (t2 := add_own _ t) in *.
  assert (Hown2 : own t2 = MkOwn [] [] [key]).
  { unfold t2. cbn [add_own with_own own]. rewrite Hown. unfold own_app. simpl.
    by rewrite (row_in_scope_key d Hsc). }
  destruct (server_open Hisolated _ _ _ _ _ Ho2 Hm) as [Hd3 Hx]. rewrite Hown2 in Hd3.
  pose proof (during_nil _ _ _ Hd3) as Hd3'. pose proof (during_trans _ _ _ _ Hd02 Hd3') as Hd03.
  destruct r0 as [now|e].
  2: { run_inv Hr. apply stopped_broken in Hx. split; [done|].
       apply my_refused_sql; [by apply broken_wf|done..]. }
  destruct Hx as [-> Ho3]. clear Hm.
  assert (Hin3 : d ∈ deliveries (committed w3)).
  { eapply (during_locked_row Hisolated); [exact Hwf2|exact Hd3|done|].
    rewrite (row_in_scope_key d Hsc). set_solver. }
  pose proof (open_committed _ _ Ho3) as Hwf3.
  destruct (classify_delivery _ _ _) as [[]|e] eqn:Ec in Hr.
  2: { run_inv Hr. split; [exists t2; by left|]. apply (my_refused_now _ _ _ (tick w2)); [done..|].
       by eapply my_classify_refusal. }
  pose proof (proj1 (Forall_forall _ _) (proj1 (proj2 (proj2 (proj2 Hwf3)))) _ Hin3) as Hck.
  pose proof (my_classify_read tenant_id row_id token d (utc_timestamp (tick w2)) Hck) as Hcl.
  rewrite Ec, Hsc in Hcl. eapply my_second_attempt; [exact Hd03|by exists t2|exact Hin3|exact Hcl|exact Hr].
Qed.

(** The tables after a mutation: over the tables [db] of its commit, the one
    fenced delivery got the columns of the SET clause. *)
Definition mutated_on (w : World) (dbf : Db) : Prop :=
  exists n db d d', during [] (committed w) db /\ db_wf db /\
    d ∈ deliveries db /\
    fenced tenant key (ClaimToken.as_bytes token) (utc_timestamp n) d = true /\
    assigned mutation (utc_timestamp n) d d' /\
    dbf = MkDb (events db)
            (map (fun r => if Deliveries.event_row_id r =? key then d' else r) (deliveries db))
            (tables db) /\
    db_wf dbf.

Lemma my_mutation_commit w w1 n t d d' keys db :
  let now := utc_timestamp n in
  during [] (committed w) (committed w1) -> db_wf (committed w1) ->
  own t = MkOwn [] [d'] (keys ++ [key]) -> assigned mutation now d d' ->
  d ∈ deliveries (committed w1) ->
  fenced tenant key (ClaimToken.as_bytes token) now d = true ->
  during (own_locks (own t)) (committed w1) db -> db_wf db -> db_wf (overlay (own t) db) ->
  mutated_on w (overlay (own t) db).
Proof.
  intros now Hd0 Hwf1 Hown Ha Hin Hf Hd Hwf Hwfv.
  pose proof (row_in_scope_key d (fenced_in_scope _ _ _ Hf)) as Hkey.
  assert (Hin2 : d ∈ deliveries db).
  { eapply (during_locked_row Hisolated); [exact Hwf1|exact Hd|done|].
    rewrite Hown, Hkey. simpl. set_solver. }
  exists n, db, d, d'. apply during_nil in Hd.
  split; [by eapply during_trans|]. do 4 (split; [done|]). split; [|done].
  pose proof (assigned_key _ _ _ _ Ha) as Hk'. rewrite Hown, overlay_deliveries; [|done|].
  - f_equal. apply map_ext_in. intros r Hr. unfold version. simpl.
    rewrite Hk', Hkey, Z.eqb_sym. by destruct (_ =? _).
  - intros r Hr. apply list_elem_of_singleton in Hr as ->. rewrite Hk'. by apply list_elem_of_fmap_2.
Qed.

Lemma my_execute_returns : returns (execute_mutation_fast tenant_id row_id token mutation).
Proof. unfold execute_mutation_fast. returns_step. Qed.
Lemma my_mutate_returns : returns (mutate tenant_id row_id token mutation).
Proof. pose proof my_execute_returns. unfold mutate, mutate_in_transaction. returns_step. Qed.

(** A run of a mutation. *)
Lemma my_mutation_run w :
  closed w ->
  exists r w', mutate tenant_id row_id token mutation w = Some (r, w') /\ closed w' /\
    match r with
    | Ok _ => mutated_on w (committed w')
    | Err e => refused w w' e \/
        exists source, e = MutationError.sql "commit mutation transaction" source /\
          mutated_on w (committed w')
    end.
Proof.
  intros Hclosed. destruct (my_mutate_returns w) as [[r w'] Hr]. exists r, w'. split; [done|].
  unfold mutate in Hr. run_inv Hr.
  destruct (my_begin_closed Hisolated _ _ _ _ Hclosed Hm) as [Hd0 Hx]. destruct r0 as [[]|e].
  2: { run_inv Hr. split; [done|]. left. apply my_refused_sql; [apply Hx|done..]. }
  clear Hm. run_inv Hr. assert (Hh : holds w0 []) by by eexists.
  apply (my_mutate_in_transaction_run _ _ _ Hh) in Hm. destruct r0 as [[]|e].
  - destruct Hm as (Hd1 & n & (t1 & d & d' & keys & Ho1 & Hown1 & Hin & Hf & Ha)).
    pose proof (during_trans _ _ _ _ Hd0 Hd1) as Hd01. run_inv Hr.
    destruct (my_commit_open Hisolated _ _ _ _ Ho1 Hm) as (Hc & db & Hd2 & Hwf & Hwfv & Hfin).
    assert (Hon : mutated_on w (overlay (own t1) db)).
    { eapply my_mutation_commit; try done. by eapply open_committed. }
    destruct r0 as [[]|e]; run_inv Hr; (split; [done|]); [by rewrite Hfin|].
    destruct Hfin as [->|Hfin]; [right; by eauto|]. left. apply my_refused_sql; [apply Hc| |done].
    rewrite Hfin. eapply during_trans; [exact Hd01|]. by eapply during_nil.
  - destruct Hm as ((t1 & Hs) & Hd1 & n & db & Hb1 & Hb2 & Hb3 & Hb4). run_inv Hr. run_inv Hr.
    destruct (rollback_stopped Hisolated _ _ _ _ Hs Hm) as [Hc Hd2]. split; [done|]. left.
    pose proof (during_trans _ _ _ _ Hd1 Hd2) as Hd12. split; [by eapply during_trans|].
    exists n, db. split; [by eapply during_trans|]. split; [by eapply during_trans|]. done.
Qed.

End MutationSpec.
