(* ===== verification/MyLifecycle.v ===== *)
(** * Claims of the MySQL adapter (crates/dovecote-sqlx-mysql/src/lifecycle/claim.rs, claim/)

    One REPEATABLE READ transaction that reads windows of candidate ids from its
    read view, locks each id by primary key with FOR UPDATE SKIP LOCKED, validates
    and prepares the locked rows at one later time, and claims them one by one.
    Other connections commit between any two of the statements; the locks keep
    them off the locked rows. *)

From S2P Require Import Prelude Step Utf8 BTree Errors Limits Validation Bounds Values Extension Serialization Event State Tables Queries RowHydration Claims External Overlay Others Instants Leases MyError My MyBackend MyRows MyHydrate.

Module ClaimCandidate.
Record t : Type := Make {
  event_row_id : Z;
  tenant_id : bytes;
  state : bytes;
  attempts : Z;
  claim_token : option bytes;
  claimed_by : option bytes;
  claim_expires_at : option Z;
  available_at : Z;
  stream : bytes;
  specversion : bytes;
  event_id : bytes;
  source : bytes;
  event_type : bytes;
  subject : option bytes;
  occurred_at : option Z;
  datacontenttype : option bytes;
  dataschema : option bytes;
  partitionkey : option bytes;
  extensions : bytes;
  data_kind : option bytes;
  data : option bytes;
}.

Definition event_row (self : t) : EventRow.t_of Z :=
  EventRow.Make (stream self) (specversion self) (event_id self) (source self) (event_type self)
    (subject self) (occurred_at self) (datacontenttype self) (dataschema self)
    (partitionkey self) (extensions self) (data_kind self) (data self).

(** the columns of the locking query *)
Definition of_rows (d : Deliveries.row_of Z) (e : Events.row_of Z) : t :=
  Make (Deliveries.event_row_id d) (Deliveries.tenant_id d) (Deliveries.state d)
    (Deliveries.attempts d) (Deliveries.claim_token d) (Deliveries.claimed_by d)
    (Deliveries.claim_expires_at d) (Deliveries.available_at d) (Events.stream e)
    (Events.specversion e) (Events.event_id e) (Events.source e) (Events.event_type e)
    (Events.subject e) (Events.occurred_at e) (Events.datacontenttype e) (Events.dataschema e)
    (Events.partitionkey e) (Events.extensions e) (Events.data_kind e) (Events.data e).
End ClaimCandidate.

(** ** candidates.rs *)

(** [ON e.row_id = d.event_row_id] *)
Definition joins (d : Deliveries.row_of Z) (e : Events.row_of Z) : bool :=
  Events.row_id e =? Deliveries.event_row_id d.

(** [SELECT d.event_row_id ... WHERE d.event_row_id > ? ... ORDER BY d.event_row_id ASC
    LIMIT ?] *)
Definition candidate_ids_sql (tenant : option string) (after limit now : Z) (db : Db) : list Z :=
  take (Z.to_nat limit)
    (concat (map (fun d =>
       map (fun _ => Deliveries.event_row_id d)
         (List.filter (fun e => joins d e && ((after <? Deliveries.event_row_id d)
                                && in_scope tenant d && eligible now d)) (events db)))
       (deliveries db))).

(** [SELECT ... WHERE d.event_row_id = ? ... FOR UPDATE SKIP LOCKED]: its first row,
    whose delivery is now locked; [held] are the ids whose rows other connections
    hold locked. *)
Definition lock_candidate_sql (tenant : option string) (now : Z) (held : list Z)
    (event_row_id : Z) (db : Db) : option ClaimCandidate.t * Own Z :=
  let rows :=
    concat (map (fun d =>
      map (ClaimCandidate.of_rows d)
        (List.filter (fun e => joins d e && ((Deliveries.event_row_id d =? event_row_id)
                               && claimable tenant now held d)) (events db)))
      (deliveries db)) in
  match rows with
  | [] => (None, nothing)
  | candidate :: _ => (Some candidate, MkOwn [] [] [ClaimCandidate.event_row_id candidate])
  end.

(** [UPDATE dovecote_deliveries SET state = 'claimed', ... WHERE tenant_id = ? AND
    event_row_id = ? AND (state = 'pending' OR state = 'claimed')] *)
Definition claim_update_sql `{MyEnv} (attempts : Z) (token : bytes) (worker : string)
    (micros operation_time : Z) (tenant : string) (event_row_id : Z) (db : Db) :
    Result (unit * Own Z) SqlxError.t :=
  let selected r := bool_decide (Deliveries.tenant_id r = tenant)
                    && (Deliveries.event_row_id r =? event_row_id)
                    && (bool_decide (Deliveries.state r = "pending")
                        || bool_decide (Deliveries.state r = "claimed")) in
  match timestampadd micros operation_time with
  | Some expiry =>
      let? updated := @update_sql (violation CheckViolated) selected
                        (set_claimed attempts token worker (Some expiry)) db in
      Ok (tt, updated.2)
  | None => if existsb selected (deliveries db) then Err (violation DatetimeOverflow)
            else Ok (tt, nothing)
  end.

(** [SELECT claim_expires_at FROM dovecote_deliveries WHERE tenant_id = ? AND
    event_row_id = ?] *)
Definition expiry_sql (tenant : string) (event_row_id : Z) (db : Db) : option (option Z) :=
  option_map Deliveries.claim_expires_at
    (find (fun r => bool_decide (Deliveries.tenant_id r = tenant)
                    && (Deliveries.event_row_id r =? event_row_id)) (deliveries db)).

(** a candidate ready to be claimed *)
Record PreparedClaim `{TimeLib} : Type := MkPrepared {
  p_row_id : RowId.t;
  p_tenant_id : TenantId.t;
  p_event : StoredEvent.t;
  p_attempts : AttemptCount.t;
  p_token : bytes;
}.

Section Claim.
Context `{SerdeJson, Base64, MimeLib, FluentUri, RustDebug, MyEnv, MyServer}.

Definition lock_candidate (tenant_id : option TenantId.t) (event_row_id : Z) :
    M (Result (option ClaimCandidate.t) ClaimError.t) :=
  try* candidate := statement (fun n db =>
      Ok (lock_candidate_sql (option_map TenantId.as_str tenant_id) (utc_timestamp n)
            (others_lock n db) event_row_id db))
       else ClaimError.sql "lock claim candidate" in
  ret (Ok candidate).

(** The [for] loop over a window of ids: [after_row_id] and the candidates. *)
Fixpoint lock_window (tenant_id : option TenantId.t) (limit : nat) (ids : list Z)
    (after_row_id : Z) (candidates : list ClaimCandidate.t) :
    M (Result (Z * list ClaimCandidate.t) ClaimError.t) :=
  match ids with
  | [] => ret (Ok (after_row_id, candidates))
  | id :: ids =>
      try* candidate := lock_candidate tenant_id id else (fun e => e) in
      match candidate with
      | None => lock_window tenant_id limit ids id candidates
      | Some candidate =>
          let candidates := candidates ++ [candidate] in
          if (length candidates =? limit)%nat then ret (Ok (id, candidates))
          else lock_window tenant_id limit ids id candidates
      end
  end.

(** The [while] loop, with [fuel] windows. *)
Fixpoint lock_candidates (fuel : nat) (tenant_id : option TenantId.t) (limit : Limit.t)
    (after_row_id : Z) (candidates : list ClaimCandidate.t) :
    M (Result (list ClaimCandidate.t) ClaimError.t) :=
  match fuel with
  | O => fun _ => None
  | S fuel =>
      if negb (length candidates <? Z.to_nat (Limit.get limit))%nat then ret (Ok candidates)
      else
        try* ids := consistent_read (fun n =>
            candidate_ids_sql (option_map TenantId.as_str tenant_id) after_row_id
              (Limit.get limit) (utc_timestamp n))
             else ClaimError.sql "select claim candidate IDs" in
        match ids with
        | [] => ret (Ok candidates)
        | _ =>
            try* window := lock_window tenant_id (Z.to_nat (Limit.get limit)) ids after_row_id
                             candidates else (fun e => e) in
            lock_candidates fuel tenant_id limit window.1 window.2
        end
  end.

(** ** preparation.rs *)

Definition fill : M (Result bytes EntropyError) :=
  fun w => Some (entropy (draws w), MkWorld (committed w) (txn w) (tick w) (S (draws w))).

(** The unbounded loop of [fresh_token], with [fuel] draws. *)
Fixpoint fresh_token (fuel : nat) (previous : option bytes) (used : list bytes) :
    M (Result bytes EntropyError) :=
  match fuel with
  | O => fun _ => None
  | S fuel =>
      try* token := fill else (fun e => e) in
      if acceptable previous used token then ret (Ok token) else fresh_token fuel previous used
  end.

Definition validate_delivery (candidate : ClaimCandidate.t) (operation_time : OffsetDateTime) :
    Result unit ClaimError.t :=
  let pending := bool_decide (ClaimCandidate.state candidate = "pending") in
  let claimed := bool_decide (ClaimCandidate.state candidate = "claimed") in
  let? _ :=
    match ClaimCandidate.claim_token candidate with
    | None =>
        if pending && is_none (ClaimCandidate.claimed_by candidate)
           && is_none (ClaimCandidate.claim_expires_at candidate)
           && instant_leb (decode_instant (ClaimCandidate.available_at candidate)) operation_time
        then Ok tt
        else if claimed
        then Err (ClaimError.serialization "claimed delivery has no claim token")
        else Err (ClaimError.serialization "claim candidate has an unknown state")
    | Some token =>
        if claimed && (len token =? 16)
           && negb (is_none (ClaimCandidate.claimed_by candidate))
           && is_some_and (ClaimCandidate.claim_expires_at candidate)
                (fun expires_at => instant_leb (decode_instant expires_at) operation_time)
        then Ok tt
        else if pending
        then Err (ClaimError.serialization "pending delivery has an unexpected claim token")
        else if claimed
        then Err (ClaimError.serialization "claimed delivery has an invalid claim token width")
        else Err (ClaimError.serialization "claim candidate has an unknown state")
    end in
  if claimed then
    let? worker :=
      ok_or (match ClaimCandidate.claimed_by candidate with
             | Some value => if valid_utf8 value then Some value else None
             | None => None
             end) (ClaimError.serialization "claimed delivery worker is not UTF-8") in
    let? _ := map_err (fun error => ClaimError.serialization (ValidationError.to_string error))
                (WorkerId.new worker) in
    Ok tt
  else Ok tt.

(** The body of the loop over the candidates. *)
Definition prepare_candidate (candidate : ClaimCandidate.t) (operation_time : OffsetDateTime)
    (used_tokens : list bytes) : M (Result PreparedClaim ClaimError.t) :=
  if negb (valid_utf8 (ClaimCandidate.tenant_id candidate))
  then ret (Err (ClaimError.serialization "stored tenant id is not UTF-8"))
  else
  match TenantId.new (ClaimCandidate.tenant_id candidate) with
  | Err error => ret (Err (ClaimError.serialization (ValidationError.to_string error)))
  | Ok tenant_id =>
    match RowId.new (ClaimCandidate.event_row_id candidate) with
    | Err error => ret (Err (ClaimError.serialization (ValidationError.to_string error)))
    | Ok row_id =>
      match validate_delivery candidate operation_time with
      | Err error => ret (Err error)
      | Ok _ =>
        match checked_add i64_max (ClaimCandidate.attempts candidate) 1 with
        | None => ret (Err (ClaimError.CounterOverflow row_id))
        | Some attempts =>
          match AttemptCount.new attempts with
          | Err error => ret (Err (ClaimError.serialization (ValidationError.to_string error)))
          | Ok attempts =>
            try* token := fresh_token entropy_fuel (ClaimCandidate.claim_token candidate)
                            used_tokens else ClaimError.EntropyUnavailable in
            match hydrate_event (ClaimCandidate.event_row candidate) with
            | Err error => ret (Err (ClaimError.serialization error))
            | Ok event => ret (Ok (MkPrepared _ row_id tenant_id event attempts token))
            end
          end
        end
      end
    end
  end.

Fixpoint prepare_batch (candidates : list ClaimCandidate.t) (operation_time : OffsetDateTime)
    (used_tokens : list bytes) : M (Result (list PreparedClaim) ClaimError.t) :=
  match candidates with
  | [] => ret (Ok [])
  | candidate :: candidates =>
      try* p := prepare_candidate candidate operation_time used_tokens else (fun e => e) in
      try* rest := prepare_batch candidates operation_time (used_tokens ++ [p_token p])
           else (fun e => e) in
      ret (Ok (p :: rest))
  end.

(** ** claim.rs *)

(** The body of the loop of [persist_batch]. *)
Definition persist_claim (worker : WorkerId.t) (lease_micros : Z)
    (operation_time : OffsetDateTime) (p : PreparedClaim) :
    M (Result ClaimedEvent.t ClaimError.t) :=
  try* _ := statement (fun _ =>
      claim_update_sql (AttemptCount.get (p_attempts p)) (p_token p) (WorkerId.as_str worker)
        lease_micros (encode_instant operation_time) (TenantId.as_str (p_tenant_id p))
        (RowId.get (p_row_id p)))
       else ClaimError.sql "update claimed delivery" in
  try* row := consistent_read (fun _ =>
      expiry_sql (TenantId.as_str (p_tenant_id p)) (RowId.get (p_row_id p)))
       else ClaimError.sql "read claimed expiry" in
  match fetch_one row with
  | Err source => ret (Err (ClaimError.sql "read claimed expiry" source))
  | Ok expiry =>
      match ClaimedEvent.new (p_tenant_id p) (p_row_id p) (p_event p) (p_attempts p)
              (ClaimToken.from_bytes (p_token p)) worker (decode_instant expiry) with
      | Err error => ret (Err (ClaimError.serialization (ValidationError.to_string error)))
      | Ok claimed_event => ret (Ok claimed_event)
      end
  end.

Fixpoint persist_claims (worker : WorkerId.t) (lease_micros : Z) (operation_time : OffsetDateTime)
    (prepared : list PreparedClaim) : M (Result (list ClaimedEvent.t) ClaimError.t) :=
  match prepared with
  | [] => ret (Ok [])
  | p :: prepared =>
      try* event := persist_claim worker lease_micros operation_time p else (fun e => e) in
      try* rest := persist_claims worker lease_micros operation_time prepared
           else (fun e => e) in
      ret (Ok (event :: rest))
  end.

Definition persist_batch (prepared : list PreparedClaim) (worker : WorkerId.t)
    (lease_for : Lease.t) (operation_time : OffsetDateTime) :
    M (Result (list ClaimedEvent.t) ClaimError.t) :=
  match duration_micros (Lease.get lease_for) with
  | Err detail => ret (Err (ClaimError.serialization detail))
  | Ok lease_micros => persist_claims worker lease_micros operation_time prepared
  end.

Definition schema_to_claim (error : SchemaError.t) : ClaimError.t :=
  match error with
  | SchemaError.BackendMismatch detail => ClaimError.BackendMismatch detail
  | SchemaError.MigrationMismatch detail => ClaimError.MigrationMismatch detail
  | SchemaError.Sql operation source => ClaimError.sql operation source
  | SchemaError.Transient operation kind source => ClaimError.Transient operation kind source
  end.

(** The [async] block of [claim_with_entropy_scoped]. *)
Definition claim_in_transaction (fuel : nat) (tenant_id : option TenantId.t)
    (worker : WorkerId.t) (lease_for : Lease.t) (limit : Limit.t) :
    M (Result (list ClaimedEvent.t) ClaimError.t) :=
  try* info := detect_on_connection else schema_to_claim in
  if negb (Capabilities.skip_locked (BackendInfo.capabilities info))
  then ret (Err (ClaimError.BackendMismatch "server does not support SKIP LOCKED"))
  else
    try* candidates := lock_candidates fuel tenant_id limit 0 [] else (fun e => e) in
    match candidates with
    | [] => ret (Ok [])
    | _ =>
        try* operation_time := database_time else ClaimError.sql "read claim operation time" in
        try* prepared := prepare_batch candidates operation_time [] else (fun e => e) in
        persist_batch prepared worker lease_for operation_time
    end.

Definition claim_with_entropy_scoped (fuel : nat) (tenant_id : option TenantId.t)
    (worker : WorkerId.t) (lease_for : Lease.t) (limit : Limit.t) :
    M (Result (list ClaimedEvent.t) ClaimError.t) :=
  try* _ := begin_statement false else ClaimError.sql "begin claim transaction" in
  let* result := claim_in_transaction fuel tenant_id worker lease_for limit in
  match result with
  | Ok claimed =>
      try* _ := commit else ClaimError.sql "commit claim transaction" in ret (Ok claimed)
  | Err error => let* _ := rollback in ret (Err error)
  end.

Definition claim_for_scope (fuel : nat) (tenant_id : option TenantId.t) (worker : WorkerId.t)
    (lease_for : Lease.t) (limit : Limit.t) : M (Result (list ClaimedEvent.t) ClaimError.t) :=
  claim_with_entropy_scoped fuel tenant_id worker lease_for limit.
End Claim.

(** ** The queries of a claim *)

Section Candidates.

(** A delivery joins exactly its event. *)
Lemma joins_event (db : Db) d :
  db_wf db -> d ∈ deliveries db ->
  exists e, e ∈ events db /\ join_condition d e = true /\
    forall b, List.filter (fun e => joins d e && b) (events db) = if b then [e] else [].
Proof.
  intros Hwf Hd. pose proof Hwf as (Hs & _ & _ & _ & _ & Hfk). rewrite Forall_forall in Hfk.
  destruct (Hfk _ Hd) as (e & He & Hk & Ht). exists e. split; [done|].
  split; [by apply join_condition_spec|].
  intros []; [|clear; induction (events db); simpl; by rewrite ?andb_false_r].
  rewrite (filter_ext _ (joins d)) by (intros x; apply andb_true_r).
  apply filter_unique; [|done|by apply Z.eqb_eq|].
  - apply sorted_lt_NoDup in Hs. by apply (NoDup_fmap_1 Events.row_id).
  - intros y Hy Hj%Z.eqb_eq. eapply (sorted_key_inj Events.row_id); [exact Hs|done|done|congruence].
Qed.

Lemma candidate_ids_spec tenant after limit now (db : Db) :
  db_wf db ->
  candidate_ids_sql tenant after limit now db
  = take (Z.to_nat limit) (map Deliveries.event_row_id
      (List.filter (fun d => (after <? Deliveries.event_row_id d) && in_scope tenant d && eligible now d)
         (deliveries db))).
Proof.
  intros Hwf. unfold candidate_ids_sql. f_equal.
  assert (Hall : forall d, d ∈ deliveries db -> d ∈ deliveries db) by done.
  revert Hall. generalize (deliveries db) at 1 3 4. intros ds.
  induction ds as [|d ds IH]; intros Hall; simpl; [done|].
  destruct (joins_event db d Hwf (Hall d ltac:(left))) as (e & _ & _ & ->).
  rewrite IH by (intros x Hx; apply Hall; by right). by destruct (_ && _ && _).
Qed.

Definition candidate_of (db : Db) (d : Deliveries.row_of Z) (c : ClaimCandidate.t) : Prop :=
  exists e, e ∈ events db /\ join_condition d e = true /\ c = ClaimCandidate.of_rows d e.

(** The locking query finds the claimable delivery with the id, or there is none. *)
Lemma lock_candidate_spec tenant now held id (db : Db) :
  db_wf db ->
  match lock_candidate_sql tenant now held id db with
  | (Some c, o) => exists d, d ∈ deliveries db /\ Deliveries.event_row_id d = id /\
      claimable tenant now held d = true /\ candidate_of db d c /\ o = MkOwn [] [] [id]
  | (None, o) => o = nothing /\ forall d, d ∈ deliveries db -> Deliveries.event_row_id d = id ->
      claimable tenant now held d = false
  end.
Proof.
  intros Hwf. unfold lock_candidate_sql.
  set (f := fun d => map (ClaimCandidate.of_rows d) _).
  assert (Hf : forall d, d ∈ deliveries db ->
    (exists e, candidate_of db d (ClaimCandidate.of_rows d e) /\
       f d = if (Deliveries.event_row_id d =? id) && claimable tenant now held d
             then [ClaimCandidate.of_rows d e] else [])).
  { intros d Hd. destruct (joins_event db d Hwf Hd) as (e & He & Hj & Hfil). exists e.
    split; [by exists e|]. unfold f. rewrite Hfil. by destruct (_ && _). }
  clearbody f. destruct (concat (map f (deliveries db))) as [|c cs] eqn:Ec.
  - split; [done|]. intros d Hd Hk. destruct (Hf d Hd) as (e & _ & Hfd).
    rewrite Hk, Z.eqb_refl in Hfd. destruct (claimable tenant now held d); [|done].
    assert (Hin : In (ClaimCandidate.of_rows d e) (concat (map f (deliveries db)))).
    { apply in_concat. exists (f d). rewrite Hfd. split; [|by left]. rewrite <- Hfd.
      apply in_map. by apply list_elem_of_In. }
    by rewrite Ec in Hin.
  - assert (Hin : In c (concat (map f (deliveries db)))) by (rewrite Ec; by left).
    apply in_concat in Hin as (l & Hl & Hc). apply in_map_iff in Hl as (d & <- & Hd).
    apply list_elem_of_In in Hd. destruct (Hf d Hd) as (e & Hcand & Hfd). rewrite Hfd in Hc.
    destruct (_ && _) eqn:Eb; [|done]. apply andb_true_iff in Eb as [Hk%Z.eqb_eq Hcl].
    destruct Hc as [<-|[]]. exists d. split_and!; [done..|by rewrite <- Hk].
Qed.

(** An id of a full window is below its end. *)
Lemma elem_of_take_last n (l : list Z) x y :
  StronglySorted Z.lt l -> x ∈ l -> last (take n l) = Some y -> x <= y -> x ∈ take n l.
Proof.
  intros Hs Hx Hl Hle. rewrite <- (take_drop n l) in Hx, Hs. apply elem_of_app in Hx as [Hx|Hx]; [done|].
  assert (y < x); [|lia]. eapply sorted_app_lt; [exact Hs| |exact Hx].
  by apply last_Some_elem_of.
Qed.
End Candidates.

(** ** Locking the candidates *)

Section Locking.
Context `{SerdeJson, Base64, MimeLib, FluentUri, RustDebug, MyEnv, MyServer}.
Context (Hisolated : isolated) (tenant_id : option TenantId.t).

Let tenant := option_map TenantId.as_str tenant_id.

Definition locks (keys : list Z) : Own Z := MkOwn [] [] keys.

(** Statement [n] ran between the two worlds. *)
Definition between (w w' : World) (n : nat) : Prop := (tick w <= n < tick w')%nat.

(** The delivery [d] was claimable when it was locked, its candidate is [c], and
    it is as it was since then. *)
Definition taken (w0 w : World) (d : Deliveries.row_of Z) (c : ClaimCandidate.t) : Prop :=
  exists n db, between w0 w n /\ during [] (committed w0) db /\ db_wf db /\ d ∈ deliveries db /\
    claimable tenant (utc_timestamp n) (others_lock n db) d = true /\ candidate_of db d c /\
    during [Deliveries.event_row_id d] db (committed w).

(** An attempt to lock [id] found nothing claimable there. *)
Definition passed_over (w0 w : World) (id : Z) : Prop :=
  exists n db, between w0 w n /\ during [] (committed w0) db /\ db_wf db /\
    forall d, d ∈ deliveries db -> Deliveries.event_row_id d = id ->
      claimable tenant (utc_timestamp n) (others_lock n db) d = false.

(** Some statements later. *)
Definition later (keys : list Z) (w w' : World) : Prop :=
  during keys (committed w) (committed w') /\ (tick w <= tick w')%nat.

Lemma taken_later w0 w w' keys d c :
  later keys w w' -> Deliveries.event_row_id d ∈ keys -> taken w0 w d c -> taken w0 w' d c.
Proof.
  intros [Hd Ht] Hk (n & db1 & [B1 B0] & B2 & B3 & B4 & B5 & B6 & B7). exists n, db1.
  split; [split; [done|lia]|]. do 5 (split; [done|]).
  eapply during_trans; [exact B7|]. eapply during_mono; [|exact Hd]. set_solver.
Qed.

Lemma passed_over_later w0 w w' id :
  (tick w <= tick w')%nat -> passed_over w0 w id -> passed_over w0 w' id.
Proof.
  intros Ht (n & db1 & [B1 B0] & B2). exists n, db1. split; [split; [done|lia]|done].
Qed.

Lemma later_trans keys w1 w2 w3 : later [] w1 w2 -> later keys w2 w3 -> later [] w1 w3.
Proof.
  intros [Hd1 Ht1] [Hd2 Ht2]. split; [|lia]. eapply during_trans; [done|]. by eapply during_nil.
Qed.

Lemma later_nil keys w w' : later keys w w' -> later [] w w'.
Proof. intros [Hd Ht]. split; [by eapply during_nil|done]. Qed.

Lemma later_refl keys w : later keys w w.
Proof. split; [constructor|done]. Qed.

Lemma all_taken_later w0 w w' keys ds cs :
  later keys w w' -> map Deliveries.event_row_id ds ⊆ keys ->
  Forall2 (taken w0 w) ds cs -> Forall2 (taken w0 w') ds cs.
Proof.
  intros Hd Hk Hf. induction Hf as [|d c ds cs Hdc Hf IH]; constructor.
  - eapply taken_later; [done| |done]. set_solver.
  - apply IH. set_solver.
Qed.

Lemma lock_candidate_run w0 keys id w t r w' :
  open_at w t -> own t = locks keys -> later [] w0 w ->
  lock_candidate tenant_id id w = Some (r, w') ->
  later keys w w' /\
  match r with
  | Ok (Some c) => exists d, Deliveries.event_row_id d = id /\ taken w0 w' d c /\
      open_at w' (add_own (locks [id]) t)
  | Ok None => open_at w' t /\ passed_over w0 w' id
  | Err _ => stopped w' t
  end.
Proof.
  intros Ho Hown [Hd0 Ht0] Hr. unfold lock_candidate in Hr. run_inv Hr.
  pose proof (my_statement_tick _ _ _ _ Hm) as Htick.
  pose proof (in_session_open Hisolated _ _ _ _ _ Ho Hm) as (Hd & Hwf & _).
  pose proof (during_nil _ _ _ Hd) as Hdn. pose proof (during_trans _ _ _ _ Hd0 Hdn) as Hd1.
  pose proof (lock_candidate_spec tenant (utc_timestamp (tick w))
    (others_lock (tick w) (committed w1)) id _ Hwf) as Hl.
  destruct (my_statement_open Hisolated _ _ _ _ _ Ho Hm) as [_ Hx].
  { intros a o [= Hs] Hv. rewrite Hown in Hs. unfold locks in Hs. rewrite overlay_locks in Hs.
    fold tenant in Hs. rewrite Hs in Hl. destruct a as [c|].
    - destruct Hl as (d & _ & _ & _ & _ & ->). by rewrite overlay_locks.
    - destruct Hl as [-> _]. by rewrite overlay_nothing. }
  rewrite Hown in Hd.
  destruct r0 as [c|e]; run_inv Hr; (split; [split; [done|lia]|]); [|done].
  assert (Hb : between w0 w1 (tick w)) by (split; lia).
  destruct Hx as (o & Hs & _ & Ho'). rewrite Hown in Hs. unfold locks in Hs.
  rewrite overlay_locks in Hs. injection Hs as Hs. fold tenant in Hs. rewrite Hs in Hl.
  destruct c as [c|].
  - destruct Hl as (d & Hin & Hk & Hcl & Hc & ->). exists d. split; [done|]. split; [|done].
    exists (tick w), (committed w1). do 6 (split; [done|]). constructor.
  - destruct Hl as [-> Hno]. rewrite add_nothing in Ho'. split; [done|].
    by exists (tick w), (committed w1).
Qed.

(** The transaction holds the deliveries [ds] locked and wrote nothing; their
    candidates are [cs]. *)
Record gathered (w0 w : World) (t : Txn) (ds : list (Deliveries.row_of Z))
    (cs : list ClaimCandidate.t) : Prop := {
  g_open : open_at w t;
  g_own : own t = locks (map Deliveries.event_row_id ds);
  g_later : later [] w0 w;
  g_taken : Forall2 (taken w0 w) ds cs;
}.

Lemma sorted_without (l : list Z) x r :
  StronglySorted Z.lt (l ++ x :: r) -> StronglySorted Z.lt (l ++ r).
Proof.
  induction l as [|y l IH]; simpl; intros Hs; inversion Hs as [|? ? Hs' Hall]; subst; [done|].
  constructor; [by apply IH|]. rewrite Forall_app, Forall_cons in Hall. rewrite Forall_app. tauto.
Qed.

Lemma sorted_prefix (l r : list Z) : StronglySorted Z.lt (l ++ r) -> StronglySorted Z.lt l.
Proof.
  induction l as [|y l IH]; simpl; intros Hs; [constructor|]. inversion Hs as [|? ? Hs' Hall]; subst.
  constructor; [by apply IH|]. apply Forall_app in Hall. tauto.
Qed.

Lemma sorted_join (l r : list Z) :
  StronglySorted Z.lt l -> StronglySorted Z.lt r -> (forall x y, x ∈ l -> y ∈ r -> x < y) ->
  StronglySorted Z.lt (l ++ r).
Proof.
  induction l as [|x l IH]; simpl; intros Hl Hr Hlt; [done|]. inversion Hl as [|? ? Hl' Hall]; subst.
  constructor.
  - apply IH; [done..|]. intros a b Ha. apply Hlt. by right.
  - apply Forall_app. split; [done|]. apply Forall_forall. intros y Hy. apply Hlt; [left|done].
Qed.

Lemma last_cons_default (x : Z) ids d : List.last (x :: ids) d = List.last ids x.
Proof. revert x d. induction ids as [|y ids IH]; intros x d; [done|]. simpl in *. by rewrite !IH. Qed.

(** One lock more. *)
Lemma gathered_more w0 w w' t ds cs d c :
  gathered w0 w t ds cs -> later (map Deliveries.event_row_id ds) w w' ->
  taken w0 w' d c -> open_at w' (add_own (locks [Deliveries.event_row_id d]) t) ->
  gathered w0 w' (add_own (locks [Deliveries.event_row_id d]) t) (ds ++ [d]) (cs ++ [c]).
Proof.
  intros [Ho Hown Hd Ht] Hd' Htk Ho'. constructor; [done| | |].
  - cbn [add_own with_own own]. rewrite Hown, map_app. done.
  - by eapply later_trans.
  - apply Forall2_app; [|by constructor]. by eapply all_taken_later.
Qed.

Lemma gathered_same w0 w w' t t' ds cs :
  gathered w0 w t ds cs -> later (map Deliveries.event_row_id ds) w w' ->
  open_at w' t' -> own t' = own t -> gathered w0 w' t' ds cs.
Proof.
  intros [Ho Hown Hd Ht] Hd' Ho' Hown'. constructor; [done|congruence| |].
  - by eapply later_trans.
  - by eapply all_taken_later.
Qed.

(** A window: it ends with the limit reached, or every id of it was taken or
    passed over. *)
Lemma lock_window_run w0 limit ids after cs ds w t r w' :
  gathered w0 w t ds cs -> (length ds < limit)%nat ->
  StronglySorted Z.lt (map Deliveries.event_row_id ds ++ ids) ->
  lock_window tenant_id limit ids after cs w = Some (r, w') ->
  later [] w w' /\
  match r with
  | Ok (after', cs') => exists ds' t', gathered w0 w' t' ds' cs' /\ view t' = view t /\
      StronglySorted Z.lt (map Deliveries.event_row_id ds') /\
      map Deliveries.event_row_id ds' ⊆ map Deliveries.event_row_id ds ++ ids /\
      map Deliveries.event_row_id ds ⊆ map Deliveries.event_row_id ds' /\
      (length ds' = limit \/
       (length ds' < limit)%nat /\ after' = List.last ids after /\
       forall id, id ∈ ids -> id ∈ map Deliveries.event_row_id ds' \/ passed_over w0 w' id)
  | Err _ => exists t', stopped w' t'
  end.
Proof.
  revert after cs ds w t r w'. induction ids as [|id ids IH]; intros after cs ds w t r w' Hg Hlen Hs Hr;
    cbn [lock_window] in Hr.
  { run_inv Hr. split; [apply later_refl|]. exists ds, t. rewrite app_nil_r in *.
    split_and!; try done. right. split_and!; try done. intros x Hx. set_solver. }
  run_inv Hr. pose proof Hg as [Ho Hown Hd Ht].
  destruct (lock_candidate_run w0 _ id _ _ _ _ Ho Hown Hd Hm) as [Hd1 Hx].
  pose proof (later_nil _ _ _ Hd1) as Hd1n.
  destruct r0 as [[c|]|e].
  3: { run_inv Hr. split; [done|]. by exists t. }
  - destruct Hx as (d & <- & Htk & Ho1).
    pose proof (gathered_more _ _ _ _ _ _ _ _ Hg Hd1 Htk Ho1) as Hg1.
    assert (Hl1 : length (cs ++ [c]) = length (ds ++ [d])).
    { rewrite !length_app. simpl. apply Forall2_length in Ht. lia. }
    rewrite Hl1 in Hr. change (Deliveries.event_row_id d :: ids) with ([Deliveries.event_row_id d] ++ ids) in Hs.
    rewrite app_assoc in Hs.
    change [Deliveries.event_row_id d] with (map Deliveries.event_row_id [d]) in Hs at 1.
    rewrite <- map_app in Hs.
    destruct (Nat.eqb_spec (length (ds ++ [d])) limit) as [He|He].
    + run_inv Hr. split; [done|]. eexists _, _. split; [exact Hg1|]. split; [done|].
      split; [by eapply sorted_prefix|]. rewrite map_app. split.
      { intros x [Hx|Hx]%elem_of_app; apply elem_of_app; [by left|right].
        apply list_elem_of_singleton in Hx as ->. by left. }
      split; [intros x Hx; apply elem_of_app; by left|]. by left.
    + apply (IH _ _ _ _ _ _ _ Hg1) in Hr as [Hd2 Hx]; [|rewrite length_app in *; simpl in *; lia|done].
      split; [by eapply later_trans|]. destruct r as [[after' cs']|e]; [|done].
      destruct Hx as (ds' & t' & Hg' & Hv & Hs' & Hsub & Hsup & Hend). rewrite map_app in Hsub, Hsup.
      rewrite <- app_assoc in Hsub. exists ds', t'. do 3 (split; [done|]). split; [exact Hsub|].
      split; [intros x Hx; apply Hsup, elem_of_app; by left|]. rewrite last_cons_default. destruct Hend as [Hend|(Hend & Ha & Hall)]; [by left|].
      right. split_and!; [done..|]. intros x [->|Hx]%elem_of_cons; [|by apply Hall].
      left. apply Hsup, elem_of_app. right. by left.
  - destruct Hx as [Ho1 Hpass].
    assert (Hg1 : gathered w0 w1 t ds cs)
      by (eapply gathered_same; [exact Hg|exact Hd1|exact Ho1|reflexivity]).
    apply (IH _ _ _ _ _ _ _ Hg1) in Hr as [Hd2 Hx]; [|done|by eapply sorted_without].
    pose proof (proj2 Hd2) as Ht2. split; [by eapply later_trans|]. destruct r as [[after' cs']|e]; [|done].
    destruct Hx as (ds' & t' & Hg' & Hv & Hs' & Hsub & Hsup & Hend). exists ds', t'.
    do 3 (split; [done|]). split.
    { intros x [Hx|Hx]%Hsub%elem_of_app; apply elem_of_app; [by left|right; by right]. }
    split; [done|]. rewrite last_cons_default. destruct Hend as [Hend|(Hend & Ha & Hall)]; [by left|].
    right. split_and!; [done..|]. intros x [->|Hx]%elem_of_cons; [right|by apply Hall].
    by eapply passed_over_later.
Qed.

(** The database clock does not run backwards. *)
Definition clock_forward : Prop := forall m n, (m <= n)%nat -> utc_timestamp m <= utc_timestamp n.

Lemma eligible_later now now' d : now <= now' -> eligible now d = true -> eligible now' d = true.
Proof.
  unfold eligible. rewrite !orb_true_iff, !andb_true_iff. destruct (Deliveries.claim_expires_at d); simpl;
    rewrite ?Z.leb_le; intuition lia.
Qed.

(** The ids of a window. *)
Lemma window_ids after limit now (v : Db) ids :
  db_wf v -> candidate_ids_sql tenant after limit now v = ids ->
  StronglySorted Z.lt ids /\ (forall k, k ∈ ids -> after < k) /\
  (forall d y, d ∈ deliveries v -> after < Deliveries.event_row_id d -> in_scope tenant d = true ->
     eligible now d = true -> last ids = Some y -> Deliveries.event_row_id d <= y ->
     Deliveries.event_row_id d ∈ ids) /\
  (0 < limit -> ids = [] -> forall d, d ∈ deliveries v -> after < Deliveries.event_row_id d ->
     in_scope tenant d = true -> eligible now d = false).
Proof.
  intros Hwf. rewrite candidate_ids_spec by done.
  set (p := fun d => (after <? Deliveries.event_row_id d) && in_scope tenant d && eligible now d).
  set (l := map Deliveries.event_row_id (List.filter p (deliveries v))). intros <-.
  assert (Hs : StronglySorted Z.lt l) by apply sorted_filter, Hwf.
  assert (Hin : forall d, d ∈ deliveries v -> p d = true -> Deliveries.event_row_id d ∈ l).
  { intros d Hd Hp. apply list_elem_of_fmap_2, list_elem_of_In, filter_In. by rewrite <- list_elem_of_In. }
  split; [|split; [|split]].
  - rewrite <- (take_drop (Z.to_nat limit) l) in Hs. by apply sorted_prefix in Hs.
  - intros k Hk. apply elem_of_take in Hk as (j & Hj & _). apply list_elem_of_lookup_2 in Hj.
    apply list_elem_of_fmap in Hj as (d & -> & Hd). apply list_elem_of_In, filter_In in Hd as [_ Hp].
    unfold p in Hp. bools. lia.
  - intros d y Hd Ha Hsc He Hl Hle. eapply elem_of_take_last; [done| |done|done].
    apply Hin; [done|]. unfold p. rewrite Hsc, He. by rewrite (proj2 (Z.ltb_lt _ _)).
  - intros Hlim He d Hd Ha Hsc. apply not_true_iff_false. intros Hel.
    assert (Hx : Deliveries.event_row_id d ∈ l).
    { apply Hin; [done|]. unfold p. rewrite Hsc, Hel. by rewrite (proj2 (Z.ltb_lt _ _)). }
    destruct l as [|x l']; [set_solver|]. destruct (Z.to_nat limit) eqn:E; [lia|done].
Qed.

(** The deliveries of the read view due at [m] with ids above [after] were taken
    or passed over. *)
Definition covered (w0 w : World) (v : Db) (m : nat) (after : Z) (ds : list (Deliveries.row_of Z)) :
    Prop :=
  forall d, d ∈ deliveries v -> in_scope tenant d = true -> eligible (utc_timestamp m) d = true ->
    after < Deliveries.event_row_id d ->
    Deliveries.event_row_id d ∈ map Deliveries.event_row_id ds \/
    passed_over w0 w (Deliveries.event_row_id d).

(** The result of a scan: locked candidates in ascending order, at most [limit],
    and none left out without a reason if they are fewer. *)
Definition scanned (w0 : World) (limit : nat) (m : nat) (after : Z) (w' : World)
    (cs' : list ClaimCandidate.t) (ds0 ds' : list (Deliveries.row_of Z)) (t' : Txn) : Prop :=
  gathered w0 w' t' ds' cs' /\ StronglySorted Z.lt (map Deliveries.event_row_id ds') /\
  (length ds' <= limit)%nat /\
  map Deliveries.event_row_id ds0 ⊆ map Deliveries.event_row_id ds' /\
  ((length ds' < limit)%nat -> clock_forward ->
   exists v, view t' = Some v /\ db_wf v /\ during [] (committed w0) v /\
     covered w0 w' v m after ds').

Lemma lock_candidates_run w0 fuel limit after cs ds w t r w' :
  gathered w0 w t ds cs -> (length ds <= Z.to_nat (Limit.get limit))%nat ->
  StronglySorted Z.lt (map Deliveries.event_row_id ds) ->
  ((length ds < Z.to_nat (Limit.get limit))%nat ->
   forall k, k ∈ map Deliveries.event_row_id ds -> k <= after) ->
  (forall v, view t = Some v -> during [] (committed w0) v) ->
  lock_candidates fuel tenant_id limit after cs w = Some (r, w') ->
  later [] w w' /\
  match r with
  | Ok cs' => exists ds' t',
      scanned w0 (Z.to_nat (Limit.get limit)) (tick w) after w' cs' ds ds' t' /\
      forall v, view t = Some v -> view t' = Some v
  | Err _ => exists t', stopped w' t'
  end.
Proof.
  revert after cs ds w t. induction fuel as [|fuel IH]; intros after cs ds w t Hg Hlen Hs Hbelow Hview Hr;
    cbn [lock_candidates] in Hr; [done|].
  pose proof Hg as [Ho Hown Hd0 Ht]. rewrite <- (Forall2_length _ _ _ Ht) in Hr.
  destruct (Nat.ltb_spec (length ds) (Z.to_nat (Limit.get limit))) as [Hlt|Hge]; cbn [negb] in Hr.
  2: { run_inv Hr. split; [apply later_refl|]. exists ds, t. split; [|done]. split_and!; [done..|]. lia. }
  run_inv Hr. destruct (consistent_open Hisolated _ _ _ _ _ Ho Hm) as [Hd1 Hx].
  pose proof (consistent_tick _ _ _ _ Hm) as Htick.
  assert (Hd1n : later [] w w1) by (split; [by eapply during_nil|lia]).
  destruct r0 as [ids|e]; [|run_inv Hr; split; [done|by exists t]].
  destruct Hx as (v & Hwfv & Hids & Hv & Ho1). rewrite Hown in Hids. unfold locks in Hids.
  rewrite overlay_locks in Hids. symmetry in Hids. fold tenant in Hids.
  pose proof (window_ids after (Limit.get limit) _ v ids Hwfv Hids) as (Hsi & Hai & Hin & Hno).
  rewrite Hown in Hd1. cbn [own_locks locks] in Hd1.
  pose proof (gathered_same _ _ _ _ (MkTxn (Some v) (own t)) _ _ Hg (conj Hd1 (proj2 Hd1n)) Ho1 eq_refl) as Hg1.
  assert (Hdv : during [] (committed w0) v).
  { destruct (view t) as [v'|] eqn:Ev; subst v; [by apply Hview|apply Hg1]. }
  assert (Hkeep : forall v', view t = Some v' -> Some v = Some v').
  { intros v' Ev. rewrite Ev in Hv. by subst v'. }
  destruct ids as [|id0 ids0] eqn:Eids.
  { run_inv Hr. split; [done|]. exists ds, (MkTxn (Some v) (own t)). split; [|exact Hkeep].
    split; [exact Hg1|]. split_and!; [done..|].
    intros _ _. exists v. split_and!; [done..|]. intros d Hd Hsc He Ha. exfalso.
    rewrite Hno in He; [done|lia|done..]. }
  assert (Hne : ids <> []) by (by rewrite Eids). rewrite <- Eids in *. clear Eids id0 ids0.
  run_inv Hr.
  assert (Hs1 : StronglySorted Z.lt (map Deliveries.event_row_id ds ++ ids)).
  { apply sorted_join; [done..|]. intros x y Hx Hy. specialize (Hbelow Hlt x Hx). specialize (Hai y Hy). lia. }
  destruct (lock_window_run w0 _ _ _ _ _ _ _ _ _ Hg1 Hlt Hs1 Hm0) as [Hd2 Hx].
  pose proof (later_trans _ _ _ _ Hd1n Hd2) as Hd12.
  destruct r0 as [[after' cs']|e]; [|run_inv Hr; by split].
  destruct Hx as (ds2 & t2 & Hg2 & Hv2 & Hs2 & Hsub & Hsup & Hend). cbn [view] in Hv2.
  cbn [fst snd] in Hr.
  destruct (last ids) as [y|] eqn:El; [|by apply last_None in El].
  assert (Hlast : List.last ids after = y).
  { apply last_Some in El as [l ->]. apply last_last. }
  assert (Hle2 : forall k, k ∈ map Deliveries.event_row_id ds ++ ids -> k <= y).
  { intros k Hk. apply last_Some in El as [l ->]. rewrite app_assoc in Hk, Hs1.
    apply elem_of_app in Hk as [Hk|Hk%list_elem_of_singleton]; [|lia].
    pose proof (sorted_app_lt _ _ Hs1 k y Hk ltac:(by left)). lia. }
  apply (IH _ _ _ _ _ Hg2) in Hr as [Hd3 Hx]; [| |done| |].
  2: { destruct Hend as [->|(? & _)]; lia. }
  2: { intros Hlt2 k Hk. destruct Hend as [He|(_ & -> & _)]; [lia|]. rewrite Hlast. by apply Hle2, Hsub. }
  2: { rewrite Hv2. by intros ? [= <-]. }
  pose proof (proj2 Hd3) as Ht3. pose proof (proj2 Hd12) as Ht12.
  split; [by eapply later_trans|]. destruct r as [cs2|e]; [|done].
  destruct Hx as (ds' & t' & (Hg' & Hs' & Hlen' & Hmono & Hcov) & Hkeep'). rewrite Hv2 in Hkeep'.
  exists ds', t'. split; [|intros v' Ev; apply Hkeep'; by apply Hkeep].
  split; [done|]. split; [done|]. split; [done|]. split; [by etrans|].
  intros Hlt' Hfwd. destruct (Hcov Hlt' Hfwd) as (v' & Hv' & _ & _ & Hcov').
  rewrite (Hkeep' v eq_refl) in Hv'. injection Hv' as <-. exists v.
  split; [by apply Hkeep'|]. split; [done|]. split; [done|].
  destruct Hend as [He|(_ & -> & Hall)].
  { exfalso. apply (Nat.lt_irrefl (length ds')).
    apply (Nat.lt_le_trans _ _ _ Hlt'). rewrite <- He, <- !(length_map Deliveries.event_row_id).
    by apply submseteq_length, NoDup_submseteq; [apply sorted_lt_NoDup|]. }
  intros d Hd Hsc He Ha. destruct (decide (Deliveries.event_row_id d <= y)) as [Hle|Hgt].
  - destruct (Hall (Deliveries.event_row_id d)) as [Hk|Hk]; [by eapply Hin|left; by apply Hmono|right].
    by eapply passed_over_later.
  - apply Hcov'; [done|done| |lia]. eapply eligible_later; [|exact He]. apply Hfwd. lia.
Qed.
End Locking.

(** ** Preparation *)

Section Preparation.
Context `{SerdeJson, Base64, MimeLib, FluentUri, RustDebug, MyEnv} {IL : InstantColumnLaws}.

(** Only draws of entropy lie between the two worlds. *)
Definition quiet (w w' : World) : Prop :=
  committed w' = committed w /\ txn w' = txn w /\ tick w' = tick w.

Lemma my_quiet_trans w1 w2 w3 : quiet w1 w2 -> quiet w2 w3 -> quiet w1 w3.
Proof. unfold quiet. intuition congruence. Qed.

Lemma my_quiet_open w w' t : quiet w w' -> open_at w t -> open_at w' t.
Proof. intros (Hc & Ht & _). unfold open_at. by rewrite Hc, Ht. Qed.

Lemma my_fresh_token_inv fuel previous used w r w' :
  fresh_token fuel previous used w = Some (r, w') ->
  quiet w w' /\ match r with Ok t => acceptable previous used t = true | Err _ => True end.
Proof.
  revert w. induction fuel as [|fuel IH]; intros w; simpl; [done|]. intros Hr.
  apply bind_inv in Hr as (t & w1 & Hf & Hr). unfold fill in Hf. injection Hf as <- <-.
  destruct (entropy (draws w)) as [t|e]; [|by run_inv Hr].
  destruct (acceptable previous used t) eqn:Ea; [by run_inv Hr|].
  apply IH in Hr as [Hq Hr]. by split.
Qed.

(** What a validated candidate satisfies at the time of the claim. *)
Definition due_now (now : Z) (c : ClaimCandidate.t) : Prop :=
  (ClaimCandidate.state c = "pending" /\ ClaimCandidate.available_at c <= now) \/
  (ClaimCandidate.state c = "claimed" /\
   exists expiry, ClaimCandidate.claim_expires_at c = Some expiry /\ expiry <= now).

Lemma validate_delivery_Ok c now :
  validate_delivery c (decode_instant now) = Ok tt -> due_now now c.
Proof.
  unfold validate_delivery, due_now. intros Hv.
  destruct (ClaimCandidate.claim_token c) as [token|].
  - destruct (bool_decide (ClaimCandidate.state c = "claimed")) eqn:Ec.
    2: { simpl in Hv. by repeat case_match. }
    apply bool_decide_eq_true in Ec. right. split; [done|]. simpl in Hv.
    destruct (ClaimCandidate.claim_expires_at c) as [expiry|]; simpl in Hv.
    + exists expiry. split; [done|]. rewrite decode_leb in Hv.
      destruct (Z.leb_spec expiry now); [done|]. rewrite andb_false_r in Hv. by repeat case_match.
    + rewrite andb_false_r in Hv. by repeat case_match.
  - destruct (bool_decide (ClaimCandidate.state c = "pending")) eqn:Ep.
    2: { simpl in Hv. by repeat case_match. }
    apply bool_decide_eq_true in Ep. left. split; [done|]. simpl in Hv. rewrite decode_leb in Hv.
    destruct (Z.leb_spec (ClaimCandidate.available_at c) now); [done|].
    rewrite andb_false_r in Hv. by repeat case_match.
Qed.

(** What a prepared entry records of its candidate. *)
Record prepared_from (now : Z) (c : ClaimCandidate.t) (p : PreparedClaim) : Prop := {
  pf_row_id : RowId.get (p_row_id p) = ClaimCandidate.event_row_id c;
  pf_tenant : TenantId.new (ClaimCandidate.tenant_id c) = Ok (p_tenant_id p);
  pf_due : due_now now c;
  pf_event : hydrate_event (ClaimCandidate.event_row c) = Ok (p_event p);
  pf_attempts : AttemptCount.get (p_attempts p) = ClaimCandidate.attempts c + 1;
  pf_bound : AttemptCount.get (p_attempts p) <= i64_max;
  pf_token : ClaimCandidate.claim_token c <> Some (p_token p);
}.

Lemma my_prepare_candidate_inv c now used w r w' :
  prepare_candidate c (decode_instant now) used w = Some (r, w') ->
  quiet w w' /\ match r with Ok p => prepared_from now c p /\ p_token p ∉ used | Err _ => True end.
Proof.
  unfold prepare_candidate. intros Hr. destruct (negb _) in Hr; [by run_inv Hr|].
  destruct (TenantId.new _) as [tenant|] eqn:Et; [|by run_inv Hr].
  destruct (RowId.new _) as [row_id|] eqn:Eid; [|by run_inv Hr].
  destruct (validate_delivery _ _) as [[]|] eqn:Ev; [|by run_inv Hr].
  destruct (checked_add i64_max _ 1) as [a1|] eqn:Eadd; [|by run_inv Hr].
  destruct (AttemptCount.new a1) as [attempts|] eqn:Eat; [|by run_inv Hr].
  run_inv Hr. apply my_fresh_token_inv in Hm as [Hq Ht].
  destruct r0 as [token|]; [|by run_inv Hr]. apply acceptable_spec in Ht as [Hp Hu].
  destruct (hydrate_event _) as [event|] eqn:Eh; run_inv Hr; [|done].
  split; [done|]. split; [|done].
  apply RowId_new_Ok in Eid as [Hid _]. apply checked_add_Some in Eadd as [-> Hle].
  apply AttemptCount_new_Ok in Eat as [Hat _]. apply validate_delivery_Ok in Ev.
  constructor; simpl; try done; lia.
Qed.

Lemma my_prepare_inv cs now used w r w' :
  prepare_batch cs (decode_instant now) used w = Some (r, w') ->
  quiet w w' /\
  match r with
  | Ok ps => Forall2 (prepared_from now) cs ps /\ NoDup (map p_token ps) /\
             (forall p, p ∈ ps -> p_token p ∉ used)
  | Err _ => True
  end.
Proof.
  revert used w r w'. induction cs as [|c cs IH]; cbn [prepare_batch]; intros used w r w' Hr.
  { run_inv Hr. split; [done|]. repeat split; try constructor. intros p Hp. set_solver. }
  run_inv Hr. apply my_prepare_candidate_inv in Hm as [Hq Hp].
  destruct r0 as [p|e]; [|by run_inv Hr]. destruct Hp as [Hp Hu].
  run_inv Hr. apply IH in Hm as [Hq' Hps]. pose proof (my_quiet_trans _ _ _ Hq Hq') as Hq2.
  destruct r0 as [ps|e]; run_inv Hr; (split; [done|]); [|done].
  destruct Hps as (Hf & Hnd & Hus). split_and!.
  - by constructor.
  - constructor; [|done]. intros Hin. apply list_elem_of_fmap in Hin as (q & Hq3 & Hin).
    apply (Hus q Hin). rewrite <- Hq3. clear. set_solver.
  - intros q Hin. apply elem_of_cons in Hin as [->|Hin]; [done|]. specialize (Hus q Hin). set_solver.
Qed.
End Preparation.

(** ** Claiming *)

Section Claiming.
Context `{SerdeJson, Base64, MimeLib, FluentUri, RustDebug, MyEnv}.
Context (Hisolated : isolated).
Context (worker : WorkerId.t) (operation_time : OffsetDateTime) (lease_micros : Z).

Let now := encode_instant operation_time.
Let expiry := now + lease_micros.

(** A delivery that the claiming update of [p] matches. *)
Record ready (d : Deliveries.row_of Z) (p : PreparedClaim) : Prop := {
  rd_key : Deliveries.event_row_id d = RowId.get (p_row_id p);
  rd_tenant : Deliveries.tenant_id d = TenantId.as_str (p_tenant_id p);
  rd_state : Deliveries.state d = "pending" \/ Deliveries.state d = "claimed";
}.

Definition claim_with (d : Deliveries.row_of Z) (p : PreparedClaim) : Deliveries.row_of Z :=
  set_claimed (AttemptCount.get (p_attempts p)) (p_token p) (WorkerId.as_str worker) (Some expiry) d.

(** What a returned claim records of its prepared entry. *)
Record claimed_from (p : PreparedClaim) (ev : ClaimedEvent.t) : Prop := {
  cf_tenant : ClaimedEvent.tenant_id ev = p_tenant_id p;
  cf_row_id : ClaimedEvent.row_id ev = p_row_id p;
  cf_event : ClaimedEvent.event ev = p_event p;
  cf_attempts : ClaimedEvent.attempts ev = p_attempts p;
  cf_token : ClaimedEvent.claim_token ev = ClaimToken.from_bytes (p_token p);
  cf_worker : ClaimedEvent.claimed_by ev = worker;
  cf_expiry : canonicalize_instant "claim_expires_at" (decode_instant expiry)
              = Ok (ClaimedEvent.claim_expires_at ev);
}.

(** The claiming update of a ready delivery writes that delivery alone. *)
Lemma my_claim_update_one db d p o :
  db_wf db -> d ∈ deliveries db -> ready d p ->
  claim_update_sql (AttemptCount.get (p_attempts p)) (p_token p) (WorkerId.as_str worker)
    lease_micros now (TenantId.as_str (p_tenant_id p)) (RowId.get (p_row_id p)) db = Ok (tt, o) ->
  o = MkOwn [] [claim_with d p] [Deliveries.event_row_id d] /\ db_wf (overlay o db) /\
  forall d', d' ∈ deliveries db -> Deliveries.event_row_id d' <> Deliveries.event_row_id d ->
    d' ∈ deliveries (overlay o db).
Proof.
  intros Hwf Hd [Hk Ht Hs]. unfold claim_update_sql. cbv zeta.
  set (selected := fun r => _).
  assert (Hsel : selected d = true).
  { unfold selected. rewrite Hk, Ht, Z.eqb_refl, bool_decide_true by done. simpl.
    rewrite orb_true_iff, !bool_decide_eq_true. done. }
  assert (Hkey : forall y, selected y = true -> Deliveries.event_row_id y = Deliveries.event_row_id d).
  { intros y. unfold selected. rewrite !andb_true_iff, Z.eqb_eq, Hk. tauto. }
  destruct (timestampadd _ _) as [later|] eqn:El.
  2: { assert (Hex : existsb selected (deliveries db) = true).
       { apply existsb_exists. exists d. by rewrite <- list_elem_of_In. }
       by rewrite Hex. }
  assert (later = expiry) as ->.
  { unfold timestampadd in El. destruct (_ <=? _); by simplify_eq. }
  set (set_ := set_claimed _ _ _ _).
  destruct (update_sql selected set_ db) as [[rows o']|] eqn:E; [|done]. cbn [snd].
  pose proof E as E'. assert (Hkeep : keeps_key set_) by done.
  destruct (update_sql_Ok _ _ _ _ _ Hwf Hkeep E) as (_ & _ & _ & Hov & Hwf').
  rewrite (update_sql_one _ _ _ d) in E' by (try done; intros y Hy Hsy; eapply (sorted_key_inj Deliveries.event_row_id); eauto; apply Hwf).
  destruct (Deliveries.check (set_ d)); [|done]. injection E' as <- <-.
  intros [= <-]. split; [done|]. split; [done|].
  intros d' Hd' Hne. rewrite Hov. cbn [deliveries].
  replace d' with (updated selected set_ d'); [by apply list_elem_of_fmap_2|].
  unfold updated. destruct (selected d') eqn:Es; [|done]. by apply Hkey in Es.
Qed.

(** The expiry read back is that of the row just written, whatever the read view. *)
Lemma expiry_read (o : Own Z) (v : Db) d p :
  db_wf v -> ready d p ->
  expiry_sql (TenantId.as_str (p_tenant_id p)) (RowId.get (p_row_id p))
    (overlay (own_app o (MkOwn [] [claim_with d p] [Deliveries.event_row_id d])) v)
  = Some (Some expiry).
Proof.
  intros Hwf [Hk Ht _]. unfold expiry_sql, overlay. cbn [deliveries own_app own_deliveries].
  set (table := upsert_all _ _ _).
  assert (Hs : StronglySorted Z.lt (map Deliveries.event_row_id table)) by apply upsert_all_sorted, Hwf.
  assert (Hat : row_at Deliveries.event_row_id (RowId.get (p_row_id p)) table = Some (claim_with d p)).
  { unfold table. rewrite row_at_upsert_all, rev_app_distr. simpl. by rewrite Hk, Z.eqb_refl. }
  destruct (find _ table) as [r|] eqn:Ef.
  - apply List.find_some in Ef as [Hr Hp]. bools.
    assert (Hrk : Deliveries.event_row_id r = RowId.get (p_row_id p)) by done.
    apply list_elem_of_In in Hr. pose proof (row_at_elem Deliveries.event_row_id table r Hs Hr) as Hat'.
    rewrite Hrk, Hat in Hat'. by injection Hat' as <-.
  - exfalso. pose proof (row_at_Some _ _ _ _ Hat) as [Hin _].
    apply list_elem_of_In in Hin. pose proof (List.find_none _ _ Ef _ Hin) as Hno. simpl in Hno. by rewrite Hk, Ht, Z.eqb_refl, bool_decide_true in Hno.
Qed.

(** The transaction wrote the claims [rows] on top of [o]. *)
Definition wrote (o : Own Z) (rows : list (Deliveries.row_of Z)) (w : World) : Prop :=
  exists t, open_at w t /\ own t = own_app o (MkOwn [] rows (map Deliveries.event_row_id rows)).

Lemma my_persist_claim_run d p o w r w' :
  (exists t, open_at w t /\ own t = o) -> ready d p -> d ∈ deliveries (overlay o (committed w)) ->
  Deliveries.event_row_id d ∈ own_locks o ->
  persist_claim worker lease_micros operation_time p w = Some (r, w') ->
  during (own_locks o) (committed w) (committed w') /\
  match r with
  | Ok ev => claimed_from p ev /\ wrote o [claim_with d p] w' /\
      forall d', d' ∈ deliveries (overlay o (committed w)) ->
        Deliveries.event_row_id d' ∈ own_locks o ->
        Deliveries.event_row_id d' <> Deliveries.event_row_id d ->
        d' ∈ deliveries (overlay (own_app o (MkOwn [] [claim_with d p] [Deliveries.event_row_id d]))
                           (committed w'))
  | Err _ => exists t', stopped w' t'
  end.
Proof.
  intros (t & Ho & Hown) Hready Hd Hk Hr. unfold persist_claim in Hr. run_inv Hr.
  pose proof (open_committed _ _ Ho) as Hw. pose proof (open_current _ _ Ho) as Hv0. rewrite Hown in Hv0.
  destruct (in_session_open Hisolated _ _ _ _ _ Ho Hm) as (Hd1 & Hw1 & Hv1 & _). rewrite Hown in Hd1, Hv1.
  assert (Hstay : forall x, x ∈ deliveries (overlay o (committed w)) ->
            Deliveries.event_row_id x ∈ own_locks o -> x ∈ deliveries (overlay o (committed w0))).
  { intros x Hx Hkx. by eapply (locked_own_row Hisolated o (committed w)). }
  destruct (my_statement_open Hisolated _ _ _ _ _ Ho Hm) as [_ Hx].
  { intros [] o' Hu Hwf. rewrite Hown in Hu, Hwf |- *.
    by apply (my_claim_update_one _ _ _ _ Hwf (Hstay d Hd Hk) Hready Hu). }
  destruct r0 as [[]|e]; [|run_inv Hr; split; [done|by exists t]].
  destruct Hx as (o' & Hu & Hwf & Ho1). rewrite Hown in Hu, Hwf.
  destruct (my_claim_update_one _ _ _ _ Hwf (Hstay d Hd Hk) Hready Hu) as (-> & _ & Hothers).
  set (o1 := own_app o (MkOwn [] [claim_with d p] [Deliveries.event_row_id d])) in *.
  assert (Hown1 : own (add_own (MkOwn [] [claim_with d p] [Deliveries.event_row_id d]) t) = o1).
  { cbn [add_own with_own own]. by rewrite Hown. }
  clear Hm. run_inv Hr. destruct (consistent_open Hisolated _ _ _ _ _ Ho1 Hm) as [Hd2 Hx].
  rewrite Hown1 in Hd2, Hx. pose proof (open_committed _ _ Ho1) as Hw1'.
  assert (Hd2o : during (own_locks o) (committed w0) (committed w1)).
  { eapply during_mono; [|exact Hd2]. unfold o1. simpl. intros x Hx'. apply elem_of_app. by left. }
  pose proof (during_trans _ _ _ _ Hd1 Hd2o) as Hd12.
  destruct r0 as [row|e].
  2: { run_inv Hr. split; [done|]. by eexists. }
  destruct Hx as (v & Hwfv & -> & _ & Ho2). unfold o1 in Hr. rewrite (expiry_read _ _ _ _ Hwfv Hready) in Hr.
  cbn [fetch_one] in Hr. unfold ClaimedEvent.new in Hr.
  destruct (canonicalize_instant _ _) as [u|e] eqn:Eu; run_inv Hr; (split; [done|]).
  2: { eexists. left. exact Ho2. }
  split; [by constructor|]. split.
  { eexists. split; [exact Ho2|]. done. }
  intros d' Hd' Hk' Hne.
  eapply (locked_own_row Hisolated o1 (committed w0)); [exact Hw1'|exact Hd2| |].
  - unfold o1. simpl. apply elem_of_app. by left.
  - unfold o1. rewrite overlay_app. by apply Hothers; [apply Hstay|].
Qed.

Lemma my_persist_claims_run ds ps o w r w' :
  Forall2 ready ds ps -> NoDup (map Deliveries.event_row_id ds) ->
  (exists t, open_at w t /\ own t = o) ->
  (forall d, d ∈ ds -> d ∈ deliveries (overlay o (committed w))) ->
  (forall d, d ∈ ds -> Deliveries.event_row_id d ∈ own_locks o) ->
  persist_claims worker lease_micros operation_time ps w = Some (r, w') ->
  during (own_locks o) (committed w) (committed w') /\
  match r with
  | Ok evs => Forall2 claimed_from ps evs /\ wrote o (zip_with claim_with ds ps) w'
  | Err _ => exists t', stopped w' t'
  end.
Proof.
  intros Hready. revert o w r w'.
  induction Hready as [|d p ds ps Hdp Hready IH]; cbn [persist_claims]; intros o w r w' Hnd Ho Hin Hlk Hr.
  { run_inv Hr. split; [constructor|]. split; [constructor|]. destruct Ho as (t & Ho & Hown).
    exists t. split; [done|]. rewrite Hown. symmetry. apply own_app_nothing_r. }
  inversion Hnd as [|? ? Hnew Hnd']; subst. run_inv Hr.
  destruct (my_persist_claim_run d p o _ _ _ Ho Hdp (Hin d ltac:(left)) (Hlk d ltac:(left)) Hm)
    as [Hd1 Hres].
  destruct r0 as [ev|e]; [|by run_inv Hr]. destruct Hres as (Hcf & Ho1 & Hothers). run_inv Hr.
  apply (IH (own_app o (MkOwn [] [claim_with d p] [Deliveries.event_row_id d]))) in Hm0; [|done|done|..].
  2: { intros d' Hd'. apply Hothers; [by apply Hin; right|by apply Hlk; right|].
       intros He. apply Hnew. rewrite <- He. by apply list_elem_of_fmap_2. }
  2: { intros d' Hd'. simpl. apply elem_of_app. left. apply Hlk. by right. }
  destruct Hm0 as [Hd2 Hres2].
  apply (during_mono _ (own_locks o)) in Hd2; [|simpl; intros x Hx; apply elem_of_app; by left].
  pose proof (during_trans _ _ _ _ Hd1 Hd2) as Hd12.
  destruct r0 as [evs|e]; run_inv Hr; (split; [done|]); [|done].
  destruct Hres2 as [Hf (t & Ho2 & Hown2)]. split; [by constructor|].
  exists t. split; [done|]. by rewrite Hown2, own_app_assoc.
Qed.
End Claiming.
