(* ===== verification/MyClaim.v ===== *)
(** * What a MySQL claim does

    The contract of [claim_for_scope] of MyLifecycle: the batch it returns, the
    tables its commit leaves, and that it returns. *)

From S2P Require Import Prelude Step Utf8 BTree Errors Limits Validation Bounds Values Extension Serialization Event State Tables Queries RowHydration Claims External Overlay Others Instants Leases MyError My MyBackend MyRows MyHydrate MyLifecycle.

Section ClaimSpec.
Context `{SerdeJson, Base64, MimeLib, FluentUri, RustDebug, MyEnv, MyServer} {IL : InstantColumnLaws}.
Context (Hisolated : isolated).
Context (tenant_id : option TenantId.t) (worker : WorkerId.t) (lease_for : Lease.t)
  (limit : Limit.t).

Let tenant := option_map TenantId.as_str tenant_id.
Let lease_micros := Duration.as_nanos (Lease.get lease_for) / 1000.

(** [ev] claims the delivery [d], which was claimable in the tables committed when
    a statement between [w] and [w1] locked it. *)
Definition entry (w w1 : World) (d : Deliveries.row_of Z) (ev : ClaimedEvent.t) : Prop :=
  exists n db, between w w1 n /\ during [] (committed w) db /\ db_wf db /\ d ∈ deliveries db /\
    due Z.le tenant (utc_timestamp n) (others_lock n db) d /\
    is_claim_of hydrate_event db worker d ev.

(** The batch [evs] of the deliveries [ds], locked between [w] and [w1] and prepared
    at the time of [w1]: in ascending order, at most [limit], still due, and none
    left out without a reason when they are fewer. *)
Record batch (w w1 : World) (ds : list (Deliveries.row_of Z)) (evs : list ClaimedEvent.t) : Prop := {
  b_sorted : StronglySorted Z.lt (map Deliveries.event_row_id ds);
  b_limit : (length ds <= Z.to_nat (Limit.get limit))%nat;
  b_entries : Forall2 (entry w w1) ds evs;
  b_due : Forall (due Z.le tenant (utc_timestamp (tick w1)) []) ds;
  b_tokens : NoDup (map (fun ev => ClaimToken.as_bytes (ClaimedEvent.claim_token ev)) evs);
  b_expiry : Forall (fun ev => canonicalize_instant "claim_expires_at"
                 (decode_instant (utc_timestamp (tick w1) + lease_micros))
               = Ok (ClaimedEvent.claim_expires_at ev)) evs;
  b_complete : (length ds < Z.to_nat (Limit.get limit))%nat -> clock_forward ->
    exists m v, during [] (committed w) v /\ db_wf v /\ covered tenant_id w w1 v m 0 ds;
}.

(** The tables a batch leaves: over the tables [db2] of its commit, in which its
    deliveries are as they were locked, exactly their rows became claimed. *)
Definition claimed_on (w : World) (evs : list ClaimedEvent.t) (dbf : Db) : Prop :=
  exists w1 ds db2,
    let expiry := utc_timestamp (tick w1) + lease_micros in
    batch w w1 ds evs /\ during [] (committed w) db2 /\ db_wf db2 /\
    (forall d, d ∈ ds -> d ∈ deliveries db2) /\
    dbf = MkDb (events db2) (map (row_after_claim worker (Some expiry) evs) (deliveries db2))
            (tables db2) /\
    db_wf dbf.

(** The transaction of a batch, before its commit. *)
Definition claimed_in (w w' : World) (evs : list ClaimedEvent.t) : Prop :=
  exists w1 ds t,
    let expiry := utc_timestamp (tick w1) + lease_micros in
    let keys := map Deliveries.event_row_id ds in
    batch w w1 ds evs /\ during [] (committed w) (committed w') /\
    (forall d, d ∈ ds -> d ∈ deliveries (committed w')) /\ open_at w' t /\
    own t = own_app (locks keys) (MkOwn [] (claimed_rows worker expiry ds evs) keys).

Lemma my_entry_claim_of db d c now p micros time_ ev :
  candidate_of db d c -> prepared_from now c p -> claimed_from worker time_ micros p ev ->
  is_claim_of hydrate_event db worker d ev.
Proof.
  intros (e & He & Hj & ->) [] []. simpl in *. constructor; try congruence.
  - rewrite cf_tenant. by eapply TenantId_new_as_str.
  - by rewrite cf_token.
  - exists e. do 2 (split; [done|]). rewrite cf_event. exact pf_event.
Qed.

Lemma my_entry_ready db d c now p m held :
  candidate_of db d c -> prepared_from now c p -> claimable tenant m held d = true -> ready d p.
Proof.
  intros (e & He & Hj & ->) [] Hc. simpl in *. constructor; [done| |by eapply claimable_state].
  symmetry. by eapply TenantId_new_as_str.
Qed.

Lemma my_entry_due db d c now m held :
  candidate_of db d c -> due_now now c -> claimable tenant m held d = true ->
  due Z.le tenant now [] d.
Proof.
  intros (e & _ & _ & ->) Hd Hc. rewrite claimable_due, bool_decide_eq_true in Hc.
  destruct Hc as (Hs & _). split; [done|]. split; [|set_solver]. unfold due_now in Hd. simpl in Hd.
  destruct Hd as [[Hst Ha]|[Hst (expiry & He & Hle)]]; [left|right]; [done|]. by rewrite He.
Qed.

(** The claims of a batch. *)
Lemma my_batch_of w w1 now micros ds cs ps evs :
  Forall2 (taken tenant_id w w1) ds cs -> Forall2 (prepared_from now) cs ps ->
  Forall2 (claimed_from worker (decode_instant now) micros) ps evs ->
  Forall2 (entry w w1) ds evs /\ Forall (due Z.le tenant now []) ds /\
  zip_with (claim_with worker (decode_instant now) micros) ds ps
  = claimed_rows worker (now + micros) ds evs /\
  map (fun ev => ClaimToken.as_bytes (ClaimedEvent.claim_token ev)) evs = map p_token ps.
Proof.
  intros Hds. revert ps evs. unfold claimed_rows.
  induction Hds as [|d c ds cs (n & db & B1 & B2 & B3 & B4 & B5 & B6 & _) Hds IH]; intros ps evs Hps Hevs;
    inversion Hps as [|? p ? ps' Hp Hps']; subst; inversion Hevs as [|? ev ? evs' Hev Hevs']; subst;
    simpl; [by split_and!|].
  destruct (IH _ _ Hps' Hevs') as (He & Hdue & Hz & Ht). fold tenant in B5.
  split; [|split; [|split]].
  - constructor; [|done]. exists n, db. do 4 (split; [done|]).
    pose proof B5 as Hnow. rewrite claimable_due, bool_decide_eq_true in Hnow.
    split; [exact Hnow|by eapply my_entry_claim_of].
  - constructor; [|done]. eapply my_entry_due; [done|apply Hp|done].
  - rewrite Hz. f_equal. destruct Hev. unfold claim_with. by rewrite cf_attempts, cf_token, encode_decode.
  - rewrite Ht. f_equal. destruct Hev. by rewrite cf_token.
Qed.

Lemma my_batch_ready w w1 now ds cs ps :
  Forall2 (taken tenant_id w w1) ds cs -> Forall2 (prepared_from now) cs ps -> Forall2 ready ds ps.
Proof.
  intros Hds. revert ps. induction Hds as [|d c ds cs (n & db & _ & _ & _ & _ & B5 & B6 & _) Hds IH];
    intros ps Hps; inversion Hps as [|? p ? ps' Hp Hps']; subst; constructor; [|by apply IH].
  by eapply my_entry_ready.
Qed.

(** What was taken is there. *)
Lemma taken_there w w1 ds cs d :
  Forall2 (taken tenant_id w w1) ds cs -> d ∈ ds -> d ∈ deliveries (committed w1).
Proof.
  intros Hf Hd. apply list_elem_of_lookup in Hd as [i Hi].
  destruct (Forall2_lookup_l _ _ _ _ _ Hf Hi) as (c & _ & n & db & _ & _ & Hwf & Hin & _ & _ & Hdu).
  eapply (during_locked_row Hisolated); [exact Hwf|exact Hdu|done|set_solver].
Qed.

(** The claims of the locked candidates, prepared at [now]. *)
Lemma my_claim_batch_run w w1 w2 m ds cs ps t r w' :
  let now := utc_timestamp (tick w1) in
  scanned tenant_id w (Z.to_nat (Limit.get limit)) m 0 w1 cs [] ds t ->
  Forall2 (prepared_from now) cs ps -> NoDup (map p_token ps) ->
  during (map Deliveries.event_row_id ds) (committed w1) (committed w2) -> open_at w2 t ->
  persist_batch ps worker lease_for (decode_instant now) w2 = Some (r, w') ->
  during [] (committed w) (committed w') /\
  match r with
  | Ok evs => claimed_in w w' evs
  | Err _ => exists t', stopped w' t'
  end.
Proof.
  intros now ([Ho1 Hown Hl1 Htaken] & Hs & Hlen & _ & Hcov) Hps Htok Hd Ho2 Hr.
  pose proof (during_nil _ _ _ Hd) as Hdn. pose proof (during_trans _ _ _ _ (proj1 Hl1) Hdn) as Hd02.
  unfold persist_batch, duration_micros in Hr. fold lease_micros in Hr.
  destruct (_ <=? _); [|run_inv Hr; split; [done|]; exists t; by left].
  assert (Hstay : forall d, d ∈ ds -> d ∈ deliveries (committed w2)).
  { intros d Hin. eapply (during_locked_row Hisolated); [|exact Hd| |by apply list_elem_of_fmap_2].
    - by eapply open_committed.
    - by eapply taken_there. }
  destruct (my_persist_claims_run Hisolated worker (decode_instant now) lease_micros ds ps
              (locks (map Deliveries.event_row_id ds)) w2 r w') as [Hd3 Hres].
  - by eapply my_batch_ready.
  - by apply sorted_lt_NoDup.
  - by exists t.
  - intros d Hin. unfold locks. rewrite overlay_locks. by apply Hstay.
  - intros d Hin. by apply list_elem_of_fmap_2.
  - exact Hr.
  - cbn [own_locks locks] in Hd3. pose proof (during_nil _ _ _ Hd3) as Hd3n.
    pose proof (during_trans _ _ _ _ Hd02 Hd3n) as Hd03. split; [done|].
    destruct r as [evs|e]; [|done]. destruct Hres as (Hevs & t' & Ho' & Hown').
    destruct (my_batch_of w w1 now lease_micros ds cs ps evs Htaken Hps Hevs) as (He & Hdue & Hz & Htoks).
    exists w1, ds, t'. cbv zeta. split; [|split; [done|split; [|split; [done|]]]].
    + constructor; [done|done|done|done|by rewrite Htoks| |].
      * apply Forall_forall. intros ev Hev. apply list_elem_of_lookup in Hev as [i Hi].
        destruct (Forall2_lookup_r _ _ _ _ _ Hevs Hi) as (p & _ & Hcf).
        pose proof (cf_expiry _ _ _ _ _ Hcf) as Hex. by rewrite encode_decode in Hex.
      * intros Hlt Hfwd. destruct Hcov as (v & _ & Hwf & Hdv & Hc); [done|done|]. by exists m, v.
    + intros d Hin. eapply (during_locked_row Hisolated); [|exact Hd3|by apply Hstay|by apply list_elem_of_fmap_2].
      by eapply open_committed.
    + rewrite Hown', Hz. unfold locks. by rewrite claimed_rows_keys by (by eapply Forall2_length).
Qed.

(** No candidate: nothing to claim. *)
Lemma my_claim_none w w1 m ds t :
  scanned tenant_id w (Z.to_nat (Limit.get limit)) m 0 w1 [] [] ds t -> claimed_in w w1 [].
Proof.
  intros ([Ho1 Hown Hl1 Htaken] & _ & Hlen & _ & Hcov). inversion Htaken; subst.
  exists w1, [], t. cbv zeta. split; [|split; [apply Hl1|split; [set_solver|split; [done|by rewrite Hown]]]].
  constructor; try constructor; [simpl; lia|]. intros Hlt Hfwd.
  destruct Hcov as (v & _ & Hwf & Hdv & Hc); [done..|]. by exists m, v.
Qed.

(** A run of the transaction. *)
Lemma my_claim_transaction_run fuel w r w' :
  open_at w (MkTxn None nothing) ->
  claim_in_transaction fuel tenant_id worker lease_for limit w = Some (r, w') ->
  during [] (committed w) (committed w') /\
  match r with
  | Ok evs => claimed_in w w' evs
  | Err _ => exists t', stopped w' t'
  end.
Proof.
  intros Ho Hr. unfold claim_in_transaction in Hr. run_inv Hr.
  pose proof (detect_tick _ _ _ Hm) as Htick.
  destruct (detect_open Hisolated _ _ _ _ Ho Hm) as [Hd0 Hx]. cbn [own own_locks nothing] in Hd0.
  destruct r0 as [info|e]; [|run_inv Hr; split; [done|]; destruct Hx as [Hs _]; by eexists].
  destruct Hx as [Ho0 _]. clear Hm. destruct (negb _) in Hr.
  { run_inv Hr. split; [done|]. eexists. by left. }
  run_inv Hr.
  assert (Hg : gathered tenant_id w w0 (MkTxn None nothing) [] []).
  { constructor; [done|done| |constructor]. split; [done|lia]. }
  apply (lock_candidates_run Hisolated _ _ _ _ _ _ _ _ _ _ _ Hg) in Hm as [Hd1 Hx];
    [|simpl; lia|constructor|set_solver|done].
  pose proof (during_trans _ _ _ _ Hd0 (proj1 Hd1)) as Hd01.
  destruct r0 as [cs|e]; [|by run_inv Hr]. destruct Hx as (ds & t & Hsc & _).
  pose proof (g_open _ _ _ _ _ _ (proj1 Hsc)) as Ho1.
  pose proof (g_own _ _ _ _ _ _ (proj1 Hsc)) as Hown1.
  destruct cs as [|c0 cs0] eqn:Ecs.
  { run_inv Hr. split; [done|]. by eapply my_claim_none. }
  rewrite <- Ecs in *. clear Ecs c0 cs0. run_inv Hr.
  destruct (server_open Hisolated _ _ _ _ _ Ho1 Hm) as [Hd2 Hx]. rewrite Hown1 in Hd2.
  cbn [own_locks locks] in Hd2. pose proof (during_nil _ _ _ Hd2) as Hd2n.
  pose proof (during_trans _ _ _ _ Hd01 Hd2n) as Hd02.
  destruct r0 as [now|e]; [|run_inv Hr; split; [done|]; by exists t].
  destruct Hx as [-> Ho2]. clear Hm. run_inv Hr.
  destruct (my_prepare_inv _ _ _ _ _ _ Hm) as [Hq Hps]. clear Hm.
  pose proof (my_quiet_open _ _ _ Hq Ho2) as Ho3. destruct Hq as (Hc3 & _).
  destruct r0 as [ps|e]; [|run_inv Hr; rewrite Hc3; split; [done|]; eexists; by left].
  destruct Hps as (Hps & Hnd & _). rewrite <- Hc3 in Hd2.
  by apply (my_claim_batch_run w w1 w3 _ ds cs ps t r w' Hsc).
Qed.

(** The commit of a batch. *)
Lemma my_claim_commit w w1 w2 ds evs db2 t :
  let expiry := utc_timestamp (tick w1) + lease_micros in
  let keys := map Deliveries.event_row_id ds in
  batch w w1 ds evs -> during [] (committed w) (committed w2) -> db_wf (committed w2) ->
  (forall d, d ∈ ds -> d ∈ deliveries (committed w2)) ->
  own t = own_app (locks keys) (MkOwn [] (claimed_rows worker expiry ds evs) keys) ->
  during (own_locks (own t)) (committed w2) db2 -> db_wf db2 -> db_wf (overlay (own t) db2) ->
  claimed_on w evs (overlay (own t) db2).
Proof.
  intros expiry keys Hb Hd2 Hwf2 Hin2 Hown Hd3 Hwf Hwfv. rewrite Hown in Hd3.
  apply (during_mono _ keys) in Hd3; [|intros x Hx; simpl; apply elem_of_app; by left].
  pose proof (during_nil _ _ _ Hd3) as Hd3n.
  assert (Hstay : forall d, d ∈ ds -> d ∈ deliveries db2).
  { intros d Hin. eapply (during_locked_row Hisolated); [exact Hwf2|exact Hd3|by apply Hin2|].
    by apply list_elem_of_fmap_2. }
  assert (Hlen : length ds = length evs) by (by eapply Forall2_length, b_entries).
  exists w1, ds, db2. cbv zeta. fold expiry. split; [done|]. split; [by eapply during_trans|].
  do 2 (split; [done|]). split; [|done].
  unfold locks in Hown. rewrite Hown, overlay_app, overlay_locks, overlay_deliveries; [|done|].
  - f_equal. apply map_ext_in. intros d Hin. apply list_elem_of_In in Hin. apply version_claims.
    + apply sorted_lt_NoDup, Hb.
    + eapply Forall2_impl; [apply Hb|]. by intros x ev (? & db & _ & _ & _ & _ & _ & Hco); apply Hco.
    + intros Hk. apply list_elem_of_fmap in Hk as (d' & Hk & Hd').
      assert (d = d') as ->; [|done].
      eapply (sorted_key_inj Deliveries.event_row_id); [apply Hwf|done|by apply Hstay|done].
  - intros r Hr. apply (list_elem_of_fmap_2 Deliveries.event_row_id) in Hr.
    change (_ <$> ?l) with (map Deliveries.event_row_id l) in Hr. rewrite claimed_rows_keys in Hr by done.
    apply list_elem_of_fmap in Hr as (d & -> & Hd'). apply list_elem_of_fmap_2. by apply Hstay.
Qed.

(** The claims of a call are those of its transaction. *)
Lemma batch_earlier w w0 w1 ds evs :
  later [] w w0 -> batch w0 w1 ds evs -> batch w w1 ds evs.
Proof.
  intros [Hd Ht] [B1 B2 B3 B4 B5 B6 B7]. constructor; try done.
  - eapply Forall2_impl; [exact B3|]. intros d ev (n & db & [] & E2 & E3). exists n, db.
    split; [split; lia|]. split; [by eapply during_trans|done].
  - intros Hlt Hfwd. destruct (B7 Hlt Hfwd) as (m & v & Hdv & Hwf & Hc). exists m, v.
    split; [by eapply during_trans|]. split; [done|]. intros d H1' H2' H3' H4'.
    destruct (Hc d H1' H2' H3' H4') as [Hk|(n & db & [] & E2 & E3)]; [by left|right].
    exists n, db. split; [split; lia|]. split; [by eapply during_trans|done].
Qed.

(** A run of a claim. *)
Lemma my_claim_run fuel w r w' :
  closed w -> claim_for_scope fuel tenant_id worker lease_for limit w = Some (r, w') ->
  closed w' /\
  match r with
  | Ok evs => claimed_on w evs (committed w')
  | Err e => during [] (committed w) (committed w') \/
      exists source evs, e = ClaimError.sql "commit claim transaction" source /\
        claimed_on w evs (committed w')
  end.
Proof.
  intros Hclosed. unfold claim_for_scope, claim_with_entropy_scoped. intros Hr. run_inv Hr.
  pose proof (begin_tick _ _ _ _ Hm) as Htick.
  destruct (my_begin_closed Hisolated _ _ _ _ Hclosed Hm) as [Hd0 Hx].
  destruct r0 as [[]|e]; [|run_inv Hr; auto]. clear Hm. run_inv Hr.
  destruct (my_claim_transaction_run _ _ _ _ Hx Hm) as [Hd1 Hres]. clear Hm.
  pose proof (during_trans _ _ _ _ Hd0 Hd1) as Hd01. destruct r0 as [evs|e].
  2: { destruct Hres as (t' & Hs). run_inv Hr. run_inv Hr.
       destruct (rollback_stopped Hisolated _ _ _ _ Hs Hm) as [Hc Hd2].
       split; [done|]. left. by eapply during_trans. }
  destruct Hres as (wm & ds & t & Hb & Hdm & Hin & Ho1 & Hown). run_inv Hr.
  destruct (my_commit_open Hisolated _ _ _ _ Ho1 Hm) as (Hc & db2 & Hd2 & Hwf2 & Hwfv & Hfin).
  assert (Hon : claimed_on w evs (overlay (own t) db2)).
  { eapply my_claim_commit; [|exact Hd01|by eapply open_committed|exact Hin|exact Hown|done..].
    apply (batch_earlier w w0); [|done]. split; [done|lia]. }
  destruct r0 as [[]|e]; run_inv Hr; (split; [done|]); [by rewrite Hfin|].
  destruct Hfin as [->|Hfin]; [right; eauto|]. left. rewrite Hfin.
  eapply during_trans; [exact Hd01|]. by eapply during_nil.
Qed.
End ClaimSpec.

(** ** Termination *)

(** The deliveries of the read view that the scan has not passed. *)
Definition ahead (v : Db) (after : Z) : nat :=
  length (List.filter (fun d => after <? Deliveries.event_row_id d) (deliveries v)).

Lemma ahead_less (v : Db) after d :
  d ∈ deliveries v -> after < Deliveries.event_row_id d ->
  (ahead v (Deliveries.event_row_id d) < ahead v after)%nat.
Proof.
  unfold ahead. intros Hd Ha.
  assert (Hle : forall l, (length (List.filter (fun d' : Deliveries.row_of Z => (Deliveries.event_row_id d <? Deliveries.event_row_id d')%Z) l)
            <= length (List.filter (fun d' : Deliveries.row_of Z => (after <? Deliveries.event_row_id d')%Z) l))%nat).
  { induction l as [|x l IH]; simpl; [done|]. destruct (Z.ltb_spec (Deliveries.event_row_id d) (Deliveries.event_row_id x));
      destruct (Z.ltb_spec after (Deliveries.event_row_id x)); simpl; lia. }
  induction (deliveries v) as [|x l IH]; [set_solver|]. apply elem_of_cons in Hd as [<-|Hd]; simpl.
  - rewrite Z.ltb_irrefl. destruct (Z.ltb_spec after (Deliveries.event_row_id d)); [|lia].
    simpl. specialize (Hle l). lia.
  - specialize (IH Hd). destruct (Z.ltb_spec (Deliveries.event_row_id d) (Deliveries.event_row_id x));
      destruct (Z.ltb_spec after (Deliveries.event_row_id x)); simpl; lia.
Qed.

Section ClaimReturns.
Context `{SerdeJson, Base64, MimeLib, FluentUri, RustDebug, MyEnv, MyServer} {IL : InstantColumnLaws}.

(** The source of entropy does not fail, and does not repeat a token in the [n]
    draws from [k] on. *)
Definition distinct_draws (k n : nat) : Prop :=
  exists t, (forall i, entropy i = Ok (t i)) /\
    forall i j, (k <= i < k + n)%nat -> (k <= j < k + n)%nat -> t i = t j -> i = j.

Lemma my_fresh_token_search (t : nat -> bytes) fuel previous used w k :
  (forall i, entropy i = Ok (t i)) -> (k < fuel)%nat ->
  acceptable previous used (t (draws w + k)%nat) = true ->
  exists r w', fresh_token fuel previous used w = Some (r, w') /\
    (draws w <= draws w' <= draws w + fuel)%nat.
Proof.
  intros Ht. revert fuel w. induction k as [|k IH]; intros [|fuel] w Hk Ha; try lia; simpl;
    (erewrite bind_run by (unfold fill; rewrite Ht; reflexivity)); cbv beta iota.
  - rewrite Nat.add_0_r in Ha. rewrite Ha. do 2 eexists. split; [reflexivity|]. simpl. lia.
  - destruct (acceptable previous used (t (draws w))).
    + do 2 eexists. split; [reflexivity|]. simpl. lia.
    + destruct (IH fuel (MkWorld (committed w) (txn w) (tick w) (S (draws w)))) as (r & w' & Hr & Hd).
      * lia.
      * simpl. by replace (S (draws w + k)) with (draws w + S k)%nat by lia.
      * exists r, w'. split; [done|]. simpl in Hd. lia.
Qed.

Lemma my_fresh_token_returns fuel previous used w n :
  distinct_draws (draws w) n -> (fuel <= n)%nat -> (length used + 1 < fuel)%nat ->
  exists r w', fresh_token fuel previous used w = Some (r, w') /\
    (draws w <= draws w' <= draws w + fuel)%nat.
Proof.
  intros (t & Ht & Hd) Hn Hfuel.
  destruct (acceptable_among previous used (fun k => t (draws w + k)%nat) fuel) as (k & Hk & Ha).
  - intros i j Hi Hj Hij. apply Hd in Hij; lia.
  - done.
  - by apply (my_fresh_token_search t fuel previous used w k).
Qed.

Lemma my_distinct_later k n k' n' :
  (k <= k')%nat -> (k' + n' <= k + n)%nat -> distinct_draws k n -> distinct_draws k' n'.
Proof.
  intros Hk Hn (t & Ht & Hd). exists t. split; [done|]. intros i j Hi Hj. apply Hd; lia.
Qed.

Lemma my_prepare_candidate_returns c now used w n :
  distinct_draws (draws w) n -> (entropy_fuel <= n)%nat -> (length used + 1 < entropy_fuel)%nat ->
  exists r w', prepare_candidate c now used w = Some (r, w') /\
    (draws w <= draws w' <= draws w + entropy_fuel)%nat.
Proof.
  intros Hd Hn Hfuel. unfold prepare_candidate.
  assert (Hstop : forall e : ClaimError.t, exists r w', ret (Err e : Result PreparedClaim _) w = Some (r, w') /\
            (draws w <= draws w' <= draws w + entropy_fuel)%nat)
    by (intros e; do 2 eexists; split; [reflexivity|lia]).
  destruct (negb _); [apply Hstop|]. destruct (TenantId.new _); [|apply Hstop].
  destruct (RowId.new _); [|apply Hstop]. destruct (validate_delivery _ _); [|apply Hstop].
  destruct (checked_add _ _ _); [|apply Hstop]. destruct (AttemptCount.new _); [|apply Hstop].
  destruct (my_fresh_token_returns entropy_fuel (ClaimCandidate.claim_token c) used w n Hd Hn Hfuel)
    as (r & w' & Hr & Hb). rewrite (bind_run _ _ _ _ _ Hr).
  destruct r; repeat case_match; do 2 eexists; (split; [reflexivity|lia]).
Qed.

Lemma my_prepare_returns cs now used w :
  distinct_draws (draws w) (length cs * entropy_fuel) ->
  (length cs + length used < entropy_fuel)%nat -> is_Some (prepare_batch cs now used w).
Proof.
  revert used w. induction cs as [|c cs IH]; simpl; intros used w Hd Hfuel; [by eexists|].
  destruct (my_prepare_candidate_returns c now used w _ Hd) as (r & w1 & Hr & Hb); [lia..|].
  rewrite (bind_run _ _ _ _ _ Hr). destruct r as [p|e]; [|by eexists].
  destruct (IH (used ++ [p_token p]) w1) as [[r2 w2] Hr2].
  - eapply my_distinct_later; [| |exact Hd]; lia.
  - rewrite length_app. simpl. lia.
  - rewrite (bind_run _ _ _ _ _ Hr2). destruct r2; by eexists.
Qed.

Lemma my_persist_batch_returns ps worker lease_for now :
  returns (persist_batch ps worker lease_for now).
Proof.
  unfold persist_batch. destruct (duration_micros _) as [micros|]; [|apply returns_ret].
  induction ps as [|p ps IH]; cbn [persist_claims]; [apply returns_ret|].
  assert (returns (persist_claim worker micros now p)) by (unfold persist_claim; returns_step).
  returns_step.
Qed.

(** The scan draws no entropy. *)
Lemma lock_candidate_draws tenant_id id w r w' :
  lock_candidate tenant_id id w = Some (r, w') -> draws w' = draws w.
Proof.
  unfold lock_candidate. intros Hr. run_inv Hr. apply in_session_draws in Hm. destruct r0; by run_inv Hr.
Qed.

Lemma lock_window_draws tenant_id limit ids after cs w r w' :
  lock_window tenant_id limit ids after cs w = Some (r, w') -> draws w' = draws w.
Proof.
  revert after cs w. induction ids as [|id ids IH]; intros after cs w Hr; cbn [lock_window] in Hr;
    [by run_inv Hr|]. run_inv Hr. apply lock_candidate_draws in Hm. rewrite <- Hm.
  destruct r0 as [[c|]|e]; [|by eapply IH|by run_inv Hr].
  destruct (_ =? _)%nat; [by run_inv Hr|]. by eapply IH.
Qed.

Lemma lock_candidates_draws tenant_id fuel limit after cs w r w' :
  lock_candidates fuel tenant_id limit after cs w = Some (r, w') -> draws w' = draws w.
Proof.
  revert after cs w. induction fuel as [|fuel IH]; intros after cs w Hr; cbn [lock_candidates] in Hr; [done|].
  destruct (negb _); [by run_inv Hr|]. run_inv Hr. apply in_session_draws in Hm. rewrite <- Hm.
  destruct r0 as [[|id ids]|e]; [by run_inv Hr| |by run_inv Hr]. run_inv Hr.
  apply lock_window_draws in Hm0. rewrite <- Hm0. destruct r0 as [[]|]; [|by run_inv Hr]. by eapply IH.
Qed.

Lemma lock_window_returns tenant_id limit ids after cs : returns (lock_window tenant_id limit ids after cs).
Proof.
  revert after cs. induction ids as [|id ids IH]; intros after cs; cbn [lock_window]; [apply returns_ret|].
  assert (returns (lock_candidate tenant_id id)) by (unfold lock_candidate; returns_step).
  apply returns_bind; [done|]. intros [[c|]|]; [|done|apply returns_ret]. cbv zeta.
  destruct (_ =? _)%nat; [apply returns_ret|done].
Qed.

(** A window moves the scan past one of its ids. *)
Lemma lock_window_after tenant_id limit ids after cs w after' cs' w' :
  lock_window tenant_id limit ids after cs w = Some (Ok (after', cs'), w') ->
  after' = after /\ ids = [] \/ after' ∈ ids.
Proof.
  revert after cs w. induction ids as [|id ids IH]; intros after cs w Hr; cbn [lock_window] in Hr.
  { run_inv Hr. simplify_eq. by left. }
  right. run_inv Hr. destruct r as [[c|]|e]; [| |by run_inv Hr].
  - destruct (_ =? _)%nat; [run_inv Hr; simplify_eq; by left|].
    apply IH in Hr as [[-> _]|Hr]; [by left|by right].
  - apply IH in Hr as [[-> _]|Hr]; [by left|by right].
Qed.
End ClaimReturns.

Section ScanReturns.
Context `{SerdeJson, Base64, MimeLib, FluentUri, RustDebug, MyEnv, MyServer}.
Context (Hisolated : isolated) (tenant_id : option TenantId.t) (w0 : World) (limit : Limit.t).

(** A scan in progress: locks alone, below the ids to come. *)
Record scanning (after : Z) (cs : list ClaimCandidate.t) (w : World) (t : Txn) : Prop := {
  sc_gathered : exists ds, gathered tenant_id w0 w t ds cs /\
    (length ds <= Z.to_nat (Limit.get limit))%nat /\
    StronglySorted Z.lt (map Deliveries.event_row_id ds) /\
    ((length ds < Z.to_nat (Limit.get limit))%nat ->
     forall k, k ∈ map Deliveries.event_row_id ds -> k <= after);
}.

(** One round of the loop ends it, or moves it towards the end of the read view. *)
Lemma scan_round after cs w t :
  scanning after cs w t ->
  (exists x, forall fuel, lock_candidates (S fuel) tenant_id limit after cs w = Some x) \/
  exists after' cs' w' t' v, scanning after' cs' w' t' /\ view t' = Some v /\
    match view t with Some v' => v = v' | None => True end /\
    (ahead v after' < ahead v after)%nat /\
    forall fuel, lock_candidates (S fuel) tenant_id limit after cs w
                 = lock_candidates fuel tenant_id limit after' cs' w'.
Proof.
  intros [(ds & Hg & Hlen & Hs & Hbelow)]. pose proof Hg as [Ho Hown _ Ht].
  cbn [lock_candidates]. rewrite <- (Forall2_length _ _ _ Ht).
  destruct (Nat.ltb_spec (length ds) (Z.to_nat (Limit.get limit))) as [Hlt|Hge]; cbn [negb];
    [|left; by eexists].
  match goal with |- context [bind (consistent_read ?f) _ w] => set (query := f) end.
  destruct (consistent_read_returns query w) as [[r w1] Hq].
  destruct (consistent_open Hisolated _ _ _ _ _ Ho Hq) as [Hd1 Hx].
  pose proof (consistent_tick _ _ _ _ Hq) as Htick.
  destruct r as [ids|e]; [|left; eexists; intros fuel; by rewrite (bind_run _ _ _ _ _ Hq)].
  destruct Hx as (v & Hwfv & Hids & Hv & Ho1). rewrite Hown in Hids, Hd1. unfold locks in Hids.
  rewrite overlay_locks in Hids. symmetry in Hids.
  pose proof (window_ids Hisolated tenant_id after (Limit.get limit) _ v ids Hwfv Hids) as (Hsi & Hai & _ & _).
  assert (Hin : forall k, k ∈ ids -> exists d, d ∈ deliveries v /\ Deliveries.event_row_id d = k).
  { intros k Hk. rewrite <- Hids in Hk. unfold query in Hk. rewrite candidate_ids_spec in Hk by done.
    apply elem_of_take in Hk as (j & Hj & _). apply list_elem_of_lookup_2 in Hj.
    apply list_elem_of_fmap in Hj as (d & -> & Hd). apply list_elem_of_In, filter_In in Hd as [Hd _].
    exists d. by rewrite list_elem_of_In. }
  clear Hids. clearbody query. destruct ids as [|id0 ids0] eqn:Eids.
  { left. eexists. intros fuel. by rewrite (bind_run _ _ _ _ _ Hq). }
  rewrite <- Eids in *.
  assert (Hl1 : later (map Deliveries.event_row_id ds) w w1) by (split; [done|lia]).
  pose proof (gathered_same Hisolated tenant_id _ _ _ _ _ _ _ Hg Hl1 Ho1 eq_refl) as Hg1.
  assert (Hs1 : StronglySorted Z.lt (map Deliveries.event_row_id ds ++ ids)).
  { apply sorted_join; [done..|]. intros x y Hx Hy. specialize (Hbelow Hlt x Hx). specialize (Hai y Hy). lia. }
  destruct (lock_window_returns tenant_id (Z.to_nat (Limit.get limit)) ids after cs w1) as [[r w2] Hw].
  destruct (lock_window_run Hisolated tenant_id w0 _ _ _ _ _ _ _ _ _ Hg1 Hlt Hs1 Hw) as [Hd2 Hx].
  assert (Hstep : forall fuel,
    (let* r := consistent_read query in
     match r with
     | Ok [] => ret (Ok cs)
     | Ok ((_ :: _) as ids) =>
         try* window := lock_window tenant_id (Z.to_nat (Limit.get limit)) ids after cs else (fun e => e) in
         lock_candidates fuel tenant_id limit window.1 window.2
     | Err e => ret (Err (ClaimError.sql "select claim candidate IDs" e))
     end) w
    = match r with
      | Ok window => lock_candidates fuel tenant_id limit window.1 window.2
      | Err e => ret (Err e)
      end w2).
  { intros fuel. rewrite (bind_run _ _ _ _ _ Hq). rewrite Eids in Hw |- *. by rewrite (bind_run _ _ _ _ _ Hw). }
  destruct r as [[after' cs']|e]; [right|left; eexists; intros fuel; by rewrite Hstep].
  destruct Hx as (ds2 & t2 & Hg2 & Hv2 & Hs2 & Hsub & _ & Hend). cbn [view] in Hv2.
  apply lock_window_after in Hw as [[_ Hw]|Hw]; [by rewrite Eids in Hw|].
  exists after', cs', w2, t2, v. split; [|split; [done|split; [by destruct (view t)|split]]].
  - constructor. exists ds2. split; [done|]. split; [destruct Hend as [->|(? & _)]; lia|].
    split; [done|]. intros Hlt2 k Hk. destruct Hend as [He|(_ & -> & _)]; [lia|].
    destruct (last ids) as [y|] eqn:El; [|apply last_None in El; by rewrite Eids in El].
    apply last_Some in El as [l El]. rewrite El, last_last. rewrite El in Hs1, Hsub.
    apply Hsub in Hk. rewrite app_assoc in Hk, Hs1.
    apply elem_of_app in Hk as [Hk|Hk%list_elem_of_singleton]; [|lia].
    pose proof (sorted_app_lt _ _ Hs1 k y Hk ltac:(by left)). lia.
  - destruct (Hin _ Hw) as (d & Hd & <-). apply ahead_less; [done|]. by apply Hai.
  - intros fuel. by rewrite Hstep.
Qed.

Lemma scan_returns n : forall after cs w t v,
  scanning after cs w t -> view t = Some v -> (ahead v after <= n)%nat ->
  exists x, forall fuel, (n < fuel)%nat -> lock_candidates fuel tenant_id limit after cs w = Some x.
Proof.
  induction n as [n IH] using lt_wf_ind. intros after cs w t v Hsc Hv Hn.
  destruct (scan_round _ _ _ _ Hsc) as [[x Hx]|(after' & cs' & w' & t' & v' & Hsc' & Hv' & He & Hlt & Hstep)].
  - exists x. intros [|fuel] Hf; [lia|]. apply Hx.
  - rewrite Hv in He. subst v'.
    destruct (IH (ahead v after') ltac:(lia) _ _ _ _ _ Hsc' Hv' ltac:(lia)) as [x Hx]. exists x.
    intros [|fuel] Hf; [lia|]. rewrite Hstep. apply Hx. lia.
Qed.

(** The loop ends: with enough fuel it gives one result, whatever the fuel. *)
Lemma lock_candidates_returns w :
  open_at w (MkTxn None nothing) -> later [] w0 w ->
  exists n x, forall fuel, (n < fuel)%nat -> lock_candidates fuel tenant_id limit 0 [] w = Some x.
Proof.
  intros Ho Hl.
  assert (Hsc : scanning 0 [] w (MkTxn None nothing)).
  { constructor. exists []. split; [|split; [simpl; lia|split; [constructor|set_solver]]].
    constructor; [done..|constructor]. }
  destruct (scan_round _ _ _ _ Hsc) as [[x Hx]|(after' & cs' & w' & t' & v & Hsc' & Hv & _ & _ & Hstep)].
  - exists 0%nat, x. intros [|fuel] Hf; [lia|]. apply Hx.
  - destruct (scan_returns _ _ _ _ _ _ Hsc' Hv (le_n _)) as [x Hx]. exists (S (ahead v after')), x.
    intros [|fuel] Hf; [lia|]. rewrite Hstep. apply Hx. lia.
Qed.
End ScanReturns.

Section ClaimTheorem.
Context `{SerdeJson, Base64, MimeLib, FluentUri, RustDebug, MyEnv, MyServer} {IL : InstantColumnLaws}.
Context (tenant_id : option TenantId.t) (worker : WorkerId.t) (lease_for : Lease.t)
  (limit : Limit.t).

(** The transaction returns when its draws do not repeat. *)
Lemma my_claim_transaction_returns (Hisolated : isolated) w :
  open_at w (MkTxn None nothing) ->
  distinct_draws (draws w) (Z.to_nat (Limit.get limit) * entropy_fuel) ->
  (Z.to_nat (Limit.get limit) < entropy_fuel)%nat ->
  exists n, forall fuel, (n < fuel)%nat ->
    is_Some (claim_in_transaction fuel tenant_id worker lease_for limit w).
Proof.
  intros Ho Hd Hfuel. unfold claim_in_transaction.
  destruct (detect_returns w) as [[r w1] Hr].
  pose proof (detect_tick _ _ _ Hr) as Htick.
  destruct (detect_open Hisolated _ _ _ _ Ho Hr) as [Hd1 Hx].
  assert (Hd1' : draws w1 = draws w).
  { unfold detect_on_connection in Hr. run_inv Hr. apply in_session_draws in Hm.
    destruct r0; by run_inv Hr. }
  destruct r as [info|e]; [|exists 0%nat; intros fuel _; rewrite (bind_run _ _ _ _ _ Hr); by eexists].
  destruct Hx as [Ho1 _].
  assert (Hl : later [] w w1) by (split; [done|lia]).
  destruct (lock_candidates_returns Hisolated tenant_id w limit w1 Ho1 Hl) as (n & [cs w2] & Hscan).
  exists n. intros fuel Hf. rewrite (bind_run _ _ _ _ _ Hr). destruct (negb _); [by eexists|].
  specialize (Hscan fuel Hf). rewrite (bind_run _ _ _ _ _ Hscan).
  pose proof (lock_candidates_draws _ _ _ _ _ _ _ _ Hscan) as Hd2.
  destruct cs as [cs|e]; [|by eexists].
  assert (Hlen : (length cs <= Z.to_nat (Limit.get limit))%nat).
  { assert (Hg : gathered tenant_id w w1 (MkTxn None nothing) [] []) by (constructor; [done..|constructor]).
    apply (lock_candidates_run Hisolated _ _ _ _ _ _ _ _ _ _ _ Hg) in Hscan as [_ Hx];
      [|simpl; lia|constructor|set_solver|done].
    destruct Hx as (ds & t & ([_ _ _ Ht] & _ & Hlen & _) & _). by rewrite <- (Forall2_length _ _ _ Ht). }
  destruct cs as [|c cs]; [by eexists|].
  destruct (database_time_returns w2) as [[r w3] Hr3]. rewrite (bind_run _ _ _ _ _ Hr3).
  apply in_session_draws in Hr3. destruct r as [now|e]; [|by eexists].
  destruct (my_prepare_returns (c :: cs) now [] w3) as [[r w4] Hr4].
  - eapply my_distinct_later; [| |exact Hd]; nia.
  - simpl in *. lia.
  - rewrite (bind_run _ _ _ _ _ Hr4). destruct r; [apply my_persist_batch_returns|by eexists].
Qed.

Lemma my_claim_returns w :
  isolated -> closed w ->
  distinct_draws (draws w) (Z.to_nat (Limit.get limit) * entropy_fuel) ->
  (Z.to_nat (Limit.get limit) < entropy_fuel)%nat ->
  exists n, forall fuel, (n < fuel)%nat ->
    is_Some (claim_for_scope fuel tenant_id worker lease_for limit w).
Proof.
  intros Hisolated Hc Hd Hfuel. unfold claim_for_scope, claim_with_entropy_scoped.
  destruct (my_begin_returns false w) as [[r w1] Hr].
  pose proof (my_begin_draws _ _ _ _ Hr) as Hd1. rewrite <- Hd1 in Hd.
  destruct (my_begin_closed Hisolated _ _ _ _ Hc Hr) as [_ Hx].
  destruct r as [[]|e]; [|exists 0%nat; intros fuel _; rewrite (bind_run _ _ _ _ _ Hr); by eexists].
  destruct (my_claim_transaction_returns Hisolated w1 Hx Hd Hfuel) as [n Hn]. exists n. intros fuel Hf.
  rewrite (bind_run _ _ _ _ _ Hr). destruct (Hn fuel Hf) as [[r w2] Hr2].
  rewrite (bind_run _ _ _ _ _ Hr2). destruct r; apply returns_bind;
    first [apply my_commit_returns|apply my_rollback_returns|intros []; apply returns_ret|intros ?; apply returns_ret].
Qed.

(** C6: a claim over MySQL, while other connections commit between any two of its
    statements and hold rows locked. When it returns claims, each is of a delivery
    of its scope that was pending and due or claimed and expired, and locked by no
    other connection, in the tables committed when a statement locked it, and was
    still due at the one time read after the last lock. They are at most [limit],
    in row order, each with its hydrated event, its attempt count increased by one
    and a token that differs from its previous one and from every other token of
    the batch. If they are fewer than [limit] and the clock does not run backwards,
    every other delivery that was due in the read view was passed over because a
    locking read found it no longer claimable. The rows stayed as they were seen
    until the commit, which made exactly them claimed under those tokens until that
    time plus the lease, and changed nothing else over what others committed. When
    it returns an error it left no trace, unless the error is that of a COMMIT
    whose answer was lost, which may also have taken effect whole. No transaction
    stays open. And it does return: the scan ends at the last delivery of the read
    view whatever is locked, and the loop that draws tokens ends as long as the
    source does not repeat itself meanwhile. *)
Theorem my_claim_outcomes w :
  isolated -> closed w ->
  (distinct_draws (draws w) (Z.to_nat (Limit.get limit) * entropy_fuel) ->
   (Z.to_nat (Limit.get limit) < entropy_fuel)%nat ->
   exists n, forall fuel, (n < fuel)%nat ->
     is_Some (claim_for_scope fuel tenant_id worker lease_for limit w)) /\
  forall fuel r w', claim_for_scope fuel tenant_id worker lease_for limit w = Some (r, w') ->
    closed w' /\
    match r with
    | Ok evs => claimed_on tenant_id worker lease_for limit w evs (committed w')
    | Err e => during [] (committed w) (committed w') \/
        exists source evs, e = ClaimError.sql "commit claim transaction" source /\
          claimed_on tenant_id worker lease_for limit w evs (committed w')
    end.
Proof.
  intros Hisolated Hc. split.
  - by apply my_claim_returns.
  - intros fuel r w' Hr. by apply (my_claim_run Hisolated tenant_id worker lease_for limit fuel).
Qed.
End ClaimTheorem.
