(* ===== verification/MyEnqueue.v ===== *)
(** * Enqueue of the MySQL adapter (crates/dovecote-sqlx-mysql/src/enqueue.rs)

    Insertion of an event and its delivery in the caller's transaction. The unique
    identity key orders concurrent producers; the stored event is then read back
    through the transaction's read view. *)

From S2P Require Import Prelude Step Utf8 BTree Errors Limits Validation Bounds Values Extension Serialization Event State Tables Queries RowHydration External Overlay Others Instants Migration MyError My MyInsert MyBackend MyHydrate MyRows MySchema.

(** ** The operation *)

Definition serialization_of {A} (r : Result A string) : Result A EnqueueError.t :=
  map_err EnqueueError.serialization r.

(** [a == text(b, field)? && rest] *)
Definition same_text (a : string) (b : bytes) (field : string)
    (rest : Result bool EnqueueError.t) : Result bool EnqueueError.t :=
  let? b := serialization_of (strv b field) in
  if bool_decide (a = b) then rest else Ok false.

Definition optional_text (value : option bytes) (field : string) : Result (option string) string :=
  match value with None => Ok None | Some value => map_ok Some (strv value field) end.

(** [a == optional_text(b, field)? && rest] *)
Definition same_optional_text (a : option string) (b : option bytes) (field : string)
    (rest : Result bool EnqueueError.t) : Result bool EnqueueError.t :=
  let? b := serialization_of (optional_text b field) in
  if bool_decide (a = b) then rest else Ok false.

Section Enqueue.
Context `{SerdeJson, Base64, MimeLib, FluentUri, RustDebug, MyEnv, MyServer, MyCatalogEnv}.
(** the text of migrations/0002_dovecote_tenant_baseline.sql *)
Context (tenant_baseline_sql : string).

Definition same_event (event : NewEvent.t) (row : ExistingEvent.t_of Z) :
    Result bool EnqueueError.t :=
  let c := NewEvent.content event in
  same_text (StreamName.as_str (EventContent.stream c)) (ExistingEvent.stream row) "stream"
  (same_text SPEC_VERSION (ExistingEvent.specversion row) "specversion"
  (same_text (EventId.as_str (EventContent.id c)) (ExistingEvent.event_id row) "event id"
  (same_text (EventSource.as_str (EventContent.source c)) (ExistingEvent.source row) "source"
  (same_text (EventType.as_str (EventContent.event_type c)) (ExistingEvent.event_type row) "event type"
  (same_optional_text (option_map EventSubject.as_str (EventContent.subject c))
     (ExistingEvent.subject row) "subject"
  (if negb (same_instant (EventContent.time c) (ExistingEvent.occurred_at row)) then Ok false else
   same_optional_text (option_map ContentType.as_str (EventContent.datacontenttype c))
     (ExistingEvent.datacontenttype row) "content type"
  (same_optional_text (option_map SchemaUri.as_str (EventContent.dataschema c))
     (ExistingEvent.dataschema row) "schema URI"
  (same_optional_text (option_map PartitionKey.as_str (EventContent.partitionkey c))
     (ExistingEvent.partitionkey row) "partition key"
  (Ok (bool_decide (Extensions.canonical_json (EventContent.extensions c)
                    = ExistingEvent.extensions row)
       && bool_decide (data_kind_of (EventContent.data c) = ExistingEvent.data_kind row)
       && bool_decide (option_map EventData.as_bytes (EventContent.data c)
                       = ExistingEvent.data row))))))))))).

Definition validate_existing_event (existing : ExistingEvent.t_of Z) : Result unit string :=
  map_ok (fun _ => tt) (hydrate_event (ExistingEvent.columns existing)).

Definition enqueue_error (error : SchemaError.t) : EnqueueError.t :=
  match error with
  | SchemaError.BackendMismatch detail => EnqueueError.BackendMismatch detail
  | SchemaError.Sql operation source => EnqueueError.sql operation source
  | SchemaError.Transient operation kind source => EnqueueError.Transient operation kind source
  | SchemaError.MigrationMismatch detail => EnqueueError.MigrationMismatch detail
  end.

Record SchemaSelection : Type := MkSelection {
  events_table : Z;
  deliveries_table : Z;
}.

(** [SELECT COUNT( * ) ... AND table_name = name] *)
Definition count_named (name : string) (tables : list TableInfo.t) : Z :=
  Z.of_nat (length (List.filter (fun t => bool_decide (TableInfo.table_name t = name)) tables)).

Definition schema_selection (c : Catalog) : SchemaSelection :=
  MkSelection (count_named "dovecote_events" (tables_of c))
    (count_named "dovecote_deliveries" (tables_of c)).

Definition validate_enqueue_schema : M (Result unit EnqueueError.t) :=
  try* info := detect_on_connection else enqueue_error in
  if negb (Capabilities.enforced_checks (BackendInfo.capabilities info))
  then ret (Err (EnqueueError.BackendMismatch "CHECK constraints are not enforced"))
  else
    try* selection := catalog_query (fun n _ => schema_selection (catalog n))
         else EnqueueError.sql "validate enqueue schema selection" in
    if (events_table selection =? 0) || (deliveries_table selection =? 0)
    then ret (Err (EnqueueError.MigrationMismatch
                     "current database does not contain the Dovecote tables"))
    else ret (map_err EnqueueError.MigrationMismatch
                (let? _ := current_migration tenant_baseline_sql in Ok tt)).

(** The match on the result of the INSERT: whether it inserted the event. *)
Definition insert_event (tenant_id : TenantId.t) (event : NewEvent.t) (operation_time : OffsetDateTime) :
    M (Result bool EnqueueError.t) :=
  let* result := statement (insert_event_sql (TenantId.as_str tenant_id)
                   (event_columns (NewEvent.content event)) (encode_instant operation_time)) in
  ret (match result with
       | Ok _ => Ok true
       | Err source =>
           if is_tenant_source_event_id_duplicate source then Ok false
           else Err (EnqueueError.sql "insert event" source)
       end).

(** The row of the identity, hydrated and compared: its [row_id] with the column's
    value *)
Definition resolve_event (tenant_id : TenantId.t) (event : NewEvent.t) :
    M (Result (RowId.t * Z) EnqueueError.t) :=
  let columns := event_columns (NewEvent.content event) in
  try* existing := consistent_read (fun _ => find_existing_sql (TenantId.as_str tenant_id)
                     (EventRow.source columns) (EventRow.event_id columns))
       else EnqueueError.sql "find inserted event" in
  match existing with
  | None => ret (Err (EnqueueError.sql "resolve inserted event"
                        (SqlxError.Protocol "identity insert returned no row")))
  | Some existing =>
      ret (let? existing_id := map_err (fun error => EnqueueError.serialization (ValidationError.to_string error))
                                 (RowId.new (ExistingEvent.row_id existing)) in
           let? _ := serialization_of (validate_existing_event existing) in
           let? same := same_event event existing in
           if negb same then Err (EnqueueError.IdempotencyConflict existing_id)
           else Ok (existing_id, ExistingEvent.row_id existing))
  end.

(** The rest of the operation: the delivery of the event. *)
Definition enqueue_delivery (tenant_id : TenantId.t) (operation_time : OffsetDateTime)
    (inserted : bool) (existing : RowId.t * Z) : M (Result EnqueueOutcome.t EnqueueError.t) :=
  try* delivery_exists := consistent_read (fun _ db =>
         existsb (delivery_of (TenantId.as_str tenant_id) existing.2) (deliveries db))
       else EnqueueError.sql "check duplicate delivery" in
  if delivery_exists then ret (Ok (EnqueueOutcome.AlreadyEnqueued existing.1))
  else if negb inserted
  then ret (Err (EnqueueError.MigrationMismatch "an existing event has no delivery row"))
  else
    try* _ := statement (insert_delivery_sql
                (pending_row (TenantId.as_str tenant_id) existing.2 (encode_instant operation_time)))
         else EnqueueError.sql "insert delivery" in
    ret (Ok (EnqueueOutcome.Enqueued existing.1)).

Definition enqueue_for_scope (tenant_id : TenantId.t) (event : NewEvent.t) :
    M (Result EnqueueOutcome.t EnqueueError.t) :=
  try* _ := validate_enqueue_schema else (fun e => e) in
  try* operation_time := database_time else EnqueueError.sql "read enqueue operation time" in
  try* inserted := insert_event tenant_id event operation_time else (fun e => e) in
  try* existing := resolve_event tenant_id event else (fun e => e) in
  enqueue_delivery tenant_id operation_time inserted existing.
End Enqueue.

(** ** The comparison of events *)

Section SameEvent.
Context `{SerdeJson, Base64, MimeLib, FluentUri, RustDebug, MyEnv} {TL : TimeLaws} {IL : InstantColumnLaws}.

Lemma same_text_utf8 a b field rest :
  valid_utf8 b = true -> same_text a b field rest = if bool_decide (a = b) then rest else Ok false.
Proof. unfold same_text, strv. by intros ->. Qed.

Lemma same_optional_text_utf8 a b field rest :
  is_none_or b valid_utf8 = true ->
  same_optional_text a b field rest = if bool_decide (a = b) then rest else Ok false.
Proof. unfold same_optional_text, optional_text, strv. destruct b as [b|]; simpl; [|done]. by intros ->. Qed.

Lemma hydrated_specversion row e : hydrate_event row = Ok e -> EventRow.specversion row = SPEC_VERSION.
Proof. unfold hydrate_event. by case_bool_decide. Qed.

(** Of a stored event that hydrates, the comparison never fails and compares the
    columns. *)
Lemma my_same_event_columns event x :
  option_all portable_instant (EventContent.time (NewEvent.content event)) ->
  validate_existing_event x = Ok tt ->
  exists b, same_event event x = Ok b /\
    (b = true <-> ExistingEvent.columns x = event_columns (NewEvent.content event)).
Proof.
  intros Ht Hv. unfold validate_existing_event in Hv.
  destruct (hydrate_event _) as [e|] eqn:He; [|done]. pose proof (hydrated_specversion _ _ He) as Hs.
  apply my_hydrate_event_Ok in He as [Hu _]. unfold utf8_columns in Hu.
  destruct x as [row stream spec id source ty subject occurred content schema partition ext kind data at_].
  cbn in Hs, Hu. subst spec. bools. unfold same_event. cbn [ExistingEvent.stream ExistingEvent.specversion
    ExistingEvent.event_id ExistingEvent.source ExistingEvent.event_type ExistingEvent.subject
    ExistingEvent.occurred_at ExistingEvent.datacontenttype ExistingEvent.dataschema
    ExistingEvent.partitionkey ExistingEvent.extensions ExistingEvent.data_kind ExistingEvent.data].
  rewrite !same_text_utf8 by done. rewrite !same_optional_text_utf8 by done.
  unfold ExistingEvent.columns, event_columns, event_columns_with. cbn.
  generalize (EventContent.extensions (NewEvent.content event)) (EventContent.data (NewEvent.content event)).
  intros x y.
  assert (Htime : negb (same_instant (EventContent.time (NewEvent.content event)) occurred)
                  = negb (bool_decide (option_map encode_instant (EventContent.time (NewEvent.content event)) = occurred))).
  { f_equal. apply eq_iff_eq_true. by rewrite same_instant_encoded, bool_decide_eq_true. }
  rewrite Htime, (bool_decide_true (SPEC_VERSION = SPEC_VERSION)) by done.
  repeat (match goal with
          | |- exists b, (if bool_decide ?P then _ else _) = _ /\ _ =>
              destruct (bool_decide_reflect P) as [?|Hc]
          | |- exists b, (if negb (bool_decide ?P) then _ else _) = _ /\ _ =>
              destruct (bool_decide_reflect P) as [?|Hc]; cbn [negb]
          end; [|eexists; split; [done|]; split; [done|intros [=]; by destruct Hc]]).
  subst. eexists. split; [done|]. rewrite !andb_true_iff, !bool_decide_eq_true. split.
  - by intros [[<- <-] <-].
  - by intros [=].
Qed.
End SameEvent.

(** ** The insertion of an event *)

Section InsertStatement.
Context `{MyEnv} {EL : MyErrorLaws}.
Context (Hisolated : isolated) (Happend : append_only).
Context (tenant : string) (columns : EventRow.t_of Z).

(** The row and the lock of an inserted event. *)
Definition inserted_event (k now : Z) : Own Z :=
  MkOwn [new_event_row k tenant columns now] [] [k].

(** The transaction [t] inserted the event under [k], which was free, as its
    identity was. *)
Record inserted_at (now k : Z) (w : World) (t : Txn) : Prop := {
  ins_positive : 0 < k;
  ins_check : Events.check (new_event_row k tenant columns now) = true;
  ins_committed : db_wf (committed w);
  ins_current : db_wf (overlay (own t) (committed w));
  ins_key : k ∉ event_keys (overlay (own t) (committed w));
  ins_identity : (tenant, EventRow.source columns, EventRow.event_id columns)
    ∉ map event_identity (events (overlay (own t) (committed w)));
  ins_open : open_past w (add_own (inserted_event k now) t);
}.

Lemma my_insert_statement_open now w t r w' :
  open_past w t -> statement (insert_event_sql tenant columns now) w = Some (r, w') ->
  during (own_locks (own t)) (committed w) (committed w') /\
  match r with
  | Ok _ => exists k, inserted_at now k w' t
  | Err source =>
      if is_tenant_source_event_id_duplicate source
      then open_past w' t /\ (tenant, EventRow.source columns, EventRow.event_id columns)
             ∈ map event_identity (events (overlay (own t) (committed w')))
      else stopped w' t
  end.
Proof.
  intros Ho Hm. destruct (statement_past Hisolated Happend _ _ _ _ _ Ho Hm) as (Hd & Hw & Hv & Hx).
  { intros [] o Hf. by eapply my_insert_event_wf. }
  split; [done|]. destruct r as [[]|source].
  - destruct Hx as (o & Hf & Ho'). apply my_insert_event_Ok in Hf; [|done].
    destruct Hf as (Hpos & Hck & -> & Hk & Hid). eexists. constructor; [exact Hpos|done..].
  - destruct (is_tenant_source_event_id_duplicate source) eqn:Ed; [|done].
    unfold statement, in_session in Hm. destruct Ho as [[Ht Ho] Hp].
    destruct (sql_fault (tick w)) as [[e b]|] eqn:Ef.
    { injection Hm as -> _. by rewrite (fault_not_duplicate _ _ _ Ef) in Ed. }
    rewrite Ht in Hm. unfold current in Hm.
    destruct (insert_event_sql _ _ _ _ _) as [[a o]|e] eqn:E; [done|]. injection Hm as -> <-.
    cbn [committed] in *. destruct (my_insert_event_duplicate _ _ _ _ _ _ Hv E Ed) as (e & He & Hide).
    split; [|apply list_elem_of_fmap; exists e; split; [by rewrite Hide|done]].
    destruct Ho as (Hwf & _ & Hview). split; [by split_and!|].
    eapply (past_later Hisolated Happend w _ t); [exact Hp|exact Hwf|exact Hd].
Qed.

(** An event of the identity in the transaction's tables is its own row. *)
Lemma own_row_unique (o : Own Z) k now db e :
  db_wf (overlay (own_app o (inserted_event k now)) db) ->
  e ∈ events (overlay (own_app o (inserted_event k now)) db) ->
  event_identity e = (tenant, EventRow.source columns, EventRow.event_id columns) ->
  e = new_event_row k tenant columns now.
Proof.
  intros Hwf He Hid. eapply event_identity_unique; [exact Hwf|exact He| |by rewrite Hid].
  apply own_event_elem.
Qed.
End InsertStatement.

(** ** What an enqueue does *)

Section EnqueueSpec.
Context `{SerdeJson, Base64, MimeLib, FluentUri, RustDebug, MyEnv, MyServer, MyCatalogEnv}.
Context {TL : TimeLaws} {IL : InstantColumnLaws} {EL : MyErrorLaws}.
Context (sql : string) (tenant_id : TenantId.t) (event : NewEvent.t).
Context (Hisolated : isolated) (Happend : append_only).
Context (Htime : option_all portable_instant (EventContent.time (NewEvent.content event))).

Let tenant := TenantId.as_str tenant_id.
Let columns := event_columns (NewEvent.content event).

(** the identity of the unique key *)
Definition identity : string * string * string :=
  (tenant, EventRow.source columns, EventRow.event_id columns).

(** The event of the identity, with row [id]. *)
Definition stored (id : RowId.t) (e : Events.row_of Z) (db : Db) : Prop :=
  e ∈ events db /\ event_identity e = identity /\ Events.row_id e = RowId.get id.

(** Errors other than the idempotency conflict. *)
Definition plain (e : EnqueueError.t) : Prop :=
  match e with EnqueueError.IdempotencyConflict _ => False | _ => True end.

Lemma my_sql_plain op e : plain (EnqueueError.sql op e).
Proof. unfold EnqueueError.sql. by destruct (TransientKind.from_sqlx e). Qed.

Lemma my_enqueue_error_plain e : plain (enqueue_error e).
Proof. destruct e; simpl; try done. apply my_sql_plain. Qed.

Lemma my_validate_enqueue_observes : observes (validate_enqueue_schema sql).
Proof.
  unfold validate_enqueue_schema. apply observes_try; [by apply detect_observes|]. intros info.
  observes_step.
Qed.

(** Validation takes two statements, and never reports a conflict. *)
Lemma my_validate_enqueue_run w r w' :
  validate_enqueue_schema sql w = Some (r, w') ->
  match r with Ok _ => tick w' = S (S (tick w)) | Err e => plain e end.
Proof.
  unfold validate_enqueue_schema. intros Hr. run_inv Hr. pose proof (detect_tick _ _ _ Hm) as Ht.
  destruct r0 as [info|e]; [|run_inv Hr; apply my_enqueue_error_plain].
  destruct (negb _); [by run_inv Hr|]. run_inv Hr. unfold catalog_query in Hm0.
  apply in_session_tick in Hm0. destruct r0 as [s|e]; [|run_inv Hr; apply my_sql_plain].
  destruct (_ || _); run_inv Hr; [done|].
  change (current_migration sql) with (Ok (A := Migration.t) (E := string)
    (Migration.Make 2 sql (MigrationCompatibility.new (CrateVersion.new 0 2 0) None) false)).
  cbn. congruence.
Qed.

(** What the INSERT leaves. *)
Lemma my_insert_event_open operation_time w t r w' :
  open_past w t -> insert_event tenant_id event operation_time w = Some (r, w') ->
  during (own_locks (own t)) (committed w) (committed w') /\
  match r with
  | Ok true => exists k, inserted_at tenant columns (encode_instant operation_time) k w' t
  | Ok false => open_past w' t /\
      identity ∈ map event_identity (events (overlay (own t) (committed w')))
  | Err e => stopped w' t /\ plain e
  end.
Proof.
  intros Ho Hr. unfold insert_event in Hr. run_inv Hr.
  destruct (my_insert_statement_open Hisolated Happend _ _ _ _ _ _ _ Ho Hm) as [Hd Hx].
  run_inv Hr. split; [done|]. destruct r0 as [[]|source]; [done|].
  destruct (is_tenant_source_event_id_duplicate source); [done|]. split; [done|apply my_sql_plain].
Qed.

(** The event of row [id] in the transaction's read view. *)
Definition shown (t : Txn) (id : RowId.t) (P : Events.row_of Z -> Prop) : Prop :=
  exists v e, view t = Some v /\ stored id e (overlay (own t) v) /\ P e.

(** What is shown is stored. *)
Lemma shown_stored w t id P :
  open_past w t -> shown t id P -> exists e, stored id e (overlay (own t) (committed w)) /\ P e.
Proof.
  intros [Ho Hp] (v & e & Hv & (He & Hid) & HP). exists e. split; [|done]. split; [|done].
  eapply overlay_events_mono; [|by eapply open_committed|by apply Hp|exact He]. by apply Ho.
Qed.

Lemma my_resolve_event_open w t r w' :
  open_past w t -> resolve_event tenant_id event w = Some (r, w') ->
  during (own_locks (own t)) (committed w) (committed w') /\
  match r with
  | Ok (id, k) => k = RowId.get id /\ exists v, let t' := MkTxn (Some v) (own t) in
      match view t with Some v' => v = v' | None => v = committed w' end /\
  open_past w' t' /\ shown t' id (fun e => row_columns e = columns)
  | Err (EnqueueError.IdempotencyConflict id) => exists v, let t' := MkTxn (Some v) (own t) in
      open_past w' t' /\ shown t' id (fun e => row_columns e <> columns)
  | Err _ => exists t', stopped w' t' /\ own t' = own t
  end.
Proof.
  intros Ho Hr. unfold resolve_event in Hr. run_inv Hr.
  destruct (consistent_past Hisolated Happend _ _ _ _ _ Ho Hm) as [Hd Hx].
  destruct r0 as [existing|e].
  2: { run_inv Hr. split; [done|]. pose proof (my_sql_plain "find inserted event" e).
       destruct (EnqueueError.sql _ e); try (by exists t). done. }
  destruct Hx as (v & Hwf & _ & Hfind & Ho' & Hview).
  assert (Hstop : exists t', stopped w0 t' /\ own t' = own t).
  { exists (MkTxn (Some v) (own t)). split; [left; apply Ho'|done]. }
  destruct existing as [x|]; run_inv Hr; (split; [done|]); [|done].
  symmetry in Hfind. apply find_existing_columns in Hfind as (e & He & Hid & Hrow & Hcols & _).
  destruct (RowId.new _) as [id|ve] eqn:Eid; [|done]. apply RowId_new_Ok in Eid as [Hget _]. simpl map_err.
  destruct (validate_existing_event x) as [[]|de] eqn:Ev; [|done]. simpl serialization_of. cbv iota.
  destruct (my_same_event_columns event x Htime Ev) as (b & -> & Hb).
  assert (Hst : stored id e (overlay (own t) v)) by (split_and!; [done..|congruence]).
  rewrite Hcols in Hb. destruct b; cbn [negb].
  - split; [congruence|]. exists v. split; [done|]. split; [done|]. exists v, e. split; [done|].
    split; [done|]. by apply Hb.
  - exists v. split; [done|]. exists v, e. split; [done|]. split; [done|]. intros Heq.
    by apply Hb in Heq.
Qed.
(** What enqueue does to the open transaction [t]. *)
Definition my_enqueue_effect (w : World) (t : Txn) (r : Result EnqueueOutcome.t EnqueueError.t)
    (w' : World) : Prop :=
  during (own_locks (own t)) (committed w) (committed w') /\
  match r with
  | Ok (EnqueueOutcome.Enqueued id) =>
      let now := utc_timestamp (S (S (tick w))) in
      let row := new_event_row (RowId.get id) tenant columns now in
      Events.check row = true /\
      (exists db, during (own_locks (own t)) (committed w) db /\
         during (own_locks (own t) ++ [RowId.get id]) db (committed w') /\
         db_wf db /\ db_wf (overlay (own t) db) /\
         identity ∉ map event_identity (events (overlay (own t) db)) /\
         RowId.get id ∉ event_keys (overlay (own t) db)) /\
      exists t', open_past w' t' /\
        own t' = own_app (own t) (MkOwn [row] [pending_row tenant (RowId.get id) now] [RowId.get id])
  | Ok (EnqueueOutcome.AlreadyEnqueued id) => exists t', own t' = own t /\ open_past w' t' /\
      (exists e, stored id e (overlay (own t) (committed w')) /\ row_columns e = columns) /\
      exists v d, view t' = Some v /\ d ∈ deliveries (overlay (own t) v) /\
        delivery_of tenant (RowId.get id) d = true
  | Err (EnqueueError.IdempotencyConflict id) => exists t', own t' = own t /\ open_past w' t' /\
      exists e, stored id e (overlay (own t) (committed w')) /\ row_columns e <> columns
  | Err _ => exists t', stopped w' t' /\ (own t' = own t \/
      exists k now, own t' = own_app (own t) (MkOwn [new_event_row k tenant columns now] [] [k]))
  end.

Lemma own_row_identity k now : event_identity (new_event_row k tenant columns now) = identity.
Proof. done. Qed.
Lemma own_row_columns k now : row_columns (new_event_row k tenant columns now) = columns.
Proof. unfold columns. by destruct (event_columns _). Qed.

(** After its insertion, the identity's event is the transaction's own row. *)
Lemma shown_own_row w v o k now id P :
  open_past w (MkTxn v (own_app o (inserted_event tenant columns k now))) ->
  shown (MkTxn v (own_app o (inserted_event tenant columns k now))) id P ->
  RowId.get id = k /\ P (new_event_row k tenant columns now).
Proof.
  intros Ho Hs. destruct (shown_stored _ _ _ _ Ho Hs) as (e & (He & Hid & Hk) & HP). cbn [own] in He.
  apply own_row_unique in He; [|exact (open_current _ _ (proj1 Ho))|done].
  subst e. by rewrite <- Hk.
Qed.

(** The delivery of an event that was stored before. *)
Lemma my_old_delivery_open operation_time id k w t r w' :
  open_past w t -> enqueue_delivery tenant_id operation_time false (id, k) w = Some (r, w') ->
  during (own_locks (own t)) (committed w) (committed w') /\
  match r with
  | Ok (EnqueueOutcome.Enqueued _) => False
  | Ok (EnqueueOutcome.AlreadyEnqueued id') => id' = id /\ exists v,
      open_past w' (MkTxn (Some v) (own t)) /\
      match view t with Some v' => v = v' | None => v = committed w' end /\
      exists d, d ∈ deliveries (overlay (own t) v) /\ delivery_of tenant k d = true
  | Err e => plain e /\ exists t', stopped w' t' /\ own t' = own t
  end.
Proof.
  intros Ho Hr. unfold enqueue_delivery in Hr. run_inv Hr.
  destruct (consistent_past Hisolated Happend _ _ _ _ _ Ho Hm) as [Hd Hx].
  destruct r0 as [b|e]; [|run_inv Hr; split; [done|]; split; [apply my_sql_plain|by exists t]].
  destruct Hx as (v & Hwf & _ & Hb & Ho' & Hview).
  destruct b; run_inv Hr; (split; [done|]).
  - split; [done|]. exists v. split; [done|]. split; [done|].
    symmetry in Hb. apply existsb_exists in Hb as (d & Hin & Hdel). exists d.
    by rewrite list_elem_of_In.
  - split; [done|]. exists (MkTxn (Some v) (own t)). split; [left; apply Ho'|done].
Qed.

(** The delivery of the event just inserted. *)
Lemma my_new_delivery_open operation_time k now w0 w t v id r w' :
  k ∉ event_keys (overlay (own t) (committed w0)) -> db_wf (committed w0) ->
  db_wf (overlay (own t) (committed w0)) -> RowId.get id = k ->
  (events v ⊆ events (committed w0) \/ during [k] (committed w0) v) ->
  let t1 := MkTxn (Some v) (own_app (own t) (inserted_event tenant columns k now)) in
  open_past w t1 ->
  enqueue_delivery tenant_id operation_time true (id, k) w = Some (r, w') ->
  during (own_locks (own t1)) (committed w) (committed w') /\
  match r with
  | Ok (EnqueueOutcome.Enqueued id') => id' = id /\ exists t', open_past w' t' /\
      own t' = own_app (own t1) (MkOwn [] [pending_row tenant k (encode_instant operation_time)] [])
  | Ok (EnqueueOutcome.AlreadyEnqueued _) => False
  | Err e => plain e /\ exists t', stopped w' t' /\ own t' = own t1
  end.
Proof.
  intros Hk Hw0 Hv0 Hid Hor t1 Ho Hr. unfold enqueue_delivery in Hr. run_inv Hr.
  destruct (consistent_past Hisolated Happend _ _ _ _ _ Ho Hm) as [Hd Hx].
  destruct r0 as [b|e]; [|run_inv Hr; split; [done|]; split; [apply my_sql_plain|by exists t1]].
  destruct Hx as (v' & Hwf & _ & Hb & Ho' & Hview). simpl in Hview. subst v'.
  destruct b.
  - exfalso. symmetry in Hb. apply existsb_exists in Hb as (d & Hin & Hdel).
    rewrite <- list_elem_of_In in Hin. apply delivery_of_spec in Hdel as [_ Hdk].
    eapply (no_delivery_of_new_key Hisolated Happend (own t) k (committed w0) v d); [done..| |exact Hdk].
    unfold overlay, t1, own_app in Hin. simpl in Hin. by rewrite app_nil_r in Hin.
  - cbn [negb] in Hr. run_inv Hr.
    destruct (statement_past Hisolated Happend _ _ _ _ _ Ho' Hm0) as (Hd' & _ & _ & Hx).
    { intros [] o Hf. by eapply my_insert_delivery_wf. }
    destruct r0 as [[]|e]; run_inv Hr; (split; [by eapply during_trans|]).
    + destruct Hx as (o & Hf & Hx). apply my_insert_delivery_Ok in Hf as (-> & _).
      split; [done|]. by eexists.
    + split; [apply my_sql_plain|]. exists (MkTxn (Some v) (own t1)). split; [exact Hx|done].
Qed.
(** What follows the INSERT. *)
Definition enqueue_tail (operation_time : OffsetDateTime) (inserted : bool) :
    M (Result EnqueueOutcome.t EnqueueError.t) :=
  try* existing := resolve_event tenant_id event else (fun e => e) in
  enqueue_delivery tenant_id operation_time inserted existing.

Lemma my_inserted_tail operation_time k w t r w' :
  let now := encode_instant operation_time in
  k ∉ event_keys (overlay (own t) (committed w)) -> db_wf (committed w) ->
  db_wf (overlay (own t) (committed w)) -> open_past w (add_own (inserted_event tenant columns k now) t) ->
  enqueue_tail operation_time true w = Some (r, w') ->
  during (own_locks (own t) ++ [k]) (committed w) (committed w') /\
  match r with
  | Ok (EnqueueOutcome.Enqueued id) => RowId.get id = k /\ exists t', open_past w' t' /\
      own t' = own_app (own t) (MkOwn [new_event_row k tenant columns now] [pending_row tenant k now] [k])
  | Err e => plain e /\ exists t', stopped w' t' /\ own t' = own_app (own t) (inserted_event tenant columns k now)
  | _ => False
  end.
Proof.
  intros now Hk Hw Hv Ho Hr. unfold enqueue_tail in Hr. run_inv Hr.
  destruct (my_resolve_event_open _ _ _ _ Ho Hm) as [Hd Hx]. cbn [own add_own with_own own_locks own_app] in Hd.
  assert (Hdk : during [k] (committed w) (committed w0)) by (eapply during_mono; [|exact Hd]; simpl; set_solver).
  destruct r0 as [[id k']|e].
  2: { run_inv Hr. split; [done|]. destruct e; try (split; [done|done]).
       destruct Hx as (v & Ho' & Hs). by destruct (shown_own_row _ _ _ _ _ _ _ Ho' Hs) as [_ []]. }
  destruct Hx as (-> & v & Hview & Ho' & Hs). cbn [own add_own with_own view] in Ho', Hs, Hview.
  destruct (shown_own_row _ _ _ _ _ _ _ Ho' Hs) as [Hid _]. rewrite Hid in Hr.
  destruct (my_new_delivery_open operation_time k now w w0 t v id r w') as [Hd' Hx']; try done.
  { destruct (view t) as [v'|] eqn:E; [|subst v; by right]. subst v'. left. by apply Ho. }
  split; [by eapply during_trans|]. destruct r as [[id'|id']|e]; [|done|done].
  destruct Hx' as (-> & t' & Ho2 & Hown). split; [done|]. exists t'. split; [done|]. rewrite Hown.
  cbn [own]. by rewrite own_app_assoc.
Qed.

Lemma my_duplicate_tail operation_time w t r w' :
  open_past w t -> enqueue_tail operation_time false w = Some (r, w') ->
  during (own_locks (own t)) (committed w) (committed w') /\
  match r with
  | Ok (EnqueueOutcome.Enqueued _) => False
  | Ok (EnqueueOutcome.AlreadyEnqueued id) => exists t', own t' = own t /\ open_past w' t' /\
      (exists e, stored id e (overlay (own t) (committed w')) /\ row_columns e = columns) /\
      exists v d, view t' = Some v /\ d ∈ deliveries (overlay (own t) v) /\
        delivery_of tenant (RowId.get id) d = true
  | Err (EnqueueError.IdempotencyConflict id) => exists t', own t' = own t /\ open_past w' t' /\
      exists e, stored id e (overlay (own t) (committed w')) /\ row_columns e <> columns
  | Err _ => exists t', stopped w' t' /\ own t' = own t
  end.
Proof.
  intros Ho Hr. unfold enqueue_tail in Hr. run_inv Hr.
  destruct (my_resolve_event_open _ _ _ _ Ho Hm) as [Hd Hx].
  destruct r0 as [[id k]|e].
  2: { run_inv Hr. split; [done|]. destruct e; try exact Hx.
       destruct Hx as (v & Ho' & Hs). exists (MkTxn (Some v) (own t)). split; [done|]. split; [done|].
       exact (shown_stored _ _ _ _ Ho' Hs). }
  destruct Hx as (-> & v & _ & Ho' & Hs).
  destruct (my_old_delivery_open _ _ _ _ _ _ _ Ho' Hr) as [Hd' Hx]. split; [by eapply during_trans|].
  destruct r as [[id'|id']|e]; [done| |].
  - destruct Hx as (-> & v' & Ho2 & Hview & d & Hin & Hdel). simpl in Hview. subst v'.
    exists (MkTxn (Some v) (own t)). split; [done|]. split; [done|]. split; [|by exists v, d].
    exact (shown_stored _ _ _ _ Ho2 Hs).
  - destruct Hx as (Hp & t' & Hst & Hown). destruct e; try done; by exists t'.
Qed.

Lemma my_enqueue_run w t r w' :
  open_past w t -> enqueue_for_scope sql tenant_id event w = Some (r, w') -> my_enqueue_effect w t r w'.
Proof.
  intros Ho. unfold enqueue_for_scope. intros Hr. run_inv Hr.
  destruct (my_validate_enqueue_observes _ _ _ _ Ho Hm) as (Hd0 & t0 & Hown0 & Hx0).
  apply my_validate_enqueue_run in Hm. destruct r0 as [[]|e].
  2: { run_inv Hr. split; [done|]. destruct e; try done; exists t0; auto. }
  run_inv Hr. destruct (server_query_observes Hisolated Happend _ _ _ _ _ Hx0 Hm0) as (Hd1 & t1 & Hown1 & Hx1).
  rewrite Hown0 in Hd1. rewrite Hown0 in Hown1.
  pose proof (during_trans _ _ _ _ Hd0 Hd1) as Hd01. clear Hd0 Hd1 Hx0 Hown0 t0.
  destruct r0 as [now|e].
  2: { run_inv Hr. split; [done|]. pose proof (my_sql_plain "read enqueue operation time" e).
       destruct (EnqueueError.sql _ e); try done; exists t1; auto. }
  assert (Hnow : encode_instant now = utc_timestamp (S (S (tick w)))).
  { apply server_value in Hm0 as ->. rewrite Hm. by rewrite encode_decode. }
  clear Hm Hm0. run_inv Hr.
  destruct (my_insert_event_open _ _ _ _ _ Hx1 Hm) as (Hd2 & Hx2).
  pose proof Hd2 as Hd2'. rewrite Hown1 in Hd2'. pose proof (during_trans _ _ _ _ Hd01 Hd2') as Hd02.
  destruct r0 as [[|]|e].
  - fold (enqueue_tail now true) in Hr. destruct Hx2 as (k & [Hpos Hck Hw Hv Hk Hid Ho2]).
    destruct (my_inserted_tail now k _ t1 _ _ Hk Hw Hv Ho2 Hr) as [Hd3 Hx3].
    rewrite Hnow, Hown1 in *. pose proof Hd3 as Hd3'.
    apply (during_mono _ (own_locks (own t))) in Hd3'; [|set_solver].
    split; [by eapply during_trans|]. destruct r as [[id|id]|e]; [|done|].
    + destruct Hx3 as (<- & t' & Ho3 & Hown3). cbv zeta. split; [done|].
      split; [by exists (committed w2)|]. by exists t'.
    + destruct Hx3 as (Hp & t' & Hs & Hown3).
      destruct e; try done; exists t'; (split; [done|right; by exists k, (utc_timestamp (S (S (tick w))))]).
  - fold (enqueue_tail now false) in Hr. destruct Hx2 as [Ho2 _]. destruct (my_duplicate_tail now _ t1 _ _ Ho2 Hr) as [Hd3 Hx3].
    rewrite Hown1 in *. split; [by eapply during_trans|].
    destruct r as [[id|id]|e]; [done|done|]. destruct e; try done; destruct Hx3 as (t' & ? & ?); eauto.
  - run_inv Hr. split; [done|]. destruct Hx2 as [Hx2 Hp]. destruct e; try done; exists t1; auto.
Qed.
(** C19: enqueue in a caller's MySQL transaction, while other connections commit
    between any two of its statements. It reports [Enqueued] only after its INSERT
    saw neither the identity nor the row id among the committed and its own rows,
    and then the transaction has written exactly the event's row and its pending
    delivery, both with the one operation time; a read view opened before does not
    hide the new row from it. It reports [AlreadyEnqueued] only when the event of
    that identity is stored with the same columns and a delivery of it is in the
    read view, and [IdempotencyConflict] only when it is stored with other columns;
    then it has written nothing. A failure leaves the transaction's rows as they
    were, or with the event's row and no delivery, which the caller must roll
    back. It always returns. *)
Theorem my_enqueue_outcomes w t :
  open_past w t ->
  exists r w', enqueue_for_scope sql tenant_id event w = Some (r, w') /\ my_enqueue_effect w t r w'.
Proof.
  intros Ho. assert (Hret : returns (enqueue_for_scope sql tenant_id event)).
  { unfold enqueue_for_scope, validate_enqueue_schema, insert_event, resolve_event, enqueue_delivery.
    returns_step. }
  destruct (Hret w) as [[r w'] Hr]. exists r, w'. split; [done|]. by apply my_enqueue_run.
Qed.
End EnqueueSpec.
