(* ===== verification/MyPage.v ===== *)
(** * Pages of the MySQL adapter (crates/dovecote-sqlx-mysql/src/page.rs)

    Live pages after a cursor, and the finite snapshot pager that keeps one
    transaction with a consistent snapshot and reads up to the row id seen when it
    began. *)

From S2P Require Import Prelude Step Utf8 Text BTree Errors Limits Validation Bounds Values Extension Serialization Event State Tables Queries Paging RowHydration External Overlay Others Instants MyError My MyBackend MyHydrate MyRows.

Module SnapshotPager.
Record t : Type := Make {
  upper_bound : option RowId.t;
  cursor : option RowId.t;
  exhausted : bool;
  tenant_id : option TenantId.t;
}.

Definition is_exhausted (self : t) : bool := exhausted self.
End SnapshotPager.

Definition schema_to_page (error : SchemaError.t) : PageError.t :=
  match error with
  | SchemaError.BackendMismatch detail => PageError.BackendMismatch detail
  | SchemaError.MigrationMismatch detail => PageError.Serialization detail
  | SchemaError.Sql operation source => PageError.sql operation source
  | SchemaError.Transient operation kind source => PageError.Transient operation kind source
  end.

Section Page.
Context `{SerdeJson, Base64, MimeLib, FluentUri, RustDebug, MyEnv, MyServer}.

(** The four page queries, which add the tenant and the upper bound. *)
Definition query_page_scoped (tenant_id : option TenantId.t) (after : Z) (upper : option Z)
    (limit : Limit.t) : M (Result (list PagedEvent.t) PageError.t) :=
  try* rows := consistent_read (fun _ => page_sql (option_map TenantId.as_str tenant_id) after
                                           upper (Limit.get limit))
       else PageError.sql "read event page" in
  ret (map_err PageError.serialization (collect hydrate_page rows)).

Definition page_for_scope (tenant_id : option TenantId.t) (after_row_id : option RowId.t)
    (limit : Limit.t) : M (Result (list PagedEvent.t) PageError.t) :=
  try* _ := acquire else PageError.sql "acquire live page connection" in
  try* _ := detect_on_connection else schema_to_page in
  query_page_scoped tenant_id (cursor_id after_row_id) None limit.

(** [begin_snapshot_for_scope] between its START TRANSACTION and the rollback of
    every error *)
Definition snapshot_in_transaction (tenant_id : option TenantId.t) :
    M (Result SnapshotPager.t PageError.t) :=
  try* info := detect_on_connection else schema_to_page in
  if negb (Capabilities.repeatable_read_snapshot (BackendInfo.capabilities info))
  then ret (Err (PageError.BackendMismatch "backend lacks consistent InnoDB snapshots"))
  else if negb (eq_ignore_ascii_case (BackendInfo.transaction_isolation info) "REPEATABLE-READ")
  then ret (Err (PageError.BackendMismatch
                   ("snapshot requires REPEATABLE-READ, got "
                    +:+ debug_str (BackendInfo.transaction_isolation info))))
  else
    try* upper_bound := consistent_read (fun _ => max_row_id_sql (option_map TenantId.as_str tenant_id))
         else PageError.sql "read snapshot upper row ID" in
    match (match upper_bound with
           | Some value => map_ok Some (RowId.new value)
           | None => Ok None
           end) with
    | Err error => ret (Err (PageError.serialization (ValidationError.to_string error)))
    | Ok upper_bound =>
        ret (Ok (SnapshotPager.Make upper_bound None
                   (match upper_bound with None => true | Some _ => false end) tenant_id))
    end.

Definition begin_snapshot_for_scope (tenant_id : option TenantId.t) :
    M (Result SnapshotPager.t PageError.t) :=
  try* _ := begin_statement true else PageError.sql "begin snapshot transaction" in
  let* result := snapshot_in_transaction tenant_id in
  match result with
  | Ok pager => ret (Ok pager)
  | Err error => let* _ := rollback in ret (Err error)
  end.

(** The pager is passed and returned where the code borrows it mutably. The
    [expect] on the upper bound of a pager that is not exhausted is the [None]
    branch. *)
Definition next_page (self : SnapshotPager.t) (limit : Limit.t) :
    M (Result (list PagedEvent.t) PageError.t * SnapshotPager.t) :=
  if SnapshotPager.exhausted self then ret (Ok [], self)
  else
    match SnapshotPager.upper_bound self with
    | None => fun _ => None
    | Some upper =>
        let* result := query_page_scoped (SnapshotPager.tenant_id self)
            (cursor_id (SnapshotPager.cursor self)) (Some (RowId.get upper)) limit in
        match result with
        | Err error => ret (Err error, self)
        | Ok rows =>
            match last rows with
            | Some event =>
                let cursor := Some (PagedEvent.row_id event) in
                let exhausted :=
                  if (Z.of_nat (length rows) <? Limit.get limit)
                     || bool_decide (cursor = SnapshotPager.upper_bound self)
                  then true else SnapshotPager.exhausted self in
                ret (Ok rows, SnapshotPager.Make (SnapshotPager.upper_bound self) cursor exhausted
                                (SnapshotPager.tenant_id self))
            | None =>
                ret (Ok rows, SnapshotPager.Make (SnapshotPager.upper_bound self)
                                (SnapshotPager.cursor self) true (SnapshotPager.tenant_id self))
            end
        end
    end.

Definition finish (self : SnapshotPager.t) : M (Result unit PageError.t) :=
  try* _ := commit else PageError.sql "finish snapshot transaction" in ret (Ok tt).

Definition rollback_snapshot (self : SnapshotPager.t) : M (Result unit PageError.t) :=
  try* _ := rollback else PageError.sql "rollback snapshot transaction" in ret (Ok tt).

Definition close (self : SnapshotPager.t) : M (Result unit PageError.t) := rollback_snapshot self.
End Page.

(** ** Live pages *)

Section LivePage.
Context `{SerdeJson, Base64, MimeLib, FluentUri, RustDebug, MyEnv, MyServer}.

Lemma my_hydrate_row_id c p :
  hydrate_page c = Ok p -> RowId.get (PagedEvent.row_id p) = DurableRow.row_id c.
Proof. by intros [? _]%my_hydrate_page_row_id. Qed.

(** An event with its delivery, hydrated. *)
Definition hydrated (db : Db) (e : Events.row_of Z) (p : PagedEvent.t) : Prop :=
  hydrated_row hydrate_page db e p.

Lemma my_query_page_returns tenant_id after upper limit :
  returns (query_page_scoped tenant_id after upper limit).
Proof. unfold query_page_scoped. returns_step. Qed.

Context (Hisolated : isolated).

Lemma my_live_page_run tenant_id after limit w :
  closed w -> 0 <= Limit.get limit ->
  exists r w', page_for_scope tenant_id after limit w = Some (r, w') /\
    closed w' /\ during [] (committed w) (committed w') /\
    match r with
    | Ok pages => page_complete hydrate_page tenant_id (cursor_id after) limit (committed w') pages
    | Err _ => True
    end.
Proof.
  intros Hc Hl. assert (Hret : returns (page_for_scope tenant_id after limit)).
  { pose proof my_query_page_returns. unfold page_for_scope, acquire. returns_step. }
  destruct (Hret w) as [[r w'] Hr]. exists r, w'. split; [done|]. clear Hret.
  unfold page_for_scope, acquire in Hr. run_inv Hr.
  destruct (server_closed Hisolated _ _ _ _ Hc Hm) as [Hc0 Hd0].
  destruct r0 as [[]|e]; [|by run_inv Hr]. run_inv Hr. unfold detect_on_connection in Hm0. run_inv Hm0.
  destruct (server_closed Hisolated _ _ _ _ Hc0 Hm1) as [Hc1 Hd1].
  pose proof (during_trans _ _ _ _ Hd0 Hd1) as Hd01.
  destruct r1 as [probe|e]; run_inv Hm0; [|by run_inv Hr].
  destruct (inspect probe) as [info|e]; [|by run_inv Hr].
  unfold query_page_scoped in Hr. run_inv Hr.
  destruct (consistent_closed Hisolated _ _ _ _ Hc1 Hm0) as (Hc2 & Hd2 & Hx).
  pose proof (during_trans _ _ _ _ Hd01 Hd2) as Hd02.
  destruct r0 as [rows|e]; run_inv Hr; (do 2 (split; [done|])); [|done].
  destruct (collect _ _) as [pages|e] eqn:Ec; simpl; [|done].
  apply page_rows_complete; [exact my_hydrate_row_id|apply Hc2|done|].
  apply page_rows_collect; [apply Hc2|exact Ec].
Qed.
End LivePage.

(** ** Snapshots *)

Section Snapshots.
Context `{SerdeJson, Base64, MimeLib, FluentUri, RustDebug, MyEnv, MyServer}.
Context (Hisolated : isolated).

(** A read-only transaction whose consistent snapshot is [db]. *)
Definition reading (db : Db) (w : World) : Prop :=
  exists t, open_at w t /\ own t = nothing /\ view t = Some db.

(** ... and some statement failed. *)
Definition stalled (w : World) : Prop := exists t, stopped w t /\ own t = nothing.

Lemma my_reading_stalled db w : reading db w -> stalled w.
Proof. intros (t & Ho & Hown & _). exists t. split; [by left|done]. Qed.

Lemma consistent_reading {A} (f : nat -> Db -> A) db w r w' :
  reading db w -> consistent_read f w = Some (r, w') ->
  during [] (committed w) (committed w') /\
  match r with Ok a => a = f (tick w) db /\ reading db w' | Err _ => stalled w' end.
Proof.
  intros (t & Ho & Hown & Hv) Hr. destruct (consistent_open Hisolated _ _ _ _ _ Ho Hr) as [Hd Hx].
  apply during_nil in Hd. split; [done|]. destruct r as [a|e]; [|by exists t].
  destruct Hx as (v & _ & -> & Hview & Ho'). rewrite Hv in Hview. subst v.
  rewrite Hown, overlay_nothing in *. split; [done|]. by eexists.
Qed.

Lemma my_stalled_rollback w r w' :
  stalled w -> rollback w = Some (r, w') -> closed w' /\ during [] (committed w) (committed w').
Proof. intros (t & Hs & _). by apply (rollback_stopped Hisolated _ t). Qed.

Lemma my_stalled_commit w r w' :
  stalled w -> commit w = Some (r, w') -> closed w' /\ during [] (committed w) (committed w').
Proof.
  intros (t & [Ho|Hc] & Hown) Hr; [|by eapply (commit_closed Hisolated)].
  destruct (my_commit_open Hisolated _ _ _ _ Ho Hr) as (Hc & db & Hd & _ & _ & Hx).
  rewrite Hown, overlay_nothing in Hx. apply during_nil in Hd. split; [done|].
  destruct r as [u|e]; [by rewrite Hx|]. by destruct Hx as [->| ->].
Qed.

(** Ending the transaction of a pager. *)
Lemma my_end_snapshot pager w r w' :
  stalled w -> finish pager w = Some (r, w') \/ close pager w = Some (r, w') ->
  closed w' /\ during [] (committed w) (committed w').
Proof.
  intros Hs [Hr|Hr]; unfold finish, close, rollback_snapshot in Hr; run_inv Hr.
  - apply (my_stalled_commit _ _ _ Hs) in Hm. by destruct r0 as [[]|]; run_inv Hr.
  - apply (my_stalled_rollback _ _ _ Hs) in Hm. by destruct r0 as [[]|]; run_inv Hr.
Qed.

(** What the pager knows of the scope of its snapshot. *)
Definition pager_at (db : Db) (w : World) (self : SnapshotPager.t)
    (before rest : list (Events.row_of Z)) : Prop :=
  reading db w /\
  window_at (scope (option_map TenantId.as_str (SnapshotPager.tenant_id self)) db)
    (SnapshotPager.upper_bound self) (SnapshotPager.cursor self) (SnapshotPager.exhausted self)
    before rest.

(** One page: the pager advances past exactly the rows it returns. *)
Lemma my_next_page_step db self before rest limit w :
  db_wf db -> pager_at db w self before rest -> 0 < Limit.get limit ->
  let n := Z.to_nat (Limit.get limit) in
  exists r self' w', next_page self limit w = Some ((r, self'), w') /\
    during [] (committed w) (committed w') /\
    match r with
    | Err _ => stalled w'
    | Ok rows => pager_at db w' self' (before ++ take n rest) (drop n rest) /\
        Forall2 (hydrated db) (take n rest) rows
    end.
Proof.
  intros Hwf [Hrd Hat] Hlim n. unfold next_page.
  destruct (SnapshotPager.exhausted self) eqn:Hex.
  { pose proof (proj1 (at_exhausted _ _ _ _ _ _ Hat) eq_refl) as ->.
    exists (Ok []), self, w. rewrite take_nil, drop_nil, app_nil_r.
    split; [done|]. split; [constructor|]. split; [|constructor]. split; [done|]. by rewrite Hex. }
  assert (Hne : rest <> []) by (intros Hnil; by pose proof (proj2 (at_exhausted _ _ _ _ _ _ Hat) Hnil)).
  destruct (at_upper _ _ _ _ _ _ Hat Hne) as (u & Hub & _). rewrite Hub.
  match goal with |- context [query_page_scoped ?a ?b ?c ?d] =>
    destruct (my_query_page_returns a b c d w) as [[r w1] Er] end.
  rewrite (bind_run _ _ _ _ _ Er). cbv beta. unfold query_page_scoped in Er. run_inv Er.
  destruct (consistent_reading _ _ _ _ _ Hrd Hm) as [Hd Hx].
  destruct r0 as [sql_rows|e]; run_inv Er.
  2: { do 3 eexists. split; [reflexivity|]. by split. }
  destruct Hx as [-> Hrd']. destruct (collect _ _) as [rows|e] eqn:Ec; cbn [map_err].
  2: { do 3 eexists. split; [reflexivity|]. split; [done|]. by eapply my_reading_stalled. }
  apply page_rows_collect in Ec; [|done]. unfold page_rows, page_events in Ec.
  pose proof (window_page _ _ _ _ _ _ _ _ n Hwf Hat Hub Hne) as Hpage. unfold n in Hpage.
  rewrite Hpage in Ec.
  destruct (advance (SnapshotPager.upper_bound self) (SnapshotPager.cursor self) limit rows)
    as [cursor' exhausted'] eqn:Eadv.
  pose proof (window_advance _ (fun e p => hydrated_row_id _ my_hydrate_row_id _ e p Hwf)
    _ _ _ _ _ _ _ _ _ (scope_sorted _ _ Hwf) Hlim Hne Hat Ec Eadv) as Hwin.
  unfold advance in Eadv. destruct (last rows) as [p|]; injection Eadv as <- <-;
    rewrite Hub in Hwin; do 3 eexists; (split; [reflexivity|]); (split; [done|]); (split; [|exact Ec]).
  - split; [done|]. cbn. by destruct (_ || _).
  - by split.
Qed.

Lemma my_snapshot_in_transaction db tenant_id w r w' :
  reading db w -> snapshot_in_transaction tenant_id w = Some (r, w') ->
  during [] (committed w) (committed w') /\
  match r with
  | Ok pager => SnapshotPager.tenant_id pager = tenant_id /\
      pager_at db w' pager [] (scope (option_map TenantId.as_str tenant_id) db)
  | Err _ => stalled w'
  end.
Proof.
  intros (t & Ho & Hown & Hv). unfold snapshot_in_transaction. intros Hr. run_inv Hr.
  destruct (detect_open Hisolated _ _ _ _ Ho Hm) as [Hd0 Hx]. apply during_nil in Hd0.
  destruct r0 as [info|e]; [|run_inv Hr; split; [done|]; exists t; by destruct Hx].
  destruct Hx as [Ho0 _]. assert (Hrd : reading db w0) by by exists t.
  pose proof (my_reading_stalled _ _ Hrd). destruct (negb _); [by run_inv Hr|].
  destruct (negb _); [by run_inv Hr|]. run_inv Hr.
  destruct (consistent_reading _ _ _ _ _ Hrd Hm0) as [Hd1 Hx].
  pose proof (during_trans _ _ _ _ Hd0 Hd1) as Hd01. destruct r0 as [u|e]; [|by run_inv Hr].
  destruct Hx as [Hu Hrd1].
  destruct (match u with Some _ => _ | None => _ end) as [upper|e] eqn:Eu in Hr; run_inv Hr;
    (split; [done|]); [|by eapply my_reading_stalled].
  split; [done|]. split; [done|]. cbn. apply window_start.
  - intros v Hv'. rewrite Hv' in Eu. simpl in Eu.
    destruct (RowId.new v) as [id|] eqn:Eid; simpl in Eu; [|done]. injection Eu as <-.
    apply RowId_new_Ok in Eid as [Hid Hpos]. by exists id.
  - intros Hv'. rewrite Hv' in Eu. by injection Eu as <-.
Qed.

(** Beginning a snapshot: its tables are those committed when it began. *)
Lemma my_begin_snapshot tenant_id w r w' :
  closed w -> begin_snapshot_for_scope tenant_id w = Some (r, w') ->
  during [] (committed w) (committed w') /\
  match r with
  | Ok pager => exists db, during [] (committed w) db /\ during [] db (committed w') /\ db_wf db /\
      pager_at db w' pager [] (scope (option_map TenantId.as_str tenant_id) db)
  | Err _ => closed w'
  end.
Proof.
  intros Hc. unfold begin_snapshot_for_scope. intros Hr. run_inv Hr.
  destruct (my_begin_closed Hisolated _ _ _ _ Hc Hm) as [Hd0 Hx].
  destruct r0 as [[]|e]; [|by run_inv Hr].
  assert (Hrd : reading (committed w0) w0) by by eexists. run_inv Hr.
  destruct (my_snapshot_in_transaction _ _ _ _ _ Hrd Hm0) as [Hd1 Hy].
  pose proof (during_trans _ _ _ _ Hd0 Hd1) as Hd01. destruct r0 as [pager|e]; run_inv Hr.
  - split; [done|]. exists (committed w0). split; [done|]. split; [done|].
    split; [exact (open_committed _ _ Hx)|]. destruct Hy as [<- Hy]. exact Hy.
  - destruct (my_stalled_rollback _ _ _ Hy Hm1) as [Hc' Hd2]. run_inv Hr.
    split; [exact (during_trans _ _ _ _ Hd01 Hd2)|done].
Qed.

(** C29: reading pages over MySQL. A live page always returns; an answered page is
    the first [limit] events of the scope after the cursor as committed when it is
    read, in ascending order, each hydrated with its delivery, and skips none. A
    snapshot pager gives every event of the scope exactly once, as committed when
    its transaction began: however many pages of whatever sizes the caller asks
    for, the call returns (the pager's [expect] is unreachable), and as long as no
    statement fails the pages are a prefix of the scope's events, whatever other
    connections commit meanwhile; it reports itself exhausted exactly when all were
    given, after at most as many pages as there are events. Reading writes nothing,
    and a live page, a snapshot that fails to begin, and finishing or closing a
    pager leave no transaction open. *)
Theorem my_pages tenant_id w :
  closed w ->
  (forall after limit, 0 <= Limit.get limit ->
     exists r w', page_for_scope tenant_id after limit w = Some (r, w') /\
       closed w' /\ during [] (committed w) (committed w') /\
       match r with
       | Ok pages => page_complete hydrate_page tenant_id (cursor_id after) limit (committed w') pages
       | Err _ => True
       end) /\
  (forall e w0, begin_snapshot_for_scope tenant_id w = Some (Err e, w0) ->
     closed w0 /\ during [] (committed w) (committed w0)) /\
  (forall pager w0 limits, begin_snapshot_for_scope tenant_id w = Some (Ok pager, w0) ->
     Forall (fun l => 0 < Limit.get l) limits ->
     exists db r pager' w1,
       during [] (committed w) db /\ during [] db (committed w0) /\ db_wf db /\
       drain next_page limits pager w0 = Some ((r, pager'), w1) /\
       during [] (committed w0) (committed w1) /\
       (forall r2 w2, finish pager' w1 = Some (r2, w2) \/ close pager' w1 = Some (r2, w2) ->
          closed w2 /\ during [] (committed w1) (committed w2)) /\
       let all := scope (option_map TenantId.as_str tenant_id) db in
       match r with
       | Err _ => True
       | Ok rows =>
           Forall2 (hydrated db) (take (length rows) all) rows /\
           (SnapshotPager.is_exhausted pager' = true <-> length rows = length all) /\
           (length all <= length limits -> SnapshotPager.is_exhausted pager' = true)%nat
       end).
Proof.
  intros Hc. split; [intros after limit; by apply my_live_page_run|]. split.
  { intros e w0 Hb. destruct (my_begin_snapshot _ _ _ _ Hc Hb) as [Hd Hx]. done. }
  intros pager w0 limits Hb Hlim.
  destruct (my_begin_snapshot _ _ _ _ Hc Hb) as [_ (db & Hd1 & Hd2 & Hwf & Hat)].
  destruct (drain_all next_page (hydrated db) (pager_at db) (fun w _ => stalled w)
    (fun w w' => during [] (committed w) (committed w')) SnapshotPager.exhausted) with
    (limits := limits) (w := w0) (self := pager)
    (all := scope (option_map TenantId.as_str tenant_id) db) as (r & pager' & w1 & Hr & Hd & Hm).
  - intros ?. constructor.
  - intros w1 w2 w3. apply during_trans.
  - intros w1 self before rest [_ Hp]. apply (at_exhausted _ _ _ _ _ _ Hp).
  - intros self before rest limit w1 Hp Hl n. by apply my_next_page_step.
  - done.
  - done.
  - exists db, r, pager', w1. do 5 (split; [done|]). split.
    + intros r2 w2. apply my_end_snapshot. destruct r as [rows|e]; [|done].
      destruct Hm as ((before & rest & Hp & _) & _). by eapply my_reading_stalled.
    + cbv zeta. destruct r as [rows|e]; [|done]. by destruct Hm.
Qed.
End Snapshots.
