(* ===== verification/MyCanonical.v ===== *)
(** * Canonical delivery rows of the MySQL adapter (crates/dovecote-sqlx-mysql/src/delivery_state.rs)

    The delivery columns the migration workflows compare, and the shapes import
    writes and finalization accepts. The columns of times are compared as they are
    read, without an offset. *)

From S2P Require Import Prelude External BTree Errors Limits Validation Bounds Values Extension Serialization Event State Tables Queries RowHydration Instants.

Definition is_canonical_delivery_shape (row : DeliveryRow.t_of Z) (enqueued_at : Z) : bool :=
  (DeliveryRow.attempts row =? 0)
  && is_none (DeliveryRow.claim_token row)
  && is_none (DeliveryRow.claimed_by row)
  && is_none (DeliveryRow.claim_expires_at row)
  && is_none (DeliveryRow.last_failure_code row)
  && is_none (DeliveryRow.last_failure_detail row)
  && is_none (DeliveryRow.quarantined_at row)
  && is_none (DeliveryRow.quarantine_reason row)
  && (DeliveryRow.available_at row =? enqueued_at).

(** finalize.rs *)
Definition canonical_pending (row : DeliveryRow.t_of Z) (enqueued_at : Z) : bool :=
  is_canonical_delivery_shape row enqueued_at && bool_decide (DeliveryRow.state row = "pending")
  && is_none (DeliveryRow.delivered_at row).

Section Canonical.
Context `{InstantColumn}.

(** import.rs; the wildcard arm of the match is for states the enum does not have. *)
Definition delivery_matches (row : DeliveryRow.t_of Z) (state : ImportedDeliveryState.t)
    (enqueued_at : Z) : bool :=
  let canonical := is_canonical_delivery_shape row enqueued_at in
  match state with
  | ImportedDeliveryState.Pending =>
      canonical && bool_decide (DeliveryRow.state row = "pending")
      && is_none (DeliveryRow.delivered_at row)
  | ImportedDeliveryState.Delivered delivered_at =>
      canonical && bool_decide (DeliveryRow.state row = "delivered")
      && same_instant (Some delivered_at) (DeliveryRow.delivered_at row)
  end.

(** the state column and delivery time of an imported state *)
Definition imported_columns (state : ImportedDeliveryState.t) : string * option Z :=
  match state with
  | ImportedDeliveryState.Pending => ("pending", None)
  | ImportedDeliveryState.Delivered delivered_at =>
      ("delivered", Some (encode_instant delivered_at))
  end.

(** the delivery time of an imported state can be stored *)
Definition state_portable (state : ImportedDeliveryState.t) : Prop :=
  match state with
  | ImportedDeliveryState.Pending => True
  | ImportedDeliveryState.Delivered delivered_at => portable_instant delivered_at
  end.

Context {TL : TimeLaws} {IL : InstantColumnLaws}.

(** The canonical shape fixes every column but the key, the tenant, the state
    and the delivery time. *)
Lemma my_canonical_row d enqueued_at :
  is_canonical_delivery_shape (DeliveryRow.of_row d) enqueued_at = true <->
  d = untouched_row (Deliveries.tenant_id d) (Deliveries.event_row_id d) (Deliveries.state d)
        enqueued_at (Deliveries.delivered_at d).
Proof.
  unfold is_canonical_delivery_shape, DeliveryRow.of_row, untouched_row. cbn.
  rewrite !andb_true_iff, !is_none_true, !Z.eqb_eq.
  destruct d. cbn. split; [intros H'; by destruct_and!; subst|intros [=]; by subst].
Qed.

Lemma my_canonical_pending_row d enqueued_at :
  canonical_pending (DeliveryRow.of_row d) enqueued_at = true <->
  d = untouched_row (Deliveries.tenant_id d) (Deliveries.event_row_id d) "pending" enqueued_at None.
Proof.
  unfold canonical_pending. rewrite !andb_true_iff, my_canonical_row, bool_decide_eq_true, is_none_true.
  unfold untouched_row. destruct d. cbn in *.
  split; [intros H'; destruct_and!; by simplify_eq|by intros [=]; simplify_eq].
Qed.

Lemma my_canonical_delivered_row d enqueued_at delivered_at :
  portable_instant delivered_at ->
  DeliveryRow.state (DeliveryRow.of_row d) = "delivered" /\
  is_canonical_delivery_shape (DeliveryRow.of_row d) enqueued_at = true /\
  same_instant (Some delivered_at) (DeliveryRow.delivered_at (DeliveryRow.of_row d)) = true <->
  d = untouched_row (Deliveries.tenant_id d) (Deliveries.event_row_id d) "delivered" enqueued_at
        (Some (encode_instant delivered_at)).
Proof.
  intros Hp. rewrite my_canonical_row, same_instant_encoded by done.
  unfold untouched_row. destruct d. cbn in *.
  split; [intros H'; destruct_and!; by simplify_eq|by intros [=]; simplify_eq].
Qed.

Lemma my_delivery_matches_row d state enqueued_at :
  state_portable state ->
  delivery_matches (DeliveryRow.of_row d) state enqueued_at = true <->
  d = untouched_row (Deliveries.tenant_id d) (Deliveries.event_row_id d)
        (imported_columns state).1 enqueued_at (imported_columns state).2.
Proof.
  unfold delivery_matches. cbv zeta.
  destruct state as [|t]; cbn [imported_columns fst snd state_portable]; intros Hp.
  - rewrite <- my_canonical_pending_row. done.
  - rewrite <- (my_canonical_delivered_row d enqueued_at t Hp).
    rewrite !andb_true_iff, bool_decide_eq_true. tauto.
Qed.
End Canonical.
