(* ===== verification/MyImport.v ===== *)
(** * Import of the MySQL adapter (crates/dovecote-sqlx-mysql/src/import.rs)

    Insertion of an event with a delivery that is pending or already delivered,
    idempotent on the event's identity and on the delivery's state. Unlike enqueue
    it reads the stored event and its delivery with locking reads, which see what
    is committed. *)

From S2P Require Import Prelude Step Utf8 BTree Errors Limits Validation Bounds Values Extension Serialization Event State Tables Queries RowHydration External Overlay Others Instants Migration Leases MyError My MyInsert MyBackend MyHydrate MyRows MySchema MyEnqueue MyCanonical.

Definition map_schema_error (error : SchemaError.t) : ImportError.t :=
  match error with
  | SchemaError.MigrationMismatch detail => ImportError.MigrationMismatch detail
  | SchemaError.BackendMismatch detail => ImportError.BackendMismatch detail
  | SchemaError.Sql operation source => ImportError.Sql operation source
  | SchemaError.Transient operation kind source => ImportError.Transient operation kind source
  end.

Definition map_enqueue_error (error : EnqueueError.t) : ImportError.t :=
  match error with
  | EnqueueError.IdempotencyConflict existing_row_id => ImportError.IdentityConflict existing_row_id
  | EnqueueError.MigrationMismatch detail => ImportError.MigrationMismatch detail
  | EnqueueError.BackendMismatch detail => ImportError.BackendMismatch detail
  | EnqueueError.Serialization detail => ImportError.Serialization detail
  | EnqueueError.Sql operation source => ImportError.Sql operation source
  | EnqueueError.Transient operation kind source => ImportError.Transient operation kind source
  end.

(** the function [row_id] *)
Definition import_row_id (value : Z) : Result RowId.t ImportError.t :=
  map_err (fun error => ImportError.serialization (ValidationError.to_string error))
    (RowId.new value).

Definition MAX_RECORD_CHANGED_RETRIES : nat := 3.

Definition is_record_changed_since_read (source : SqlxError.t) : bool :=
  bool_decide (mysql_number source = Some 1020).

(** the row of [INSERT INTO dovecote_deliveries (tenant_id, event_row_id, state,
    available_at, attempts, delivered_at) VALUES (?, ?, ?, ?, 0, ?)] *)
Definition imported_row (tenant : string) (event_row_id : Z) (state : string) (available_at : Z)
    (delivered_at : option Z) : Deliveries.row_of Z :=
  Deliveries.Row event_row_id tenant state available_at 0 None None None None None delivered_at None
    None.

Section ImportOps.
Context `{SerdeJson, Base64, MimeLib, FluentUri, RustDebug, MyEnv, MyServer, MyCatalogEnv}.
Context (tenant_baseline_sql : string).

(** The wildcard arm of the match is for states the enum does not have. *)
Definition insert_delivery (tenant_id : TenantId.t) (event_row_id : Z)
    (operation_time : OffsetDateTime) (state : ImportedDeliveryState.t) :
    M (Result unit ImportError.t) :=
  let '(state_name, delivered_at) :=
    match state with
    | ImportedDeliveryState.Pending => ("pending", None)
    | ImportedDeliveryState.Delivered delivered_at => ("delivered", Some delivered_at)
    end in
  try* _ := statement (insert_delivery_sql
              (imported_row (TenantId.as_str tenant_id) event_row_id state_name
                 (encode_instant operation_time) (option_map encode_instant delivered_at)))
       else ImportError.sql "insert imported delivery" in
  ret (Ok tt).

(** The match on the result of the INSERT: whether it inserted the event. *)
Definition insert_imported (tenant_id : TenantId.t) (event : NewEvent.t) (operation_time : OffsetDateTime) :
    M (Result bool ImportError.t) :=
  let* result := statement (insert_event_sql (TenantId.as_str tenant_id)
                   (event_columns (NewEvent.content event)) (encode_instant operation_time)) in
  ret (match result with
       | Ok _ => Ok true
       | Err source =>
           if is_tenant_source_event_id_duplicate source then Ok false
           else Err (ImportError.sql "insert imported event" source)
       end).

(** The loop over [SELECT ... FOR UPDATE] of the identity; [retries] more are
    allowed. *)
Fixpoint find_imported (tenant_id : TenantId.t) (event : NewEvent.t) (retries : nat) :
    M (Result (ExistingEvent.t_of Z) ImportError.t) :=
  let columns := event_columns (NewEvent.content event) in
  let* result := statement (fun _ db => Ok (find_existing_sql (TenantId.as_str tenant_id)
                   (EventRow.source columns) (EventRow.event_id columns) db, nothing)) in
  match result with
  | Ok (Some existing) => ret (Ok existing)
  | Ok None => ret (Err (ImportError.sql "resolve imported event"
                           (SqlxError.Protocol "identity insert returned no row")))
  | Err source =>
      match retries with
      | S retries =>
          if is_record_changed_since_read source then find_imported tenant_id event retries
          else ret (Err (ImportError.sql "find imported event" source))
      | O => ret (Err (ImportError.sql "find imported event" source))
      end
  end.

(** The code after [if inserted] *)
Definition match_import (tenant_id : TenantId.t) (event : NewEvent.t)
    (state : ImportedDeliveryState.t) (existing : ExistingEvent.t_of Z) (existing_id : RowId.t) :
    M (Result ImportOutcome.t ImportError.t) :=
  try* _ := ret (validate_existing_event existing) else ImportError.serialization in
  try* same := ret (same_event event existing) else map_enqueue_error in
  if negb same then ret (Err (ImportError.IdentityConflict existing_id))
  else
    try* delivery := lock_row (delivery_of (TenantId.as_str tenant_id) (ExistingEvent.row_id existing))
         else ImportError.sql "find imported delivery" in
    match delivery with
    | None => ret (Err (ImportError.MigrationMismatch "an existing event has no delivery row"))
    | Some delivery =>
        if delivery_matches (DeliveryRow.of_row delivery) state (ExistingEvent.enqueued_at existing)
        then ret (Ok (ImportOutcome.AlreadyImported existing_id))
        else ret (Err (ImportError.ImportConflict existing_id))
    end.

Definition import_for_scope (tenant_id : TenantId.t) (event : NewEvent.t)
    (state : ImportedDeliveryState.t) : M (Result ImportOutcome.t ImportError.t) :=
  try* _ := ret (ImportedDeliveryState.validate state) else ImportError.InvalidState in
  try* _ := check_schema_connection tenant_baseline_sql else map_schema_error in
  try* operation_time := database_time else ImportError.sql "read import operation time" in
  try* _ := ret (ImportedDeliveryState.delivered operation_time) else ImportError.InvalidState in
  try* inserted := insert_imported tenant_id event operation_time else (fun e => e) in
  try* existing := find_imported tenant_id event MAX_RECORD_CHANGED_RETRIES else (fun e => e) in
  try* existing_id := ret (import_row_id (ExistingEvent.row_id existing)) else (fun e => e) in
  if inserted then
    try* _ := insert_delivery tenant_id (ExistingEvent.row_id existing) operation_time state
         else (fun e => e) in
    ret (Ok (ImportOutcome.Imported existing_id))
  else match_import tenant_id event state existing existing_id.
End ImportOps.

(** ** What import does *)

Section ImportSpec.
Context `{SerdeJson, Base64, MimeLib, FluentUri, RustDebug, MyEnv, MyServer, MyCatalogEnv}.
Context {TL : TimeLaws} {IL : InstantColumnLaws} {EL : MyErrorLaws}.
Context (sql : string) (tenant_id : TenantId.t) (event : NewEvent.t)
  (state : ImportedDeliveryState.t).
Context (Hisolated : isolated) (Happend : append_only).
Context (Htime : option_all portable_instant (EventContent.time (NewEvent.content event))).

Let tenant := TenantId.as_str tenant_id.
Let columns := event_columns (NewEvent.content event).

(** The delivery of an event in exactly the imported state. *)
Definition delivery_in_state (id at_ : Z) : Deliveries.row_of Z :=
  untouched_row tenant id (imported_columns state).1 at_ (imported_columns state).2.

(** Errors that say nothing about the stored rows. *)
Definition plain_import (e : ImportError.t) : Prop :=
  match e with ImportError.IdentityConflict _ | ImportError.ImportConflict _ => False | _ => True end.

Lemma my_sql_plain_import op e : plain_import (ImportError.sql op e).
Proof. unfold ImportError.sql. by destruct (TransientKind.from_sqlx e). Qed.

Lemma my_schema_plain_import e : plain_import (map_schema_error e).
Proof. by destruct e. Qed.

Lemma my_import_row_id_inv id r :
  import_row_id id = r ->
  match r with Ok id' => RowId.get id' = id | Err e => plain_import e end.
Proof.
  unfold import_row_id. destruct (RowId.new id) as [id'|] eqn:E; intros <-; simpl; [|done].
  by apply RowId_new_Ok in E as [? _].
Qed.

(** What the INSERT leaves. *)
Lemma my_insert_imported_open operation_time w t r w' :
  open_past w t -> insert_imported tenant_id event operation_time w = Some (r, w') ->
  during (own_locks (own t)) (committed w) (committed w') /\
  match r with
  | Ok true => exists k, inserted_at tenant columns (encode_instant operation_time) k w' t
  | Ok false => open_past w' t
  | Err e => stopped w' t /\ plain_import e
  end.
Proof.
  intros Ho Hr. unfold insert_imported in Hr. run_inv Hr.
  destruct (my_insert_statement_open Hisolated Happend _ _ _ _ _ _ _ Ho Hm) as [Hd Hx].
  run_inv Hr. split; [done|]. destruct r0 as [[]|source]; [done|].
  destruct (is_tenant_source_event_id_duplicate source); [by destruct Hx|].
  split; [done|apply my_sql_plain_import].
Qed.

(** A locking read that fails because a record changed keeps the transaction. *)
Lemma record_changed_open {A} (f : nat -> Db -> A * Own Z) w t source w' :
  open_past w t -> statement (fun n db => Ok (f n db)) w = Some (Err source, w') ->
  is_record_changed_since_read source = true -> open_past w' t.
Proof.
  intros [Ho Hp] Hr Hch. apply bool_decide_eq_true in Hch. pose proof (my_latest_open Hisolated _ _ Ho) as (Hd & Hw & Hv).
  destruct Ho as (Ht & Hwf & _ & Hview). unfold statement, in_session in Hr. rewrite Ht in Hr.
  destruct (sql_fault (tick w)) as [[e b]|] eqn:Ef; [|done].
  injection Hr as -> <-. rewrite (record_changed_keeps _ _ _ Ef Hch). split; [by split_and!|].
  eapply (past_later Hisolated Happend w _ t); [exact Hp|exact Hwf|exact Hd].
Qed.

(** The event found: what the columns read are those of. *)
Definition read_event (db : Db) (x : ExistingEvent.t_of Z) (e : Events.row_of Z) : Prop :=
  e ∈ events db /\ event_identity e = identity tenant_id event /\
  ExistingEvent.row_id x = Events.row_id e /\ ExistingEvent.columns x = row_columns e /\
  ExistingEvent.enqueued_at x = Events.enqueued_at e.

(** [SELECT ... FOR UPDATE] of the identity, and the result of a read *)
Let find_event : M (Result (option (ExistingEvent.t_of Z)) SqlxError.t) :=
  statement (fun _ db => Ok (find_existing_sql tenant (EventRow.source columns)
                               (EventRow.event_id columns) db, nothing)).

Lemma my_find_event_open w t r w' :
  open_past w t -> find_event w = Some (r, w') ->
  during (own_locks (own t)) (committed w) (committed w') /\
  match r with
  | Ok (Some x) => open_past w' t /\ exists e, read_event (overlay (own t) (committed w')) x e
  | Ok None => open_past w' t
  | Err _ => stopped w' t
  end.
Proof.
  intros Ho Hm. unfold find_event in Hm.
  destruct (statement_past Hisolated Happend _ _ _ _ _ Ho Hm) as (Hd & _ & _ & Hx).
  { intros a o [= _ <-] Hwf. by rewrite overlay_nothing. }
  split; [done|]. destruct r as [found|e]; [|done]. destruct Hx as (o & [= Hf <-] & Ho').
  rewrite add_nothing in Ho'. destruct found as [x|]; [|done]. split; [done|].
  apply find_existing_columns in Hf as (e & He & Hid & Hrow & Hcols & Hat). exists e.
  exact (conj He (conj Hid (conj Hrow (conj Hcols Hat)))).
Qed.

Lemma my_find_imported_open retries w t r w' :
  open_past w t -> find_imported tenant_id event retries w = Some (r, w') ->
  during (own_locks (own t)) (committed w) (committed w') /\
  match r with
  | Ok x => open_past w' t /\ exists e, read_event (overlay (own t) (committed w')) x e
  | Err e => stopped w' t /\ plain_import e
  end.
Proof.
  revert w. induction retries as [|retries IH]; intros w Ho Hr; cbn [find_imported] in Hr; run_inv Hr;
    pose proof (my_find_event_open _ _ _ _ Ho Hm) as [Hd Hx]; destruct r0 as [[x|]|source].
  1, 4: run_inv Hr; by split.
  1, 3: run_inv Hr; (split; [done|]); split; [left; apply Hx|done].
  - run_inv Hr. split; [done|]. split; [done|apply my_sql_plain_import].
  - destruct (is_record_changed_since_read source) eqn:Ech.
    + pose proof (record_changed_open _ _ _ _ _ Ho Hm Ech) as Ho'.
      destruct (IH _ Ho' Hr) as [Hd' Hx']. split; [by eapply during_trans|done].
    + run_inv Hr. split; [done|]. split; [done|apply my_sql_plain_import].
Qed.

Lemma my_find_imported_returns retries : returns (find_imported tenant_id event retries).
Proof. induction retries; cbn [find_imported]; returns_step. Qed.

Lemma my_delivery_in_state d id at_ :
  state_portable state -> delivery_of tenant id d = true ->
  delivery_matches (DeliveryRow.of_row d) state at_ = true <-> d = delivery_in_state id at_.
Proof.
  intros Hp. rewrite delivery_of_spec, my_delivery_matches_row by done. unfold delivery_in_state.
  by intros [-> ->].
Qed.
(** What import does to the open transaction [t]. *)
Definition my_import_effect (w : World) (t : Txn) (r : Result ImportOutcome.t ImportError.t)
    (w' : World) : Prop :=
  let tables := overlay (own t) (committed w') in
  during (own_locks (own t)) (committed w) (committed w') /\
  match r with
  | Ok (ImportOutcome.Imported id) => exists n,
      let now := utc_timestamp n in
      let row := new_event_row (RowId.get id) tenant columns now in
      Events.check row = true /\
      (exists db, during (own_locks (own t)) (committed w) db /\
         during (own_locks (own t) ++ [RowId.get id]) db (committed w') /\
         db_wf db /\ db_wf (overlay (own t) db) /\
         identity tenant_id event ∉ map event_identity (events (overlay (own t) db)) /\
         RowId.get id ∉ event_keys (overlay (own t) db)) /\
      exists t', open_past w' t' /\
        own t' = own_app (own t) (MkOwn [row] [delivery_in_state (RowId.get id) now] [RowId.get id])
  | Ok (ImportOutcome.AlreadyImported id) => exists t', open_past w' t' /\
      own t' = own_app (own t) (MkOwn [] [] [RowId.get id]) /\
      exists e, stored tenant_id event id e tables /\ row_columns e = columns /\
        delivery_in_state (RowId.get id) (Events.enqueued_at e) ∈ deliveries tables
  | Err (ImportError.IdentityConflict id) => exists t', open_past w' t' /\ own t' = own t /\
      exists e, stored tenant_id event id e tables /\ row_columns e <> columns
  | Err (ImportError.ImportConflict id) => exists t', open_past w' t' /\
      own t' = own_app (own t) (MkOwn [] [] [RowId.get id]) /\
      exists e d, stored tenant_id event id e tables /\ row_columns e = columns /\
        d ∈ deliveries tables /\ delivery_of tenant (RowId.get id) d = true /\
        d <> delivery_in_state (RowId.get id) (Events.enqueued_at e)
  | Err _ => exists t', stopped w' t' /\ (own t' = own t \/
      exists k now, own t' = own_app (own t) (inserted_event tenant columns k now))
  end.

Lemma my_plain_import_effect w t e w' t' :
  plain_import e -> during (own_locks (own t)) (committed w) (committed w') -> stopped w' t' ->
  own t' = own t \/ (exists k now, own t' = own_app (own t) (inserted_event tenant columns k now)) ->
  my_import_effect w t (Err e) w'.
Proof. intros He Hd Hs Ho. split; [done|]. destruct e; try done; by exists t'. Qed.

(** The code after the event was found to be stored before. *)
Lemma my_match_import_open x id w0 w t t0 r w' :
  state_portable state -> own t0 = own t -> during (own_locks (own t)) (committed w0) (committed w) ->
  open_past w t0 -> (exists e, read_event (overlay (own t) (committed w)) x e) ->
  RowId.get id = ExistingEvent.row_id x ->
  match_import tenant_id event state x id w = Some (r, w') -> my_import_effect w0 t r w'.
Proof.
  intros Hport Hown Hd0 Ho (e & He & Hide & Hrow & Hcols & Hat) Hid Hr. unfold match_import in Hr.
  run_inv Hr. run_inv Hm. destruct (validate_existing_event x) as [[]|de] eqn:Ev.
  2: { run_inv Hr. eapply my_plain_import_effect; [done|done|left; apply Ho|by left]. }
  run_inv Hr. run_inv Hm. destruct (my_same_event_columns event x Htime Ev) as (b & Hb & Hsame).
  rewrite Hb in Hr. rewrite Hcols in Hsame.
  assert (Hst : stored tenant_id event id e (overlay (own t) (committed w))).
  { split; [done|]. split; [done|]. congruence. }
  destruct b; cbn [negb] in Hr.
  2: { run_inv Hr. split; [done|]. exists t0. do 2 (split; [done|]). exists e. split; [done|].
       intros Heq. by apply Hsame in Heq. }
  apply proj1 in Hsame. specialize (Hsame eq_refl). run_inv Hr.
  destruct (lock_row_past Hisolated Happend _ _ _ _ _ Ho Hm) as [Hd1 Hx]. rewrite Hown in Hd1.
  pose proof (during_trans _ _ _ _ Hd0 Hd1) as Hd01. destruct r0 as [[d|]|source].
  2: { run_inv Hr. eapply my_plain_import_effect; [done|done|left; apply Hx|by left]. }
  2: { run_inv Hr. eapply my_plain_import_effect; [apply my_sql_plain_import|done|exact Hx|by left]. }
  destruct Hx as (Ho' & Hdel & Hwf & Hin). rewrite Hown in Hwf, Hin.
  pose proof Hdel as Hdel'. apply delivery_of_spec in Hdel' as [_ Hkey]. rewrite Hkey, <- Hid in Ho'.
  assert (Hst' : stored tenant_id event id e (overlay (own t) (committed w1))).
  { destruct Hst as (Hin' & Hrest). split; [|exact Hrest].
    eapply overlay_events_mono; [| | |exact Hin'];
      [exact (open_committed _ _ (proj1 Ho))|exact (open_committed _ _ (proj1 Ho'))|].
    eapply during_events; [done|done|exact (open_committed _ _ (proj1 Ho))|exact Hd1]. }
  rewrite Hat in Hr. rewrite <- Hid in Hdel.
  pose proof (my_delivery_in_state d (RowId.get id) (Events.enqueued_at e) Hport Hdel) as Hiff.
  destruct (delivery_matches _ _ _) eqn:Em; run_inv Hr; (split; [done|]).
  - eexists. split; [exact Ho'|]. cbn [own add_own with_own]. rewrite Hown. split; [done|]. exists e.
    do 2 (split; [done|]). apply proj1 in Hiff. by rewrite <- (Hiff eq_refl).
  - eexists. split; [exact Ho'|]. cbn [own add_own with_own]. rewrite Hown. split; [done|]. exists e, d.
    do 4 (split; [done|]). intros Heq. by apply Hiff in Heq.
Qed.
(** The delivery of the event just inserted. *)
Lemma my_insert_delivery_open operation_time k w t r w' :
  let now := encode_instant operation_time in
  open_past w t -> insert_delivery tenant_id k operation_time state w = Some (r, w') ->
  during (own_locks (own t)) (committed w) (committed w') /\
  match r with
  | Ok _ => open_past w' (add_own (MkOwn [] [delivery_in_state k now] []) t)
  | Err e => plain_import e /\ stopped w' t
  end.
Proof.
  intros now Ho Hr. unfold delivery_in_state. unfold insert_delivery in Hr.
  destruct state as [|at_]; run_inv Hr;
    destruct (statement_past Hisolated Happend _ _ _ _ _ Ho Hm) as (Hd & _ & _ & Hx);
    try (intros [] o Hf; by eapply my_insert_delivery_wf);
    (destruct r0 as [[]|source]; run_inv Hr; (split; [done|]); [|by split; [apply my_sql_plain_import|]]);
    destruct Hx as (o & Hf & Ho'); apply my_insert_delivery_Ok in Hf as (-> & _);
    exact Ho'.
Qed.

(** The code after a successful INSERT. *)
Lemma my_import_inserted operation_time k w t r w' :
  let now := encode_instant operation_time in
  inserted_at tenant columns now k w t ->
  (try* existing := find_imported tenant_id event MAX_RECORD_CHANGED_RETRIES else (fun e => e) in
   try* existing_id := ret (import_row_id (ExistingEvent.row_id existing)) else (fun e => e) in
   try* _ := insert_delivery tenant_id (ExistingEvent.row_id existing) operation_time state
        else (fun e => e) in
   ret (Ok (ImportOutcome.Imported existing_id))) w = Some (r, w') ->
  during (own_locks (own t) ++ [k]) (committed w) (committed w') /\
  match r with
  | Ok (ImportOutcome.Imported id) => RowId.get id = k /\ exists t', open_past w' t' /\
      own t' = own_app (own t) (MkOwn [new_event_row k tenant columns now] [delivery_in_state k now] [k])
  | Ok _ => False
  | Err e => plain_import e /\ exists t', stopped w' t' /\
      own t' = own_app (own t) (inserted_event tenant columns k now)
  end.
Proof.
  intros now [Hpos Hck Hw Hv Hk Hid Ho] Hr. run_inv Hr.
  destruct (my_find_imported_open _ _ _ _ _ Ho Hm) as [Hd0 Hx]. cbn [own add_own with_own] in Hd0, Hx.
  destruct r0 as [x|e]; [|run_inv Hr; split; [done|]; destruct Hx as [Hs Hp]; split; [done|]; by eexists].
  destruct Hx as (Ho0 & e & He & Hide & Hrow & _).
  apply own_row_unique in He; [|exact (open_current _ _ (proj1 Ho0))|exact Hide]. subst e.
  change (ExistingEvent.row_id x = k) in Hrow. rewrite Hrow in Hr. unfold import_row_id in Hr.
  rewrite (proj2 (RowId_new_Ok k (RowId.Make k))) in Hr by done.
  cbn [map_err] in Hr. run_inv Hr. run_inv Hm0. run_inv Hr.
  destruct (my_insert_delivery_open _ _ _ _ _ _ Ho0 Hm0) as [Hd1 Hx].
  destruct r0 as [[]|e]; run_inv Hr; (split; [by eapply during_trans|]).
  - split; [done|]. eexists. split; [exact Hx|]. cbn [own add_own with_own]. by rewrite own_app_assoc.
  - destruct Hx as [Hp Hs]. split; [done|]. by eexists.
Qed.

Lemma my_import_run w t r w' :
  open_past w t -> import_for_scope sql tenant_id event state w = Some (r, w') -> my_import_effect w t r w'.
Proof.
  intros Ho Hr. unfold import_for_scope in Hr. run_inv Hr. run_inv Hm.
  destruct (ImportedDeliveryState.validate state) as [[]|source] eqn:Ev.
  2: { run_inv Hr. eapply my_plain_import_effect; [done|constructor|left; apply Ho|by left]. }
  assert (Hport : state_portable state).
  { destruct state as [|t0]; simpl in *; [done|]. by apply validate_instant_Ok in Ev. }
  run_inv Hr. destruct (my_check_schema_observes sql Hisolated Happend _ _ _ _ Ho Hm) as (Hd0 & t0 & Hown0 & Hx0).
  destruct r0 as [[]|e].
  2: { run_inv Hr. eapply my_plain_import_effect; [apply my_schema_plain_import|done|exact Hx0|by left]. }
  run_inv Hr. destruct (server_query_observes Hisolated Happend _ _ _ _ _ Hx0 Hm0) as (Hd1 & t1 & Hown1 & Hx1).
  rewrite Hown0 in Hd1, Hown1. pose proof (during_trans _ _ _ _ Hd0 Hd1) as Hd01.
  destruct r0 as [now|e].
  2: { run_inv Hr. eapply my_plain_import_effect; [apply my_sql_plain_import|done|exact Hx1|by left]. }
  assert (Hnow : exists n, encode_instant now = utc_timestamp n).
  { apply server_value in Hm0 as ->. eexists. apply encode_decode. }
  destruct Hnow as [n Hnow]. clear Hm Hm0 Hd0 Hd1 Hx0 Hown0 t0. run_inv Hr. run_inv Hm.
  destruct (ImportedDeliveryState.delivered now) as [?|source].
  2: { run_inv Hr. eapply my_plain_import_effect; [done|done|left; apply Hx1|by left]. }
  run_inv Hr. destruct (my_insert_imported_open _ _ _ _ _ Hx1 Hm) as [Hd2 Hx2].
  rewrite Hown1 in Hd2. pose proof (during_trans _ _ _ _ Hd01 Hd2) as Hd02. destruct r0 as [[|]|e].
  - destruct Hx2 as [k Hx2]. pose proof Hx2 as [_ Hck Hw Hv Hk Hid _].
    destruct (my_import_inserted _ _ _ _ _ _ Hx2 Hr) as [Hd3 Hx3]. rewrite Hown1 in *.
    pose proof Hd3 as Hd3'. apply (during_mono _ (own_locks (own t))) in Hd3'; [|set_solver].
    pose proof (during_trans _ _ _ _ Hd02 Hd3') as Hd03. rewrite Hnow in *. destruct r as [[id|id]|e]; [|done|].
    + destruct Hx3 as (<- & t' & Ho3 & Hown3). split; [done|]. exists n. cbv zeta. split; [done|].
      split; [by exists (committed w2)|]. by exists t'.
    + destruct Hx3 as (Hp & t' & Hs & Hown3). eapply my_plain_import_effect; [done|done|exact Hs|].
      right. by exists k, (utc_timestamp n).
  - run_inv Hr. destruct (my_find_imported_open _ _ _ _ _ Hx2 Hm0) as [Hd3 Hx3]. rewrite Hown1 in *.
    pose proof (during_trans _ _ _ _ Hd02 Hd3) as Hd03. destruct r0 as [x|e].
    2: { run_inv Hr. destruct Hx3. eapply my_plain_import_effect; [done|done|done|by left]. }
    destruct Hx3 as [Ho3 He]. run_inv Hr. run_inv Hm1.
    destruct (import_row_id (ExistingEvent.row_id x)) as [id|ve] eqn:Eid; apply my_import_row_id_inv in Eid.
    + by eapply my_match_import_open.
    + run_inv Hr. eapply my_plain_import_effect; [done|done|left; apply Ho3|by left].
  - run_inv Hr. destruct Hx2. eapply my_plain_import_effect; [done|done|done|by left].
Qed.
(** C21: import in a caller's MySQL transaction, while other connections commit
    between any two of its statements. It reports [Imported] only after its INSERT
    saw neither the identity nor the row id, and then the transaction has written
    exactly the event's row and its delivery in the given state, both with one
    operation time. Otherwise the locking reads see what is committed:
    [AlreadyImported] means that the event is stored with the same columns and its
    delivery is, and stays until the transaction ends, exactly as the import of the
    same state leaves it; [ImportConflict] that the delivery is in another state,
    [IdentityConflict] that the event has other columns. In those cases nothing is
    written, a failure leaves at most the event's row, and the call always returns:
    a read that fails because a record changed is retried three times, in the same
    transaction. *)
Theorem my_import_outcomes w t :
  open_past w t ->
  exists r w', import_for_scope sql tenant_id event state w = Some (r, w') /\ my_import_effect w t r w'.
Proof.
  intros Ho. assert (Hret : returns (import_for_scope sql tenant_id event state)).
  { pose proof (my_find_imported_returns MAX_RECORD_CHANGED_RETRIES) as Hf.
    unfold import_for_scope, check_schema_connection, check_schema_marker, check_tables_and_columns,
      check_marker_table, check_columns, check_constraints, check_triggers, check_indexes, schema_query,
      insert_imported, insert_delivery, match_import. returns_step. }
  destruct (Hret w) as [[r w'] Hr]. exists r, w'. split; [done|]. by apply my_import_run.
Qed.
End ImportSpec.
