(* ===== verification/MyFinalize.v ===== *)
(** * Finalization of the MySQL adapter (crates/dovecote-sqlx-mysql/src/finalize.rs)

    The migration-only completion of an untouched pending delivery. The event and
    the delivery are read with locking reads before they are inspected, so what the
    update finds is what was inspected. *)

From S2P Require Import Prelude Step Utf8 BTree Errors Limits Validation Bounds Values Extension Serialization Event State Tables Queries RowHydration External Overlay Others Instants Migration Leases MyError My MyInsert MyBackend MyRows MySchema MyCanonical.

Definition map_schema_error (error : SchemaError.t) : FinalizeError.t :=
  match error with
  | SchemaError.MigrationMismatch detail => FinalizeError.MigrationMismatch detail
  | SchemaError.BackendMismatch detail => FinalizeError.BackendMismatch detail
  | SchemaError.Sql operation source => FinalizeError.Sql operation source
  | SchemaError.Transient operation kind source => FinalizeError.Transient operation kind source
  end.

Section Finalize.
Context `{RustDebug, MyEnv, MyServer, MyCatalogEnv}.
Context (tenant_baseline_sql : string).

(** From the locked delivery on. *)
Definition finalize_delivery (tenant_id : TenantId.t) (row_id : RowId.t) (delivered_at : OffsetDateTime)
    (enqueued_at : Z) (delivery : DeliveryRow.t_of Z) : M (Result FinalizeOutcome.t FinalizeError.t) :=
  if bool_decide (DeliveryRow.state delivery = "delivered")
     && is_canonical_delivery_shape delivery enqueued_at
     && same_instant (Some delivered_at) (DeliveryRow.delivered_at delivery)
  then ret (Ok (FinalizeOutcome.AlreadyFinalized row_id))
  else if negb (canonical_pending delivery enqueued_at)
  then ret (Err (FinalizeError.StateConflict row_id))
  else
    try* updated := statement (fun _ => @update_sql (violation CheckViolated)
           (pending_import (TenantId.as_str tenant_id) (RowId.get row_id) enqueued_at)
           (set_finalized (encode_instant delivered_at)))
         else FinalizeError.sql "finalize migration delivery" in
    if negb (Z.of_nat (length updated) =? 1)
    then ret (Err (FinalizeError.StateConflict row_id))
    else ret (Ok (FinalizeOutcome.Finalized row_id)).

Definition finalize_for_scope (tenant_id : TenantId.t) (row_id : RowId.t)
    (delivered_at : OffsetDateTime) : M (Result FinalizeOutcome.t FinalizeError.t) :=
  try* _ := ret (ImportedDeliveryState.delivered delivered_at) else FinalizeError.InvalidTimestamp in
  try* _ := check_schema_connection tenant_baseline_sql else map_schema_error in
  try* event := statement (fun _ db => Ok (select_enqueued_at_sql (TenantId.as_str tenant_id)
                                             (RowId.get row_id) db, nothing))
       else FinalizeError.sql "lock migration event" in
  match event with
  | None => ret (Err FinalizeError.NotFound)
  | Some enqueued_at =>
      try* delivery := lock_row (delivery_of (TenantId.as_str tenant_id) (RowId.get row_id))
           else FinalizeError.sql "lock migration delivery" in
      match delivery with
      | None => ret (Err (FinalizeError.MigrationMismatch "an existing event has no delivery row"))
      | Some delivery =>
          finalize_delivery tenant_id row_id delivered_at enqueued_at (DeliveryRow.of_row delivery)
      end
  end.
End Finalize.

(** ** What finalization does *)

Section FinalizeSpec.
Context `{RustDebug, MyEnv, MyServer, MyCatalogEnv}.
Context {TL : TimeLaws} {IL : InstantColumnLaws}.
Context (sql : string) (tenant_id : TenantId.t) (row_id : RowId.t) (delivered_at : OffsetDateTime).
Context (Hisolated : isolated) (Happend : append_only).

Let tenant := TenantId.as_str tenant_id.
Let key := RowId.get row_id.
Let delivered := Some (encode_instant delivered_at).

(** The event's delivery in the canonical shape of a state. *)
Definition imported_delivery (enqueued_at : Z) (state : string) (at_ : option Z) :
    Deliveries.row_of Z :=
  untouched_row tenant key state enqueued_at at_.

(** The event of the tenant is stored, and its delivery as [P] says. *)
Definition has_delivery (db : Db) (P : Events.row_of Z -> Deliveries.row_of Z -> Prop) : Prop :=
  exists e d, e ∈ events db /\ event_at tenant key e = true /\
    d ∈ deliveries db /\ delivery_of tenant key d = true /\ P e d.

(** What a call does to the open transaction [t]. *)
Definition my_finalize_effect (w : World) (t : Txn) (r : Result FinalizeOutcome.t FinalizeError.t)
    (w' : World) : Prop :=
  let tables := overlay (own t) (committed w') in
  during (own_locks (own t)) (committed w) (committed w') /\
  match r with
  | Ok (FinalizeOutcome.Finalized id) => id = row_id /\
      has_delivery tables (fun e d => d = imported_delivery (Events.enqueued_at e) "pending" None /\
        exists t', open_past w' t' /\ own t' = own_app (own t)
          (MkOwn [] [imported_delivery (Events.enqueued_at e) "delivered" delivered] [key; key]))
  | Ok (FinalizeOutcome.AlreadyFinalized id) => id = row_id /\
      (exists t', open_past w' t' /\ own t' = own_app (own t) (MkOwn [] [] [key])) /\
      has_delivery tables (fun e d => d = imported_delivery (Events.enqueued_at e) "delivered" delivered)
  | Err (FinalizeError.StateConflict id) => id = row_id /\
      (exists t', open_past w' t' /\ own t' = own_app (own t) (MkOwn [] [] [key])) /\
      has_delivery tables (fun e d => d <> imported_delivery (Events.enqueued_at e) "pending" None /\
        d <> imported_delivery (Events.enqueued_at e) "delivered" delivered)
  | Err FinalizeError.NotFound => (exists t', open_past w' t' /\ own t' = own t) /\
      forall e, e ∈ events tables -> event_at tenant key e = false
  | Err (FinalizeError.InvalidTimestamp source) =>
      w' = w /\ ImportedDeliveryState.delivered delivered_at = Err source
  | Err _ => exists t', stopped w' t' /\ own_events (own t') = own_events (own t) /\
               own_deliveries (own t') = own_deliveries (own t)
  end.

(** Errors with no other effect. *)
Definition plain_finalize (e : FinalizeError.t) : Prop :=
  match e with
  | FinalizeError.StateConflict _ | FinalizeError.NotFound | FinalizeError.InvalidTimestamp _ => False
  | _ => True
  end.

Lemma my_sql_plain_finalize op e : plain_finalize (FinalizeError.sql op e).
Proof. unfold FinalizeError.sql. by destruct (TransientKind.from_sqlx e). Qed.

Lemma my_map_schema_plain e : plain_finalize (map_schema_error e).
Proof. by destruct e. Qed.

Lemma my_plain_finalize_effect w t e w' t' :
  plain_finalize e -> during (own_locks (own t)) (committed w) (committed w') -> stopped w' t' ->
  own_events (own t') = own_events (own t) -> own_deliveries (own t') = own_deliveries (own t) ->
  my_finalize_effect w t (Err e) w'.
Proof. intros He Hd Hs He' Hd'. split; [done|]. destruct e; try done; by exists t'. Qed.

(** The update of the canonical pending delivery writes that row alone. *)
Lemma my_finalize_update db enqueued_at :
  db_wf db -> imported_delivery enqueued_at "pending" None ∈ deliveries db ->
  @update_sql (violation CheckViolated) (pending_import tenant key enqueued_at)
    (set_finalized (encode_instant delivered_at)) db
  = Ok ([imported_delivery enqueued_at "delivered" delivered],
        MkOwn [] [imported_delivery enqueued_at "delivered" delivered] [key]).
Proof.
  intros Hwf Hin. rewrite (update_sql_one _ _ _ (imported_delivery enqueued_at "pending" None)).
  - change (set_finalized (encode_instant delivered_at) (imported_delivery enqueued_at "pending" None))
      with (imported_delivery enqueued_at "delivered" delivered).
    destruct Hwf as (_ & _ & _ & Hck & _). rewrite Forall_forall in Hck. apply Hck in Hin. clear Hck.
    (* the CHECKs of the two rows are the same *)
    by replace (Deliveries.check (imported_delivery enqueued_at "delivered" delivered)) with true.
  - done.
  - done.
  - by apply pending_import_row.
  - intros y _. by apply pending_import_row.
Qed.

Lemma my_delivery_of_untouched d state (enqueued_at : Z) at_ :
  delivery_of tenant key d = true ->
  d = untouched_row (Deliveries.tenant_id d) (Deliveries.event_row_id d) state enqueued_at at_ <->
  d = imported_delivery enqueued_at state at_.
Proof. rewrite delivery_of_spec. unfold imported_delivery. by intros [-> ->]. Qed.

(** On the locked delivery [d] of the event [e]. *)
Lemma my_finalize_delivery_open w0 t e d t1 w r w' :
  portable_instant delivered_at ->
  own t1 = own_app (own t) (MkOwn [] [] [key]) -> open_past w t1 ->
  during (own_locks (own t)) (committed w0) (committed w) ->
  e ∈ events (overlay (own t) (committed w)) -> event_at tenant key e = true ->
  d ∈ deliveries (overlay (own t) (committed w)) -> delivery_of tenant key d = true ->
  finalize_delivery tenant_id row_id delivered_at (Events.enqueued_at e) (DeliveryRow.of_row d) w
  = Some (r, w') -> my_finalize_effect w0 t r w'.
Proof.
  intros Hport Hown Ho Hd He Hat Hin Hdel Hr. unfold finalize_delivery in Hr.
  assert (Hov : forall db, overlay (own t1) db = overlay (own t) db)
    by (intros db; rewrite Hown, overlay_app; apply overlay_locks).
  pose proof (my_canonical_delivered_row d (Events.enqueued_at e) delivered_at Hport) as Hcd.
  rewrite (my_delivery_of_untouched d _ _ _ Hdel) in Hcd.
  pose proof (my_canonical_pending_row d (Events.enqueued_at e)) as Hcp.
  rewrite (my_delivery_of_untouched d _ _ _ Hdel) in Hcp.
  assert (Hhas : forall P, (P e d : Prop) -> has_delivery (overlay (own t) (committed w)) P)
    by (intros P HP; exists e, d; by split_and!).
  destruct (bool_decide _ && _ && _) eqn:Ecd in Hr.
  { rewrite !andb_true_iff, bool_decide_eq_true in Ecd. destruct Ecd as [[Ec1 Ec2] Ec3].
    run_inv Hr. split; [done|]. split; [done|]. split; [by exists t1|]. by apply Hhas, Hcd. }
  destruct (canonical_pending _ _) eqn:Ecp; cbn [negb] in Hr.
  2: { run_inv Hr. split; [done|]. split; [done|]. split; [by exists t1|]. apply Hhas.
       split; intros Hx; [by apply Hcp in Hx|apply Hcd in Hx as (Hx1 & Hx2 & Hx3)].
       apply not_true_iff_false in Ecd. apply Ecd. rewrite !andb_true_iff, bool_decide_eq_true. done. }
  apply proj1 in Hcp. specialize (Hcp eq_refl). subst d. run_inv Hr.
  destruct (statement_past Hisolated Happend _ _ _ _ _ Ho Hm) as (Hd1 & Hw & Hv & Hx).
  { intros a o Hu Hwf. exact (update_sql_wf _ _ _ _ _ (set_finalized_keeps _) Hu Hwf). }
  rewrite Hov in Hv, Hx. assert (Hd1' : during (own_locks (own t)) (committed w) (committed w1)).
  { eapply during_mono; [|exact Hd1]. rewrite Hown. simpl. set_solver. }
  pose proof (during_trans _ _ _ _ Hd Hd1') as Hd01.
  destruct r0 as [rows|source].
  2: { run_inv Hr. eapply my_plain_finalize_effect; [apply my_sql_plain_finalize|done|exact Hx|..];
         rewrite Hown; simpl; by rewrite ?app_nil_r. }
  assert (Hin1 : imported_delivery (Events.enqueued_at e) "pending" None
                 ∈ deliveries (overlay (own t) (committed w1))).
  { rewrite <- Hov. eapply (locked_own_row Hisolated); 
      [exact (open_committed _ _ (proj1 Ho))|exact Hd1| |by rewrite Hov].
    rewrite Hown. simpl. set_solver. }
  destruct Hx as (o & Hu & Ho'). rewrite my_finalize_update in Hu by done. injection Hu as <- <-.
  match type of Hr with context [negb ?b] => change (negb b) with false in Hr end. run_inv Hr.
  split; [done|]. split; [done|]. exists e, (imported_delivery (Events.enqueued_at e) "pending" None).
  assert (He1 : e ∈ events (overlay (own t) (committed w1))).
  { eapply overlay_events_mono; [| | |exact He]; [exact (open_committed _ _ (proj1 Ho))|done|].
    eapply during_events; [done|done|exact (open_committed _ _ (proj1 Ho))|exact Hd1]. }
  split_and!; try done. eexists. split; [exact Ho'|]. cbn [own add_own with_own]. rewrite Hown.
  by rewrite own_app_assoc.
Qed.
Lemma my_finalize_run w t r w' :
  open_past w t -> finalize_for_scope sql tenant_id row_id delivered_at w = Some (r, w') ->
  my_finalize_effect w t r w'.
Proof.
  intros Ho Hr. unfold finalize_for_scope in Hr. run_inv Hr. run_inv Hm.
  destruct (ImportedDeliveryState.delivered delivered_at) as [s|source] eqn:Ev.
  2: { run_inv Hr. split; [constructor|done]. }
  assert (Hport : portable_instant delivered_at).
  { unfold ImportedDeliveryState.delivered in Ev.
    destruct (canonicalize_instant _ delivered_at) as [u|] eqn:Eu; [|done].
    by apply canonicalize_instant_Ok in Eu as [Hp _]. }
  run_inv Hr. destruct (my_check_schema_observes sql Hisolated Happend _ _ _ _ Ho Hm) as (Hd0 & t0 & Hown0 & Hx0).
  destruct r0 as [[]|e].
  2: { run_inv Hr. eapply my_plain_finalize_effect; [apply my_map_schema_plain|done|exact Hx0|..];
         by rewrite Hown0. }
  clear Hm. run_inv Hr.
  destruct (statement_past Hisolated Happend _ _ _ _ _ Hx0 Hm) as (Hd1 & _ & _ & Hx).
  { intros a o [= _ <-] Hwf. by rewrite overlay_nothing. }
  rewrite Hown0 in Hd1. pose proof (during_trans _ _ _ _ Hd0 Hd1) as Hd01. destruct r0 as [event|e].
  2: { run_inv Hr. eapply my_plain_finalize_effect; [apply my_sql_plain_finalize|done|exact Hx|..];
         by rewrite Hown0. }
  destruct Hx as (o & [= Hf <-] & Ho1). rewrite add_nothing in Ho1. rewrite Hown0 in Hf.
  destruct event as [enqueued_at|].
  2: { run_inv Hr. split; [done|]. split; [by exists t0|]. intros e. by apply select_enqueued_at_None. }
  apply select_enqueued_at_Some in Hf as (e & He & Hat & <-). run_inv Hr.
  destruct (lock_row_past Hisolated Happend _ _ _ _ _ Ho1 Hm0) as [Hd2 Hl]. rewrite Hown0 in Hd2.
  pose proof (during_trans _ _ _ _ Hd01 Hd2) as Hd02. destruct r0 as [[d|]|source].
  - destruct Hl as (Ho2 & Hdel & _ & Hin). rewrite Hown0 in Hin.
    assert (Hkey : Deliveries.event_row_id d = key) by by apply delivery_of_spec in Hdel as [_ ?].
    rewrite Hkey in Ho2. eapply my_finalize_delivery_open; [done| |exact Ho2|done| |done|done|done|exact Hr].
    { cbn [own add_own with_own]. by rewrite Hown0. }
    eapply overlay_events_mono; [| | |exact He];
      [exact (open_committed _ _ (proj1 Ho1))|exact (open_committed _ _ (proj1 Ho2))|].
    eapply during_events; [done|done|exact (open_committed _ _ (proj1 Ho1))|exact Hd2].
  - run_inv Hr. destruct Hl as [Ho2 _].
    eapply my_plain_finalize_effect; [done|done|left; apply Ho2|..]; by rewrite Hown0.
  - run_inv Hr. eapply my_plain_finalize_effect; [apply my_sql_plain_finalize|done|exact Hl|..];
      by rewrite Hown0.
Qed.

(** Finalization in a caller's MySQL transaction, while other connections
    commit between any two of its statements: it answers [Finalized] only when the
    event of the tenant is stored and its locked delivery is in exactly the shape a
    pending import leaves, and then it wrote that delivery alone, delivered at the
    supplied time, every other column as it was; the rows affected are one whatever
    other connections did. [AlreadyFinalized] is answered only for a delivery an
    earlier call with the same instant left, any other delivery is a
    [StateConflict], and [NotFound] means that the tenant has no such event. Nothing
    else is ever written, and the call always returns. *)
Theorem my_finalize_outcomes w t :
  open_past w t ->
  exists r w', finalize_for_scope sql tenant_id row_id delivered_at w = Some (r, w') /\
    my_finalize_effect w t r w'.
Proof.
  intros Ho. assert (Hret : returns (finalize_for_scope sql tenant_id row_id delivered_at)).
  { unfold finalize_for_scope, check_schema_connection, check_schema_marker, check_tables_and_columns,
      check_marker_table, check_columns, check_constraints, check_triggers, check_indexes, schema_query,
      finalize_delivery. returns_step. }
  destruct (Hret w) as [[r w'] Hr]. exists r, w'. split; [done|]. by apply my_finalize_run.
Qed.
End FinalizeSpec.
