(* ===== verification/MyOutbox.v ===== *)
(** * The MySQL adapter keeps the contract

    Claims and mutations, which run in transactions of their own, and callers'
    transactions of enqueues, imports and finalizations are histories of the
    contract of an outbox, on tables that others change by the contract
    meanwhile. *)

From S2P Require Import Prelude Step Utf8 External BTree Errors Limits Validation Bounds Values Extension Serialization Event State Tables Queries RowHydration Claims Contract Overlay Others Instants Leases Calls MyError My MyInsert MyBackend MyRows MySchema MyHydrate MyMutation MyLifecycle MyClaim MyEnqueue MyCanonical MyImport MyFinalize.

(** ** Claims and mutations *)

Section MyActions.
Context `{SerdeJson, Base64, MimeLib, FluentUri, RustDebug, MyEnv, MyServer, MyCatalogEnv}.
Context {IL : InstantColumnLaws} {EL : MyErrorLaws}.
Context (Hkeep : keep_contract).

(** What a mutation writes at [now], [later] being the result of its interval. *)
Definition update_of (mutation : Mutation.t) (now later : Z) : update Z :=
  match mutation with
  | Mutation.Renew _ => Renew (Some later)
  | Mutation.Ack => Ack now
  | Mutation.Retry failure _ => Retry later (Failure.code failure) (Failure.detail failure)
  | Mutation.Release _ => Release later
  | Mutation.Quarantine reason => Quarantine now (QuarantineReason.as_str reason)
  end.

(** The instant the mutation sets, as the server computes it. *)
Definition later_at (mutation : Mutation.t) (now later : Z) : Prop :=
  exists micros, interval mutation = Ok micros /\
    match micros with Some micros => timestampadd micros now | None => Some now end = Some later.

Lemma my_assign_update_of mutation now later d :
  assign mutation now later d = apply_update (update_of mutation now later) d.
Proof. by destruct mutation. Qed.

Lemma my_claim_performed tenant_id worker lease_for limit w evs w' :
  closed w -> claimed_on tenant_id worker lease_for limit w evs (committed w') ->
  exists now, performed (committed w) (committed w')
    [claim_of worker now (now + Duration.as_nanos (Lease.get lease_for) / 1000) evs].
Proof.
  intros [_ Hwf0] (w1 & ds & db2 & [Hsort _ Hent Hdue Htok _ _] & Hd2 & Hwf2 & Hin & Hdb & Hwf).
  exists (utc_timestamp (tick w1)). apply (performed_one _ db2); [done..|].
  rewrite Hdb in *. apply (claims_action (ds := ds)); try done; [|by apply sorted_lt_NoDup].
  apply Forall2_same_length_lookup_2; [by eapply Forall2_length|]. intros i d ev Hi Hev.
  destruct (Forall2_lookup_lr _ _ _ _ _ _ Hent Hi Hev) as (n & db & _ & _ & _ & _ & _ & [Hk _ _ Ha _ Ht _]).
  rewrite Forall_lookup in Hdue. specialize (Hdue _ _ Hi). constructor; try done. by eapply due_open.
Qed.

Lemma my_mutation_is_performed tenant_id row_id token mutation w w' :
  closed w -> mutated_on tenant_id row_id token mutation w (committed w') ->
  exists now later, later_at mutation now later /\
    performed (committed w) (committed w')
      [Mutate (RowId.get row_id) (ClaimToken.as_bytes token) now (update_of mutation now later)].
Proof.
  intros [_ Hwf0] (n & db & d & d' & Hd & Hwf & Hin & Hf & (micros & later & Hi & Hl & ->) & Hdb & Hwf').
  exists (utc_timestamp n), later. split; [by exists micros|].
  rewrite my_assign_update_of in Hdb. rewrite Hdb in *.
  apply (performed_one _ db); [done..|]. by eapply mutation_performed.
Qed.
End MyActions.

(** ** Callers' transactions *)

Section MyCalls.
Context `{SerdeJson, Base64, MimeLib, FluentUri, RustDebug, MyEnv, MyServer, MyCatalogEnv}.
Context {TL : TimeLaws} {IL : InstantColumnLaws} {EL : MyErrorLaws}.
Context (sql : string).

#[export] Instance my_server : Server World := {|
  srv_tables := committed;
  srv_idle := closed;
  srv_open w o := exists t, open_past w t /\ own t = o;
  srv_begins w w' := exists consistent_snapshot,
    begin_statement consistent_snapshot w = Some (Ok tt, w');
  srv_answers c a w w' := portable_call c /\
    match c, a with
    | CallEnqueue tenant_id event, AnswerEnqueue outcome =>
        enqueue_for_scope sql tenant_id event w = Some (Ok outcome, w')
    | CallImport tenant_id event state, AnswerImport outcome =>
        import_for_scope sql tenant_id event state w = Some (Ok outcome, w')
    | CallFinalize tenant_id row_id delivered_at, AnswerFinalize outcome =>
        finalize_for_scope sql tenant_id row_id delivered_at w = Some (Ok outcome, w')
    | _, _ => False
    end;
  srv_ends how w w' :=
    match how with
    | Committed => commit w = Some (Ok tt, w')
    | CommitFailed => exists e, commit w = Some (Err e, w')
    | RolledBack => exists r, rollback w = Some (r, w')
    end;
|}.

Context (Hkeep : keep_contract).
Let Hisolated : isolated := contract_isolated Hkeep.
Let Happend : append_only := contract_append_only Hkeep.

Lemma my_enqueue_answered w t tenant_id event outcome w' :
  open_past w t -> portable_call (CallEnqueue tenant_id event) ->
  enqueue_for_scope sql tenant_id event w = Some (Ok outcome, w') ->
  answered w (own t) (CallEnqueue tenant_id event) (AnswerEnqueue outcome) w'.
Proof.
  intros Ho Hport Hr.
  destruct (my_enqueue_run sql tenant_id event Hisolated Happend Hport _ _ _ _ Ho Hr) as [Hd Hx].
  destruct outcome as [id|id].
  - destruct Hx as (Hck & (db & _ & Hb2 & Hb3 & Hb4 & _ & Hk) & t' & Ho' & Hown).
    apply (answered_insert Hkeep _ _ _ _ _
             (stored_row tenant_id event id (utc_timestamp (S (S (tick w))))) None db);
      try done; [by exists t'|constructor].
  - destruct Hx as (t' & Hown & Ho' & _).
    eapply answered_nothing; [by exists t'|done..|constructor].
Qed.

Lemma my_import_answered w t tenant_id event state outcome w' :
  open_past w t -> portable_call (CallImport tenant_id event state) ->
  import_for_scope sql tenant_id event state w = Some (Ok outcome, w') ->
  answered w (own t) (CallImport tenant_id event state) (AnswerImport outcome) w'.
Proof.
  intros Ho Hport Hr.
  destruct (my_import_run sql tenant_id event state Hisolated Happend Hport _ _ _ _ Ho Hr) as [Hd Hx].
  destruct outcome as [id|id].
  - destruct Hx as (n & Hck & (db & _ & Hb2 & Hb3 & Hb4 & _ & Hk) & t' & Ho' & Hown).
    apply (answered_insert Hkeep _ _ _ _ _ (stored_row tenant_id event id (utc_timestamp n))
             (imported_at state) db); try done; [|constructor].
    exists t'. split; [exact Ho'|]. rewrite Hown. by destruct state.
  - destruct Hx as (t' & Ho' & Hown & _).
    eapply answered_nothing; [by exists t'|done|..|constructor]; simpl; rewrite ?app_nil_r; try done.
    set_solver.
Qed.

Lemma my_finalize_answered w t tenant_id row_id delivered_at outcome w' :
  open_past w t -> finalize_for_scope sql tenant_id row_id delivered_at w = Some (Ok outcome, w') ->
  answered w (own t) (CallFinalize tenant_id row_id delivered_at) (AnswerFinalize outcome) w'.
Proof.
  intros Ho Hr. pose proof (open_committed _ _ (proj1 Ho)) as Hwf0.
  destruct (my_finalize_run sql tenant_id row_id delivered_at Hisolated Happend _ _ _ _ Ho Hr) as [Hd Hx].
  destruct outcome as [id|id].
  - destruct Hx as (-> & e & d & He & Hat & Hin & _ & -> & t' & Ho' & Hown).
    unfold event_at in Hat. rewrite andb_true_iff, bool_decide_eq_true, Z.eqb_eq in Hat.
    destruct Hat as [Ht Hk]. unfold imported_delivery in Hin, Hown. rewrite <- Ht, <- Hk in Hin, Hown.
    apply (answered_finalize Hkeep _ _ _ _ _ e (encode_instant delivered_at)
             [Events.row_id e; Events.row_id e]); try done.
    + by eapply during_wf.
    + set_solver.
    + by exists t'.
    + rewrite Hk. constructor.
  - destruct Hx as (-> & (t' & Ho' & Hown) & _).
    eapply answered_nothing; [by exists t'|done|..|constructor]; simpl; rewrite ?app_nil_r; try done.
    set_solver.
Qed.

(** MySQL and MariaDB keep what [ServerLaws] asks of a server. *)
#[export] Instance my_server_laws : ServerLaws World.
Proof.
  constructor.
  - by intros w [_ Hwf].
  - intros w w' Hc [b Hb]. destruct (my_begin_closed Hisolated _ _ _ _ Hc Hb) as [Hd Ho].
    split; [done|]. eexists. split; [split; [exact Ho|]|done]. intros v. by destruct b; [intros [= <-]|].
  - intros w o c a w' (t & Ho & <-) [Hport Hr].
    destruct c, a; try done.
    + by apply my_enqueue_answered.
    + by apply my_import_answered.
    + by apply my_finalize_answered.
  - intros w o [| |] w' (t & [Ho _] & <-); [intros Hc|intros [e Hc]|intros [r Hr]].
    + destruct (my_commit_open Hisolated _ _ _ _ Ho Hc) as (_ & db & Hd & Hwf & Hv & Hm). by exists db.
    + destruct (my_commit_open Hisolated _ _ _ _ Ho Hc) as (_ & db & Hd & Hwf & Hv & Hm). by exists db.
    + destruct (my_latest_open Hisolated _ _ Ho) as (Hd & Hwf & Hv).
      exists (latest w). by injection Hr as _ <-.
Qed.

End MyCalls.
