(* ===== verification/MyScope.v ===== *)
(** * Handles of the MySQL adapter (crates/dovecote-sqlx-mysql/src/scope.rs and lib.rs)

    The adapter itself, a handle bound to one tenant and the administrative
    handle. The pool is the world the steps run on, so a handle keeps its tenant
    only. [fuel] bounds the rounds of a claim's scan. *)

From S2P Require Import Prelude Step Utf8 BTree Errors Limits Validation Bounds Values Extension Serialization Event State Tables Queries Paging RowHydration Claims External Overlay Others Instants Leases MyError My MyInsert MyBackend MyHydrate MyRows MySchema MyMutation MyLifecycle MyClaim MyEnqueue MyPage MyCanonical MyImport MyFinalize.

Module TenantDovecote.
Record t : Type := Make { tenant_id : TenantId.t }.

Section Ops.
Context `{SerdeJson, Base64, MimeLib, FluentUri, RustDebug, MyEnv, MyServer, MyCatalogEnv}.
Context (tenant_baseline_sql : string).

Definition new (tenant_id : TenantId.t) : t := Make tenant_id.

Definition enqueue (self : t) (event : NewEvent.t) : M (Result EnqueueOutcome.t EnqueueError.t) :=
  enqueue_for_scope tenant_baseline_sql (tenant_id self) event.
Definition import_for_migration (self : t) (event : NewEvent.t) (state : ImportedDeliveryState.t) :
    M (Result ImportOutcome.t ImportError.t) :=
  import_for_scope tenant_baseline_sql (tenant_id self) event state.
Definition finalize_pending_delivery_for_migration (self : t) (row_id : RowId.t)
    (delivered_at : OffsetDateTime) : M (Result FinalizeOutcome.t FinalizeError.t) :=
  finalize_for_scope tenant_baseline_sql (tenant_id self) row_id delivered_at.

Definition page (self : t) (after_row_id : option RowId.t) (limit : Limit.t) :
    M (Result (list PagedEvent.t) PageError.t) :=
  page_for_scope (Some (tenant_id self)) after_row_id limit.
Definition begin_snapshot (self : t) : M (Result SnapshotPager.t PageError.t) :=
  begin_snapshot_for_scope (Some (tenant_id self)).

Definition claim (fuel : nat) (self : t) (worker : WorkerId.t) (lease_for : Lease.t) (limit : Limit.t) :
    M (Result (list ClaimedEvent.t) ClaimError.t) :=
  claim_for_scope fuel (Some (tenant_id self)) worker lease_for limit.
Definition renew (self : t) (row_id : RowId.t) (token : ClaimToken.t) (lease_for : Lease.t) :
    M (Result unit MutationError.t) :=
  renew_for_scope (Some (tenant_id self)) row_id token lease_for.
Definition ack (self : t) (row_id : RowId.t) (token : ClaimToken.t) :
    M (Result unit MutationError.t) :=
  ack_for_scope (Some (tenant_id self)) row_id token.
Definition retry (self : t) (row_id : RowId.t) (token : ClaimToken.t) (failure : Failure.t)
    (backoff : Delay.t) : M (Result unit MutationError.t) :=
  retry_for_scope (Some (tenant_id self)) row_id token failure backoff.
Definition release (self : t) (row_id : RowId.t) (token : ClaimToken.t) (delay : Delay.t) :
    M (Result unit MutationError.t) :=
  release_for_scope (Some (tenant_id self)) row_id token delay.
Definition quarantine (self : t) (row_id : RowId.t) (token : ClaimToken.t)
    (reason : QuarantineReason.t) : M (Result unit MutationError.t) :=
  quarantine_for_scope (Some (tenant_id self)) row_id token reason.
End Ops.
End TenantDovecote.

Module AdminDovecote.
Record t : Type := Make { }.

Section Ops.
Context `{SerdeJson, Base64, MimeLib, FluentUri, RustDebug, MyEnv, MyServer, MyCatalogEnv}.
Context (tenant_baseline_sql : string).

Definition new : t := Make.

Definition enqueue (_ : t) (tenant_id : TenantId.t) (event : NewEvent.t) :
    M (Result EnqueueOutcome.t EnqueueError.t) :=
  enqueue_for_scope tenant_baseline_sql tenant_id event.
Definition import_for_migration (_ : t) (tenant_id : TenantId.t) (event : NewEvent.t)
    (state : ImportedDeliveryState.t) : M (Result ImportOutcome.t ImportError.t) :=
  import_for_scope tenant_baseline_sql tenant_id event state.
Definition finalize_pending_delivery_for_migration (_ : t) (tenant_id : TenantId.t)
    (row_id : RowId.t) (delivered_at : OffsetDateTime) :
    M (Result FinalizeOutcome.t FinalizeError.t) :=
  finalize_for_scope tenant_baseline_sql tenant_id row_id delivered_at.

Definition page (_ : t) (after_row_id : option RowId.t) (limit : Limit.t) :
    M (Result (list PagedEvent.t) PageError.t) := page_for_scope None after_row_id limit.
Definition begin_snapshot (_ : t) : M (Result SnapshotPager.t PageError.t) :=
  begin_snapshot_for_scope None.
Definition claim (fuel : nat) (_ : t) (worker : WorkerId.t) (lease_for : Lease.t) (limit : Limit.t) :
    M (Result (list ClaimedEvent.t) ClaimError.t) := claim_for_scope fuel None worker lease_for limit.

Definition renew (_ : t) (tenant_id : TenantId.t) (row_id : RowId.t) (token : ClaimToken.t)
    (lease_for : Lease.t) : M (Result unit MutationError.t) :=
  renew_for_scope (Some tenant_id) row_id token lease_for.
Definition ack (_ : t) (tenant_id : TenantId.t) (row_id : RowId.t) (token : ClaimToken.t) :
    M (Result unit MutationError.t) := ack_for_scope (Some tenant_id) row_id token.
Definition retry (_ : t) (tenant_id : TenantId.t) (row_id : RowId.t) (token : ClaimToken.t)
    (failure : Failure.t) (backoff : Delay.t) : M (Result unit MutationError.t) :=
  retry_for_scope (Some tenant_id) row_id token failure backoff.
Definition release (_ : t) (tenant_id : TenantId.t) (row_id : RowId.t) (token : ClaimToken.t)
    (delay : Delay.t) : M (Result unit MutationError.t) :=
  release_for_scope (Some tenant_id) row_id token delay.
Definition quarantine (_ : t) (tenant_id : TenantId.t) (row_id : RowId.t) (token : ClaimToken.t)
    (reason : QuarantineReason.t) : M (Result unit MutationError.t) :=
  quarantine_for_scope (Some tenant_id) row_id token reason.
End Ops.
End AdminDovecote.

Module MySqlDovecote.
Record t : Type := Make { }.

Section Ops.
Context `{RustDebug, MyEnv, MyServer, MyCatalogEnv}.
Context (tenant_baseline_sql : string).

Definition new : t := Make.
Definition for_tenant (_ : t) (tenant : TenantId.t) : TenantDovecote.t := TenantDovecote.new tenant.
Definition admin (_ : t) : AdminDovecote.t := AdminDovecote.new.
Definition check_schema (_ : t) : M (Result unit SchemaError.t) :=
  MySchema.check_schema tenant_baseline_sql.
Definition backend_info (_ : t) : M (Result BackendInfo.t SchemaError.t) := MyBackend.detect.
End Ops.
End MySqlDovecote.

(** ** Tenant isolation *)

(** The mutations of a tenant's handle. *)
Inductive tenant_mutation `{RustDebug, MyEnv, MyServer} (self : TenantDovecote.t) :
    M (Result unit MutationError.t) -> Prop :=
  | mutation_renew row_id token lease_for :
      tenant_mutation self (TenantDovecote.renew self row_id token lease_for)
  | mutation_ack row_id token : tenant_mutation self (TenantDovecote.ack self row_id token)
  | mutation_retry row_id token failure backoff :
      tenant_mutation self (TenantDovecote.retry self row_id token failure backoff)
  | mutation_release row_id token delay :
      tenant_mutation self (TenantDovecote.release self row_id token delay)
  | mutation_quarantine row_id token reason :
      tenant_mutation self (TenantDovecote.quarantine self row_id token reason).

Section Isolation.
Context `{SerdeJson, Base64, MimeLib, FluentUri, RustDebug, MyEnv, MyServer, MyCatalogEnv}.
Context {TL : TimeLaws} {IL : InstantColumnLaws} {EL : MyErrorLaws}.
Context (sql : string) (self : TenantDovecote.t).
Context (Hisolated : isolated) (Happend : append_only).

Let tenant := TenantId.as_str (TenantDovecote.tenant_id self).

Definition of_tenant (ev : ClaimedEvent.t) : Prop :=
  TenantId.as_str (ClaimedEvent.tenant_id ev) = tenant.

Lemma my_claimed_confined worker lease_for limit w evs dbf :
  claimed_on (Some (TenantDovecote.tenant_id self)) worker lease_for limit w evs dbf ->
  confined tenant (committed w) dbf /\ Forall of_tenant evs.
Proof.
  intros (w1 & ds & db2 & Hb & Hd & Hwf & Hstay & -> & _). destruct Hb as [_ _ Hent Hdue _ _ _].
  assert (Hown : forall ev, ev ∈ evs -> exists d, d ∈ deliveries db2 /\
            RowId.get (ClaimedEvent.row_id ev) = Deliveries.event_row_id d /\
            TenantId.as_str (ClaimedEvent.tenant_id ev) = Deliveries.tenant_id d /\
            Deliveries.tenant_id d = tenant).
  { intros ev Hev. apply list_elem_of_lookup in Hev as [i Hi].
    destruct (Forall2_lookup_r _ _ _ _ _ Hent Hi) as (d & Hdi & n & db & _ & _ & _ & _ & _ & []).
    exists d. apply list_elem_of_lookup_2 in Hdi. split; [by apply Hstay|].
    rewrite Forall_forall in Hdue. destruct (Hdue _ Hdi) as [Hs _]. by split_and!. }
  split.
  - apply confined_claims; [done..|].
    intros ev Hev. destruct (Hown ev Hev) as (d & ? & ? & _ & ?). by exists d.
  - apply Forall_forall. intros ev Hev. unfold of_tenant.
    by destruct (Hown ev Hev) as (d & _ & _ & -> & ->).
Qed.

Lemma my_claim_confined fuel worker lease_for limit w r w' :
  closed w -> TenantDovecote.claim fuel self worker lease_for limit w = Some (r, w') ->
  confined tenant (committed w) (committed w') /\
  match r with Ok evs => Forall of_tenant evs | Err _ => True end.
Proof.
  intros Hc Hr. destruct (my_claim_run Hisolated _ _ _ _ _ _ _ _ Hc Hr) as [_ Hx].
  destruct r as [evs|e]; [by eapply my_claimed_confined|]. split; [|done].
  destruct Hx as [Hd|(source & evs & _ & Hon)]; [by apply during_confined|].
  by apply my_claimed_confined in Hon as [? _].
Qed.

Lemma my_mutated_confined row_id token mutation w dbf :
  mutated_on (Some (TenantDovecote.tenant_id self)) row_id token mutation w dbf ->
  confined tenant (committed w) dbf.
Proof.
  intros (n & db & d & d' & Hd & Hwf & Hin & Hf & Ha & -> & _).
  unfold fenced, row_in_scope, in_scope in Hf. cbn in Hf.
  rewrite !andb_true_iff, bool_decide_eq_true, Z.eqb_eq in Hf. destruct Hf as ((([Hkd Htd] & _) & _) & _).
  eapply confined_row; [done..|]. destruct Ha as (? & later & _ & _ & ->).
  by rewrite (proj2 (my_assign_keeps_key mutation (utc_timestamp n) later d)).
Qed.

Lemma my_mutation_confined m w r w' :
  closed w -> tenant_mutation self m -> m w = Some (r, w') ->
  confined tenant (committed w) (committed w').
Proof.
  intros Hc Hm Hr.
  assert (Hx : exists row_id token mutation,
            m = mutate (Some (TenantDovecote.tenant_id self)) row_id token mutation)
    by (destruct Hm; by do 3 eexists).
  destruct Hx as (row_id & token & mutation & ->).
  destruct (my_mutation_run Hisolated (Some (TenantDovecote.tenant_id self)) row_id token mutation w Hc)
    as (r1 & w1 & Hr1 & _ & Hres). rewrite Hr in Hr1. injection Hr1 as <- <-.
  destruct r as [[]|e]; [by eapply my_mutated_confined|].
  destruct Hres as [[Hd _]|(source & _ & Hon)]; [by apply during_confined|].
  by eapply my_mutated_confined.
Qed.

Lemma my_page_confined after limit w r w' :
  closed w -> 0 <= Limit.get limit -> TenantDovecote.page self after limit w = Some (r, w') ->
  during [] (committed w) (committed w') /\
  match r with Ok pages => Forall (fun p => TenantId.as_str (PagedEvent.tenant_id p) = tenant) pages
             | Err _ => True end.
Proof.
  intros Hc Hl Hr.
  destruct (my_live_page_run Hisolated (Some (TenantDovecote.tenant_id self)) after limit w Hc Hl)
    as (r1 & w1 & Hr1 & Hc' & Hd & Hx). unfold TenantDovecote.page in Hr. rewrite Hr in Hr1.
  injection Hr1 as <- <-. split; [done|]. destruct r as [pages|]; [|done].
  destruct Hx as [Hp _ _ _]. eapply page_rows_tenant; [|apply Hc'|exact Hp].
  intros c p Hcp. apply my_hydrate_page_row_id in Hcp as [_ Hcp]. by apply TenantId_new_as_str.
Qed.

(** The row versions the transaction gained are the tenant's, if it goes on. *)
Definition writes_own (t : Txn) (w w' : World) : Prop :=
  during (own_locks (own t)) (committed w) (committed w') /\
  exists t', stopped w' t' /\
    exists es ds, own_events (own t') = own_events (own t) ++ es /\
      own_deliveries (own t') = own_deliveries (own t) ++ ds /\
      Forall (fun e => Events.tenant_id e = tenant) es /\
      Forall (fun d => Deliveries.tenant_id d = tenant) ds.

Lemma my_writes t t' es ds keys w w' :
  during (own_locks (own t)) (committed w) (committed w') -> stopped w' t' ->
  own t' = own_app (own t) (MkOwn es ds keys) ->
  Forall (fun e => Events.tenant_id e = tenant) es ->
  Forall (fun d => Deliveries.tenant_id d = tenant) ds -> writes_own t w w'.
Proof.
  intros Hd Hs Hown He Hdl. split; [done|]. exists t'. split; [done|]. exists es, ds.
  by rewrite Hown.
Qed.

Lemma my_writes_nothing t t' w w' :
  during (own_locks (own t)) (committed w) (committed w') -> stopped w' t' ->
  own_events (own t') = own_events (own t) -> own_deliveries (own t') = own_deliveries (own t) ->
  writes_own t w w'.
Proof.
  intros Hd Hs He Hdl. split; [done|]. exists t'. split; [done|]. exists [], [].
  by rewrite !app_nil_r.
Qed.

Lemma my_writes_locks t t' keys w w' :
  during (own_locks (own t)) (committed w) (committed w') -> open_past w' t' ->
  own t' = own_app (own t) (MkOwn [] [] keys) -> writes_own t w w'.
Proof. intros Hd [Hs _] Hown. by apply (my_writes _ t' [] [] keys); [|left|..]. Qed.

Lemma my_transaction_confined event state row_id delivered_at w t w' :
  option_all portable_instant (EventContent.time (NewEvent.content event)) -> open_past w t ->
  (exists r, TenantDovecote.enqueue sql self event w = Some (r, w')) \/
  (exists r, TenantDovecote.import_for_migration sql self event state w = Some (r, w')) \/
  (exists r, TenantDovecote.finalize_pending_delivery_for_migration sql self row_id delivered_at w
             = Some (r, w')) ->
  writes_own t w w'.
Proof.
  intros Hport Ho [[r Hr]|[[r Hr]|[r Hr]]].
  - destruct (my_enqueue_run _ _ _ Hisolated Happend Hport _ _ _ _ Ho Hr) as [Hd Hx].
    destruct r as [[id|id]|[]];
      try (destruct Hx as (t' & Hs & [Hown|(k & now & Hown)]);
           [by eapply my_writes_nothing; [..|rewrite Hown|rewrite Hown]
           |by eapply my_writes; [..|exact Hown|apply Forall_singleton|constructor]]).
    + destruct Hx as (_ & _ & t' & [Hs _] & Hown).
      by eapply my_writes; [|left|exact Hown|apply Forall_singleton|apply Forall_singleton].
    + destruct Hx as (t' & Hown & [Hs _] & _). by eapply my_writes_nothing; [|left|rewrite Hown..].
    + destruct Hx as (t' & Hown & [Hs _] & _). by eapply my_writes_nothing; [|left|rewrite Hown..].
  - destruct (my_import_run _ _ _ _ Hisolated Happend Hport _ _ _ _ Ho Hr) as [Hd Hx].
    destruct r as [[id|id]|[]];
      try (destruct Hx as (t' & Hs & [Hown|(k & now & Hown)]);
           [by eapply my_writes_nothing; [..|rewrite Hown|rewrite Hown]
           |by eapply my_writes; [..|exact Hown|apply Forall_singleton|constructor]]).
    + destruct Hx as (n & _ & _ & t' & [Hs _] & Hown).
      by eapply my_writes; [|left|exact Hown|apply Forall_singleton|apply Forall_singleton].
    + destruct Hx as (t' & Hs & Hown & _). by eapply my_writes_locks.
    + destruct Hx as (t' & [Hs _] & Hown & _). by eapply my_writes_nothing; [|left|rewrite Hown..].
    + destruct Hx as (t' & Hs & Hown & _). by eapply my_writes_locks.
  - destruct (my_finalize_run _ _ _ _ Hisolated Happend _ _ _ _ Ho Hr) as [Hd Hx].
    destruct r as [[id|id]|[]]; try (destruct Hx as (t' & Hs & He & Hdl); by eapply my_writes_nothing).
    + destruct Hx as (_ & e & d & _ & _ & _ & _ & _ & t' & [Hs _] & Hown).
      by eapply my_writes; [|left|exact Hown|constructor|apply Forall_singleton].
    + destruct Hx as (_ & (t' & Hs & Hown) & _). by eapply my_writes_locks.
    + destruct Hx as ((t' & [Hs _] & Hown) & _). by eapply my_writes_nothing; [|left|rewrite Hown..].
    + destruct Hx as (_ & (t' & Hs & Hown) & _). by eapply my_writes_locks.
    + destruct Hx as [-> _]. by eapply my_writes_nothing; [|left; apply Ho|..].
Qed.

(** C15: a MySQL tenant's handle never touches another tenant. Whatever a claim or a
    mutation of the handle does, and however it fails, also when the answer to its
    COMMIT is lost, the rows of every other tenant stay exactly what other
    connections made them; every claim and every page the handle returns belongs to
    its tenant; and the row versions that enqueue, import and finalization add to
    the caller's transaction are the tenant's. *)
Theorem my_tenant_isolation w :
  (closed w ->
     (forall fuel worker lease_for limit r w',
        TenantDovecote.claim fuel self worker lease_for limit w = Some (r, w') ->
        confined tenant (committed w) (committed w') /\
        match r with Ok evs => Forall of_tenant evs | Err _ => True end) /\
     (forall m r w', tenant_mutation self m -> m w = Some (r, w') ->
        confined tenant (committed w) (committed w')) /\
     (forall after limit r w', 0 <= Limit.get limit ->
        TenantDovecote.page self after limit w = Some (r, w') ->
        during [] (committed w) (committed w') /\
        match r with
        | Ok pages => Forall (fun p => TenantId.as_str (PagedEvent.tenant_id p) = tenant) pages
        | Err _ => True
        end)) /\
  (forall t event state row_id delivered_at w', open_past w t ->
     option_all portable_instant (EventContent.time (NewEvent.content event)) ->
     (exists r, TenantDovecote.enqueue sql self event w = Some (r, w')) \/
     (exists r, TenantDovecote.import_for_migration sql self event state w = Some (r, w')) \/
     (exists r, TenantDovecote.finalize_pending_delivery_for_migration sql self row_id delivered_at w
                = Some (r, w')) ->
     writes_own t w w').
Proof.
  split.
  - intros Hc. split; [|split]; intros.
    + by eapply my_claim_confined.
    + by eapply my_mutation_confined.
    + by eapply my_page_confined.
  - intros t event state row_id delivered_at w' Ho Hport Hr. by eapply my_transaction_confined.
Qed.
End Isolation.
