(* ===== verification/Concrete.v ===== *)
(** * A computing instance of everything the code calls

    Each class of parameters of the development gets an instance that
    evaluates, and each class of laws is proved of it, so that no theorem rests
    on laws nothing satisfies and every witness can be computed.  Instants are
    Unix nanoseconds, time texts a second count of twelve digits with an
    optional fraction, JSON texts a binary code of the value, Base64 a
    hexadecimal code; the engine never fails, its clock advances a millisecond
    with each statement, and nobody else writes or holds locks. *)

From stdpp Require Import countable.
From S2P Require Import Prelude Step Utf8 Text BTree Errors Limits Validation Bounds Serialization Tables Queries RowHydration Contract Overlay Others Instants Hydrate External SqliteError Sqlite.

(** ** Decimal digits *)

Definition digit (z : Z) : ascii := byte_of (48 + z).

(** [z] in exactly [w] decimal digits *)
Fixpoint fixed (w : nat) (z : Z) : string :=
  match w with
  | O => EmptyString
  | S w => fixed w (z / 10) +:+ String (digit (z mod 10)) EmptyString
  end.

Section Digits.

Lemma byte_val_digit d : 0 <= d < 10 -> byte_val (digit d) = 48 + d.
Proof.
  intros Hd. unfold byte_val, digit, byte_of. rewrite N_ascii_embedding by lia. lia.
Qed.

Lemma fixed_len w z : len (fixed w z) = Z.of_nat w.
Proof.
  revert z. induction w as [|w IH]; intros z; cbn [fixed]; [done|]. rewrite len_app, IH.
  change (len (String _ _)) with 1. lia.
Qed.

Lemma fixed_digits w z : all_bytes is_ascii_digit (fixed w z) = true.
Proof.
  revert z. induction w as [|w IH]; intros z; cbn [fixed]; [done|]. rewrite all_bytes_app, IH.
  cbn [all_bytes andb]. unfold is_ascii_digit, in_range.
  rewrite byte_val_digit by (apply Z.mod_pos_bound; lia).
  pose proof (Z.mod_pos_bound z 10 eq_refl). rewrite !(proj2 (Z.leb_le _ _)) by lia. done.
Qed.

(** The digits denote the number modulo their count. *)
Lemma fixed_mod w z : digits_value 0 (fixed w z) = z mod 10 ^ Z.of_nat w.
Proof.
  revert z. induction w as [|w IH]; intros z; cbn [fixed]; [by rewrite Z.mod_1_r|].
  rewrite Nat2Z.inj_succ, Z.pow_succ_r by lia.
  rewrite digits_value_app, IH. cbn [digits_value]. unfold digit_val.
  rewrite byte_val_digit by (apply Z.mod_pos_bound; lia).
  rewrite Z.rem_mul_r by (try apply Z.pow_nonzero; lia). lia.
Qed.

Lemma fixed_value w z : 0 <= z < 10 ^ Z.of_nat w -> digits_value 0 (fixed w z) = z.
Proof. intros Hz. rewrite fixed_mod. by apply Z.mod_small. Qed.

Lemma all_digits_no_byte c s :
  is_ascii_digit c = false -> all_bytes is_ascii_digit s = true -> no_byte c s = true.
Proof.
  intros Hc. unfold no_byte. apply all_bytes_impl. intros a Ha.
  apply negb_true_iff, Ascii.eqb_neq. intros ->. congruence.
Qed.

Lemma compare_app s1 s2 t1 t2 :
  len s1 = len s2 ->
  String.compare (s1 +:+ t1) (s2 +:+ t2)
  = match String.compare s1 s2 with Eq => String.compare t1 t2 | c => c end.
Proof.
  revert s2. induction s1 as [|a s1 IH]; intros [|b s2] Hl; unfold len in Hl; simpl in Hl; try lia.
  - by rewrite !str_app_nil_l.
  - rewrite !str_app_cons. simpl. rewrite IH by (unfold len; lia). by destruct (Ascii.compare a b).
Qed.

Lemma compare_fixed w a b :
  0 <= a < 10 ^ Z.of_nat w -> 0 <= b < 10 ^ Z.of_nat w ->
  String.compare (fixed w a) (fixed w b) = Z.compare a b.
Proof.
  revert a b. induction w as [|w IH]; intros a b Ha Hb; cbn [fixed].
  { simpl in *. replace a with b by lia. by rewrite Z.compare_refl. }
  rewrite Nat2Z.inj_succ, Z.pow_succ_r in Ha, Hb by lia.
  rewrite compare_app, IH by (rewrite ?fixed_len; euclid).
  pose proof (byte_val_digit (a mod 10) (Z.mod_pos_bound a 10 eq_refl)) as Hda.
  pose proof (byte_val_digit (b mod 10) (Z.mod_pos_bound b 10 eq_refl)) as Hdb.
  unfold byte_val in *. simpl. unfold Ascii.compare. rewrite <- N2Z.inj_compare, Hda, Hdb.
  destruct (Z.compare_spec (a / 10) (b / 10)), (Z.compare_spec (48 + a mod 10) (48 + b mod 10)),
    (Z.compare_spec a b); try done; exfalso; euclid.
Qed.

Lemma fixed_distinct w i j :
  0 <= i < 10 ^ Z.of_nat w -> 0 <= j < 10 ^ Z.of_nat w -> fixed w i = fixed w j -> i = j.
Proof.
  intros Hi Hj He. apply (f_equal (digits_value 0)) in He. by rewrite !fixed_value in He.
Qed.

(** Sixteen digits do not repeat within ten quadrillion draws. *)
Lemma fixed_draws k n i j :
  Z.of_nat (k + n) <= 10000000000000000 -> (k <= i < k + n)%nat -> (k <= j < k + n)%nat ->
  fixed 16 (Z.of_nat i) = fixed 16 (Z.of_nat j) -> i = j.
Proof.
  intros Hn Hi Hj He. apply Nat2Z.inj. apply (fixed_distinct 16); [..|exact He];
    change (10 ^ Z.of_nat 16) with 10000000000000000; lia.
Qed.
End Digits.

(** ** Instants and their texts *)

Record Instant := MkInstant { nanos : Z; offset_seconds : Z }.

Definition whole_text (sec : Z) : string := fixed 12 sec.

Definition is_whole (s : string) : bool := all_bytes is_ascii_digit s && (len s =? 12).

Definition instant_format (t : Instant) : option string :=
  let ns := nanos t mod 1000000000 in
  Some (whole_text (nanos t / 1000000000)
        +:+ (if ns =? 0 then "Z" else "." +:+ fixed 9 ns +:+ "Z")).

Definition instant_parse (s : string) : Result Instant string :=
  match strip_suffix "Z" s with
  | None => Err "the text has no offset"
  | Some body =>
      match split_once "." body with
      | None => if is_whole body then Ok (MkInstant (digits_value 0 body * 1000000000) 0)
                else Err "the text has no date"
      | Some (w, d) =>
          if is_whole w && is_fraction d
          then Ok (MkInstant (digits_value 0 w * 1000000000 + frac_nanos d) 0)
          else Err "the text has no date or no fraction"
      end
  end.

#[global] Instance concrete_time : TimeLib := {|
  OffsetDateTime := Instant;
  unix_nanos := nanos;
  utc_offset := offset_seconds;
  nanosecond t := nanos t mod 1000000000;
  to_utc t := MkInstant (nanos t) 0;
  rfc3339_format := instant_format;
  rfc3339_parse := instant_parse;
  rfc3339_whole := whole_text;
|}.

#[global] Instance concrete_time_laws : TimeLaws.
Proof. constructor; try done. intros [a x] [b y]. simpl. by intros -> ->. Qed.

Section TimeText.

Lemma whole_text_ok sec :
  0 <= sec <= max_second ->
  is_whole (whole_text sec) = true /\ no_byte "." (whole_text sec) = true /\
  digits_value 0 (whole_text sec) = sec.
Proof.
  intros Hs. unfold is_whole, whole_text. rewrite fixed_digits, fixed_len.
  split_and!; [done|by apply all_digits_no_byte, fixed_digits|].
  apply fixed_value. unfold max_second in Hs. split; [lia|].
  change (10 ^ Z.of_nat 12) with 1000000000000. lia.
Qed.

Lemma parse_whole_text sec :
  0 <= sec <= max_second ->
  instant_parse (whole_text sec +:+ "Z") = Ok (MkInstant (sec * 1000000000) 0).
Proof.
  intros Hs. destruct (whole_text_ok sec Hs) as (Hw & Hd & Hv). unfold instant_parse.
  rewrite strip_suffix_app. apply split_once_None in Hd. by rewrite Hd, Hw, Hv.
Qed.

Lemma parse_fraction_text sec d :
  0 <= sec <= max_second -> is_fraction d = true ->
  instant_parse (whole_text sec +:+ "." +:+ d +:+ "Z")
  = Ok (MkInstant (sec * 1000000000 + frac_nanos d) 0).
Proof.
  intros Hs Hf. destruct (whole_text_ok sec Hs) as (Hw & Hd & Hv). unfold instant_parse.
  rewrite <- (str_app_assoc "." d), <- str_app_assoc, strip_suffix_app, str_app_cons, str_app_nil_l.
  by rewrite split_once_app, Hw, Hf, Hv by done.
Qed.

Lemma fraction_fixed9 ns :
  0 <= ns < 1000000000 -> is_fraction (fixed 9 ns) = true /\ frac_nanos (fixed 9 ns) = ns.
Proof.
  intros Hn. unfold is_fraction, frac_nanos. rewrite fixed_digits, fixed_len, fixed_value by done.
  split; [done|]. change (10 ^ (9 - Z.of_nat 9)) with 1. lia.
Qed.
End TimeText.

#[global] Instance concrete_time_text_laws : TimeTextLaws.
Proof.
  constructor; simpl.
  - intros t _ Ht. unfold instant_format.
    destruct (Z.eqb_spec (nanos t mod 1000000000) 0) as [Hz|Hz]; [by left|right].
    destruct (fraction_fixed9 (nanos t mod 1000000000)); [apply Z.mod_pos_bound; lia|]. eauto.
  - intros sec Hs. by apply whole_text_ok.
  - intros sec Hs. eexists. by rewrite parse_whole_text.
  - intros sec d Hs Hd. eexists. by rewrite parse_fraction_text.
Qed.

(** ** The engine's millisecond texts *)

Definition millis_fraction (ms : Z) : string := fixed 3 (ms mod 1000) +:+ "000".

(** [+S.mmm seconds] back to milliseconds *)
Definition modifier_millis (m : string) : option Z :=
  match m with
  | String _ m =>
      match split_once "." m with
      | Some (s, r) =>
          match split_once " " r with
          | Some (f, _) => Some (digits_value 0 s * 1000 + digits_value 0 f)
          | None => None
          end
      | None => None
      end
  | EmptyString => None
  end.

#[global] Instance concrete_sqlite_time : SqliteTime := {|
  millis_text ms := whole_text (ms / 1000) +:+ "." +:+ millis_fraction ms +:+ "Z";
|}.

(** The text of an instant moved by a modifier, SQL NULL where either does not
    parse. *)
Definition concrete_strftime (text modifier : string) : option string :=
  match instant_parse text, modifier_millis modifier with
  | Ok t, Some d => Some (millis_text (nanos t / 1000000 + d))
  | _, _ => None
  end.

Section MillisText.

Lemma millis_fraction_ok ms :
  is_fraction (millis_fraction ms) = true /\
  frac_nanos (millis_fraction ms) = ms mod 1000 * 1000000.
Proof.
  pose proof (Z.mod_pos_bound ms 1000 eq_refl) as Hm. unfold is_fraction, frac_nanos, millis_fraction.
  rewrite all_bytes_app, fixed_digits, len_app, fixed_len, digits_value_app, fixed_value by done.
  split; [done|]. change (len "000") with 3. change (10 ^ (9 - (Z.of_nat 3 + 3))) with 1000.
  cbn [digits_value]. change (digit_val "0") with 0. lia.
Qed.

Lemma concrete_parse_millis ms :
  0 <= ms <= max_millis ->
  instant_parse (millis_text ms) = Ok (MkInstant (ms * 1000000) 0).
Proof.
  intros Hms. destruct (millis_fraction_ok ms) as [Hf Hv]. simpl.
  rewrite parse_fraction_text; [|unfold max_millis, max_second in *; euclid|done].
  rewrite Hv. do 2 f_equal. euclid.
Qed.

Lemma pad3_digits z :
  0 <= z -> all_bytes is_ascii_digit (pad3 z) = true /\ digits_value 0 (pad3 z) = z.
Proof.
  intros Hz. destruct (pretty_digits z Hz) as [Hd Hv]. unfold pad3.
  do 2 (case_match; [by rewrite all_bytes_app, digits_value_app|]). done.
Qed.

Lemma modifier_millis_seconds d : 0 <= d -> modifier_millis (seconds_modifier d) = Some d.
Proof.
  intros Hd. unfold seconds_modifier.
  destruct (pretty_digits (Z.quot d 1000)) as [Hs Hsv]; [apply Z.quot_pos; lia|].
  destruct (pad3_digits (Z.rem d 1000)) as [Hf Hfv]; [apply Z.rem_nonneg; lia|].
  rewrite str_app_cons, str_app_nil_l. cbn [modifier_millis].
  rewrite (str_app_cons "." EmptyString), str_app_nil_l, split_once_app by by apply all_digits_no_byte.
  change (" seconds") with (String " " "seconds").
  rewrite split_once_app by by apply all_digits_no_byte. rewrite Hsv, Hfv. f_equal.
  rewrite Z.quot_div_nonneg, Z.rem_mod_nonneg by lia. euclid.
Qed.

Lemma millis_text_compare a b :
  0 <= a <= max_millis -> 0 <= b <= max_millis ->
  String.compare (millis_text a) (millis_text b) = Z.compare a b.
Proof.
  intros Ha Hb. unfold max_millis in *.
  cbn [millis_text concrete_sqlite_time]. unfold whole_text, millis_fraction.
  rewrite compare_app, compare_fixed by (rewrite ?fixed_len; change (10 ^ Z.of_nat 12) with 1000000000000; euclid).
  rewrite compare_app by done. change (String.compare "." ".") with Eq. cbv iota.
  rewrite !str_app_assoc, compare_app, compare_fixed
    by (rewrite ?fixed_len; change (10 ^ Z.of_nat 3) with 1000; euclid).
  rewrite compare_refl.
  destruct (Z.compare_spec (a / 1000) (b / 1000)), (Z.compare_spec (a mod 1000) (b mod 1000)),
    (Z.compare_spec a b); try done; exfalso; euclid.
Qed.

Lemma millis_text_order a b :
  0 <= a <= max_millis -> 0 <= b <= max_millis ->
  String.leb (millis_text a) (millis_text b) = (a <=? b).
Proof. intros Ha Hb. unfold String.leb. by rewrite millis_text_compare. Qed.

Lemma concrete_strftime_add ms d :
  0 <= ms -> 0 <= d -> ms + d <= max_millis ->
  concrete_strftime (millis_text ms) (seconds_modifier d) = Some (millis_text (ms + d)).
Proof.
  intros Hms Hd Hmax. unfold concrete_strftime.
  rewrite concrete_parse_millis, modifier_millis_seconds by lia. cbn [nanos].
  by rewrite Z.div_mul by lia.
Qed.
End MillisText.

(** ** Columns of microseconds, and nobody else on the servers *)

#[global] Instance concrete_column : InstantColumn := {|
  encode_instant t := nanos t / 1000;
  decode_instant z := MkInstant (1000 * z) 0;
|}.

#[global] Instance concrete_column_laws : InstantColumnLaws.
Proof.
  constructor; try done.
  - intros t [_ Ht]. simpl in *. euclid.
  - intros z. simpl. by rewrite Z.mul_comm, Z.div_mul.
Qed.

#[global] Instance concrete_others : Others := {|
  others_commit _ _ db := db;
  others_lock _ _ := [];
|}.

(** Nobody else writes. *)
Lemma concrete_isolated : isolated.
Proof. intros n o db Hwf Hv. by constructor. Qed.

Lemma during_concrete keys db db' : during keys db db' -> db' = db.
Proof. by induction 1. Qed.

(** Other connections that try the actions of a script, and give way: they commit
    what the script has for a statement when all of it is enabled beside the
    transaction, and nothing otherwise. *)
Section Polite.
Context (script : nat -> list (action Z)).

Definition touches_bool (a : action Z) (k : Z) : bool :=
  match a with
  | Insert e _ => k =? Events.row_id e
  | Claim _ _ _ grants => bool_decide (is_Some (grant grants k))
  | Mutate key _ _ _ | Finalize key _ => k =? key
  end.

Definition beside_bool (o : Own Z) (a : action Z) (db : Db) : bool :=
  forallb (fun k => negb (touches_bool a k)) (own_locks o)
  && match a with
     | Insert e _ => negb (bool_decide (Events.row_id e ∈ event_keys (overlay o db)))
         && negb (bool_decide (event_identity e ∈ map event_identity (events (overlay o db))))
     | _ => true
     end.

Fixpoint polite_run (o : Own Z) (acts : list (action Z)) (db : Db) : option Db :=
  match acts with
  | [] => Some db
  | a :: acts => if beside_bool o a db && enabled a db then polite_run o acts (perform a db) else None
  end.

#[local] Instance polite_others : Others := {|
  others_commit n o db := match polite_run o (script n) db with Some db' => db' | None => db end;
  others_lock _ _ := [];
|}.

Lemma touches_bool_spec a k : touches_bool a k = true <-> touches a k.
Proof. destruct a; simpl; rewrite ?Z.eqb_eq, ?bool_decide_eq_true; done. Qed.

Lemma beside_bool_spec o a db : beside_bool o a db = true -> beside o a db.
Proof.
  unfold beside_bool. rewrite andb_true_iff, forallb_forall. intros [Hl Hf]. constructor.
  - intros k Hk Ht. apply touches_bool_spec in Ht. apply list_elem_of_In, Hl in Hk. by rewrite Ht in Hk.
  - intros e delivered ->. rewrite andb_true_iff, !negb_true_iff, !bool_decide_eq_false in Hf. done.
Qed.

Lemma polite_run_spec o acts db db' :
  polite_run o acts db = Some db' -> run acts db = Some db' /\ all_beside o acts db.
Proof.
  revert db. induction acts as [|a acts IH]; intros db; simpl; [by intros [= ->]|].
  destruct (beside_bool o a db) eqn:Eb; [|done]. destruct (enabled a db); [|done]. simpl. intros Hr.
  apply IH in Hr as [? ?]. by apply beside_bool_spec in Eb.
Qed.

(** They keep the contract, whatever the script says. *)
Lemma polite_keep_contract : keep_contract.
Proof.
  intros n o db _ _. simpl. destruct (polite_run o (script n) db) as [db'|] eqn:E.
  - exists (script n). by apply polite_run_spec.
  - by exists [].
Qed.
End Polite.

(** ** JSON *)

#[global] Instance concrete_number : JsonNumber := {|
  Number := Z;
  number_of_i32 z := z;
  number_as_i64 z := if in_range i64_min i64_max z then Some z else None;
|}.

#[global] Instance concrete_number_laws : JsonNumberLaws.
Proof.
  constructor. intros z Hz. simpl. unfold in_range, i64_min, i64_max, i32_min, i32_max in *.
  by rewrite !(proj2 (Z.leb_le _ _)) by lia.
Qed.

Abbreviation JsonTree := (gen_tree (string + Z)).

Fixpoint tree_of_value (v : Value) : JsonTree :=
  match v with
  | VNull => GenNode 0 []
  | VBool false => GenNode 1 []
  | VBool true => GenNode 2 []
  | VNumber n => GenLeaf (inr n)
  | VString s => GenLeaf (inl s)
  | VArray vs => GenNode 3 (map tree_of_value vs)
  | VObject m => GenNode 4 (map (fun e => GenNode 5 [GenLeaf (inl (fst e)); tree_of_value (snd e)]) m)
  end.

Fixpoint value_of_tree (t : JsonTree) : Value :=
  match t with
  | GenLeaf (inl s) => VString s
  | GenLeaf (inr n) => VNumber n
  | GenNode 1 _ => VBool false
  | GenNode 2 _ => VBool true
  | GenNode 3 ts => VArray (map value_of_tree ts)
  | GenNode 4 ts => VObject (map (fun t => match t with
                                           | GenNode _ [GenLeaf (inl k); t] => (k, value_of_tree t)
                                           | _ => (EmptyString, VNull)
                                           end) ts)
  | GenNode _ _ => VNull
  end.

Lemma value_of_tree_of_value v : value_of_tree (tree_of_value v) = v.
Proof.
  induction v as [|b|n|s|vs IH|m IH] using Value_ind_nested; simpl; try done.
  - by destruct b.
  - f_equal. rewrite map_map. induction IH as [|v vs Hv _ IHvs]; simpl; congruence.
  - f_equal. rewrite map_map. induction IH as [|[k v] m Hv _ IHm]; simpl in *; congruence.
Qed.

(** A text of zeros and ones for a binary code. *)
Fixpoint string_of_positive (p : positive) : string :=
  match p with
  | xH => EmptyString
  | xO p => String "0" (string_of_positive p)
  | xI p => String "1" (string_of_positive p)
  end.

Fixpoint positive_of_string (s : string) : positive :=
  match s with
  | EmptyString => xH
  | String a s => if Ascii.eqb a "1" then xI (positive_of_string s) else xO (positive_of_string s)
  end.

Lemma positive_of_string_of_positive p : positive_of_string (string_of_positive p) = p.
Proof. induction p; simpl; congruence. Qed.

Definition json_text (v : Value) : string := string_of_positive (encode (tree_of_value v)).
Definition json_value (s : string) : option Value :=
  option_map value_of_tree (decode (positive_of_string s)).

Lemma json_value_text v : json_value (json_text v) = Some v.
Proof.
  unfold json_value, json_text. rewrite positive_of_string_of_positive, countable.decode_encode. simpl.
  by rewrite value_of_tree_of_value.
Qed.

#[global] Instance concrete_serde : SerdeJson := {|
  json_from_str s := ok_or (json_value s) "expected value";
  json_to_string := json_text;
  json_to_vec m := Some (json_text (VObject m));
  json_from_slice := json_value;
|}.

#[global] Instance concrete_serde_laws : SerdeJsonLaws.
Proof. constructor; simpl; intros; [by rewrite json_value_text|eauto]. Qed.

(** ** Base64, media types, URIs, Rust's Debug text *)

Definition hex_digit (n : N) : ascii := ascii_of_N (if (n <? 10)%N then 48 + n else 87 + n).
Definition hex_value (a : ascii) : N :=
  let n := N_of_ascii a in if (n <? 58)%N then n - 48 else n - 87.

Fixpoint hex_encode (b : string) : string :=
  match b with
  | EmptyString => EmptyString
  | String a b => String (hex_digit (N_of_ascii a / 16)) (String (hex_digit (N_of_ascii a mod 16)) (hex_encode b))
  end.

Fixpoint hex_decode (s : string) : Result string string :=
  match s with
  | EmptyString => Ok EmptyString
  | String a (String b s) =>
      map_ok (String (ascii_of_N (16 * hex_value a + hex_value b))) (hex_decode s)
  | String _ EmptyString => Err "odd length"
  end.

Lemma hex_decode_encode b : hex_decode (hex_encode b) = Ok b.
Proof.
  induction b as [|a b IH]; [done|]. cbn [hex_encode hex_decode]. rewrite IH. cbn [map_ok].
  f_equal. f_equal. by destruct a as [[] [] [] [] [] [] [] []].
Qed.

#[global] Instance concrete_base64 : Base64 :=
  {| base64_encode := hex_encode; base64_decode := hex_decode |}.

#[global] Instance concrete_base64_laws : Base64Laws.
Proof. constructor. apply hex_decode_encode. Qed.

(** type and subtype, split at the slash *)
#[global] Instance concrete_mime : MimeLib := {|
  Mime := string * string;
  mime_from_str s := split_once "/" s;
  mime_subtype_is_json m := bool_decide (snd m = "json");
  mime_suffix_is_json m := match split_once "+" (snd m) with
                           | Some (_, suffix) => bool_decide (suffix = "json")
                           | None => false
                           end;
|}.

(** no space in a reference, and a scheme before a colon in a URI *)
#[global] Instance concrete_uri : FluentUri := {|
  uri_ref_parses := no_byte " ";
  uri_parses s := no_byte " " s && negb (no_byte ":" s);
|}.

Definition quote : string := String (ascii_of_N 34) EmptyString.

#[global] Instance concrete_debug : RustDebug := {| debug_str s := quote +:+ s +:+ quote |}.

(** ** The engine *)

Definition clock_millis (n : nat) : Z := 1700000000000 + Z.of_nat n mod 1000000.

Definition fold_max (l : list Z) : Z := fold_right Z.max 0 l.

#[global] Instance concrete_env : Env := {|
  sql_fault _ := None;
  clock n := millis_text (clock_millis n);
  strftime := concrete_strftime;
  foreign_keys_pragma _ := 1;
  busy_timeout_pragma _ ms := ms;
  new_row_id _ db := fold_max (event_keys db) + 1;
  foreign_writes _ db := db;
  entropy n := Ok (fixed 16 (Z.of_nat n));
  entropy_fuel := 64;
|}.

Lemma fold_max_spec l : 0 <= fold_max l /\ Forall (fun k => k <= fold_max l) l.
Proof.
  induction l as [|a l [IH0 IH]]; simpl; [split; [done|constructor]|]. split; [lia|].
  constructor; [lia|]. eapply Forall_impl; [exact IH|]. simpl. lia.
Qed.

#[global] Instance concrete_sqlite_laws : SqliteLaws.
Proof.
  constructor.
  - intros n. exists (clock_millis n). split; [|done]. unfold clock_millis, max_millis.
    pose proof (Z.mod_pos_bound (Z.of_nat n) 1000000 eq_refl). lia.
  - exact concrete_strftime_add.
  - exact millis_text_order.
  - intros ms Hms. eexists. split; [by apply concrete_parse_millis|done].
  - intros n db. simpl. destruct (fold_max_spec (event_keys db)) as [H0 Hf]. split; [lia|].
    eapply Forall_impl; [exact Hf|]. simpl. lia.
Qed.

Lemma concrete_foreign n db : foreign_writes n db = db.
Proof. done. Qed.

Lemma concrete_foreign_wf : foreign_wf.
Proof. by intros n db. Qed.
