(* ===== verification/Witnesses.v ===== *)
(** * A scenario, and every theorem at work in it

    One event is enqueued, claimed, and acknowledged on the computing instance
    of [Concrete]; each theorem that has hypotheses is applied to values of the
    scenario, where they hold by evaluation. *)

From S2P Require Import Prelude Step Utf8 BTree Errors Limits Validation Bounds Values Extension Serialization Event Projection State Contract Overlay Others Instants Calls External SqliteError Tables Queries Paging Sqlite Migration Schema Baseline RowHydration Hydrate Canonical Enqueue Finalize Import Claims Lifecycle Mutation Outbox Page Scope Progress Concrete.

(** The engine of the scenario reports the catalog of a fresh installation. *)
#[local] Existing Instance fresh_env.

(** ** The scenario *)

Definition at_nanos (n offset : Z) : OffsetDateTime := MkInstant n offset.

Definition sample_extensions : Extensions.t :=
  [("active", ExtensionValue.Boolean true); ("region", ExtensionValue.String (ExtensionString.Make "eu"));
   ("shard", ExtensionValue.Integer 7)].

Definition sample_builder : NewEventBuilder.t :=
  NewEventBuilder.set_data
    (NewEventBuilder.set_extensions
       (NewEventBuilder.set_datacontenttype
          (NewEventBuilder.set_time
             (NewEventBuilder.new (StreamName.Make "orders") (EventId.Make "e-1")
                (EventSource.Make "/shop") (EventType.Make "order.placed"))
             (at_nanos 1700000000123456000 3600))
          (ContentType.Make "text/plain"))
       sample_extensions)
    (EventData.Binary "hi").

Definition sample_content : EventContent.t := NewEventBuilder.content sample_builder.
Definition sample_event : NewEvent.t := NewEvent.Make _ sample_content EventSizeLimit.default.
(** the same identity, other data *)
Definition other_event : NewEvent.t :=
  NewEvent.Make _ (NewEventBuilder.content (NewEventBuilder.set_data sample_builder
    (EventData.Binary "bye"))) EventSizeLimit.default.

Definition acme : TenantId.t := TenantId.Make "acme".
Definition worker_one : WorkerId.t := WorkerId.Make "worker-1".
Definition half_minute : Lease.t := Lease.Make (Duration.from_secs 30).
Definition ten : Limit.t := Limit.Make 10.
Definition busy_default : BusyConfig.t := BusyConfig.default.

Definition empty_db : Db := MkDb [] [] ["dovecote_events"; "dovecote_deliveries"].
Definition writing (db : Db) : World := MkWorld db (Some (true, db)) 0 0.
Definition idle (db : Db) : World := MkWorld db None 0 0.

Definition world_of {A} (default : World) (run : option (A * World)) : World :=
  match run with Some (_, w) => w | None => default end.

Definition enqueued_world : World := Eval vm_compute in
  world_of (writing empty_db) (enqueue_for_scope "baseline" acme sample_event (writing empty_db)).
Definition pending_db : Db := Eval vm_compute in visible enqueued_world.

Definition claimed_world : World := Eval vm_compute in
  world_of (idle pending_db)
    (claim_for_scope (Some acme) worker_one half_minute ten busy_default (idle pending_db)).
Definition sample_claims : list ClaimedEvent.t := Eval vm_compute in
  match claim_for_scope (Some acme) worker_one half_minute ten busy_default (idle pending_db) with
  | Some (Ok evs, _) => evs
  | _ => []
  end.
Definition claimed_db : Db := Eval vm_compute in committed claimed_world.

Definition token_of (evs : list ClaimedEvent.t) : ClaimToken.t :=
  match evs with ev :: _ => ClaimedEvent.claim_token ev | [] => ClaimToken.Make EmptyString end.

Definition acked_world : World := Eval vm_compute in
  world_of claimed_world
    (mutate_with_config (Some acme) (RowId.Make 1) (token_of sample_claims) Mutation.Ack busy_default
       claimed_world).

(** Decides a closed goal by evaluation. *)
Ltac evaluate := first [reflexivity | vm_compute; repeat split; first [reflexivity | discriminate]].

(** Evaluates the list invariants of tables with one row. *)
Ltac one_row_wf :=
  split_and!; try (by repeat constructor); try (by apply NoDup_singleton);
  repeat constructor; eexists; (split; [left|done]).

Lemma empty_db_wf : db_wf empty_db.
Proof. split_and!; constructor. Qed.
Lemma pending_db_wf : db_wf pending_db.
Proof. one_row_wf. Qed.
Lemma claimed_db_wf : db_wf claimed_db.
Proof. one_row_wf. Qed.

Lemma sample_extensions_wf : extensions_wf sample_extensions.
Proof. split; [by repeat constructor|]. by repeat constructor. Qed.

Lemma sample_built : built sample_builder.
Proof.
  apply (built_binary _ "hi"), built_extensions; [|exact sample_extensions_wf].
  apply (built_datacontenttype _ "text/plain"); [|reflexivity]. apply built_time.
  by apply (built_new "orders" "e-1" "/shop" "order.placed").
Qed.

(** ** The core *)

Lemma validate_string_spec_witness :
  validate_string "subject" (utf8_encode [72; 0x7F; 233]) (Some 10) false
  = Err (ValidationError.new "subject" ValidationKind.Characters).
Proof. by rewrite (validate_string_spec "subject" [72; 0x7F; 233] (Some 10) false). Defined.

Lemma format_timestamp_roundtrip_witness :
  rfc3339_parse (format_timestamp (at_nanos 1700000000123456000 3600))
  = Ok (at_nanos 1700000000123456000 0).
Proof. by apply (format_timestamp_roundtrip (at_nanos 1700000000123456000 3600)). Defined.

Lemma lease_delay_accept_witness :
  Lease.new (Duration.from_secs 30) = Ok half_minute.
Proof.
  apply (lease_delay_accept (Duration.from_secs 30)); [evaluate|].
  exists 30000. split; [evaluate|done].
Defined.


Definition unsorted : Value := VObject [("b", VNumber 1); ("a", VObject [("d", VNull); ("c", VNull)])].
Definition sorted : Value := VObject [("a", VObject [("c", VNull); ("d", VNull)]); ("b", VNumber 1)].

Lemma canonicalize_json_canonical_witness :
  canonicalize_json unsorted = sorted /\ json_equiv unsorted sorted.
Proof.
  split; [done|]. assert (forall v, v = unsorted \/ v = sorted -> json_wf v) as Hwf.
  { intros v [->| ->]; repeat split; repeat constructor; set_solver. }
  by apply (canonicalize_json_canonical unsorted sorted); auto.
Defined.

Lemma structured_json_members_witness :
  map_get (structured_object sample_content) "region" = Some (VString "eu").
Proof.
  destruct (structured_json_members sample_content) as (_ & _ & _ & Hm); [exact sample_extensions_wf|].
  apply (Hm "region" (ExtensionValue.String (ExtensionString.Make "eu"))). right. left.
Defined.

Lemma validate_content_iff_witness :
  data_compatible sample_content /\
  exists size, portable_size sample_content = Ok size /\ size <= 65536.
Proof.
  destruct (proj1 (validate_content_iff sample_content EventSizeLimit.default)) as (_ & _ & _ & ? & ?);
    [evaluate|done].
Defined.

Lemma build_into_stored_witness :
  NewEventBuilder.build_with_limit sample_builder EventSizeLimit.default = Ok sample_event /\
  into_stored sample_event = Ok (StoredEvent.Make _ sample_content).
Proof.
  split; [evaluate|].
  apply (build_into_stored sample_builder EventSizeLimit.default EventSizeLimit.default sample_event);
    evaluate.
Defined.


Lemma projections_within_limit_witness :
  binary_message_bytes (binary (StoredEvent.Make _ sample_content)) <= 65536.
Proof.
  apply (projections_within_limit sample_event (StoredEvent.Make _ sample_content));
    evaluate.
Defined.

Definition sample_snapshot : DeliverySnapshot.t :=
  DeliverySnapshot.Delivered (at_nanos 1700000000000000000 0) (at_nanos 1700000001000000000 0)
    (AttemptCount.Make 2) None.

Lemma snapshot_rebuild_witness :
  DeliverySnapshot.delivered (at_nanos 1700000000000000000 0) (at_nanos 1700000001000000000 0)
    (AttemptCount.Make 2) None = Ok sample_snapshot.
Proof.
  destruct (snapshot_rebuild sample_snapshot) as (a & d & [= <-] & [= <-] & Hs); [|exact Hs].
  by repeat split.
Defined.

(** ** The SQLite adapter *)

Lemma sample_content_wf : content_wf sample_content.
Proof. constructor; try done. exact sample_extensions_wf. Qed.

Lemma other_content_wf : content_wf (NewEvent.content other_event).
Proof. constructor; try done. exact sample_extensions_wf. Qed.


Lemma enqueue_outcomes_witness :
  enqueue_for_scope "baseline" acme sample_event (writing empty_db)
  = Some (Ok (EnqueueOutcome.Enqueued (RowId.Make 1)), enqueued_world) /\
  enqueue_effect acme sample_event (writing empty_db) true empty_db
    (Ok (EnqueueOutcome.Enqueued (RowId.Make 1))) enqueued_world.
Proof. split; [evaluate|]. apply (enqueue_outcomes "baseline"); by vm_compute. Defined.

Lemma accepted_event_passes_checks_witness :
  Events.check (new_event_row 1 "acme" (event_columns sample_content) (clock 0)) = true.
Proof.
  apply (accepted_event_passes_checks acme sample_event EventSizeLimit.default 1 (clock 0) "acme");
    [done|exact sample_content_wf|evaluate|done].
Defined.

Lemma enqueue_replay_witness :
  exists w2, enqueue_for_scope "baseline" acme other_event enqueued_world
             = Some (Err (EnqueueError.IdempotencyConflict (RowId.Make 1)), w2) /\
    txn w2 = txn enqueued_world.
Proof.
  destruct (enqueue_replay "baseline" acme sample_event other_event EventSizeLimit.default
              EventSizeLimit.default "acme" (writing empty_db) true empty_db (RowId.Make 1)
              enqueued_world) as (w2 & Hr & Ht & _);
    [reflexivity|exact sample_content_wf|reflexivity|discriminate|exact other_content_wf|reflexivity
    |by split|by repeat split; set_solver|reflexivity|reflexivity|].
  exists w2. split; [|exact Ht]. rewrite Hr. reflexivity.
Defined.

Lemma claim_error_leaves_no_trace_witness :
  exists w', claim_for_scope None worker_one half_minute ten
               (BusyConfig.new (Duration.from_secs 10000000) 3) (idle pending_db)
             = Some (Err (ClaimError.Configuration
                       "busy timeout exceeds SQLite's signed 32-bit millisecond range"), w') /\
    txn w' = None /\ foreign_only pending_db (committed w').
Proof.
  exists (idle pending_db). split; [reflexivity|].
  by eapply (claim_error_leaves_no_trace None worker_one half_minute ten
               (BusyConfig.new (Duration.from_secs 10000000) 3) (idle pending_db)).
Defined.

Lemma sample_claim :
  claim_for_scope (Some acme) worker_one half_minute ten busy_default (idle pending_db)
  = Some (Ok sample_claims, claimed_world).
Proof. reflexivity. Qed.

Lemma claim_success_witness :
  exists n, Forall2 (claim_of pending_db worker_one) (chosen (Some "acme") (clock n) 10 pending_db)
              sample_claims.
Proof.
  destruct (claim_success (Some acme) worker_one half_minute ten busy_default (idle pending_db)
              sample_claims claimed_world)
    as (_ & db & n & lease_ms & Hf & _ & _ & Hc & _);
    [reflexivity|exact concrete_foreign_wf|exact pending_db_wf|exact sample_claim|].
  exists n. apply foreign_only_none in Hf; [|done]. by subst db.
Defined.

Lemma fresh_token_terminates_witness :
  exists tok w', fresh_token 3 (Some (fixed 16 0)) [fixed 16 1] (idle empty_db) = Some (Ok tok, w').
Proof.
  destruct (fresh_token_terminates 3 (Some (fixed 16 0)) [fixed 16 1] (idle empty_db)
              (fun i => fixed 16 (Z.of_nat i))) as (tok & w' & Hr & _).
  - done.
  - intros i j Hi Hj Heq. apply (f_equal (digits_value 0)) in Heq. simpl draws in Heq.
    rewrite !fixed_value in Heq by (change (10 ^ Z.of_nat 16) with 10000000000000000; lia). lia.
  - by simpl; lia.
  - by exists tok, w'.
Defined.


Definition row_one : RowId.t := RowId.Make 1.
Definition sample_token : ClaimToken.t := token_of sample_claims.

Lemma sample_ack :
  mutate_with_config (Some acme) row_one sample_token Mutation.Ack busy_default claimed_world
  = Some (Ok tt, acked_world).
Proof. reflexivity. Qed.


(** ** The outbox *)

Lemma sample_commit : commit empty_db pending_db.
Proof.
  change pending_db with
    (with_delivery (pending_row (TenantId.as_str acme) (new_row_id 4 empty_db) (clock 4))
       (with_event (new_row acme sample_event 4 empty_db) empty_db)).
  apply commit_enqueue; [apply not_elem_of_nil|reflexivity].
Qed.

Lemma commit_keeps_constraints_witness : db_wf pending_db.
Proof. apply (commit_keeps_constraints empty_db pending_db sample_commit empty_db_wf). Defined.

Definition pending_delivery : Deliveries.row := pending_row "acme" 1 (clock 4).
Definition claimed_delivery : Deliveries.row := Eval vm_compute in
  match deliveries claimed_db with d :: _ => d | [] => pending_delivery end.

Lemma sample_claim_commit : commit pending_db claimed_db.
Proof.
  destruct (claim_for_scope_commit (Some acme) worker_one half_minute ten busy_default
              (idle pending_db) sample_claims claimed_world) as (db & Hf & Hc);
    [reflexivity|exact sample_claim|].
  apply foreign_only_none in Hf; [|done]. subst db. by eapply commit_claim.
Qed.

Lemma commit_refines_spec_witness : row_refines pending_delivery claimed_delivery.
Proof.
  destruct (commit_refines_spec pending_db claimed_db pending_delivery sample_claim_commit pending_db_wf)
    as (d' & Hd & Hr); [left|]. by apply list_elem_of_singleton in Hd as ->.
Defined.

Lemma history_is_monotone_witness : db_wf claimed_db.
Proof.
  apply (history_is_monotone empty_db claimed_db); [|exact empty_db_wf].
  do 2 (eapply commits_cons; [exact sample_commit || exact sample_claim_commit|]). constructor.
Defined.


Definition stale_token : ClaimToken.t := ClaimToken.Make (fixed 16 99).

Lemma claim_fences_out_witness :
  exists w'' e, mutate_with_config (Some acme) row_one stale_token Mutation.Ack busy_default claimed_world
                = Some (Err e, w'') /\ committed w'' = claimed_db.
Proof.
  destruct (mutate_with_config (Some acme) row_one stale_token Mutation.Ack busy_default claimed_world)
    as [[r w'']|] eqn:Hr; [|discriminate].
  assert (exists ev, ev ∈ sample_claims /\ ClaimedEvent.row_id ev = row_one /\
            ClaimToken.as_bytes stale_token <> ClaimToken.as_bytes (ClaimedEvent.claim_token ev))
    as (ev & Hin & Hid & Htok) by (eexists; split; [left|by split]).
  destruct (claim_fences_out (Some acme) worker_one half_minute ten busy_default (idle pending_db)
              sample_claims claimed_world ev stale_token Mutation.Ack busy_default r w'' (Some acme))
    as ((e & ->) & Hc & _);
    [reflexivity|exact pending_db_wf|exact concrete_foreign|exact sample_claim|exact Hin|exact Htok
    |by rewrite Hid|by exists w'', e].
Defined.

Lemma fences_agree_witness :
  fenced (Some "acme") 1 (ClaimToken.as_bytes sample_token) (millis_text 1700000000020)
    claimed_delivery = true.
Proof.
  destruct (fences_agree (Some "acme") 1 sample_token claimed_delivery 1700000030006 1700000000020)
    as [_ Hf].
  - split_and!; [done|reflexivity|done|done|]. by exists (ClaimToken.as_bytes sample_token).
  - done.
  - reflexivity.
  - by apply Hf.
Defined.

Lemma claim_expiry_exact_witness :
  exists ev, ev ∈ sample_claims /\
    unix_nanos (ClaimedEvent.claim_expires_at ev) = 1700000030006 * 1000000.
Proof.
  eexists. split; [left|].
  match goal with |- unix_nanos (ClaimedEvent.claim_expires_at ?ev) = _ =>
    destruct (claim_expiry_exact 6 30000
                (MkPrepared _ (ClaimedEvent.row_id ev) 1 (ClaimedEvent.tenant_id ev)
                   (ClaimedEvent.event ev) (ClaimedEvent.attempts ev)
                   (ClaimToken.as_bytes (ClaimedEvent.claim_token ev))) worker_one ev)
      as (now_ms & Hr & Hnow & Hx) end.
  - done.
  - constructor; try reflexivity.
    exists "001700000030.006000Z", (at_nanos 1700000030006000000 0). split_and!; reflexivity.
  - assert (now_ms = 1700000000006) as ->; [|by apply Hx].
    assert (Hs : 0 <= 1700000000006 <= max_millis) by done.
    pose proof (millis_text_leb now_ms 1700000000006 Hr Hs) as Hle.
    pose proof (millis_text_leb 1700000000006 now_ms Hs Hr) as Hge.
    rewrite <- Hnow in Hle, Hge. change (millis_text 1700000000006) with (clock 6) in Hle, Hge.
    change (String.leb (clock 6) (clock 6)) with true in Hle, Hge.
    symmetry in Hle, Hge. bools. lia.
Defined.

Definition page_run : option (Result (list PagedEvent.t) PageError.t * World) := Eval vm_compute in
  page_for_scope (Some acme) None ten (idle claimed_db).
Definition sample_pages : list PagedEvent.t := Eval vm_compute in
  match page_run with Some (Ok pages, _) => pages | _ => [] end.

Lemma live_page_witness :
  length sample_pages = 1%nat /\
  Forall2 (fun e p => hydrate_page (durable_of claimed_db e) = Ok p)
    (page_events (Some acme) 0 None ten claimed_db) sample_pages.
Proof.
  destruct (live_page (Some acme) None ten (idle claimed_db) sample_pages
              (world_of (idle claimed_db) page_run)) as (_ & Hf & _);
    [reflexivity|exact claimed_db_wf|discriminate|reflexivity|by split].
Defined.

Definition pager_run : option (Result SnapshotPager.t PageError.t * World) := Eval vm_compute in
  begin_snapshot_for_scope (Some acme) (idle claimed_db).
Definition sample_pager : SnapshotPager.t := Eval vm_compute in
  match pager_run with
  | Some (Ok pager, _) => pager
  | _ => SnapshotPager.Make false None None true None
  end.
Definition pager_world : World := Eval vm_compute in world_of (idle claimed_db) pager_run.

Lemma snapshot_pages_witness :
  exists r pager' w1,
    drain next_page [ten; ten] sample_pager pager_world = Some ((r, pager'), w1) /\
    match r with
    | Ok rows => Forall2 (fun e p => hydrate_page (durable_of claimed_db e) = Ok p)
                   (take (length rows) (scope (Some "acme") claimed_db)) rows /\
                 SnapshotPager.exhausted pager' = true
    | Err _ => True
    end.
Proof.
  destruct (snapshot_pages (Some acme) [ten; ten] (idle claimed_db) sample_pager pager_world)
    as (db & r & pager' & w1 & Hf & Hd & _ & Hr);
    [exact claimed_db_wf|exact concrete_foreign_wf|by repeat constructor|reflexivity|].
  apply foreign_only_none in Hf; [|done]. subst db. exists r, pager', w1. split; [exact Hd|].
  destruct r as [rows|]; [|done]. destruct Hr as (_ & Hrows & _ & Hx).
  split; [exact Hrows|]. apply Hx. repeat constructor.
Defined.

(** ** Schema, migration imports, handles and progress *)

Lemma concrete_no_fault n : sql_fault n = None.
Proof. done. Qed.
Lemma concrete_foreign_keys n : foreign_keys_pragma n = 1.
Proof. done. Qed.
Lemma concrete_catalog n db : catalog n db = fresh_catalog.
Proof. done. Qed.
Lemma concrete_schema_passes : schema_passes tenant_baseline_sql.
Proof. exact (fresh_passes concrete_no_fault concrete_foreign_keys). Qed.


Definition events_statement : string := Eval vm_compute in
  match expected_table_source tenant_baseline_sql "dovecote_events" with
  | Ok statement => statement
  | Err _ => EmptyString
  end.

Lemma expected_table_source_whole_witness : lex (0, false) events_statement = (0, false).
Proof.
  destruct (expected_table_source_whole tenant_baseline_sql "dovecote_events" events_statement)
    as (before & after & _ & _ & Hl & _); [vm_compute; reflexivity|exact Hl].
Defined.

Definition legacy_time : OffsetDateTime := at_nanos 1690000000500000000 7200.

Definition imported_world : World := Eval vm_compute in
  world_of (writing empty_db)
    (import_for_scope tenant_baseline_sql acme sample_event ImportedDeliveryState.pending (writing empty_db)).
Definition imported_tables : Db := Eval vm_compute in visible imported_world.

Lemma sample_import :
  import_for_scope tenant_baseline_sql acme sample_event ImportedDeliveryState.pending (writing empty_db)
  = Some (Ok (ImportOutcome.Imported (RowId.Make 1)), imported_world).
Proof. vm_cast_no_check (eq_refl (Some (Ok (E := ImportError.t) (ImportOutcome.Imported (RowId.Make 1)), imported_world))). Qed.

Lemma finalize_outcomes_witness :
  exists r w', finalize_for_scope tenant_baseline_sql acme (RowId.Make 1) legacy_time imported_world
               = Some (r, w') /\
    finalize_effect acme (RowId.Make 1) legacy_time imported_world true imported_tables r w'.
Proof.
  apply (finalize_outcomes tenant_baseline_sql acme (RowId.Make 1) legacy_time imported_world true
           imported_tables); [one_row_wf|reflexivity].
Defined.

Lemma import_outcomes_witness :
  import_effect acme sample_event ImportedDeliveryState.pending (writing empty_db) true empty_db
    (Ok (ImportOutcome.Imported (RowId.Make 1))) imported_world.
Proof.
  destruct (import_outcomes tenant_baseline_sql acme sample_event ImportedDeliveryState.pending
              (writing empty_db) true empty_db eq_refl) as (r & w' & Hr & He).
  pose proof (eq_trans (eq_sym sample_import) Hr) as Heq. injection Heq as Heqr Heqw.
  rewrite Heqr, Heqw. exact He.
Defined.

Lemma import_then_finalize_witness :
  exists w2 w3,
    finalize_for_scope tenant_baseline_sql acme (RowId.Make 1) legacy_time imported_world
      = Some (Ok (FinalizeOutcome.Finalized (RowId.Make 1)), w2) /\
    import_for_scope tenant_baseline_sql acme sample_event
      (ImportedDeliveryState.Delivered (at_nanos 1690000000500000000 0)) (writing empty_db)
      = Some (Ok (ImportOutcome.Imported (RowId.Make 1)), w3) /\
    txn w3 = txn w2.
Proof.
  destruct (import_then_finalize tenant_baseline_sql acme sample_event concrete_no_fault
              concrete_schema_passes (writing empty_db) true empty_db legacy_time
              (ImportedDeliveryState.Delivered (at_nanos 1690000000500000000 0)) (RowId.Make 1)
              imported_world) as (w2 & w3 & Hf & Hi & _ & Ht);
    [exact empty_db_wf|reflexivity|reflexivity|exact sample_import|].
  exists w2, w3. split; [exact Hf|]. split; [exact Hi|exact Ht].
Defined.

(** The handle of the scenario's tenant. *)
Definition acme_handle : TenantDovecote.t := TenantDovecote.new acme busy_default.

Lemma tenant_isolation_witness :
  confined acme_handle pending_db (committed claimed_world) /\
  Forall (fun ev => TenantId.as_str (ClaimedEvent.tenant_id ev) = "acme") sample_claims.
Proof.
  destruct (tenant_isolation tenant_baseline_sql acme_handle (idle pending_db) concrete_foreign_wf
              pending_db_wf) as [Hc _].
  destruct (Hc eq_refl) as [Hclaim _].
  apply (Hclaim worker_one half_minute ten (Ok sample_claims) claimed_world). exact sample_claim.
Defined.

(** A delivery that has been due since before the scenario's clock began. *)
Definition due_db : Db :=
  MkDb (events pending_db) [pending_row "acme" 1 (millis_text 1699999999999)] (tables pending_db).
Definition hour : Lease.t := Lease.Make (Duration.from_secs 3600).

Lemma concrete_answering : answering.
Proof. by constructor. Qed.

Lemma concrete_tokens : tokens (fun n => fixed 16 (Z.of_nat n)).
Proof.
  constructor; [done|intros i; apply fixed_len|]. cbn [entropy_fuel concrete_env].
  intros d i j Hi Hj Heq. apply (f_equal (digits_value 0)) in Heq. rewrite !fixed_mod in Heq.
  change (10 ^ Z.of_nat 16) with 10000000000000000 in Heq. euclid.
Qed.

Lemma concrete_within_lease : within_lease 3600000 1700000000000.
Proof.
  split; [done|]. split; [done|]. intros n. exists (clock_millis n). split; [done|].
  unfold clock_millis. pose proof (Z.mod_pos_bound (Z.of_nat n) 1000000 eq_refl). lia.
Qed.

Lemma due_db_drainable : drainable (Some acme) due_db.
Proof.
  constructor.
  - one_row_wf.
  - apply Forall_singleton. split; [|by exists acme]. exists (StoredEvent.Make _ sample_content).
    change (hydrate_event (event_columns sample_content) = Ok (StoredEvent.Make _ sample_content)).
    apply (hydrate_written_columns sample_content EventSizeLimit.default);
      [exact sample_content_wf|evaluate|done].
  - by apply Forall_singleton.
  - intros d n Hd. apply list_elem_of_singleton in Hd as ->.
    destruct concrete_within_lease as (_ & _ & Hck). destruct (Hck n) as (m & -> & Hm).
    unfold eligible. cbn -[String.leb millis_text]. rewrite millis_text_leb.
    + rewrite (proj2 (Z.leb_le _ _)) by lia. done.
    + done.
    + unfold max_millis. lia.
Qed.

Lemma backlog_drains_witness :
  exists w', consume (Some acme) worker_one hour ten busy_default 1 (idle due_db) = Some (tt, w') /\
    backlog (Some "acme") (committed w') = [].
Proof.
  destruct (backlog_drains concrete_answering _ concrete_tokens (Some acme) worker_one hour ten
              busy_default 5000 3600000 1700000000000 eq_refl eq_refl)
    with (rounds := 1%nat) (w := idle due_db) as (w' & Hr & _ & Hb & _);
    [done|cbn; lia|exact concrete_within_lease|reflexivity|exact due_db_drainable|by apply Nat.leb_le|].
  exists w'. split; [exact Hr|exact Hb].
Defined.

(** ** A delay the model shows *)

(** How many deliveries a claim finds half a second after a step of the tables
    at 1700000001, a whole second. *)
Definition claims_later {A} (run : option (A * World)) : option nat :=
  match run with
  | Some (_, w) =>
      match claim_for_scope (Some acme) worker_one half_minute ten busy_default
              (MkWorld (visible w) None 1500 0) with
      | Some (Ok evs, _) => Some (length evs)
      | _ => None
      end
  | None => None
  end.

(** Import writes the operation time as RFC 3339 text, which has no fraction at
    a whole second, while the claim compares it byte by byte with a text that
    has one: the imported delivery is not found, the enqueued one is. *)
Lemma import_delays_claim :
  claims_later (import_for_scope tenant_baseline_sql acme sample_event ImportedDeliveryState.pending
                  (MkWorld empty_db (Some (true, empty_db)) 978 0)) = Some 0%nat /\
  claims_later (enqueue_for_scope tenant_baseline_sql acme sample_event
                  (MkWorld empty_db (Some (true, empty_db)) 996 0)) = Some 1%nat.
Proof. split; vm_compute; reflexivity. Qed.

(** ** A history of the contract *)

(** An event over instants in microseconds, claimed by one worker, left to expire
    at 5000, claimed by another and acknowledged. *)
Definition first_event : Events.row_of Z := stored_row acme sample_event (RowId.Make 1) 1000.
Definition first_tokens : bytes * bytes := (fixed 16 7, fixed 16 8).
Definition first_claim : action Z := Claim "worker-1" 2000 (Some 5000) [(1, first_tokens.1)].
Definition second_claim : action Z := Claim "worker-2" 5000 (Some 9000) [(1, first_tokens.2)].
Definition final_ack : action Z := Mutate 1 first_tokens.2 6000 (Ack 6000).

Definition no_rows : Db_of Z := MkDb [] [] [].
Definition tables_after (acts : list (action Z)) : Db_of Z := default no_rows (run acts no_rows).

Definition once_claimed : Db_of Z := Eval vm_compute in tables_after [Insert first_event None; first_claim].
Definition acknowledged : Db_of Z := Eval vm_compute in
  tables_after [Insert first_event None; first_claim; second_claim; final_ack].

Lemma no_rows_wf : db_wf no_rows.
Proof. split_and!; constructor. Qed.

Lemma once_claimed_wf : db_wf once_claimed.
Proof. one_row_wf. Qed.



(** Until 5000 nobody takes the first worker's claim: another event is enqueued
    meanwhile, and the worker's acknowledgement goes through. *)
Definition second_event : Events.row_of Z :=
  stored_row (TenantId.Make "other") sample_event (RowId.Make 2) 3000.

Definition claimed_row : Deliveries.row_of Z := Eval vm_compute in
  hd (first_delivery first_event None) (deliveries once_claimed).


(** Other connections that enqueue the second event at their first statement. *)
Definition busy_script (n : nat) : list (action Z) :=
  match n with 1%nat => [Insert second_event None] | _ => [] end.


