(* ===== verification/PgWitnesses.v ===== *)
(** * The scenario over PostgreSQL

    An instance of the environment of the PostgreSQL adapter that evaluates, on
    the libraries of [Concrete], and the catalog of a fresh installation:
    statements never fail, the clock advances a millisecond with each, and
    identity values count up.  The event of [Witnesses] is enqueued, claimed,
    acknowledged, paged and imported on it; each theorem about the PostgreSQL
    adapter is applied to values of the scenario. *)

From S2P Require Import Prelude Step Utf8 Errors Limits Validation Bounds Values BTree Extension Serialization Event State Tables Queries Paging Claims RowHydration Contract External Migration Overlay Instants Others Leases Calls PgError PgMigration Pg PgHydrate PgSchema PgEnqueue PgCanonical PgFinalize PgImport PgLifecycle PgMutation PgPage PgOutbox PgScope Concrete Witnesses.

#[global] Instance concrete_pg : PgEnv := {|
  sql_fault _ := None;
  commit_fault _ := None;
  clock_timestamp n := 1700000000000000 + 1000 * Z.of_nat n;
  timestamp_add z d := z + Duration.as_nanos d / 1000;
  identity_value _ db := fold_max (event_keys db) + 1;
  entropy n := Ok (fixed 16 (Z.of_nat n));
  entropy_fuel := 1100;
|}.

#[global] Instance concrete_pg_laws : PgTimeLaws.
Proof. by constructor. Qed.

(** ** The catalog of a fresh installation *)

Definition column_of (c : ColumnSpec.t) : ColumnInfo.t :=
  ColumnInfo.Make (ColumnSpec.name c) (ColumnSpec.data_type c) (ColumnSpec.maximum_length c)
    (if ColumnSpec.nullable c then "YES" else "NO")
    (option_map (fun fragment => if bool_decide (fragment = "current_timestamp")
                                 then "CURRENT_TIMESTAMP" else fragment)
       (ColumnSpec.default_fragment c))
    (if ColumnSpec.identity c then "YES" else "NO")
    (if ColumnSpec.identity c then Some "ALWAYS" else None).

Definition constraint_of (c : ConstraintContract.t) : ConstraintInfo.t :=
  ConstraintInfo.Make (ConstraintContract.table_name c) (ConstraintContract.name c)
    (ConstraintContract.kind c) (ConstraintContract.columns c) (ConstraintContract.referenced_table c)
    (ConstraintContract.referenced_columns c) (ConstraintContract.delete_action c) true false false
    (match ConstraintContract.definition_variants c with d :: _ => d | [] => "" end).

Definition index_of (c : IndexContract.t) : IndexInfo.t :=
  IndexInfo.Make (IndexContract.table_name c) (IndexContract.name c) "btree"
    (IndexContract.is_unique c) true true false (Z.of_nat (length (IndexContract.columns c)))
    (Z.of_nat (length (IndexContract.columns c))) (map (fun _ => 0) (IndexContract.columns c))
    (IndexContract.columns c)
    (match IndexContract.collations c with Some collations => collations | None => [] end).

Definition installed_columns (table : string) : list ColumnInfo.t :=
  map column_of
    (if bool_decide (table = "dovecote_schema") then marker_columns
     else if bool_decide (table = "dovecote_events") then events_columns
     else if bool_decide (table = "dovecote_deliveries") then deliveries_columns else []).

Definition fresh_catalog : Catalog := {|
  current_schema := Some (NamespaceInfo.Make 2200 "public");
  relations := ["dovecote_schema"; "dovecote_events"; "dovecote_deliveries"];
  columns_of _ table := installed_columns table;
  markers := [shipped_marker];
  constraints_of _ := map constraint_of expected_constraints;
  indexes_of _ := map index_of expected_indexes;
|}.

#[global] Instance concrete_catalog : PgCatalogEnv := {| catalog _ := fresh_catalog |}.

Lemma fresh_catalog_names : unique_names fresh_catalog.
Proof.
  constructor; intros.
  - unfold fresh_catalog, columns_of, installed_columns.
    repeat case_bool_decide; vm_compute; apply (bool_decide_unpack _); by vm_compute.
  - apply (bool_decide_unpack _). by vm_compute.
  - apply (bool_decide_unpack _). by vm_compute.
Qed.

Definition pg_empty : Db := MkDb [] [] ["dovecote_events"; "dovecote_deliveries"].

(** A connection that just began a transaction, and one without. *)
Definition fresh_txn : Txn := MkTxn (clock_timestamp 0) None None nothing false.
Definition in_txn (db : Db) : World := MkWorld db (Some fresh_txn) 0 0.
Definition no_txn (db : Db) : World := MkWorld db None 0 0.

Definition after {A} (default : World) (run : option (A * World)) : World :=
  match run with Some (_, w) => w | None => default end.

Definition pg_enqueued : World := Eval vm_compute in
  after (in_txn pg_empty) (enqueue_for_scope "baseline" acme sample_event (in_txn pg_empty)).
Definition pg_pending : Db := Eval vm_compute in committed (after pg_enqueued (commit pg_enqueued)).

Definition pg_claim_result := Eval vm_compute in
  claim_for_scope (Some acme) worker_one half_minute ten (no_txn pg_pending).
Definition pg_claimed : World := Eval vm_compute in after (no_txn pg_pending) pg_claim_result.
Definition pg_claims : list ClaimedEvent.t := Eval vm_compute in
  match pg_claim_result with Some (Ok evs, _) => evs | _ => [] end.

Lemma pg_empty_wf : db_wf pg_empty.
Proof. split_and!; constructor. Qed.
Lemma pg_pending_wf : db_wf pg_pending.
Proof. one_row_wf. Qed.
Lemma pg_claimed_wf : db_wf (committed pg_claimed).
Proof. one_row_wf. Qed.

Lemma in_txn_open db : db_wf db -> open_at (in_txn db) fresh_txn.
Proof. intros Hwf. split; [|by split]. split; [done|]. split; [done|]. by destruct db. Qed.

Lemma sample_time_portable :
  option_all portable_instant (EventContent.time (NewEvent.content sample_event)).
Proof. by vm_compute. Qed.

Lemma pg_claims_some : length pg_claims = 1%nat.
Proof. reflexivity. Qed.

(** ** Claims and mutations *)

Lemma pg_idle_closed : closed (no_txn pg_pending).
Proof. split; [done|exact pg_pending_wf]. Qed.

Lemma pg_sample_claim :
  claim_for_scope (Some acme) worker_one half_minute ten (no_txn pg_pending)
  = Some (Ok pg_claims, pg_claimed).
Proof. vm_cast_no_check (eq_refl (Some (@Ok _ ClaimError.t pg_claims, pg_claimed))). Qed.

Lemma concrete_draws k n :
  Z.of_nat (k + n) <= 10000000000000000 -> distinct_draws k n.
Proof.
  intros Hn. exists (fun i => fixed 16 (Z.of_nat i)). split; [done|]. intros i j. by apply fixed_draws.
Qed.

Lemma pg_claim_outcomes_witness :
  is_Some (claim_for_scope (Some acme) worker_one half_minute ten (no_txn pg_pending)) /\
  closed pg_claimed /\
  claimed_on (Some acme) worker_one half_minute ten (no_txn pg_pending) pg_claims
    (committed pg_claimed).
Proof.
  destruct (pg_claim_outcomes (Some acme) worker_one half_minute ten (no_txn pg_pending)
              concrete_isolated pg_idle_closed) as [Hret Hrun].
  split; [|exact (Hrun _ _ pg_sample_claim)].
  apply Hret; [|vm_compute; lia].
  apply (concrete_draws 0). apply Z.leb_le. vm_compute. reflexivity.
Defined.

Definition pg_row_one : RowId.t := RowId.Make 1.
Definition pg_token : ClaimToken.t := token_of pg_claims.


(** A token that another worker holds is refused. *)
Lemma pg_mutation_lost_example :
  option_map (fun run => (run.1, committed run.2))
    (mutate None pg_row_one (ClaimToken.Make "0123456789abcdef") Mutation.Ack pg_claimed)
  = Some (Err MutationError.LostClaim, committed pg_claimed).
Proof. vm_compute. reflexivity. Qed.

(** ** A caller's transaction *)

Lemma pg_enqueue_outcomes_witness :
  enqueue_effect acme sample_event (in_txn pg_empty) fresh_txn
    (Ok (EnqueueOutcome.Enqueued pg_row_one)) pg_enqueued.
Proof.
  destruct (pg_enqueue_outcomes "baseline" acme sample_event concrete_isolated sample_time_portable
              (in_txn pg_empty) fresh_txn (in_txn_open _ pg_empty_wf)) as (r & w' & Hr & He).
  assert (Hrun : enqueue_for_scope "baseline" acme sample_event (in_txn pg_empty)
                 = Some (Ok (EnqueueOutcome.Enqueued pg_row_one), pg_enqueued)) by evaluate.
  rewrite Hrun in Hr. injection Hr as <- <-. exact He.
Defined.

Lemma pg_import_outcomes_witness :
  exists w', import_for_scope "baseline" acme sample_event ImportedDeliveryState.Pending (in_txn pg_empty)
             = Some (Ok (ImportOutcome.Imported pg_row_one), w') /\
    import_effect acme sample_event ImportedDeliveryState.Pending (in_txn pg_empty) fresh_txn
      (Ok (ImportOutcome.Imported pg_row_one)) w'.
Proof.
  destruct (pg_import_outcomes "baseline" acme sample_event ImportedDeliveryState.Pending
              concrete_isolated sample_time_portable (in_txn pg_empty) fresh_txn
              (in_txn_open _ pg_empty_wf)) as (r & w' & Hr & He).
  assert (Hid : option_map fst (import_for_scope "baseline" acme sample_event
                  ImportedDeliveryState.Pending (in_txn pg_empty))
                = Some (Ok (ImportOutcome.Imported pg_row_one))) by (vm_compute; reflexivity).
  rewrite Hr in Hid. injection Hid as ->. exists w'. exact (conj Hr He).
Defined.

Lemma pg_finalize_outcomes_witness :
  exists w', finalize_for_scope "baseline" acme pg_row_one (at_nanos 1700000001000000000 0)
               (in_txn pg_pending) = Some (Ok (FinalizeOutcome.Finalized pg_row_one), w') /\
    finalize_effect acme pg_row_one (at_nanos 1700000001000000000 0) (in_txn pg_pending) fresh_txn
      (Ok (FinalizeOutcome.Finalized pg_row_one)) w'.
Proof.
  destruct (pg_finalize_outcomes "baseline" acme pg_row_one (at_nanos 1700000001000000000 0)
              concrete_isolated (in_txn pg_pending) fresh_txn (in_txn_open _ pg_pending_wf))
    as (r & w' & Hr & He).
  assert (Hid : option_map fst (finalize_for_scope "baseline" acme pg_row_one
                  (at_nanos 1700000001000000000 0) (in_txn pg_pending))
                = Some (Ok (FinalizeOutcome.Finalized pg_row_one))) by (vm_compute; reflexivity).
  rewrite Hr in Hid. injection Hid as ->. exists w'. exact (conj Hr He).
Defined.

(** ** Schema, snapshots, handles *)


Definition pg_pager_run := Eval vm_compute in
  begin_snapshot_for_scope (Some acme) (no_txn pg_pending).
Definition pg_pager_world : World := Eval vm_compute in after (no_txn pg_pending) pg_pager_run.
Definition pg_pager : SnapshotPager.t :=
  SnapshotPager.Make (Some pg_row_one) None false (Some acme).

Lemma pg_sample_snapshot :
  begin_snapshot_for_scope (Some acme) (no_txn pg_pending) = Some (Ok pg_pager, pg_pager_world).
Proof. vm_cast_no_check (eq_refl (Some (@Ok _ PageError.t pg_pager, pg_pager_world))). Qed.

Lemma pg_ten_positive : Forall (fun l => 0 < Limit.get l) [ten; ten].
Proof. by repeat constructor. Qed.

Lemma pg_snapshot_pages_witness :
  exists db r pager' w1, db = pg_pending /\
    drain next_page [ten; ten] pg_pager pg_pager_world = Some ((Ok r, pager'), w1) /\
    Forall2 (hydrated db) (take (length r) (scope (Some "acme") db)) r /\
    SnapshotPager.is_exhausted pager' = true.
Proof.
  destruct (pg_snapshot_pages concrete_isolated (Some acme) [ten; ten] (no_txn pg_pending) pg_pager
              pg_pager_world pg_idle_closed pg_ten_positive pg_sample_snapshot)
    as (db & r & pager' & w1 & Hd & _ & _ & Hr & _ & _ & Hx).
  apply during_concrete in Hd. change (committed (no_txn pg_pending)) with pg_pending in Hd. subst db.
  assert (Hid : option_map (fun run => match run.1.1 with Ok _ => true | Err _ => false end)
                  (drain next_page [ten; ten] pg_pager pg_pager_world) = Some true)
    by (vm_compute; reflexivity).
  rewrite Hr in Hid. destruct r as [rows|e]; [|discriminate Hid].
  destruct Hx as (Hf & _ & Hend). exists pg_pending, rows, pager', w1.
  split; [reflexivity|]. split; [exact Hr|]. split; [exact Hf|]. apply Hend. vm_compute. lia.
Defined.

Lemma pg_tenant_isolation_witness :
  confined (TenantId.as_str acme) pg_pending (committed pg_claimed) /\
  Forall (of_tenant (TenantDovecote.Make acme)) pg_claims.
Proof.
  destruct (pg_tenant_isolation "baseline" (TenantDovecote.Make acme) concrete_isolated
              (no_txn pg_pending)) as [Hx _].
  destruct (Hx pg_idle_closed) as [Hclaim _].
  exact (Hclaim worker_one half_minute ten _ _ pg_sample_claim).
Defined.

(** ** Other connections that commit meanwhile *)

Section Busy.
(** The environment of before, but another connection enqueues an event at the
    first statement after BEGIN. *)
#[local] Instance busy_others : Others := polite_others busy_script.
#[local] Instance busy_pg : PgEnv := {|
  sql_fault _ := None;
  commit_fault _ := None;
  clock_timestamp n := 1700000000000000 + 1000 * Z.of_nat n;
  timestamp_add z d := z + Duration.as_nanos d / 1000;
  identity_value _ db := fold_max (event_keys db) + 1;
  entropy n := Ok (fixed 16 (Z.of_nat n));
  entropy_fuel := 1100;
|}.

#[local] Instance busy_pg_laws : PgTimeLaws.
Proof. by constructor. Qed.

Definition busy_begun : World := Eval vm_compute in
  after (no_txn pg_empty) (begin_statement false (no_txn pg_empty)).
Definition busy_enqueued : World := Eval vm_compute in
  after busy_begun (enqueue_for_scope "baseline" acme sample_event busy_begun).
Definition busy_committed : World := Eval vm_compute in after busy_enqueued (commit busy_enqueued).
Definition busy_answer : answer := AnswerEnqueue (EnqueueOutcome.Enqueued (RowId.Make 3)).

Lemma busy_begin : begin_statement false (no_txn pg_empty) = Some (Ok tt, busy_begun).
Proof. vm_cast_no_check (eq_refl (Some (@Ok _ SqlxError.t tt, busy_begun))). Qed.
Lemma busy_enqueue :
  enqueue_for_scope "baseline" acme sample_event busy_begun
  = Some (Ok (EnqueueOutcome.Enqueued (RowId.Make 3)), busy_enqueued).
Proof.
  vm_cast_no_check
    (eq_refl (Some (@Ok _ EnqueueError.t (EnqueueOutcome.Enqueued (RowId.Make 3)), busy_enqueued))).
Qed.
Lemma busy_commit : commit busy_enqueued = Some (Ok tt, busy_committed).
Proof. vm_cast_no_check (eq_refl (Some (@Ok _ SqlxError.t tt, busy_committed))). Qed.

End Busy.
