(* ===== verification/MyWitnesses.v ===== *)
(** * The scenario over MySQL

    An instance of the environment of the MySQL adapter that evaluates, on the
    libraries of [Concrete], a server it accepts and the catalog of a fresh
    installation there: statements never fail, each starts a millisecond after
    the one before, AUTO_INCREMENT counts up, and a query of the catalog does not
    open the read view.  The event of [Witnesses] is enqueued, claimed,
    acknowledged, paged, imported and finalized on it; each theorem about the
    MySQL adapter is applied to values of the scenario. *)

From S2P Require Import Prelude Step Utf8 Text Errors Limits Validation Bounds Values BTree Extension Serialization Event State Tables Queries Paging Claims RowHydration Contract External Migration Overlay Instants Others Leases Calls MyError My MyInsert MyBackend MyNormalize MyContracts MyRows MySchema MyHydrate MyMutation MyLifecycle MyClaim MyEnqueue MyPage MyCanonical MyImport MyFinalize MyOutbox MyScope Concrete Witnesses.

#[global] Instance concrete_mysql : MyEnv := {|
  sql_fault _ := None;
  commit_fault _ := None;
  utc_timestamp n := 1700000000000000 + 1000 * Z.of_nat n;
  auto_increment _ db := fold_max (event_keys db) + 1;
  violation v :=
    match v with
    | CheckViolated => SqlxError.MySql 3819 (Some "HY000") "Check constraint is violated."
    | ForeignKeyViolated => SqlxError.MySql 1452 (Some "23000") "a foreign key constraint fails"
    | DatetimeOverflow => SqlxError.MySql 1441 (Some "22008") "Datetime function: overflow"
    end;
  duplicate_text _ := "Duplicate entry";
  key_table := Some "dovecote_events";
  catalog_opens_view _ := false;
  entropy n := Ok (fixed 16 (Z.of_nat n));
  entropy_fuel := 1100;
|}.

#[global] Instance concrete_mysql_laws : MyErrorLaws.
Proof. constructor; [done|done|by intros []|done]. Qed.

(** Nobody else removes or changes an event. *)
Lemma concrete_append_only : append_only.
Proof. by intros n o db Hwf Hv. Qed.

(** ** A server the adapter accepts *)

Definition oracle_mysql : ServerProbe.t :=
  ServerProbe.Make "8.4.2" "MySQL Community Server - GPL" "+00:00" "REPEATABLE-READ"
    "ONLY_FULL_GROUP_BY,STRICT_TRANS_TABLES" "utf8mb4" "utf8mb4" "utf8mb4" "utf8mb4_0900_ai_ci".

#[global] Instance concrete_server : MyServer := {| server_probe _ := oracle_mysql |}.

(** ** The catalog of a fresh installation *)

(** [COLUMN_TYPE] of a column *)
Definition column_type_of (c : ColumnSpec.t) : string :=
  match ColumnSpec.exact_column_type c, ColumnSpec.max c with
  | Some ty, _ => ty
  | None, Some size => ColumnSpec.data_type c +:+ "(" +:+ pretty size +:+ ")"
  | None, None => if bool_decide (ColumnSpec.data_type c = "datetime") then "datetime(6)"
                  else ColumnSpec.data_type c
  end.

Definition column_of (c : ColumnSpec.t) : ColumnInfo.t :=
  ColumnInfo.Make (ColumnSpec.name c) (ColumnSpec.data_type c) (column_type_of c) (ColumnSpec.max c)
    (if ColumnSpec.nullable c then "YES" else "NO") (ColumnSpec.default c)
    (match ColumnSpec.generated c with
     | Some extra => extra
     | None => if ColumnSpec.identity c then "auto_increment" else EmptyString
     end)
    (ColumnSpec.generation_expression c).

Definition installed_columns (table : string) : list ColumnInfo.t :=
  map column_of
    (if bool_decide (table = "dovecote_schema") then marker_columns
     else if bool_decide (table = "dovecote_events") then events_columns
     else if bool_decide (table = "dovecote_deliveries") then deliveries_columns else []).

Definition table_of_check (name : string) : string :=
  if String.prefix "dovecote_events" name then "dovecote_events"
  else if String.prefix "dovecote_deliveries" name then "dovecote_deliveries" else "dovecote_schema".

Definition check_of (clause : string -> option string) (name : string) : CheckInfo.t :=
  CheckInfo.Make name (match clause name with Some text => text | None => EmptyString end).

Definition row_id_trigger (suffix event condition : string) : TriggerInfo.t :=
  TriggerInfo.Make ("dovecote_events_row_id_positive_" +:+ suffix) event "BEFORE" "dovecote_events"
    ("BEGIN IF " +:+ condition +:+ " THEN SIGNAL SQLSTATE '45000' SET MESSAGE_TEXT = "
     +:+ "'dovecote row_id must be positive'; END IF; END").

Definition fresh_catalog : Catalog := {|
  markers := Some [shipped_marker];
  tables_of := map (fun name => TableInfo.Make name (Some "InnoDB") "BASE TABLE")
                 ["dovecote_schema"; "dovecote_events"; "dovecote_deliveries"];
  columns_of := installed_columns;
  extension_collation := Some (Some "utf8mb4_bin");
  constraints_of :=
    map (fun '(table, name, kind) => ConstraintInfo.Make table name kind)
      (("dovecote_schema", "PRIMARY", "PRIMARY KEY") :: required_constraints)
    ++ map (fun name => ConstraintInfo.Make (table_of_check name) name "CHECK")
         (MARKER_CHECK_NAMES ++ CHECK_NAMES);
  checks_of := map (check_of expected_marker_check_clause) MARKER_CHECK_NAMES
               ++ map (check_of expected_check_clause) CHECK_NAMES;
  keys_of :=
    [KeyColumn.Make "dovecote_events_tenant_source_event_id" "identity_key" None None;
     KeyColumn.Make "dovecote_events_tenant_row_unique" "tenant_id" None None;
     KeyColumn.Make "dovecote_events_tenant_row_unique" "row_id" None None;
     KeyColumn.Make "dovecote_deliveries_event_fk" "tenant_id" (Some "dovecote_events") (Some "tenant_id");
     KeyColumn.Make "dovecote_deliveries_event_fk" "event_row_id" (Some "dovecote_events") (Some "row_id")];
  delete_rule := Some "RESTRICT";
  triggers_of := [row_id_trigger "insert" "INSERT" "NEW.row_id < 0";
                  row_id_trigger "update" "UPDATE" "NEW.row_id <= 0 OR NEW.row_id <> OLD.row_id"];
  indexes_of := concat (map index_rows expected_indexes);
|}.

#[global] Instance concrete_my_catalog : MyCatalogEnv := {| catalog _ := fresh_catalog |}.

Definition my_empty : Db := MkDb [] [] ["dovecote_events"; "dovecote_deliveries"].

(** A connection that just began a transaction, and one without. *)
Definition my_fresh_txn : Txn := MkTxn None nothing.
Definition my_in_txn (db : Db) : World := MkWorld db (Some my_fresh_txn) 0 0.
Definition my_no_txn (db : Db) : World := MkWorld db None 0 0.

Definition my_after {A} (default : World) (run : option (A * World)) : World :=
  match run with Some (_, w) => w | None => default end.

Definition my_enqueued : World := Eval vm_compute in
  my_after (my_in_txn my_empty) (enqueue_for_scope "baseline" acme sample_event (my_in_txn my_empty)).
Definition my_pending : Db := Eval vm_compute in committed (my_after my_enqueued (commit my_enqueued)).

(** the steps the scenario's claim is given *)
Definition my_fuel : nat := 20.

Definition my_claim_result := Eval vm_compute in
  claim_for_scope my_fuel (Some acme) worker_one half_minute ten (my_no_txn my_pending).
Definition my_claimed : World := Eval vm_compute in my_after (my_no_txn my_pending) my_claim_result.
Definition my_claims : list ClaimedEvent.t := Eval vm_compute in
  match my_claim_result with Some (Ok evs, _) => evs | _ => [] end.

Lemma my_empty_wf : db_wf my_empty.
Proof. split_and!; constructor. Qed.
Lemma my_pending_wf : db_wf my_pending.
Proof. one_row_wf. Qed.
Lemma my_claimed_wf : db_wf (committed my_claimed).
Proof. one_row_wf. Qed.

Lemma my_in_txn_open db : db_wf db -> open_past (my_in_txn db) my_fresh_txn.
Proof.
  intros Hwf. split; [|done]. split; [done|]. split; [done|]. split; [by destruct db|done].
Qed.

Lemma my_sample_time_portable :
  option_all portable_instant (EventContent.time (NewEvent.content sample_event)).
Proof. by vm_compute. Qed.

Lemma my_claims_some : length my_claims = 1%nat.
Proof. reflexivity. Qed.

(** ** Texts of the server *)

(** A duplicate entry whose own text names the identity key is told from one of it. *)
Definition misleading : string := "Duplicate entry 'x' for key 'dovecote_events_tenant_source_event_id'".

Lemma identity_duplicate_exact_witness :
  is_tenant_source_event_id_duplicate
    (SqlxError.MySql 1062 (Some "23000")
       (misleading +:+ FOR_KEY +:+ "'dovecote_events.dovecote_events_tenant_row_unique'")) = false.
Proof.
  apply not_true_iff_false. intros Hd.
  by apply (identity_duplicate_exact 1062 (Some "23000") misleading (Some "dovecote_events")
              "dovecote_events_tenant_row_unique" ltac:(discriminate)
              ltac:(reflexivity) ltac:(reflexivity) ltac:(reflexivity) ltac:(reflexivity)) in Hd
    as (_ & _ & Hd).
Defined.

Lemma server_version_roundtrip_witness :
  parse_server_version "11.8.2-MariaDB-ubu2404" = Some (ServerVersion.new 11 8 2).
Proof.
  apply (server_version_roundtrip (ServerVersion.new 11 8 2) "-MariaDB-ubu2404");
    [split; discriminate|split; discriminate|split; discriminate|reflexivity].
Defined.

(** Moving a byte from the tenant to the source gives another key. *)
Lemma identity_key_injective_witness :
  identity_key "acme" "/shop" "e-1" <> identity_key "acm" "e/shop" "e-1".
Proof.
  intros He.
  apply (identity_key_injective "acme" "/shop" "e-1" "acm" "e/shop" "e-1") in He;
    [discriminate|vm_compute; discriminate..].
Defined.

Lemma outer_parentheses_nested_witness :
  strip_redundant_outer_parentheses "((a)or(b))" = "(a)or(b)" /\ ~ nested 0 "a)or(b".
Proof.
  destruct (outer_parentheses_nested "(a)or(b)") as (He & Hs & _); [reflexivity|reflexivity|].
  destruct (outer_parentheses_nested "a)or(b") as (He' & _); [reflexivity|reflexivity|]. split.
  - change "((a)or(b))" with ("(" +:+ "(a)or(b)" +:+ ")"). rewrite Hs; [reflexivity|].
    apply He. reflexivity.
  - intros Hn. apply He' in Hn. discriminate Hn.
Defined.

(** ** Claims and mutations *)

Lemma my_idle_closed : closed (my_no_txn my_pending).
Proof. split; [done|exact my_pending_wf]. Qed.

Lemma my_sample_claim :
  claim_for_scope my_fuel (Some acme) worker_one half_minute ten (my_no_txn my_pending)
  = Some (Ok my_claims, my_claimed).
Proof. vm_cast_no_check (eq_refl (Some (@Ok _ ClaimError.t my_claims, my_claimed))). Qed.

Lemma my_concrete_draws k n :
  Z.of_nat (k + n) <= 10000000000000000 -> distinct_draws k n.
Proof.
  intros Hn. exists (fun i => fixed 16 (Z.of_nat i)). split; [done|]. intros i j. by apply fixed_draws.
Qed.

Lemma my_claim_outcomes_witness :
  (exists n, forall fuel, (n < fuel)%nat ->
     is_Some (claim_for_scope fuel (Some acme) worker_one half_minute ten (my_no_txn my_pending))) /\
  closed my_claimed /\
  claimed_on (Some acme) worker_one half_minute ten (my_no_txn my_pending) my_claims
    (committed my_claimed).
Proof.
  destruct (my_claim_outcomes (Some acme) worker_one half_minute ten (my_no_txn my_pending)
              concrete_isolated my_idle_closed) as [Hret Hrun].
  split; [|exact (Hrun _ _ _ my_sample_claim)].
  apply Hret; [|vm_compute; lia].
  apply (my_concrete_draws 0). apply Z.leb_le. vm_compute. reflexivity.
Defined.

Definition my_row_one : RowId.t := RowId.Make 1.
Definition my_token : ClaimToken.t := token_of my_claims.


(** A token that another worker holds is refused. *)
Lemma my_mutation_lost_example :
  option_map (fun run => (run.1, committed run.2))
    (mutate None my_row_one (ClaimToken.Make "0123456789abcdef") Mutation.Ack my_claimed)
  = Some (Err MutationError.LostClaim, committed my_claimed).
Proof. vm_compute. reflexivity. Qed.

(** ** A caller's transaction *)

Lemma my_enqueue_outcomes_witness :
  my_enqueue_effect acme sample_event (my_in_txn my_empty) my_fresh_txn
    (Ok (EnqueueOutcome.Enqueued my_row_one)) my_enqueued.
Proof.
  destruct (my_enqueue_outcomes "baseline" acme sample_event concrete_isolated concrete_append_only
              my_sample_time_portable (my_in_txn my_empty) my_fresh_txn
              (my_in_txn_open _ my_empty_wf)) as (r & w' & Hr & He).
  assert (Hrun : enqueue_for_scope "baseline" acme sample_event (my_in_txn my_empty)
                 = Some (Ok (EnqueueOutcome.Enqueued my_row_one), my_enqueued)) by evaluate.
  rewrite Hrun in Hr. injection Hr as <- <-. exact He.
Defined.

Lemma my_import_outcomes_witness :
  exists w', import_for_scope "baseline" acme sample_event ImportedDeliveryState.Pending
               (my_in_txn my_empty)
             = Some (Ok (ImportOutcome.Imported my_row_one), w') /\
    my_import_effect acme sample_event ImportedDeliveryState.Pending (my_in_txn my_empty) my_fresh_txn
      (Ok (ImportOutcome.Imported my_row_one)) w'.
Proof.
  destruct (my_import_outcomes "baseline" acme sample_event ImportedDeliveryState.Pending
              concrete_isolated concrete_append_only my_sample_time_portable (my_in_txn my_empty)
              my_fresh_txn (my_in_txn_open _ my_empty_wf)) as (r & w' & Hr & He).
  assert (Hid : option_map fst (import_for_scope "baseline" acme sample_event
                  ImportedDeliveryState.Pending (my_in_txn my_empty))
                = Some (Ok (ImportOutcome.Imported my_row_one))) by (vm_compute; reflexivity).
  rewrite Hr in Hid. injection Hid as ->. exists w'. exact (conj Hr He).
Defined.

Definition my_delivered_at : OffsetDateTime := at_nanos 1700000001000000000 0.

Lemma my_finalize_outcomes_witness :
  exists w', finalize_for_scope "baseline" acme my_row_one my_delivered_at (my_in_txn my_pending)
             = Some (Ok (FinalizeOutcome.Finalized my_row_one), w') /\
    my_finalize_effect acme my_row_one my_delivered_at (my_in_txn my_pending) my_fresh_txn
      (Ok (FinalizeOutcome.Finalized my_row_one)) w'.
Proof.
  destruct (my_finalize_outcomes "baseline" acme my_row_one my_delivered_at concrete_isolated
              concrete_append_only (my_in_txn my_pending) my_fresh_txn
              (my_in_txn_open _ my_pending_wf)) as (r & w' & Hr & He).
  assert (Hid : option_map fst (finalize_for_scope "baseline" acme my_row_one my_delivered_at
                  (my_in_txn my_pending))
                = Some (Ok (FinalizeOutcome.Finalized my_row_one))) by (vm_compute; reflexivity).
  rewrite Hr in Hid. injection Hid as ->. exists w'. exact (conj Hr He).
Defined.

(** ** Schema, pages, handles *)


Definition my_pager_run := Eval vm_compute in
  begin_snapshot_for_scope (Some acme) (my_no_txn my_pending).
Definition my_pager_world : World := Eval vm_compute in my_after (my_no_txn my_pending) my_pager_run.
Definition my_pager : SnapshotPager.t := Eval vm_compute in
  match my_pager_run with Some (Ok pager, _) => pager | _ => SnapshotPager.Make None None true None end.

Lemma my_sample_snapshot :
  begin_snapshot_for_scope (Some acme) (my_no_txn my_pending) = Some (Ok my_pager, my_pager_world).
Proof. vm_cast_no_check (eq_refl (Some (@Ok _ PageError.t my_pager, my_pager_world))). Qed.

Lemma my_ten_positive : Forall (fun l => 0 < Limit.get l) [ten; ten].
Proof. by repeat constructor. Qed.

Lemma my_pages_witness :
  exists db r pager' w1, db = my_pending /\
    drain next_page [ten; ten] my_pager my_pager_world = Some ((Ok r, pager'), w1) /\
    Forall2 (hydrated db) (take (length r) (scope (Some "acme") db)) r /\
    SnapshotPager.is_exhausted pager' = true.
Proof.
  destruct (my_pages concrete_isolated (Some acme) (my_no_txn my_pending) my_idle_closed)
    as (_ & _ & Hsnap).
  destruct (Hsnap my_pager my_pager_world [ten; ten] my_sample_snapshot my_ten_positive)
    as (db & r & pager' & w1 & Hd & _ & _ & Hr & _ & _ & Hx).
  apply during_concrete in Hd. change (committed (my_no_txn my_pending)) with my_pending in Hd. subst db.
  assert (Hid : option_map (fun run => match run.1.1 with Ok _ => true | Err _ => false end)
                  (drain next_page [ten; ten] my_pager my_pager_world) = Some true)
    by (vm_compute; reflexivity).
  rewrite Hr in Hid. destruct r as [rows|e]; [|discriminate Hid].
  destruct Hx as (Hf & _ & Hend). exists my_pending, rows, pager', w1.
  split; [reflexivity|]. split; [exact Hr|]. split; [exact Hf|]. apply Hend. vm_compute. lia.
Defined.

Lemma my_tenant_isolation_witness :
  confined (TenantId.as_str acme) my_pending (committed my_claimed) /\
  Forall (of_tenant (TenantDovecote.Make acme)) my_claims.
Proof.
  destruct (my_tenant_isolation "baseline" (TenantDovecote.Make acme) concrete_isolated
              concrete_append_only (my_no_txn my_pending)) as [Hx _].
  destruct (Hx my_idle_closed) as [Hclaim _].
  exact (Hclaim my_fuel worker_one half_minute ten _ _ my_sample_claim).
Defined.

(** ** Other connections that commit meanwhile *)

Section Busy.
(** The environment of before, but another connection enqueues an event at the
    first statement after START TRANSACTION. *)
#[local] Instance my_busy_others : Others := polite_others busy_script.
#[local] Instance busy_mysql : MyEnv := {|
  sql_fault _ := None;
  commit_fault _ := None;
  utc_timestamp n := 1700000000000000 + 1000 * Z.of_nat n;
  auto_increment _ db := fold_max (event_keys db) + 1;
  violation v := @violation _ _ concrete_others concrete_mysql v;
  duplicate_text _ := "Duplicate entry";
  key_table := Some "dovecote_events";
  catalog_opens_view _ := false;
  entropy n := Ok (fixed 16 (Z.of_nat n));
  entropy_fuel := 1100;
|}.

#[local] Instance busy_mysql_laws : MyErrorLaws.
Proof. constructor; [done|done|by intros []|done]. Qed.

Definition my_busy_begun : World := Eval vm_compute in
  my_after (my_no_txn my_empty) (begin_statement false (my_no_txn my_empty)).
Definition my_busy_enqueued : World := Eval vm_compute in
  my_after my_busy_begun (enqueue_for_scope "baseline" acme sample_event my_busy_begun).
Definition my_busy_committed : World := Eval vm_compute in
  my_after my_busy_enqueued (commit my_busy_enqueued).
Definition my_busy_answer : answer := AnswerEnqueue (EnqueueOutcome.Enqueued (RowId.Make 3)).

Lemma my_busy_begin : begin_statement false (my_no_txn my_empty) = Some (Ok tt, my_busy_begun).
Proof. vm_cast_no_check (eq_refl (Some (@Ok _ SqlxError.t tt, my_busy_begun))). Qed.
Lemma my_busy_enqueue :
  enqueue_for_scope "baseline" acme sample_event my_busy_begun
  = Some (Ok (EnqueueOutcome.Enqueued (RowId.Make 3)), my_busy_enqueued).
Proof.
  vm_cast_no_check
    (eq_refl (Some (@Ok _ EnqueueError.t (EnqueueOutcome.Enqueued (RowId.Make 3)), my_busy_enqueued))).
Qed.
Lemma my_busy_commit : commit my_busy_enqueued = Some (Ok tt, my_busy_committed).
Proof. vm_cast_no_check (eq_refl (Some (@Ok _ SqlxError.t tt, my_busy_committed))). Qed.

End Busy.
